(* ===== verification/_CoqProject ===== *)
-Q . S2P
Prelude.v
RustStr.v
SocketAddr.v
Format.v
Routing.v
Config.v
Layers.v
Dump.v
TpmEnv.v
ConfigTypes.v
Labels.v
Discovery.v
LiveTable.v
DiscoverySystem.v
Float.v
Metrics.v
Exposition.v
DumpSpec.v
Http.v
Ws.v
WsSpec.v
Proxy.v
ProxySpec.v
Router.v
Flight.v
Wire.v
Client.v
EndToEnd.v
Attestation.v
Tls.v
Acme.v
AcmeSpec.v
Responder.v
Messages.v
Renewal.v
Startup.v
Secrecy.v
Process.v
TestsDiscovery.v
TestsConfig.v
TestsAcme.v
TestsServer.v
TestsE2e.v
