(* ===== verification/Prelude.v ===== *)
(** * archetype-proxy-server: verification library

    The program ([src/src]) is a reverse proxy that terminates attested
    sessions.  At start it resolves a layered configuration, checks that it
    may run with the attestation it got, and opens a listener.  A client
    performs an attested handshake and then sends sealed requests: the proxy
    opens a request, selects an upstream from a live route table by host and
    path, forwards the call and streams the sealed response back.  A
    WebSocket upgrade is bridged frame by frame instead.  Discovery tasks
    watch Docker and Kubernetes and feed the route table; counters are
    exposed as metrics.

    ** Files

    - [Prelude]: results and early returns ([Result], [?]), machine widths,
      stable sorting ([sort_by_key]), ordered maps ([BTreeMap]), tactics.
    - [RustStr], [SocketAddr], [Float], [Format]: what the sources use of
      Rust's [str], integer and address parsing, UTF-8, [f64] and the
      formatting of numbers, strings and addresses.
    - [Routing]: routes, matching, specificity and the sorted table
      ([config.rs], [Route], [RouteTable]).
    - [Config]: the textual kinds, the TLS and ACME blocks and their
      validation, the resolved static configuration ([config.rs]).
    - [Layers]: the file, environment and command-line layers, their readers,
      [resolve_layers], [validate] and [load] ([config.rs]).  [TpmEnv]: the
      TPM policy in the environment, and a concrete instance of the parsers.
      [ConfigTypes]: the machine ranges of what [load] returns.
    - [Dump]: the text of [Config::dump] ([config.rs]).  [DumpSpec]: a reader
      of that text, and what it reads.
    - [Labels]: container labels and object annotations to routes
      ([discovery/labels.rs], [discovery/k8s.rs]).
    - [Discovery]: the route manager, the Docker poll loop and the Kubernetes
      watch loop as step functions, one Module each ([discovery/]).
      [LiveTable]: the interface between a provider and the manager and the
      theorems about the live table.  [DiscoverySystem]: the tasks, the bounded
      channel of [main] and the manager as one transition system.
    - [Metrics]: the counters, the histogram and the text exposition
      ([metrics.rs]).  [Exposition]: a scraper that reads the text back.
    - [Http]: requests and the interfaces of the HTTP and OpenHTTPA
      libraries.
    - [Ws], [WsSpec]: the WebSocket upgrade, the frame codec and the bridge,
      and their theorems ([ws.rs]).
    - [Proxy], [ProxySpec]: the trusted-request extractor, the handler, header
      stripping and streaming, and their theorems ([proxy.rs],
      [envelope.rs]).  [Router]: the route tree of [build_router] with its
      layers and what it answers.  [Flight]: the router's work on a request as
      the steps between its awaits.
    - [Wire]: the wire form of response frames ([envelope.rs]).  [Client]: the
      client of the repository, which seals a request and decodes the sealed
      stream ([tests/frame_helper/mod.rs]).  [EndToEnd]: the client and the
      router composed over a network.
    - [Attestation]: the startup guard, provider and verifier selection
      ([attestation.rs]).
    - [Tls]: certificate loading, the static and the swappable certificate
      resolver, the listener's protocols ([tls.rs]).
    - [Acme], [AcmeSpec]: challenge responses, the token store, the two
      DNS-01 providers, the cache, issuance, renewal and [setup_acme], and
      their theorems ([acme.rs], [main.rs]).  [Responder]: the HTTP-01
      responder of [main.rs].  [Renewal]: the renewal loop against the clock.
    - [Messages]: the texts of errors and warnings.
    - [Startup]: flags, the start sequence, and a started process composed with
      the discovery system and the router ([cli.rs], [main.rs]).  [Secrecy]:
      what a start reveals of the verifier's key.
    - [Process]: the running process as one transition system: discovery,
      requests in flight and WebSocket bridges in any interleaving.
    - [TestsDiscovery], [TestsConfig], [TestsAcme], [TestsServer],
      [TestsE2e]: the repository's unit and end-to-end tests, replayed on the
      definitions.

    ** How the code is modelled

    Pure functions are functions.  A fallible function returns [result E A]
    with the errors as constructors; [Messages] has the texts of those of
    discovery, the configuration, attestation, TLS and DNS.  Mutable locals of
    a loop are the fields of a state record, an iteration is a step function
    over what the environment answers in it, and a run is a fold of the step
    over a list of answers: every theorem about a run quantifies over all such
    lists, so no fuel bounds it.  Concurrent tasks appear as interleavings: of
    the two providers' updates at the manager, of the two directions of a
    bridge, of the calls on the metrics.  The discovery tasks with their
    channel of 16 places are an inductive step relation, in which a task waits
    while the channel is full; [Process] interleaves them with the requests in
    flight and with the events of the open bridges.  The router is a function
    of a request and of the moment it arrives at: the live table, the session
    registry, the upstream and what the layers of the SDK decide.  [Flight]
    cuts that function at its awaits: a request begins when its handler loads
    the table, makes at most one call on the metrics in a step, and can be
    dropped where it waits; uninterrupted, the steps compose to the function.  ACME is a state and error
    monad ([Acme.eff]) over the shared state and the outside world, in which
    an early return keeps the state it reached.  Bytes are integers in a list;
    a [usize] or [u64] is a [Z] whose saturation or wrap-around is written
    out.

    Third-party code is a parameter: the operations of the classes
    [ConfigExt], [UnicodeTables], [HttpLib], [Crypto], [WsSdk], [ProxySdk],
    [RouterSdk], [WireLib], [ClientSdk], [Network], [TlsLib], [AcmeLib],
    [PathMatch] and [ConfigTexts].  What a theorem needs of them is a named
    hypothesis or a class of laws ([HexLaws], [ParserLaws], [CryptoLaws],
    [ClientLog], [keys_law], [AxumLaws], [PathLaws], [WireLaws],
    [EndToEndLaws], [FsLaws], [ClockLaws], [CacheLaws]), each with a concrete instance.
    Fuel occurs only in the white-space trimming, the float rendering, the
    digits of a number and the client's loop over the frames; the string's
    length, the range of exponents, the number's size and the number of bytes
    bound them ([decode_loop_fuel]).

    ** What the theorems show

    - Routing: selection returns the first most specific matching route, the
      documented precedence, segment-wise prefix matching, the uniqueness of
      the table's order.
    - Configuration: precedence and provenance of every field, round trips of
      the textual kinds, of the TPM variables and of socket addresses,
      fail-closed TPM policies, exactly one certificate source; the printed
      configuration reads back as what is in force and shows no secret.
    - Discovery: the label parser equals a reference definition; each task's
      last update is its current view, whatever failed on the way; the
      Kubernetes stores refine the cluster; the live table is the merge of
      all views for every interleaving.  With the bounded channel the table is
      never torn between snapshots and never goes back to an older one, and the
      settled table is the merge of what the tasks have seen.
    - WebSocket: what reaches the upstream is a subsequence of what the client
      sealed; what the upstream sent decodes at the client; caps and
      fail-closed errors; URLs and the upgrade decision.
    - Proxy: only authenticated requests are handled, by the data the MAC
      covers; caps in both directions; exact header stripping; the decision
      table and the metrics of the handler; the router's counters, its open
      endpoints, and no upstream call without an authenticated request.
    - End to end: after a handshake the client gets exactly the status, the
      end-to-end headers and the whole body of the upstream that the live
      table selects, or a sealed error, or a broken stream, never a shortened
      body; a network can make it accept only a prefix of the frames that the
      proxy sealed.
    - Attestation and startup: no mock attestation in release without the
      escape hatch and none unannounced, no plaintext fallback, a certificate
      behind every TLS listener, flags that win, upstream calls only to routes
      of the file or of an enabled provider, and a start that does not depend
      on the verifier's key except in what the verifier gets.
    - The running process: every bridge belongs to a live session, leads to a
      route the process was given and forwards only what its client sealed;
      requests see the routes only move forward; the metrics count the calls
      that are answered, in flight and dropped, and a scraper reads them back
      from the text.
    - TLS and ACME: ordinary and validation handshakes never mix; a challenge
      is announced only when its response is in place (for DNS-01: published
      by the hook or at Cloudflare), the authority's HTTP request for it is
      answered, and once the set-up has succeeded the responses are removed,
      the DNS cleanup included, before issuance returns; a failed issuance or
      renewal leaves the certificate in force, a successful one survives a
      restart; the certificate in force does not expire while the authority
      refuses for less than 30 days and what it delivers can be installed.
      Two examples show where the code falls short: an early return of the
      set-up keeps a published token, and a cached certificate that was never
      installed stops renewal.
    - The tests: 106 of the repository's 110 unit tests and the end-to-end
      tests of the proxy and of the TLS listener hold of the definitions; the
      other four unit tests only exercise the TOML parser or clap.

    ** Not modelled

    The bind calls of the main listeners and the panic that follows their
    failure, the serde and clap code that macros generate, log lines other than
    the security warnings, the handshake router and the attestation layer of
    the SDK, the integration tests of the session registry and of the TPM, and
    the network and cryptographic libraries. *)

From stdpp Require Export prelude gmap strings sorting pretty.
From Stdlib Require Export Ascii.

(** ** The result type of fallible code *)

(** Rust's [Result<A, E>]. *)
Inductive result (E A : Type) : Type :=
| Ok (a : A)
| Err (e : E).
Arguments Ok {E A} a.
Arguments Err {E A} e.

#[export] Instance result_ret {E} : MRet (result E) := λ A a, Ok a.
#[export] Instance result_bind {E} : MBind (result E) := λ A B f r,
  match r with Ok a => f a | Err e => Err e end.
#[export] Instance result_fmap {E} : FMap (result E) := λ A B f r,
  match r with Ok a => Ok (f a) | Err e => Err e end.

(** [Result::map_err]. *)
Definition map_err {E F A} (f : E → F) (r : result E A) : result F A :=
  match r with Ok a => Ok a | Err e => Err (f e) end.

(** [Option::ok_or_else]. *)
Definition ok_or {E A} (e : E) (o : option A) : result E A :=
  match o with Some a => Ok a | None => Err e end.

(** [Result::ok]. *)
Definition result_ok {E A} (r : result E A) : option A :=
  match r with Ok a => Some a | Err _ => None end.

Definition is_ok {E A} (r : result E A) : bool :=
  match r with Ok _ => true | Err _ => false end.

(** [Option::or]. *)
Definition option_or {A} (o1 o2 : option A) : option A :=
  match o1 with Some a => Some a | None => o2 end.

(** [Option::filter]. *)
Definition option_filter {A} (f : A → bool) (o : option A) : option A :=
  match o with Some a => if f a then Some a else None | None => None end.

(** A loop whose body may return early with [?]: the items in order, the
    first error ends it. *)
Fixpoint try_fold {E A B} (f : B → A → result E B) (acc : B) (l : list A)
  : result E B :=
  match l with
  | [] => Ok acc
  | x :: l => acc' ← f acc x; try_fold f acc' l
  end.

Lemma result_bind_Ok {E A B} (r : result E A) (f : A → result E B) b :
  r ≫= f = Ok b ↔ ∃ a, r = Ok a ∧ f a = Ok b.
Proof. destruct r; cbv [mbind result_bind]; naive_solver. Qed.

Lemma result_bind_Err {E A B} (r : result E A) (f : A → result E B) e :
  r ≫= f = Err e ↔ r = Err e ∨ ∃ a, r = Ok a ∧ f a = Err e.
Proof. destruct r; cbv [mbind result_bind]; naive_solver. Qed.

Lemma map_err_Ok {E F A} (f : E → F) (r : result E A) a :
  map_err f r = Ok a ↔ r = Ok a.
Proof. destruct r; simpl; naive_solver. Qed.

Lemma result_ok_Some {E A} (r : result E A) a : result_ok r = Some a ↔ r = Ok a.
Proof. by destruct r; simpl; split; intros [= ->]. Qed.

Lemma ok_or_Ok {E A} (e : E) (o : option A) a : ok_or e o = Ok a ↔ o = Some a.
Proof. destruct o; simpl; naive_solver. Qed.

Lemma try_fold_Ok_inv {E A B} (f : B → A → result E B) (P : B → Prop) acc l out :
  try_fold f acc l = Ok out → P acc →
  (∀ b a b', a ∈ l → P b → f b a = Ok b' → P b') → P out.
Proof.
  revert acc. induction l as [|a l IH]; intros acc Hf Hacc Hstep; simpl in Hf; [by simplify_eq|].
  apply result_bind_Ok in Hf as (b&Hb&Hf). eapply IH; [exact Hf| |].
  - eapply Hstep; [left|exact Hacc|exact Hb].
  - intros b1 a1 b2 Hin. apply Hstep. by right.
Qed.

Lemma try_fold_Ok_elem {E A B} (f : B → A → result E B) acc l out a :
  try_fold f acc l = Ok out → a ∈ l → ∃ b b', f b a = Ok b'.
Proof.
  revert acc. induction l as [|x l IH]; intros acc Hf Hin; simpl in Hf; [by apply elem_of_nil in Hin|].
  apply result_bind_Ok in Hf as (b&Hb&Hf).
  apply elem_of_cons in Hin as [->|Hin]; eauto.
Qed.

(** ** Machine integers

    A [usize] or [u64] is a [Z] in [0, 2^64); the target is 64-bit. *)

Definition u64_max : Z := 2 ^ 64 - 1.
Definition usize_max : Z := 2 ^ 64 - 1.
Definition u32_max : Z := 2 ^ 32 - 1.
Definition u16_max : Z := 2 ^ 16 - 1.

(** [AtomicU64::fetch_add] and [+] in release mode wrap. *)
Definition wrap64 (z : Z) : Z := z mod 2 ^ 64.

Definition saturating_add (a b : Z) : Z := Z.min (a + b) usize_max.
Definition saturating_mul (a b : Z) : Z := Z.min (a * b) usize_max.

(** ** Lists *)

(** A split of a filtered list comes from a split of the list. *)
Lemma filter_app_cons_inv {A} (f : A → bool) l l1 x l2 :
  List.filter f l = l1 ++ x :: l2 ↔
  ∃ a b, l = a ++ x :: b ∧ f x = true ∧ List.filter f a = l1 ∧ List.filter f b = l2.
Proof.
  split.
  - revert l1. induction l as [|y l IH]; intros l1 Heq; simpl in Heq.
    { by destruct l1. }
    destruct (f y) eqn:Hy.
    + destruct l1 as [|z l1]; injection Heq as <- Heq.
      * by exists [], l.
      * destruct (IH _ Heq) as (a&b&->&?&<-&?). exists (y :: a), b. simpl. by rewrite Hy.
    + destruct (IH _ Heq) as (a&b&->&?&<-&?). exists (y :: a), b. simpl. by rewrite Hy.
  - intros (a&b&->&Hx&<-&<-). rewrite List.filter_app. simpl. by rewrite Hx.
Qed.

Lemma Forall_List_filter {A} (P : A → Prop) (f : A → bool) l :
  Forall P (List.filter f l) ↔ ∀ x, x ∈ l → f x = true → P x.
Proof.
  rewrite Forall_forall. setoid_rewrite list_elem_of_In. setoid_rewrite filter_In. naive_solver.
Qed.

Lemma StronglySorted_snoc {A} (R : relation A) l x :
  StronglySorted R l → Forall (λ y, R y x) l → StronglySorted R (l ++ [x]).
Proof.
  induction 1 as [|y l Hl IH Hy]; simpl; intros Hx; [by repeat constructor|].
  apply Forall_cons in Hx as [Hyx Hx]. constructor; [by apply IH|].
  apply Forall_app. split; [done|by repeat constructor].
Qed.

(** ** Stable sorting

    [slice::sort_by_key] is a stable sort.  [ge x y] says that [x] may stand
    before [y]; equal keys keep their order. *)
Section stable_sort.
Context {A : Type} (ge : A → A → bool).

Fixpoint sort_insert (x : A) (l : list A) : list A :=
  match l with
  | [] => [x]
  | y :: l' => if ge x y then x :: l else y :: sort_insert x l'
  end.

Definition stable_sort (l : list A) : list A := foldr sort_insert [] l.

(** The first of the greatest elements: the specification of selection. *)
Fixpoint first_max (l : list A) : option A :=
  match l with
  | [] => None
  | x :: l' =>
      match first_max l' with
      | Some y => if ge x y then Some x else Some y
      | None => Some x
      end
  end.

Lemma sort_insert_perm x l : sort_insert x l ≡ₚ x :: l.
Proof.
  induction l as [|y l IH]; simpl; [done|].
  destruct (ge x y); [done|]. rewrite IH. apply Permutation_swap.
Qed.

Lemma stable_sort_perm l : stable_sort l ≡ₚ l.
Proof. induction l as [|x l IH]; simpl; [done|]. by rewrite sort_insert_perm, IH. Qed.

Context (ge_total : ∀ x y, ge x y = true ∨ ge y x = true).
Context (ge_trans : ∀ x y z, ge x y = true → ge y z = true → ge x z = true).

Local Abbreviation R := (λ x y, ge x y = true).

Lemma sort_insert_sorted x l :
  StronglySorted R l → StronglySorted R (sort_insert x l).
Proof.
  induction 1 as [|y l Hs IH Hy]; simpl; [repeat constructor|].
  destruct (ge x y) eqn:Hxy.
  - constructor; [by constructor|]. constructor; [done|].
    eapply Forall_impl; [exact Hy|]. simpl; eauto.
  - constructor; [done|]. rewrite sort_insert_perm. constructor; [|done].
    destruct (ge_total x y); congruence.
Qed.

Lemma stable_sort_sorted l : StronglySorted R (stable_sort l).
Proof. induction l; simpl; [constructor|]. by apply sort_insert_sorted. Qed.

(** Searching a sorted list for the first hit finds the greatest hit. *)
Lemma find_sort_insert f x l :
  StronglySorted R l →
  List.find f (sort_insert x l) =
    if f x
    then match List.find f l with
         | Some y => if ge x y then Some x else Some y
         | None => Some x
         end
    else List.find f l.
Proof.
  induction 1 as [|y l Hs IH Hy]; simpl; [done|].
  destruct (ge x y) eqn:Hxy; simpl.
  - destruct (f x); [|done]. destruct (f y); [by rewrite Hxy|].
    destruct (List.find f l) as [z|] eqn:Hz; [|done].
    apply List.find_some in Hz as [Hz _].
    rewrite Forall_forall in Hy. apply list_elem_of_In, Hy in Hz.
    by rewrite (ge_trans x y z).
  - rewrite IH. destruct (f y) eqn:Hfy; [|done].
    destruct (f x); [by rewrite Hxy|done].
Qed.

Lemma find_stable_sort f l :
  List.find f (stable_sort l) = first_max (List.filter f l).
Proof.
  induction l as [|x l IH]; simpl; [done|].
  rewrite find_sort_insert by apply stable_sort_sorted. rewrite IH.
  by destruct (f x).
Qed.

(** What [first_max] returns. *)
Lemma first_max_None l : first_max l = None ↔ l = [].
Proof. destruct l; simpl; repeat case_match; naive_solver. Qed.

Lemma first_max_Some l m :
  first_max l = Some m ↔
  ∃ l1 l2, l = l1 ++ m :: l2 ∧
    Forall (λ x, ge x m = false) l1 ∧ Forall (λ x, ge m x = true) l2.
Proof.
  assert (Hrefl : ∀ x, ge x x = true) by (intros x; by destruct (ge_total x x)).
  revert m. induction l as [|x l IH]; intros m; simpl.
  { split; [done|]. intros (l1&?&Heq&_). by destruct l1. }
  destruct (first_max l) as [y|] eqn:Hl.
  - destruct (proj1 (IH y) eq_refl) as (a&b&->&Ha&Hb).
    assert (Hall : ge x y = true → Forall (λ z, ge x z = true) (a ++ y :: b)).
    { intros Hxy. rewrite Forall_app, Forall_cons. split_and!; [|done|].
      - eapply Forall_impl; [exact Ha|]. simpl. intros z Hz.
        destruct (ge_total z y) as [|Hyz]; [congruence|]. eauto.
      - eapply Forall_impl; [exact Hb|]. simpl. eauto. }
    destruct (ge x y) eqn:Hxy; split.
    + intros [= <-]. exists [], (a ++ y :: b). split_and!; auto.
    + intros (l1&l2&Heq&H1&H2). destruct l1 as [|z l1]; [by simplify_eq/=|].
      injection Heq as <- Heq. apply Forall_cons in H1 as [Hzm H1].
      assert (m ∈ a ++ y :: b) as Hm by (rewrite Heq; set_solver).
      rewrite Forall_forall in Hall. by rewrite Hall in Hzm.
    + intros [= <-]. exists (x :: a), b. split_and!; auto.
    + intros (l1&l2&Heq&H1&H2). destruct l1 as [|z l1]; injection Heq as <- Heq.
      * rewrite <-Heq in H2. apply Forall_app in H2 as [_ [H2 _]%Forall_cons]. congruence.
      * apply Forall_cons in H1 as [_ H1]. apply (IH m). eauto.
  - apply first_max_None in Hl as ->. split.
    + intros [= <-]. exists [], []. auto.
    + intros (l1&l2&Heq&H1&H2). destruct l1; simplify_list_eq; [done|].
      by destruct l1.
Qed.

(** Stability: elements of equal rank keep their order. *)
Lemma filter_sort_insert x l z :
  List.filter (λ y, ge y z && ge z y) (sort_insert x l) =
  List.filter (λ y, ge y z && ge z y) (x :: l).
Proof.
  induction l as [|y l IH]; [done|]. simpl sort_insert.
  destruct (ge x y) eqn:Hxy; [done|]. simpl in IH |- *. rewrite IH.
  destruct (ge x z && ge z x) eqn:Hx; [|done].
  destruct (ge y z && ge z y) eqn:Hy; [|done].
  apply andb_true_iff in Hx as [Hx _], Hy as [_ Hy].
  by rewrite (ge_trans x z y) in Hxy.
Qed.

Lemma filter_stable_sort l z :
  List.filter (λ y, ge y z && ge z y) (stable_sort l) =
  List.filter (λ y, ge y z && ge z y) l.
Proof.
  induction l as [|x l IH]; [done|]. simpl stable_sort.
  rewrite filter_sort_insert. simpl. by rewrite IH.
Qed.

(** The sorted order is the only one a stable sort may return. *)
Lemma stable_sorted_unique l1 l2 :
  StronglySorted R l1 → StronglySorted R l2 →
  (∀ z, List.filter (λ x, ge x z && ge z x) l1 = List.filter (λ x, ge x z && ge z x) l2) →
  l1 = l2.
Proof.
  assert (Hrefl : ∀ x, ge x x = true) by (intros x; by destruct (ge_total x x)).
  intros H1. revert l2. induction H1 as [|x l1 Hs IH Hx]; intros l2 H2 Hf.
  { destruct l2 as [|y l2]; [done|]. specialize (Hf y). simpl in Hf.
    by rewrite Hrefl in Hf. }
  destruct l2 as [|y l2].
  { specialize (Hf x). simpl in Hf. by rewrite Hrefl in Hf. }
  apply StronglySorted_cons in H2 as [Hy H2].
  assert (∀ z l, z ∈ l → z ∈ List.filter (λ x, ge x z && ge z x) l) as Hin.
  { intros z l Hz%list_elem_of_In. apply list_elem_of_In, filter_In.
    by rewrite Hrefl. }
  assert (x ∈ y :: l2) as Hx2.
  { pose proof (Hin x (x :: l1) ltac:(left)) as Hi. rewrite Hf in Hi.
    apply list_elem_of_In, filter_In in Hi as [Hi _]. by apply list_elem_of_In. }
  assert (y ∈ x :: l1) as Hy1.
  { pose proof (Hin y (y :: l2) ltac:(left)) as Hi. rewrite <-Hf in Hi.
    apply list_elem_of_In, filter_In in Hi as [Hi _]. by apply list_elem_of_In. }
  rewrite Forall_forall in Hx, Hy.
  assert (ge x y = true) as Hxy by (apply elem_of_cons in Hy1 as [->|?]; auto).
  assert (ge y x = true) as Hyx by (apply elem_of_cons in Hx2 as [->|?]; auto).
  assert (x = y) as <-.
  { specialize (Hf x). simpl in Hf. rewrite Hxy, Hyx, Hrefl in Hf. by simplify_eq/=. }
  f_equal. apply IH; [done|]. intros z. specialize (Hf z). simpl in Hf.
  by destruct (ge x z && ge z x); simplify_eq/=.
Qed.

End stable_sort.

(** ** Ordered maps

    A Rust [BTreeMap<K, V>] is a [gmap K V] together with its iteration in
    ascending key order; a [HashMap] is a [gmap] that is never iterated. *)
Section btree.
Context {K : Type} `{Countable K} {V : Type} (R : relation K).
Context `{!RelDecision R, !Transitive R, !Total R, !AntiSymm (=) R}.

Definition key_le : relation (K * V) := λ p q, R p.1 q.1.

#[global] Instance key_le_dec : RelDecision key_le.
Proof. intros p q. unfold key_le. apply _. Defined.

#[global] Instance key_le_trans : Transitive key_le.
Proof. intros p q r. unfold key_le. apply transitivity. Qed.

#[global] Instance key_le_total : Total key_le.
Proof. intros p q. apply (total R). Qed.

(** [BTreeMap::iter]. *)
Definition btree_iter (m : gmap K V) : list (K * V) :=
  merge_sort key_le (map_to_list m).

(** [BTreeMap::values]. *)
Definition btree_values (m : gmap K V) : list V := (btree_iter m).*2.

Lemma btree_iter_perm m : btree_iter m ≡ₚ map_to_list m.
Proof. apply merge_sort_Permutation. Qed.

Lemma elem_of_btree_iter m k v : (k, v) ∈ btree_iter m ↔ m !! k = Some v.
Proof. by rewrite btree_iter_perm, elem_of_map_to_list. Qed.

Lemma btree_iter_sorted m : StronglySorted key_le (btree_iter m).
Proof. apply StronglySorted_merge_sort; apply _. Qed.

Lemma btree_iter_NoDup_fst m : NoDup (btree_iter m).*1.
Proof. rewrite btree_iter_perm. apply NoDup_fst_map_to_list. Qed.

Lemma elem_of_btree_values m v : v ∈ btree_values m ↔ ∃ k, m !! k = Some v.
Proof.
  unfold btree_values. rewrite list_elem_of_fmap. split.
  - intros ([k w]&->&Hin). exists k. by apply elem_of_btree_iter.
  - intros [k Hk]. exists (k, v). split; [done|]. by apply elem_of_btree_iter.
Qed.

Lemma btree_iter_empty : btree_iter ∅ = [].
Proof. unfold btree_iter. by rewrite map_to_list_empty. Qed.

(** The iteration is the only ascending enumeration of the map. *)
Lemma btree_iter_unique m l :
  StronglySorted key_le l → NoDup l.*1 →
  (∀ k v, (k, v) ∈ l ↔ m !! k = Some v) → l = btree_iter m.
Proof.
  intros Hs Hnd Hl.
  assert (l ≡ₚ map_to_list m) as Hp.
  { apply NoDup_Permutation; [by eapply NoDup_fmap_1|apply NoDup_map_to_list|].
    intros [k v]. by rewrite Hl, elem_of_map_to_list. }
  assert (l ≡ₚ btree_iter m) as Hp' by (by rewrite btree_iter_perm).
  pose proof (btree_iter_sorted m) as Hs'. revert Hs' Hp'.
  generalize (btree_iter m) as l'. clear Hl Hp.
  induction Hs as [|[k v] l Hs IH Hk]; intros l' Hs' Hp.
  { by apply Permutation_nil_l in Hp. }
  destruct l' as [|[k' v'] l']; [by apply Permutation_nil_r in Hp|].
  apply StronglySorted_cons in Hs' as [Hk' Hs'].
  apply NoDup_cons in Hnd as [Hnin Hnd].
  rewrite Forall_forall in Hk, Hk'.
  assert ((k, v) ∈ (k', v') :: l') as Hin by (rewrite <-Hp; left).
  assert ((k', v') ∈ (k, v) :: l) as Hin' by (rewrite Hp; left).
  assert (k = k') as Hkk.
  { apply elem_of_cons in Hin as [?|Hin%Hk']; [by simplify_eq|].
    apply elem_of_cons in Hin' as [?|Hin'%Hk]; [by simplify_eq|].
    by apply (anti_symm R). }
  subst k'. apply elem_of_cons in Hin' as [?|Hin']; simplify_eq.
  - apply (inj ((k, v) ::.)) in Hp || apply Permutation_cons_inv in Hp.
    f_equal. by apply IH.
  - destruct Hnin. apply list_elem_of_fmap. by exists (k, v').
Qed.

End btree.

(** Mapping the values keeps the order of the keys. *)
Lemma btree_iter_fmap_keys `{Countable K} {V W} (R : relation K)
    `{!RelDecision R, !Transitive R, !Total R, !AntiSymm (=) R} (f : V → W) (m : gmap K V) :
  (btree_iter R (f <$> m)).*1 = (btree_iter R m).*1.
Proof.
  assert (prod_map id f <$> btree_iter R m = btree_iter R (f <$> m)) as <-.
  { apply btree_iter_unique; try apply _.
    - pose proof (btree_iter_sorted R m) as Hs. induction Hs as [|p l Hl IH Hp]; [constructor|].
      constructor; [done|]. apply Forall_fmap. eapply Forall_impl; [exact Hp|]. by intros [].
    - rewrite <-list_fmap_compose. apply btree_iter_NoDup_fst.
    - intros k v. rewrite list_elem_of_fmap, lookup_fmap, fmap_Some. split.
      + intros ([k' v']&[= -> ->]&Hin). exists v'. split; [|done]. by apply (elem_of_btree_iter R).
      + intros (v'&Hk&->). exists (k, v'). split; [done|]. by apply (elem_of_btree_iter R). }
  by rewrite <-list_fmap_compose.
Qed.

(** Inserting pairs of distinct keys one after the other. *)
Lemma foldl_insert_lookup `{Countable K} {V} (l : list (K * V)) (m : gmap K V) k v :
  NoDup l.*1 → (∀ x, x ∈ l.*1 → m !! x = None) →
  foldl (λ p '(f, s), <[f := s]> p) m l !! k = Some v ↔ (k, v) ∈ l ∨ m !! k = Some v.
Proof.
  revert m. induction l as [|[f s] l IH]; intros m Hnd Hm; simpl; [set_solver|].
  apply NoDup_cons in Hnd as [Hf Hnd]. rewrite IH; [|done|].
  - rewrite elem_of_cons, lookup_insert_Some.
    destruct (decide (f = k)) as [->|]; [|naive_solver].
    rewrite (Hm k) by set_solver. naive_solver.
  - intros x Hx. rewrite lookup_insert_ne; [set_solver|]. by intros ->.
Qed.

Abbreviation btree_iter_str := (btree_iter String.le).
Abbreviation btree_values_str := (btree_values String.le).

(** ** Automation *)

Create HintDb proxy.
#[export] Hint Resolve elem_of_btree_iter elem_of_btree_values : proxy.

(** Destruct the [Result]- and [Option]-valued scrutinees of a hypothesis
    [c = Ok _] or [c = Err _] until its branches are syntactic. *)
Ltac res_inv H :=
  repeat match type of H with
  | context [mbind _ ?r] =>
      let E := fresh "E" in
      destruct r eqn:E; cbv [mbind result_bind] in H; simplify_eq/=
  end.

(** Close [A ↔ B] when a failed case makes both sides contradictory. *)
Ltac absurd_iff :=
  split; [by intros|];
  intros; repeat match goal with
  | H : ∃ _, _ |- _ => destruct H
  | H : _ ∧ _ |- _ => destruct H
  end; simplify_eq/=; first [done | congruence].
