(* ===== verification/RustStr.v ===== *)
(** * String operations of the Rust standard library

    A Rust [str] is a sequence of UTF-8 bytes, here a Rocq [string] of 8-bit
    characters; [len()] is [String.length].  Each definition models one
    method the sources call.  Searching for an ASCII pattern in UTF-8 text is
    searching for its byte, so the byte-wise definitions are the methods. *)

From S2P Require Import Prelude.

Local Open Scope Z_scope.

(** A line feed and a double quote. *)
Definition nl : string := String (ascii_of_nat 10) EmptyString.
Definition dq : string := String (ascii_of_nat 34) EmptyString.

Definition is_empty (s : string) : bool :=
  match s with EmptyString => true | String _ _ => false end.

(** [str::strip_prefix] and [str::starts_with]. *)
Fixpoint strip_prefix (p s : string) : option string :=
  match p, s with
  | EmptyString, _ => Some s
  | String a p', String b s' => if Ascii.eqb a b then strip_prefix p' s' else None
  | String _ _, EmptyString => None
  end.

Definition starts_with (p s : string) : bool :=
  match strip_prefix p s with Some _ => true | None => false end.

(** [str::trim_end_matches] with a one-byte pattern. *)
Fixpoint trim_end_matches (c : ascii) (s : string) : string :=
  match s with
  | EmptyString => EmptyString
  | String a s' =>
      match trim_end_matches c s' with
      | EmptyString => if Ascii.eqb a c then EmptyString else String a EmptyString
      | t => String a t
      end
  end.

(** [to_ascii_lowercase] and [eq_ignore_ascii_case]. *)
Definition ascii_lower (a : ascii) : ascii :=
  let n := N_of_ascii a in
  if (65 <=? n)%N && (n <=? 90)%N then ascii_of_N (n + 32) else a.

Fixpoint to_ascii_lowercase (s : string) : string :=
  match s with
  | EmptyString => EmptyString
  | String a s' => String (ascii_lower a) (to_ascii_lowercase s')
  end.

Definition eq_ignore_ascii_case (s t : string) : bool :=
  bool_decide (to_ascii_lowercase s = to_ascii_lowercase t).

(** [to_ascii_uppercase]. *)
Definition ascii_upper (a : ascii) : ascii :=
  let n := N_of_ascii a in
  if (97 <=? n)%N && (n <=? 122)%N then ascii_of_N (n - 32) else a.

Fixpoint to_ascii_uppercase (s : string) : string :=
  match s with
  | EmptyString => EmptyString
  | String a s' => String (ascii_upper a) (to_ascii_uppercase s')
  end.

(** [str::ends_with] with a one-byte pattern, and [String::pop] of a last
    one-byte character. *)
Fixpoint ends_with (c : ascii) (s : string) : bool :=
  match s with
  | EmptyString => false
  | String a EmptyString => Ascii.eqb a c
  | String _ s' => ends_with c s'
  end.

Fixpoint pop (s : string) : string :=
  match s with
  | EmptyString => EmptyString
  | String _ EmptyString => EmptyString
  | String a s' => String a (pop s')
  end.

(** [str::trim]: the characters with the Unicode property [White_Space], as
    their UTF-8 encodings. *)
Definition str_of_codes (l : list N) : string :=
  foldr (λ n s, String (ascii_of_N n) s) EmptyString l.

Definition white_space : list string :=
  str_of_codes <$>
    [[9]; [10]; [11]; [12]; [13]; [32]; [194; 133]; [194; 160]; [225; 154; 128];
     [226; 128; 128]; [226; 128; 129]; [226; 128; 130]; [226; 128; 131];
     [226; 128; 132]; [226; 128; 133]; [226; 128; 134]; [226; 128; 135];
     [226; 128; 136]; [226; 128; 137]; [226; 128; 138]; [226; 128; 168];
     [226; 128; 169]; [226; 128; 175]; [226; 129; 159]; [227; 128; 128]]%N.

Fixpoint strip_any (ps : list string) (s : string) : option string :=
  match ps with
  | [] => None
  | p :: ps => match strip_prefix p s with Some r => Some r | None => strip_any ps s end
  end.

(** Strip as many of the prefixes [ps] as there are; every prefix is not
    empty, so the length of the string is enough fuel. *)
Fixpoint strip_many (fuel : nat) (ps : list string) (s : string) : string :=
  match fuel with
  | O => s
  | S fuel => match strip_any ps s with Some r => strip_many fuel ps r | None => s end
  end.

Definition trim_start (s : string) : string := strip_many (String.length s) white_space s.

Definition trim_end (s : string) : string :=
  String.rev (strip_many (String.length s) (String.rev <$> white_space) (String.rev s)).

Definition trim (s : string) : string := trim_end (trim_start s).

(** [str::split], [split_once] and [rsplit_once] at one-byte delimiters. *)
Fixpoint split (f : ascii → bool) (s : string) : list string :=
  match s with
  | EmptyString => [EmptyString]
  | String a s' =>
      if f a then EmptyString :: split f s'
      else match split f s' with
           | h :: t => String a h :: t
           | [] => [String a EmptyString]
           end
  end.

Fixpoint split_once (c : ascii) (s : string) : option (string * string) :=
  match s with
  | EmptyString => None
  | String a s' =>
      if Ascii.eqb a c then Some (EmptyString, s')
      else match split_once c s' with
           | Some (l, r) => Some (String a l, r)
           | None => None
           end
  end.

Fixpoint rsplit_once (c : ascii) (s : string) : option (string * string) :=
  match s with
  | EmptyString => None
  | String a s' =>
      match rsplit_once c s' with
      | Some (l, r) => Some (String a l, r)
      | None => if Ascii.eqb a c then Some (EmptyString, s') else None
      end
  end.

(** [slice::join] on strings. *)
Fixpoint join (sep : string) (l : list string) : string :=
  match l with
  | [] => EmptyString
  | [s] => s
  | s :: l => s +:+ sep +:+ join sep l
  end.

(** [s.chars().take(n).collect()]: a byte [10xxxxxx] continues the character
    before it. *)
Definition is_utf8_cont (a : ascii) : bool :=
  let n := N_of_ascii a in (128 <=? n)%N && (n <? 192)%N.

Fixpoint take_chars (n : nat) (s : string) : string :=
  match s with
  | EmptyString => EmptyString
  | String a s' =>
      if is_utf8_cont a then String a (take_chars n s')
      else match n with O => EmptyString | S n' => String a (take_chars n' s') end
  end.

(** [str::as_bytes]: a byte is a [Z] in [0, 256). *)
Definition byte_of_ascii (a : ascii) : Z := Z.of_N (N_of_ascii a).

Fixpoint as_bytes (s : string) : list Z :=
  match s with
  | EmptyString => []
  | String a s' => byte_of_ascii a :: as_bytes s'
  end.

Fixpoint string_of_bytes (l : list Z) : string :=
  match l with
  | [] => EmptyString
  | b :: l => String (ascii_of_N (Z.to_N b)) (string_of_bytes l)
  end.

(** [String::from_utf8]: well-formed byte sequences (Unicode table 3-7). *)
Definition in_range (lo hi b : Z) : bool := (lo <=? b) && (b <=? hi).

Fixpoint utf8_valid (l : list Z) : bool :=
  match l with
  | [] => true
  | b :: l =>
      if in_range 0 127 b then utf8_valid l
      else if in_range 194 223 b then
        match l with
        | c :: l => in_range 128 191 c && utf8_valid l
        | _ => false
        end
      else if in_range 224 239 b then
        match l with
        | c :: d :: l =>
            in_range (if b =? 224 then 160 else 128) (if b =? 237 then 159 else 191) c
            && in_range 128 191 d && utf8_valid l
        | _ => false
        end
      else if in_range 240 244 b then
        match l with
        | c :: d :: e :: l =>
            in_range (if b =? 240 then 144 else 128) (if b =? 244 then 143 else 191) c
            && in_range 128 191 d && in_range 128 191 e && utf8_valid l
        | _ => false
        end
      else false
  end.

Definition from_utf8 (l : list Z) : option string :=
  if utf8_valid l then Some (string_of_bytes l) else None.

(** [str::parse] for the unsigned integer types: an optional [+], then
    digits, most significant first, with checked arithmetic. *)
Inductive IntErrorKind :=
| IntEmpty
| IntInvalidDigit
| IntPosOverflow.

Definition digit_val (a : ascii) : option Z :=
  let n := byte_of_ascii a in if in_range 48 57 n then Some (n - 48) else None.

Fixpoint parse_digits (max acc : Z) (s : string) : result IntErrorKind Z :=
  match s with
  | EmptyString => Ok acc
  | String a s' =>
      match digit_val a with
      | None => Err IntInvalidDigit
      | Some d =>
          if max <? acc * 10 then Err IntPosOverflow
          else if max <? acc * 10 + d then Err IntPosOverflow
          else parse_digits max (acc * 10 + d) s'
      end
  end.

Definition parse_uint (max : Z) (s : string) : result IntErrorKind Z :=
  match s with
  | EmptyString => Err IntEmpty
  | String a EmptyString =>
      if Ascii.eqb a "+" || Ascii.eqb a "-" then Err IntInvalidDigit
      else parse_digits max 0 s
  | String a s' => if Ascii.eqb a "+" then parse_digits max 0 s' else parse_digits max 0 s
  end.

(** ** Append *)

Lemma str_app_cons a s t : String a s +:+ t = String a (s +:+ t).
Proof. done. Qed.

Lemma str_app_nil_r s : s +:+ EmptyString = s.
Proof. induction s as [|a s IH]; [done|]. by rewrite str_app_cons, IH. Qed.

Lemma str_app_assoc s t u : s +:+ (t +:+ u) = (s +:+ t) +:+ u.
Proof. induction s as [|a s IH]; [done|]. by rewrite !str_app_cons, IH. Qed.

Lemma str_length_app s t : String.length (s +:+ t) = (String.length s + String.length t)%nat.
Proof. induction s as [|a s IH]; [done|]. rewrite str_app_cons. simpl. by rewrite IH. Qed.

Lemma str_rev_app_spec s t : String.rev_app s t = String.rev s +:+ t.
Proof.
  unfold String.rev. revert t. induction s as [|a s IH]; intros t; simpl; [done|].
  rewrite IH, (IH (String a EmptyString)), <-str_app_assoc. done.
Qed.

Lemma str_rev_cons a s : String.rev (String a s) = String.rev s +:+ String a EmptyString.
Proof. unfold String.rev at 1. simpl. apply str_rev_app_spec. Qed.

Lemma str_rev_distr s t : String.rev (s +:+ t) = String.rev t +:+ String.rev s.
Proof.
  induction s as [|a s IH]; [by rewrite str_app_nil_r|].
  by rewrite str_app_cons, !str_rev_cons, IH, str_app_assoc.
Qed.

Lemma str_rev_involutive s : String.rev (String.rev s) = s.
Proof. induction s as [|a s IH]; [done|]. by rewrite str_rev_cons, str_rev_distr, IH. Qed.

Lemma str_length_rev s : String.length (String.rev s) = String.length s.
Proof.
  induction s as [|a s IH]; [done|]. rewrite str_rev_cons, str_length_app, IH. simpl. lia.
Qed.

(** ** Prefixes *)

Lemma strip_prefix_Some p s r : strip_prefix p s = Some r ↔ s = p +:+ r.
Proof.
  revert s. induction p as [|a p IH]; intros s; simpl; [naive_solver|].
  rewrite str_app_cons. destruct s as [|b s]; [done|].
  destruct (Ascii.eqb_spec a b) as [->|Hne].
  - rewrite IH. naive_solver.
  - split; [done|]. by intros [= ->].
Qed.

Lemma strip_prefix_app p r : strip_prefix p (p +:+ r) = Some r.
Proof. by apply strip_prefix_Some. Qed.

Lemma strip_prefix_None p s : strip_prefix p s = None ↔ ∀ r, s ≠ p +:+ r.
Proof.
  split.
  - intros Hn r ->. by rewrite strip_prefix_app in Hn.
  - intros Hn. destruct (strip_prefix p s) as [r|] eqn:E; [|done].
    by apply strip_prefix_Some, Hn in E.
Qed.

Lemma starts_with_spec p s : starts_with p s = true ↔ ∃ r, s = p +:+ r.
Proof.
  unfold starts_with. destruct (strip_prefix p s) eqn:E.
  - apply strip_prefix_Some in E. naive_solver.
  - split; [done|]. intros [r ->]. by rewrite strip_prefix_app in E.
Qed.

Lemma strip_any_Some ps s r :
  strip_any ps s = Some r → ∃ p, p ∈ ps ∧ s = p +:+ r.
Proof.
  induction ps as [|p ps IH]; simpl; [done|].
  destruct (strip_prefix p s) eqn:E.
  - intros [= ->]. apply strip_prefix_Some in E. exists p. set_solver.
  - intros (q&?&?)%IH. exists q. set_solver.
Qed.

(** Enough fuel: nothing is left to strip. *)
Lemma strip_many_done ps fuel s :
  EmptyString ∉ ps → (String.length s ≤ fuel)%nat →
  strip_any ps (strip_many fuel ps s) = None.
Proof.
  intros Hps. revert s. induction fuel as [|fuel IH]; intros s Hlen; simpl.
  - destruct s; [|simpl in Hlen; lia]. clear Hlen.
    destruct (strip_any ps EmptyString) eqn:E; [|done].
    apply strip_any_Some in E as (p&Hp&Heq). destruct p; [done|].
    by rewrite str_app_cons in Heq.
  - destruct (strip_any ps s) as [r|] eqn:E; [|done].
    apply IH. apply strip_any_Some in E as (p&Hp&->).
    destruct p as [|a p]; [done|]. rewrite str_length_app in Hlen. simpl in Hlen. lia.
Qed.

Lemma white_space_nonempty :
  (EmptyString ∉ white_space) ∧ EmptyString ∉ (String.rev <$> white_space).
Proof. split; by apply (bool_decide_unpack _). Qed.

Lemma trim_start_done s : strip_any white_space (trim_start s) = None.
Proof. apply strip_many_done; [apply white_space_nonempty|done]. Qed.

(** ** Trailing patterns *)

Lemma trim_end_matches_cons c a s :
  trim_end_matches c (String a s) =
  if is_empty (trim_end_matches c s)
  then if Ascii.eqb a c then EmptyString else String a EmptyString
  else String a (trim_end_matches c s).
Proof. simpl. by destruct (trim_end_matches c s). Qed.

(** The result followed by copies of [c] is the argument. *)
Lemma trim_end_matches_decomp c s :
  ∃ n, s = trim_end_matches c s +:+ Nat.iter n (String c) EmptyString.
Proof.
  induction s as [|a s [n IH]]; [by exists O|].
  rewrite trim_end_matches_cons. destruct (trim_end_matches c s) as [|b t]; simpl.
  - destruct (Ascii.eqb_spec a c) as [->|].
    + exists (S n). simpl. by rewrite IH.
    + exists n. rewrite IH at 1. by rewrite str_app_cons.
  - exists n. rewrite str_app_cons. by rewrite IH at 1.
Qed.

Lemma trim_end_matches_snoc c s :
  trim_end_matches c (s +:+ String c EmptyString) = trim_end_matches c s.
Proof.
  induction s as [|a s IH].
  - simpl. by rewrite Ascii.eqb_refl.
  - by rewrite str_app_cons, !trim_end_matches_cons, IH.
Qed.

Lemma trim_end_matches_iter c s n :
  trim_end_matches c (s +:+ Nat.iter n (String c) EmptyString) = trim_end_matches c s.
Proof.
  induction n as [|n IH]; simpl; [by rewrite str_app_nil_r|]. rewrite <-IH.
  replace (String c (Nat.iter n (String c) EmptyString))
    with (Nat.iter n (String c) EmptyString +:+ String c EmptyString).
  - by rewrite str_app_assoc, trim_end_matches_snoc.
  - clear. induction n as [|n IH]; simpl; [done|]. by rewrite str_app_cons, IH.
Qed.

Lemma trim_end_matches_idemp c s :
  trim_end_matches c (trim_end_matches c s) = trim_end_matches c s.
Proof.
  destruct (trim_end_matches_decomp c s) as [n Hn].
  by rewrite Hn at 2; rewrite trim_end_matches_iter.
Qed.

(** ** Splitting *)

Fixpoint str_mem (c : ascii) (s : string) : bool :=
  match s with
  | EmptyString => false
  | String a s' => Ascii.eqb a c || str_mem c s'
  end.

Lemma rsplit_once_None c s : rsplit_once c s = None ↔ str_mem c s = false.
Proof.
  induction s as [|a s IH]; simpl; [done|].
  destruct (rsplit_once c s) as [[l r]|].
  - split; [done|]. by intros [_ ?%IH]%orb_false_iff.
  - destruct (Ascii.eqb a c); simpl; [by split|]. by rewrite <-IH.
Qed.

Lemma rsplit_once_Some c s l r :
  rsplit_once c s = Some (l, r) ↔ s = l +:+ String c r ∧ str_mem c r = false.
Proof.
  revert l. induction s as [|a s IH]; intros l; simpl.
  { split; [done|]. intros [Heq _]. by destruct l. }
  destruct (rsplit_once c s) as [[l' r']|] eqn:E.
  - split.
    + intros [= <- ->]. destruct (proj1 (IH l') eq_refl) as [-> ?]. done.
    + intros [Heq Hr]. destruct l as [|b l].
      * injection Heq as -> ->. apply rsplit_once_None in Hr. congruence.
      * rewrite str_app_cons in Heq. injection Heq as <- ->.
        assert (Some (l', r') = Some (l, r)) as [= <- <-] by (by apply IH). done.
  - destruct (Ascii.eqb_spec a c) as [->|Hne].
    + split.
      * intros [= <- <-]. split; [done|]. by apply rsplit_once_None.
      * intros [Heq Hr]. destruct l as [|b l]; [by injection Heq as ->|].
        rewrite str_app_cons in Heq. injection Heq as -> ->.
        assert (None = Some (l, r)) by (by apply IH). done.
    + split; [done|]. intros [Heq Hr]. destruct l as [|b l]; [by injection Heq|].
      rewrite str_app_cons in Heq. injection Heq as -> ->.
      assert (None = Some (l, r)) by (by apply IH). done.
Qed.

Lemma split_once_Some c s l r :
  split_once c s = Some (l, r) ↔ s = l +:+ String c r ∧ str_mem c l = false.
Proof.
  revert l. induction s as [|a s IH]; intros l; simpl.
  { split; [done|]. intros [Heq _]. by destruct l. }
  destruct (Ascii.eqb_spec a c) as [->|Hne].
  - split; [by intros [= <- ->]|]. intros [Heq Hl].
    destruct l as [|b l]; [by injection Heq as ->|].
    rewrite str_app_cons in Heq. injection Heq as -> _. simpl in Hl.
    by rewrite Ascii.eqb_refl in Hl.
  - split.
    + destruct (split_once c s) as [[l' r']|]; [|done].
      intros [= <- ->]. destruct (proj1 (IH l') eq_refl) as [-> ?].
      split; [done|]. simpl. by destruct (Ascii.eqb_spec a c).
    + intros [Heq Hl]. destruct l as [|b l]; [by injection Heq|].
      rewrite str_app_cons in Heq. injection Heq as -> ->. simpl in Hl.
      apply orb_false_iff in Hl as [_ Hl].
      by rewrite (proj2 (IH l) (conj eq_refl Hl)).
Qed.

(** ** Case folding *)

Lemma ascii_lower_idemp a : ascii_lower (ascii_lower a) = ascii_lower a.
Proof. by destruct a as [[] [] [] [] [] [] [] []]. Qed.

Lemma to_ascii_lowercase_idemp s :
  to_ascii_lowercase (to_ascii_lowercase s) = to_ascii_lowercase s.
Proof. induction s as [|a s IH]; simpl; [done|]. by rewrite ascii_lower_idemp, IH. Qed.

Lemma to_ascii_lowercase_length s :
  String.length (to_ascii_lowercase s) = String.length s.
Proof. induction s as [|a s IH]; simpl; [done|]. by rewrite IH. Qed.

(** ** Bytes *)

Lemma byte_of_ascii_range a : 0 ≤ byte_of_ascii a < 256.
Proof. unfold byte_of_ascii. pose proof (N_ascii_bounded a). lia. Qed.

Lemma string_of_as_bytes s : string_of_bytes (as_bytes s) = s.
Proof.
  induction s as [|a s IH]; simpl; [done|]. unfold byte_of_ascii.
  by rewrite N2Z.id, ascii_N_embedding, IH.
Qed.

Lemma as_bytes_of_bytes l :
  Forall (λ b, 0 ≤ b < 256) l → as_bytes (string_of_bytes l) = l.
Proof.
  induction 1 as [|b l Hb Hl IH]; simpl; [done|]. rewrite IH. f_equal.
  unfold byte_of_ascii. rewrite N_ascii_embedding; lia.
Qed.

Lemma length_as_bytes s : length (as_bytes s) = String.length s.
Proof. induction s as [|a s IH]; simpl; [done|]. by rewrite IH. Qed.

(** ** Integers *)

Lemma digit_val_range a d : digit_val a = Some d → 0 ≤ d < 10.
Proof. unfold digit_val, in_range. case_match eqn:E; intros [= <-]. lia. Qed.

Lemma parse_digits_range max acc s z :
  0 ≤ acc ≤ max → parse_digits max acc s = Ok z → acc ≤ z ≤ max.
Proof.
  revert acc. induction s as [|a s IH]; intros acc Hacc; simpl; [naive_solver lia|].
  destruct (digit_val a) as [d|] eqn:Hd; [|done]. apply digit_val_range in Hd.
  destruct (Z.ltb_spec max (acc * 10)); [done|].
  destruct (Z.ltb_spec max (acc * 10 + d)); [done|].
  intros Hz%IH; lia.
Qed.

(** A parsed integer fits its type. *)
Lemma parse_uint_range max s z : 0 ≤ max → parse_uint max s = Ok z → 0 ≤ z ≤ max.
Proof.
  intros Hmax. unfold parse_uint. repeat case_match; try done; subst;
    intros Hz%parse_digits_range; lia.
Qed.

Lemma digit_val_pretty (n : N) : (n < 10)%N → digit_val (pretty_N_char n) = Some (Z.of_N n).
Proof.
  intros Hn. assert (n ∈ [0; 1; 2; 3; 4; 5; 6; 7; 8; 9]%N) as Hin by (set_unfold; lia).
  repeat (apply elem_of_cons in Hin as [->|Hin]; [done|]). by apply elem_of_nil in Hin.
Qed.

Lemma parse_digits_pretty max (x : N) s :
  Z.of_N x ≤ max →
  parse_digits max 0 (pretty_N_go x s) = parse_digits max (Z.of_N x) s.
Proof.
  revert s. induction (N.lt_wf_0 x) as [x _ IH]; intros s Hx.
  destruct (decide (x = 0%N)) as [->|Hx0]; [by rewrite pretty_N_go_0|].
  rewrite pretty_N_go_step by lia.
  pose proof (N.div_mod x 10 ltac:(done)) as Hdm.
  pose proof (N.mod_lt x 10 ltac:(done)) as Hm.
  assert (x `div` 10 < x)%N as Hlt by (apply N.div_lt; lia).
  set (q := (x `div` 10)%N) in *. set (r := (x `mod` 10)%N) in *. clearbody q r.
  rewrite IH by lia. cbn [parse_digits].
  rewrite digit_val_pretty by done.
  replace (Z.of_N q * 10 + Z.of_N r) with (Z.of_N x) by lia.
  destruct (Z.ltb_spec max (Z.of_N q * 10)); [lia|].
  destruct (Z.ltb_spec max (Z.of_N x)); [lia|done].
Qed.

(** Printing an integer and parsing it back. *)
Lemma parse_uint_pretty max (x : N) :
  Z.of_N x ≤ max → parse_uint max (pretty x) = Ok (Z.of_N x).
Proof.
  intros Hx. unfold pretty, pretty_N. case_decide as H0.
  { subst. assert ((max <? 0) = false) as Hm by (apply Z.ltb_ge; lia).
    change (parse_uint max _) with (if max <? 0 then Err IntPosOverflow
      else if max <? 0 then Err IntPosOverflow else @Ok IntErrorKind Z 0).
    by rewrite Hm. }
  assert (parse_digits max 0 (pretty_N_go x EmptyString) = Ok (Z.of_N x)) as Hp
    by (by rewrite parse_digits_pretty).
  unfold parse_uint. destruct (pretty_N_go x EmptyString) as [|a t] eqn:E.
  { simpl in Hp. injection Hp. lia. }
  simpl in Hp. destruct (digit_val a) as [d|] eqn:Ha; [|done].
  assert (Ascii.eqb a "+" = false ∧ Ascii.eqb a "-" = false) as [-> ->].
  { by split; apply Ascii.eqb_neq; intros ->. }
  simpl. rewrite Ha. by destruct t.
Qed.

(** ** Trimming *)

Definition str_concat (l : list string) : string := foldr String.app EmptyString l.

Fixpoint str_forallb (f : ascii → bool) (s : string) : bool :=
  match s with
  | EmptyString => true
  | String a s' => f a && str_forallb f s'
  end.

(** A visible ASCII character: neither white space nor part of the encoding
    of a white-space character. *)
Definition is_plain (a : ascii) : bool := in_range 33 127 (byte_of_ascii a).

Lemma str_forallb_app f s t : str_forallb f (s +:+ t) = str_forallb f s && str_forallb f t.
Proof.
  induction s as [|a s IH]; [done|]. rewrite str_app_cons. simpl. by rewrite IH, andb_assoc.
Qed.

Lemma str_forallb_rev f s : str_forallb f (String.rev s) = str_forallb f s.
Proof.
  induction s as [|a s IH]; [done|]. rewrite str_rev_cons, str_forallb_app, IH. simpl.
  by rewrite andb_true_r, andb_comm.
Qed.

Lemma ascii_lower_plain a : is_plain (ascii_lower a) = is_plain a.
Proof. by destruct a as [[] [] [] [] [] [] [] []]. Qed.

Lemma to_ascii_lowercase_plain s :
  str_forallb is_plain (to_ascii_lowercase s) = str_forallb is_plain s.
Proof. induction s as [|a s IH]; simpl; [done|]. by rewrite ascii_lower_plain, IH. Qed.

Lemma strip_any_head ps a s :
  Forall (λ p, match p with EmptyString => False | String b _ => b ≠ a end) ps →
  strip_any ps (String a s) = None.
Proof.
  induction 1 as [|p ps Hp Hps IH]; simpl; [done|]. destruct p as [|b p]; [done|]. simpl.
  by destruct (Ascii.eqb_spec b a).
Qed.

Lemma strip_many_concat ps fuel ws s :
  (∀ w r, w ∈ ps → strip_any ps (w +:+ r) = Some r) →
  EmptyString ∉ ps → strip_any ps s = None → Forall (.∈ ps) ws →
  (String.length (str_concat ws +:+ s) ≤ fuel)%nat →
  strip_many fuel ps (str_concat ws +:+ s) = s.
Proof.
  intros Hps Hne Hs Hws. revert fuel. induction Hws as [|w ws Hw Hws IH]; intros fuel Hlen.
  - simpl. change (EmptyString +:+ s) with s. destruct fuel; simpl; [done|]. by rewrite Hs.
  - simpl in *. rewrite <-str_app_assoc in Hlen |- *.
    destruct w as [|a w]; [done|].
    destruct fuel as [|fuel]; simpl; [rewrite str_app_cons in Hlen; simpl in Hlen; lia|].
    rewrite Hps by done. apply IH.
    rewrite str_length_app in Hlen. simpl in Hlen. lia.
Qed.

Lemma white_space_strip w r : w ∈ white_space → strip_any white_space (w +:+ r) = Some r.
Proof.
  intros Hw. unfold white_space in Hw. vm_compute in Hw.
  repeat (apply elem_of_cons in Hw as [->|Hw]; [reflexivity|]). by apply elem_of_nil in Hw.
Qed.

Lemma white_space_rev_strip w r :
  w ∈ (String.rev <$> white_space) →
  strip_any (String.rev <$> white_space) (w +:+ r) = Some r.
Proof.
  intros Hw. unfold white_space in Hw. vm_compute in Hw.
  repeat (apply elem_of_cons in Hw as [->|Hw]; [reflexivity|]). by apply elem_of_nil in Hw.
Qed.

Lemma white_space_plain a s :
  is_plain a = true →
  strip_any white_space (String a s) = None ∧
  strip_any (String.rev <$> white_space) (String a s) = None.
Proof.
  intros Ha. split; apply strip_any_head; vm_compute;
    repeat constructor; intros <-; by vm_compute in Ha.
Qed.

Lemma str_concat_app l k : str_concat (l ++ k) = str_concat l +:+ str_concat k.
Proof. induction l as [|x l IH]; [done|]. simpl. by rewrite IH, str_app_assoc. Qed.

Lemma str_rev_concat ws : String.rev (str_concat ws) = str_concat (reverse (String.rev <$> ws)).
Proof.
  induction ws as [|w ws IH]; [done|].
  rewrite fmap_cons, reverse_cons, str_concat_app, <-IH. simpl.
  by rewrite str_app_nil_r, str_rev_distr.
Qed.

(** [trim] removes exactly the white space around a visible token. *)
Lemma trim_token ws1 ws2 s :
  Forall (.∈ white_space) ws1 → Forall (.∈ white_space) ws2 →
  s ≠ EmptyString → str_forallb is_plain s = true →
  trim (str_concat ws1 +:+ s +:+ str_concat ws2) = s.
Proof.
  intros H1 H2 Hs Hp. unfold trim, trim_start.
  destruct white_space_nonempty as [Hn Hn'].
  assert (∀ t, strip_any white_space (s +:+ t) = None) as Hhd.
  { intros t. destruct s as [|a s]; [done|]. simpl in Hp. apply andb_true_iff in Hp as [Ha _].
    exact (proj1 (white_space_plain a _ Ha)). }
  rewrite strip_many_concat by (eauto using white_space_strip). unfold trim_end.
  rewrite str_rev_distr, str_rev_concat.
  rewrite strip_many_concat; [apply str_rev_involutive|apply white_space_rev_strip|done| | |].
  - rewrite <-str_forallb_rev in Hp. destruct (String.rev s) as [|a t] eqn:E.
    { by rewrite <-(str_rev_involutive s), E in Hs. }
    simpl in Hp. apply andb_true_iff in Hp as [Ha _]. exact (proj2 (white_space_plain a _ Ha)).
  - rewrite reverse_Permutation. apply Forall_fmap. eapply Forall_impl; [exact H2|].
    intros w Hw. by apply list_elem_of_fmap_2.
  - rewrite <-str_rev_concat, <-str_rev_distr, str_length_rev. done.
Qed.

(** ** Printed integers and separated lists *)

Definition is_digit (a : ascii) : bool := in_range 48 57 (byte_of_ascii a).

Lemma str_forallb_impl (f g : ascii → bool) s :
  (∀ a, f a = true → g a = true) → str_forallb f s = true → str_forallb g s = true.
Proof.
  intros Hfg. induction s as [|a s IH]; simpl; [done|].
  rewrite !andb_true_iff. intros [? ?]. split; auto.
Qed.

Lemma pretty_go_digits (x : N) s :
  str_forallb is_digit s = true → str_forallb is_digit (pretty_N_go x s) = true.
Proof.
  revert s. induction (N.lt_wf_0 x) as [x _ IH]; intros s Hs.
  destruct (decide (x = 0%N)) as [->|Hx0]; [by rewrite pretty_N_go_0|].
  rewrite pretty_N_go_step by lia. apply IH; [apply N.div_lt; lia|].
  pose proof (digit_val_pretty (x `mod` 10)%N ltac:(by apply N.mod_lt)) as Hd.
  simpl. rewrite Hs, andb_true_r. unfold digit_val in Hd. unfold is_digit. by case_match.
Qed.

Lemma pretty_digits (x : N) : str_forallb is_digit (pretty x) = true ∧ pretty x ≠ EmptyString.
Proof.
  split.
  - unfold pretty, pretty_N. case_decide; [done|]. by apply pretty_go_digits.
  - intros Heq. pose proof (parse_uint_pretty (Z.of_N x) x ltac:(lia)) as Hp. by rewrite Heq in Hp.
Qed.

Lemma is_digit_plain a : is_digit a = true → is_plain a = true.
Proof. unfold is_digit, is_plain, in_range. rewrite !andb_true_iff, !Z.leb_le. lia. Qed.

(** Splitting at a delimiter undoes joining with it. *)
Lemma split_no_delim f s : str_forallb (λ a, negb (f a)) s = true → split f s = [s].
Proof.
  induction s as [|a s IH]; simpl; [done|]. intros [Ha Hs]%andb_true_iff.
  apply negb_true_iff in Ha. by rewrite Ha, IH.
Qed.

Lemma split_app_delim (f : ascii → bool) c s t :
  f c = true → str_forallb (λ a, negb (f a)) s = true →
  split f (s +:+ String c t) = s :: split f t.
Proof.
  intros Hc. induction s as [|a s IH]; intros Hs.
  - change (EmptyString +:+ String c t) with (String c t). simpl. by rewrite Hc.
  - simpl in Hs. apply andb_true_iff in Hs as [Ha Hs]. apply negb_true_iff in Ha.
    rewrite str_app_cons. simpl. by rewrite Ha, IH.
Qed.

Lemma split_join (f : ascii → bool) c l :
  f c = true → l ≠ [] → Forall (λ s, str_forallb (λ a, negb (f a)) s = true) l →
  split f (join (String c EmptyString) l) = l.
Proof.
  intros Hc Hne Hl. induction Hl as [|s l Hs Hl IH]; [done|].
  destruct l as [|s' l]; [by apply split_no_delim|].
  change (join _ (s :: s' :: l)) with (s +:+ String c (join (String c EmptyString) (s' :: l))).
  by rewrite split_app_delim, IH.
Qed.

Lemma trim_plain s : str_forallb is_plain s = true → trim s = s.
Proof.
  intros Hs. destruct (decide (s = EmptyString)) as [->|Hne]; [done|].
  pose proof (trim_token [] [] s (Forall_nil_2 _) (Forall_nil_2 _) Hne Hs) as Ht.
  simpl in Ht. by rewrite str_app_nil_r in Ht.
Qed.
