(* ===== verification/SocketAddr.v ===== *)
(** * [std::net::SocketAddr] and its parser

    The address type of [listen] and [http01_listen].  The parser is the
    recursive descent of the standard library ([core::net::parser]): IPv4
    octets without leading zeros, IPv6 groups with one [::] and an optional
    trailing IPv4 part, an optional scope id, a decimal port, and nothing
    left over. *)

From S2P Require Import Prelude RustStr.

Local Open Scope Z_scope.

Inductive SocketAddr :=
| SocketAddrV4 (ip : list Z) (port : Z)
| SocketAddrV6 (segments : list Z) (scope_id port : Z).

#[export] Instance SocketAddr_eq_dec : EqDecision SocketAddr.
Proof. solve_decision. Defined.

(** A reader consumes a prefix of its input or fails and consumes nothing. *)
Definition reader (A : Type) : Type := string → option (A * string).

Definition read_given_char (c : ascii) : reader unit := λ s,
  match s with
  | String a s' => if Ascii.eqb a c then Some (tt, s') else None
  | EmptyString => None
  end.

(** [char::to_digit]. *)
Definition to_digit (radix : Z) (a : ascii) : option Z :=
  let n := byte_of_ascii a in
  let d := if in_range 48 57 n then n - 48
           else if in_range 97 122 n then n - 87
           else if in_range 65 90 n then n - 55
           else radix in
  if d <? radix then Some d else None.

Fixpoint number_loop (radix : Z) (max_digits : option nat) (max acc : Z) (count : nat)
    (s : string) : option (Z * nat * string) :=
  match s with
  | EmptyString => Some (acc, count, s)
  | String a s' =>
      match to_digit radix a with
      | None => Some (acc, count, s)
      | Some d =>
          match max_digits with
          | Some m =>
              if (m <? S count)%nat then None
              else number_loop radix max_digits max (acc * radix + d) (S count) s'
          | None =>
              if max <? acc * radix then None
              else if max <? acc * radix + d then None
              else number_loop radix max_digits max (acc * radix + d) (S count) s'
          end
      end
  end.

Definition read_number (radix : Z) (max_digits : option nat) (max : Z)
    (allow_zero_prefix : bool) : reader Z := λ s,
  let has_leading_zero := starts_with "0" s in
  match number_loop radix max_digits max 0 0 s with
  | None => None
  | Some (v, count, rest) =>
      if (count =? 0)%nat then None
      else if negb allow_zero_prefix && has_leading_zero && (1 <? count)%nat then None
      else if v <=? max then Some (v, rest) else None
  end.

Definition read_separator {A} (sep : ascii) (index : nat) (inner : reader A) : reader A := λ s,
  match index with
  | O => inner s
  | S _ => match read_given_char sep s with Some (_, s') => inner s' | None => None end
  end.

(** [n] octets, the first of index [i]. *)
Fixpoint read_octets (n i : nat) : reader (list Z) := λ s,
  match n with
  | O => Some ([], s)
  | S n' =>
      match read_separator "." i (read_number 10 (Some 3%nat) 255 false) s with
      | None => None
      | Some (b, s') =>
          match read_octets n' (S i) s' with
          | None => None
          | Some (bs, s'') => Some (b :: bs, s'')
          end
      end
  end.

Definition read_ipv4_addr : reader (list Z) := read_octets 4 0.

(** At most [n] groups, the first of index [i]; says whether the last two
    came from an embedded IPv4 address. *)
Fixpoint read_groups (n i : nat) (s : string) : list Z * bool * string :=
  match n with
  | O => ([], false, s)
  | S n' =>
      let ipv4 := match n' with
                  | O => None
                  | S _ => read_separator ":" i read_ipv4_addr s
                  end in
      match ipv4 with
      | Some ([a; b; c; d], rest) => ([a * 256 + b; c * 256 + d], true, rest)
      | _ =>
          match read_separator ":" i (read_number 16 (Some 4%nat) u16_max true) s with
          | Some (g, rest) =>
              let '(gs, v4, rest') := read_groups n' (S i) rest in (g :: gs, v4, rest')
          | None => ([], false, s)
          end
      end
  end.

Definition read_ipv6_addr : reader (list Z) := λ s,
  let '(head, head_ipv4, s1) := read_groups 8 0 s in
  if (length head =? 8)%nat then Some (head, s1)
  else if head_ipv4 then None
  else
    match read_given_char ":" s1 with
    | None => None
    | Some (_, s2) =>
        match read_given_char ":" s2 with
        | None => None
        | Some (_, s3) =>
            let limit := (8 - (length head + 1))%nat in
            let '(tail, _, s4) := read_groups limit 0 s3 in
            Some (head ++ replicate (8 - length head - length tail) 0 ++ tail, s4)
        end
    end.

Definition read_port : reader Z := λ s,
  match read_given_char ":" s with
  | Some (_, s') => read_number 10 None u16_max true s'
  | None => None
  end.

Definition read_scope_id : reader Z := λ s,
  match read_given_char "%" s with
  | Some (_, s') => read_number 10 None u32_max true s'
  | None => None
  end.

Definition read_socket_addr_v4 : reader SocketAddr := λ s,
  match read_ipv4_addr s with
  | None => None
  | Some (ip, s1) =>
      match read_port s1 with
      | None => None
      | Some (port, s2) => Some (SocketAddrV4 ip port, s2)
      end
  end.

Definition read_socket_addr_v6 : reader SocketAddr := λ s,
  match read_given_char "[" s with
  | None => None
  | Some (_, s1) =>
      match read_ipv6_addr s1 with
      | None => None
      | Some (ip, s2) =>
          let '(scope, s3) := default (0, s2) (read_scope_id s2) in
          match read_given_char "]" s3 with
          | None => None
          | Some (_, s4) =>
              match read_port s4 with
              | None => None
              | Some (port, s5) => Some (SocketAddrV6 ip scope port, s5)
              end
          end
      end
  end.

(** [SocketAddr::from_str]. *)
Definition SocketAddr_from_str (s : string) : option SocketAddr :=
  let r := match read_socket_addr_v4 s with
           | Some r => Some r
           | None => read_socket_addr_v6 s
           end in
  match r with
  | Some (a, EmptyString) => Some a
  | _ => None
  end.

Definition socket_port (a : SocketAddr) : Z :=
  match a with SocketAddrV4 _ p => p | SocketAddrV6 _ _ p => p end.

Example parse_v4 :
  SocketAddr_from_str "127.0.0.1:8443" = Some (SocketAddrV4 [127; 0; 0; 1] 8443).
Proof. reflexivity. Qed.

Example parse_v6 :
  SocketAddr_from_str "[2001:db8::1:10.0.0.7%3]:443" =
  Some (SocketAddrV6 [8193; 3512; 0; 0; 0; 1; 2560; 7] 3 443).
Proof. reflexivity. Qed.

Example parse_rejects :
  SocketAddr_from_str <$> ["127.0.0.01:80"; "127.0.0.1"; "1.2.3.4:65536"; "[::1]:80x"; "host:1"]
  = [None; None; None; None; None].
Proof. reflexivity. Qed.
