(* ===== verification/Format.v ===== *)
(** * Rust's formatting

    What the sources use of [std::fmt]: integers in decimal and hexadecimal,
    Booleans, padded fields, the [Debug] form of strings and of lists of
    strings, and the addresses of [std::net].  The last part proves that the
    parser of [SocketAddr] reads back what [Display] writes. *)

From S2P Require Import Prelude RustStr SocketAddr.

Local Open Scope Z_scope.

(** ** Integers *)

Definition digit_char (d : Z) : ascii :=
  ascii_of_N (Z.to_N (if d <? 10 then 48 + d else 87 + d)).

(** The digits of [n], most significant first, in front of [acc].  A [u64] has
    at most 64 digits in any radix, so the fuel of [fmt_radix] is enough. *)
Fixpoint radix_digits (fuel : nat) (radix n : Z) (acc : list Z) : list Z :=
  match fuel with
  | O => acc
  | S fuel =>
      let acc := n mod radix :: acc in
      if n <? radix then acc else radix_digits fuel radix (n / radix) acc
  end.

Definition digits_str (ds : list Z) : string :=
  foldr (λ d s, String (digit_char d) s) EmptyString ds.

Definition fmt_radix (radix n : Z) : string := digits_str (radix_digits 64 radix n []).

(** [{}] and [{:x}] of an unsigned integer. *)
Definition fmt_dec (n : Z) : string := fmt_radix 10 n.
Definition fmt_hex (n : Z) : string := fmt_radix 16 n.

Definition fmt_bool (b : bool) : string := if b then "true" else "false".

(** ** Padding *)

(** [chars().count()]. *)
Fixpoint char_count (s : string) : nat :=
  match s with
  | EmptyString => O
  | String a s => if is_utf8_cont a then char_count s else S (char_count s)
  end.

Fixpoint spaces (n : nat) : string :=
  match n with O => EmptyString | S n => String " " (spaces n) end.

(** [{:<width}]. *)
Definition pad_right (width : nat) (s : string) : string := s +:+ spaces (width - char_count s).

(** ** [Debug] of strings *)

(** Which characters beyond ASCII are escaped: the tables of [char] for
    printable and grapheme-extending characters. *)
Class UnicodeTables := { debug_escapes : Z → bool }.

Section debug.
Context `{UT : !UnicodeTables}.

(** [\u{..}]. *)
Definition unicode_escape (c : Z) : string := "\u{" +:+ fmt_hex c +:+ "}".

(** [char::escape_debug_ext] of an ASCII character, with the double quote
    escaped and the single quote not. *)
Definition escape_ascii (a : ascii) : string :=
  let n := byte_of_ascii a in
  if n =? 0 then "\0"
  else if n =? 9 then "\t"
  else if n =? 10 then "\n"
  else if n =? 13 then "\r"
  else if n =? 34 then String "\" (String a EmptyString)
  else if n =? 92 then "\\"
  else if in_range 32 126 n then String a EmptyString
  else unicode_escape n.

(** A character of several bytes: its bytes or its escape. *)
Definition escape_wide (bytes : list ascii) (c : Z) : string :=
  if debug_escapes c then unicode_escape c
  else foldr String EmptyString bytes.

Definition low6 (a : ascii) : Z := Z.land (byte_of_ascii a) 63.

(** The characters of a string in UTF-8, each escaped. *)
Fixpoint escape_debug (s : string) : string :=
  match s with
  | EmptyString => EmptyString
  | String a s1 =>
      let n := byte_of_ascii a in
      if n <? 128 then escape_ascii a +:+ escape_debug s1
      else
        match s1 with
        | EmptyString => EmptyString
        | String b s2 =>
            if n <? 224 then
              escape_wide [a; b] (Z.lor (Z.shiftl (Z.land n 31) 6) (low6 b)) +:+ escape_debug s2
            else
              match s2 with
              | EmptyString => EmptyString
              | String c s3 =>
                  let bc := Z.lor (Z.shiftl (low6 b) 6) (low6 c) in
                  if n <? 240 then
                    escape_wide [a; b; c] (Z.lor (Z.shiftl (Z.land n 15) 12) bc) +:+
                    escape_debug s3
                  else
                    match s3 with
                    | EmptyString => EmptyString
                    | String d s4 =>
                        escape_wide [a; b; c; d]
                          (Z.lor (Z.shiftl (Z.land n 7) 18)
                             (Z.lor (Z.shiftl bc 6) (low6 d))) +:+ escape_debug s4
                    end
              end
        end
  end.

(** [{:?}] of a string and of a list of strings. *)
Definition fmt_debug_str (s : string) : string := dq +:+ escape_debug s +:+ dq.

Definition fmt_debug_list (l : list string) : string :=
  "[" +:+ join ", " (fmt_debug_str <$> l) +:+ "]".

End debug.

(** ** Addresses *)

Definition fmt_ipv4 (octets : list Z) : string := join "." (fmt_dec <$> octets).

(** The longest run of zero groups, the first of the longest: start and
    length.  [i] is the index of the next group, [cur] the run that ends
    there and [best] the longest so far. *)
Fixpoint zero_span (i : nat) (cur best : nat * nat) (segments : list Z) : nat * nat :=
  match segments with
  | [] => best
  | g :: segments =>
      if g =? 0 then
        let cur := ((if (cur.2 =? 0)%nat then i else cur.1), S cur.2) in
        zero_span (S i) cur (if (best.2 <? cur.2)%nat then cur else best) segments
      else zero_span (S i) (0%nat, 0%nat) best segments
  end.

(** [Ipv6Addr::to_ipv4_mapped]. *)
Definition to_ipv4_mapped (segments : list Z) : option (list Z) :=
  match segments with
  | [a; b; c; d; e; f; ab; cd] =>
      if bool_decide ([a; b; c; d; e; f] = [0; 0; 0; 0; 0; 65535])
      then Some [ab / 256; ab mod 256; cd / 256; cd mod 256]
      else None
  | _ => None
  end.

Definition fmt_groups (gs : list Z) : string := join ":" (fmt_hex <$> gs).

Definition fmt_ipv6 (segments : list Z) : string :=
  match to_ipv4_mapped segments with
  | Some v4 => "::ffff:" +:+ fmt_ipv4 v4
  | None =>
      let '(start, len) := zero_span 0 (0%nat, 0%nat) (0%nat, 0%nat) segments in
      if (1 <? len)%nat then
        fmt_groups (take start segments) +:+ "::" +:+ fmt_groups (drop (start + len) segments)
      else fmt_groups segments
  end.

(** [SocketAddr::to_string]. *)
Definition SocketAddr_to_string (a : SocketAddr) : string :=
  match a with
  | SocketAddrV4 ip port => fmt_ipv4 ip +:+ ":" +:+ fmt_dec port
  | SocketAddrV6 segments scope_id port =>
      if scope_id =? 0 then "[" +:+ fmt_ipv6 segments +:+ "]:" +:+ fmt_dec port
      else "[" +:+ fmt_ipv6 segments +:+ "%" +:+ fmt_dec scope_id +:+ "]:" +:+ fmt_dec port
  end.

Example fmt_addrs :
  SocketAddr_to_string <$>
    [SocketAddrV4 [127; 0; 0; 1] 8443;
     SocketAddrV6 [0; 0; 0; 0; 0; 0; 0; 0] 0 80;
     SocketAddrV6 [8193; 3512; 0; 0; 1; 0; 0; 1] 0 443;
     SocketAddrV6 [65152; 0; 0; 0; 0; 0; 0; 1] 3 443;
     SocketAddrV6 [0; 0; 0; 0; 0; 65535; 2560; 7] 0 1;
     SocketAddrV6 [1; 0; 2; 3; 4; 5; 6; 171] 0 65535]
  = ["127.0.0.1:8443"; "[::]:80"; "[2001:db8::1:0:0:1]:443"; "[fe80::1%3]:443";
     "[::ffff:10.0.0.7]:1"; "[1:0:2:3:4:5:6:ab]:65535"].
Proof. reflexivity. Qed.

(** ** Printed numbers *)

Definition eval_digits (radix acc : Z) (ds : list Z) : Z := foldl (λ a d, a * radix + d) acc ds.

Definition is_digits (radix : Z) (ds : list Z) : Prop := Forall (λ d, 0 ≤ d < radix) ds.

Lemma eval_digits_ge radix acc ds :
  0 ≤ acc → 2 ≤ radix → is_digits radix ds → acc ≤ eval_digits radix acc ds.
Proof.
  intros Ha Hr Hd. revert acc Ha. induction Hd as [|d ds Hd Hds IH]; intros acc Ha; simpl; [lia|].
  transitivity (acc * radix + d); [nia|]. apply IH. nia.
Qed.

(** What the digits of a number are. *)
Record digits_of (radix n : Z) (ds : list Z) : Prop := {
  do_digits : is_digits radix ds;
  do_value : eval_digits radix 0 ds = n;
  do_nonempty : ds ≠ [];
  do_length k : (0 < k)%nat → n < radix ^ Z.of_nat k → (length ds ≤ k)%nat;
  do_leading : head ds = Some 0 → ds = [0];
}.

Lemma eval_digits_app radix acc ds ds' :
  eval_digits radix acc (ds ++ ds') = eval_digits radix (eval_digits radix acc ds) ds'.
Proof. apply foldl_app. Qed.

Lemma digits_of_small radix n : 0 ≤ n < radix → digits_of radix n [n].
Proof.
  intros Hn. split; simpl; [|lia|done|lia|by intros [= ->]]. constructor; [done|constructor].
Qed.

Lemma digits_of_snoc radix n ds :
  2 ≤ radix → radix ≤ n → digits_of radix (n / radix) ds → digits_of radix n (ds ++ [n mod radix]).
Proof.
  intros Hr Hn [Hd Hv Hne Hl Hh].
  assert (0 < n / radix) as Hq by (apply Z.div_str_pos; lia).
  split.
  - apply Forall_app; split; [done|]. constructor; [|constructor]. apply Z.mod_pos_bound. lia.
  - rewrite eval_digits_app, Hv. simpl. rewrite Z.mul_comm. symmetry. apply Z.div_mod. lia.
  - by destruct ds.
  - intros [|k] Hk Hlt; [lia|]. rewrite length_app. simpl.
    rewrite Nat2Z.inj_succ, Z.pow_succ_r in Hlt by lia.
    assert (n / radix < radix ^ Z.of_nat k) by (apply Z.div_lt_upper_bound; lia).
    destruct k as [|k]; [simpl in *; lia|]. specialize (Hl (S k)). lia.
  - destruct ds as [|d ds]; [done|]. intros [= ->]. specialize (Hh eq_refl). injection Hh as ->.
    unfold eval_digits in Hv. simpl in Hv. lia.
Qed.

Lemma radix_digits_spec fuel radix n acc :
  2 ≤ radix → 0 ≤ n < radix ^ Z.of_nat fuel →
  (0 < fuel)%nat → ∃ ds, radix_digits fuel radix n acc = ds ++ acc ∧ digits_of radix n ds.
Proof.
  intros Hr. revert n acc. induction fuel as [|fuel IH]; intros n acc Hn Hf; [lia|]. simpl.
  destruct (Z.ltb_spec n radix) as [Hlt|Hge].
  - exists [n]. rewrite Z.mod_small by lia. split; [done|]. apply digits_of_small. lia.
  - rewrite Nat2Z.inj_succ, Z.pow_succ_r in Hn by lia.
    assert (0 < fuel)%nat by (destruct fuel; [simpl in Hn; lia|lia]).
    destruct (IH (n / radix) (n mod radix :: acc)) as (ds&->&Hds); [|done|].
    + split; [apply Z.div_pos; lia|apply Z.div_lt_upper_bound; lia].
    + exists (ds ++ [n mod radix]). rewrite <-app_assoc. split; [done|]. by apply digits_of_snoc.
Qed.

Lemma fmt_radix_digits radix n :
  2 ≤ radix → 0 ≤ n < 2 ^ 64 → ∃ ds, fmt_radix radix n = digits_str ds ∧ digits_of radix n ds.
Proof.
  intros Hr Hn. destruct (radix_digits_spec 64 radix n []) as (ds&Heq&Hds); [done| |lia|].
  - split; [lia|]. eapply Z.lt_le_trans; [apply Hn|]. apply Z.pow_le_mono_l. lia.
  - exists ds. unfold fmt_radix. by rewrite Heq, app_nil_r.
Qed.

(** ** Reading a printed number *)

(** The text does not go on with a digit. *)
Definition stops (radix : Z) (rest : string) : Prop :=
  match rest with EmptyString => True | String a _ => to_digit radix a = None end.

Lemma to_digit_char radix d : 0 ≤ d < radix → radix ≤ 16 → to_digit radix (digit_char d) = Some d.
Proof.
  intros Hd Hr. assert (d ∈ seqZ 0 16) as Hin by (apply elem_of_seqZ; lia).
  assert (Forall (λ d, byte_of_ascii (digit_char d) = if d <? 10 then 48 + d else 87 + d)
            (seqZ 0 16)) as Hall by (vm_compute; repeat constructor).
  rewrite Forall_forall in Hall. pose proof (Hall d Hin) as Hb.
  unfold to_digit, in_range. rewrite Hb.
  destruct (Z.ltb_spec d 10); repeat (case_match; simpl in *); rewrite ?andb_true_iff, ?andb_false_iff in *;
    f_equal; lia.
Qed.

Lemma number_loop_digits radix md max acc count ds rest :
  2 ≤ radix ≤ 16 → 0 ≤ acc → is_digits radix ds → stops radix rest →
  match md with
  | Some m => (count + length ds ≤ m)%nat
  | None => eval_digits radix acc ds ≤ max
  end →
  number_loop radix md max acc count (digits_str ds +:+ rest) =
  Some (eval_digits radix acc ds, (count + length ds)%nat, rest).
Proof.
  intros Hr Ha Hd Hs. revert acc count Ha. induction Hd as [|d ds Hd Hds IH]; intros acc count Ha Hb.
  - simpl. rewrite Nat.add_0_r. destruct rest as [|a rest]; [done|]. simpl in *. by rewrite Hs.
  - simpl digits_str. rewrite str_app_cons. simpl number_loop. rewrite to_digit_char by lia.
    assert (0 ≤ acc * radix + d) by nia.
    destruct md as [m|]; simpl in Hb.
    + rewrite (proj2 (Nat.ltb_ge _ _)) by lia. rewrite IH by (done || lia). do 3 f_equal. simpl. lia.
    + pose proof (eval_digits_ge radix (acc * radix + d) ds ltac:(done) ltac:(lia) Hds) as Hge.
      unfold eval_digits in Hb, Hge. simpl in Hb.
      rewrite !(proj2 (Z.ltb_ge _ _)) by lia. rewrite IH by done. do 3 f_equal. simpl. lia.
Qed.

Lemma read_number_digits radix md max az n ds rest :
  2 ≤ radix ≤ 16 → digits_of radix n ds → stops radix rest → n ≤ max →
  match md with Some m => (0 < m)%nat ∧ n < radix ^ Z.of_nat m | None => True end →
  read_number radix md max az (digits_str ds +:+ rest) = Some (n, rest).
Proof.
  intros Hr [Hd Hv Hne Hl Hh] Hs Hn Hm. unfold read_number.
  rewrite number_loop_digits; [|done|lia|done|done|].
  - rewrite Hv. destruct ds as [|d ds]; [done|]. simpl.
    rewrite (proj2 (Z.leb_le _ _) Hn). destruct az; [done|]. simpl.
    destruct (starts_with _ _) eqn:H0; [|done]. simpl.
    assert (d = 0) as ->.
    { apply starts_with_spec in H0 as [r H0]. rewrite str_app_cons in H0. injection H0 as H0 _.
      pose proof (to_digit_char radix d) as Htd. rewrite H0 in Htd.
      apply Forall_cons in Hd as [Hd _]. specialize (Htd Hd ltac:(lia)).
      unfold to_digit in Htd. simpl in Htd. case_match; simplify_eq; done. }
    by injection (Hh eq_refl) as ->.
  - destruct md as [m|]; [|by rewrite Hv]. destruct Hm as [Hm0 Hm]. specialize (Hl m Hm0 Hm). lia.
Qed.

(** A decimal or hexadecimal number is read back. *)
Lemma read_fmt_dec md max az n rest :
  0 ≤ n ≤ max → max < 2 ^ 64 → stops 10 rest →
  match md with Some m => (0 < m)%nat ∧ max < 10 ^ Z.of_nat m | None => True end →
  read_number 10 md max az (fmt_dec n +:+ rest) = Some (n, rest).
Proof.
  intros Hn Hmax Hs Hm. destruct (fmt_radix_digits 10 n) as (ds&Heq&Hds); [lia..|].
  unfold fmt_dec. rewrite Heq. apply read_number_digits; [lia|done|done|lia|].
  destruct md; [split; [tauto|lia]|done].
Qed.

Lemma read_fmt_hex n rest :
  0 ≤ n ≤ u16_max → stops 16 rest →
  read_number 16 (Some 4%nat) u16_max true (fmt_hex n +:+ rest) = Some (n, rest).
Proof.
  unfold u16_max. intros Hn Hs. destruct (fmt_radix_digits 16 n) as (ds&Heq&Hds); [lia..|].
  unfold fmt_hex. rewrite Heq. apply read_number_digits; [lia|done|done|lia|]. split; [lia|].
  change (16 ^ Z.of_nat 4) with 65536. lia.
Qed.

Lemma read_number_stops radix md max az s : stops radix s → read_number radix md max az s = None.
Proof.
  intros Hs. unfold read_number. destruct s as [|a s]; [done|]. simpl in *. by rewrite Hs.
Qed.

(** ** Addresses read back *)

(** [join], written from the position of its first item. *)
Fixpoint fmt_seq (sep : string) (i : nat) (xs : list string) : string :=
  match xs with
  | [] => EmptyString
  | x :: xs => (match i with O => EmptyString | S _ => sep end) +:+ x +:+ fmt_seq sep (S i) xs
  end.

Lemma join_cons_seq sep x xs i : join sep (x :: xs) = x +:+ fmt_seq sep (S i) xs.
Proof.
  revert x i. induction xs as [|y xs IH]; intros x i; [by simpl; rewrite str_app_nil_r|].
  change (join sep (x :: y :: xs)) with (x +:+ sep +:+ join sep (y :: xs)).
  by rewrite (IH y (S i)).
Qed.

Lemma join_seq sep xs : join sep xs = fmt_seq sep 0 xs.
Proof. destruct xs as [|x xs]; [done|]. apply join_cons_seq. Qed.

Lemma read_separator_fmt {A} c i (inner : reader A) s :
  read_separator c i inner
    ((match i with O => EmptyString | S _ => String c EmptyString end) +:+ s) = inner s.
Proof.
  destruct i as [|i]; [done|]. rewrite str_app_cons. simpl. by rewrite Ascii.eqb_refl.
Qed.

Lemma read_octets_fmt os i rest :
  Forall (λ b, 0 ≤ b ≤ 255) os → stops 10 rest →
  read_octets (length os) i (fmt_seq "." i (fmt_dec <$> os) +:+ rest) = Some (os, rest).
Proof.
  intros Hos Hs. revert i. induction Hos as [|b os Hb Hos IH]; intros i; [done|].
  rewrite fmap_cons. cbn [length read_octets fmt_seq]. rewrite <-!str_app_assoc.
  rewrite read_separator_fmt, read_fmt_dec, IH; [done..|by destruct os|by split; [lia|]].
Qed.

Lemma read_ipv4_fmt ip rest :
  length ip = 4%nat → Forall (λ b, 0 ≤ b ≤ 255) ip → stops 10 rest →
  read_ipv4_addr (fmt_ipv4 ip +:+ rest) = Some (ip, rest).
Proof.
  intros Hl Hip Hs. unfold read_ipv4_addr, fmt_ipv4. rewrite join_seq, <-Hl.
  by apply read_octets_fmt.
Qed.

(** The first character that is not a hexadecimal digit. *)
Fixpoint first_stop (s : string) : option ascii :=
  match s with
  | EmptyString => None
  | String a s => match to_digit 16 a with Some _ => first_stop s | None => Some a end
  end.

Lemma to_digit_10_16 a d : to_digit 10 a = Some d → is_Some (to_digit 16 a).
Proof.
  unfold to_digit, in_range. set (n := byte_of_ascii a).
  destruct (_ && (n <=? 57)) eqn:E1; [|destruct (_ && (n <=? 122)) eqn:E2;
    [|destruct (_ && (n <=? 90)) eqn:E3]].
  - intros H. rewrite (proj2 (Z.ltb_lt _ _)); [eauto|].
    apply andb_true_iff in E1 as [_ E1%Z.leb_le]. lia.
  - rewrite (proj2 (Z.ltb_ge _ 10)); [done|]. apply andb_true_iff in E2 as [E2%Z.leb_le _]. lia.
  - rewrite (proj2 (Z.ltb_ge _ 10)); [done|]. apply andb_true_iff in E3 as [E3%Z.leb_le _]. lia.
  - done.
Qed.

Lemma number_loop_first_stop md max acc c s v c' rest :
  number_loop 10 md max acc c s = Some (v, c', rest) → first_stop rest = first_stop s.
Proof.
  revert acc c. induction s as [|a s IH]; intros acc c Hl; simpl in Hl; [by simplify_eq|].
  destruct (to_digit 10 a) as [d|] eqn:Hd; [|by simplify_eq].
  simpl. destruct (to_digit_10_16 a d Hd) as [d' ->].
  destruct md; repeat case_match; simplify_eq; by eapply IH.
Qed.

(** No dotted address where a group is followed by something else than a dot. *)
Lemma read_ipv4_no_dot s : first_stop s ≠ Some "."%char → read_ipv4_addr s = None.
Proof.
  intros Hs. unfold read_ipv4_addr. cbn [read_octets read_separator].
  destruct (read_number 10 _ 255 false s) as [[b s1]|] eqn:Hr; [|done].
  unfold read_given_char. destruct s1 as [|a s1]; [done|].
  destruct (Ascii.eqb_spec a "."); [|done]. subst a. exfalso. apply Hs.
  unfold read_number in Hr. destruct (number_loop _ _ _ _ _ _) as [[[v c] rest]|] eqn:Hl; [|done].
  apply number_loop_first_stop in Hl. rewrite <-Hl. by repeat case_match; simplify_eq.
Qed.

Lemma digits_str_first_stop ds rest :
  is_digits 16 ds → first_stop (digits_str ds +:+ rest) = first_stop rest.
Proof.
  induction 1 as [|d ds Hd Hds IH]; [done|]. simpl digits_str. rewrite str_app_cons. simpl.
  by rewrite to_digit_char by lia.
Qed.

Lemma fmt_hex_first_stop n rest :
  0 ≤ n ≤ u16_max → first_stop (fmt_hex n +:+ rest) = first_stop rest.
Proof.
  unfold u16_max. intros Hn. destruct (fmt_radix_digits 16 n) as (ds&Heq&[Hd _ _ _ _]); [lia..|].
  unfold fmt_hex. rewrite Heq. by apply digits_str_first_stop.
Qed.

(** The text does not go on with a group: it starts with none of a digit, a
    dot, or a colon and a digit. *)
Definition ends_groups (rest : string) : Prop :=
  match rest with
  | EmptyString => True
  | String a s => to_digit 16 a = None ∧ a ≠ "."%char ∧ (a = ":"%char → stops 16 s ∧ first_stop s ≠ Some "."%char)
  end.

Lemma ends_groups_stops rest : ends_groups rest → stops 16 rest.
Proof. destruct rest; [done|]. simpl. tauto. Qed.

Lemma ends_groups_no_dot rest : ends_groups rest → first_stop rest ≠ Some "."%char.
Proof. destruct rest as [|a rest]; [done|]. simpl. intros (->&?&_). congruence. Qed.

Lemma ends_groups_next i rest :
  ends_groups rest →
  read_separator ":" i read_ipv4_addr rest = None ∧
  read_separator ":" i (read_number 16 (Some 4%nat) u16_max true) rest = None.
Proof.
  intros He. destruct i as [|i]; simpl.
  - split; [apply read_ipv4_no_dot; by apply ends_groups_no_dot|].
    apply read_number_stops. by apply ends_groups_stops.
  - destruct rest as [|a rest]; [done|]. simpl in *. destruct (Ascii.eqb_spec a ":"); [|done].
    destruct He as (_&_&He). destruct (He e) as [Hst Hd].
    by rewrite read_ipv4_no_dot, read_number_stops.
Qed.

Lemma fmt_seq_no_dot i gs rest :
  Forall (λ g, 0 ≤ g ≤ u16_max) gs → ends_groups rest →
  first_stop (fmt_seq ":" (S i) (fmt_hex <$> gs) +:+ rest) ≠ Some "."%char ∧
  stops 16 (fmt_seq ":" (S i) (fmt_hex <$> gs) +:+ rest).
Proof.
  intros Hgs He. destruct Hgs as [|g gs Hg Hgs].
  - split; [by apply ends_groups_no_dot|by apply ends_groups_stops].
  - done.
Qed.

Lemma read_groups_fmt n i gs rest :
  (length gs ≤ n)%nat → Forall (λ g, 0 ≤ g ≤ u16_max) gs → ends_groups rest →
  read_groups n i (fmt_seq ":" i (fmt_hex <$> gs) +:+ rest) = (gs, false, rest).
Proof.
  intros Hl Hgs He. revert n i Hl. induction Hgs as [|g gs Hg Hgs IH]; intros n i Hl.
  - destruct n as [|n]; [done|]. destruct (ends_groups_next i rest He) as [H4 Hn].
    change (fmt_seq ":" i (fmt_hex <$> []) +:+ rest) with rest. cbn [read_groups].
    rewrite H4, Hn. by destruct n.
  - simpl in Hl. destruct n as [|n]; [lia|]. rewrite fmap_cons.
    cbn [read_groups fmt_seq]. rewrite <-!str_app_assoc, !read_separator_fmt.
    destruct (fmt_seq_no_dot i gs rest Hgs He) as [Hd Hst].
    rewrite read_ipv4_no_dot by by rewrite fmt_hex_first_stop.
    rewrite read_fmt_hex, IH by (done || lia). by destruct n.
Qed.

(** The zero run found is a run of zeros. *)
Definition run_at (l : list Z) (r : nat * nat) : Prop :=
  ∃ p q, l = p ++ replicate r.2 0 ++ q ∧ length p = r.1.

Lemma zero_span_run pre cur best suf :
  (cur.2 ≠ 0%nat → ∃ p, pre = p ++ replicate cur.2 0 ∧ length p = cur.1) → run_at pre best →
  run_at (pre ++ suf) (zero_span (length pre) cur best suf).
Proof.
  revert pre cur best. induction suf as [|g suf IH]; intros pre cur best Hc Hb; simpl.
  { by rewrite app_nil_r. }
  assert (run_at (pre ++ [g]) best) as Hb'.
  { destruct Hb as (p&q&->&?). exists p, (q ++ [g]). by rewrite <-!app_assoc. }
  rewrite (cons_middle g pre suf), app_assoc.
  replace (S (length pre)) with (length (pre ++ [g])) by (rewrite length_app; simpl; lia).
  destruct (Z.eqb_spec g 0) as [->|Hg]; [|by apply IH].
  set (cur' := (_, _)). assert (∃ p, pre ++ [0] = p ++ replicate cur'.2 0 ∧ length p = cur'.1) as Hc'.
  { unfold cur'. simpl. destruct (Nat.eqb_spec cur.2 0) as [->|Hne]; [by exists pre|].
    destruct (Hc Hne) as (p&->&Hp). exists p. split; [|done].
    rewrite <-app_assoc. f_equal. by rewrite <-replicate_cons_app. }
  apply IH; [done|]. destruct (_ <? _)%nat; [|done].
  destruct Hc' as (p&->&Hp). exists p, []. by rewrite app_nil_r.
Qed.

(** The text after an IPv6 address. *)
Definition closes (rest : string) : Prop :=
  ∃ s, rest = String "]" s ∨ rest = String "%" s.

Lemma closes_ends rest : closes rest → ends_groups rest.
Proof. by intros [s [->| ->]]. Qed.

Lemma colons_ends rest : stops 16 rest → first_stop rest ≠ Some "."%char →
  ends_groups (String ":" rest).
Proof. intros Hs Hd. by split. Qed.

Lemma read_compressed_fmt head tail rest :
  (length head + length tail ≤ 6)%nat → Forall (λ g, 0 ≤ g ≤ u16_max) head →
  Forall (λ g, 0 ≤ g ≤ u16_max) tail → ends_groups rest →
  read_ipv6_addr (fmt_groups head +:+ "::" +:+ fmt_groups tail +:+ rest) =
  Some (head ++ replicate (8 - length head - length tail) 0 ++ tail, rest).
Proof.
  intros Hl Hh Ht He. unfold read_ipv6_addr, fmt_groups. rewrite !join_seq, !str_app_cons.
  rewrite read_groups_fmt; [|lia|done|by apply colons_ends].
  rewrite (proj2 (Nat.eqb_neq _ _)) by lia. simpl.
  change (EmptyString +:+ ?x) with x.
  by rewrite read_groups_fmt by (done || lia).
Qed.

(** One step of [read_groups]. *)
Lemma read_groups_hex n i s g rest :
  read_separator ":" i read_ipv4_addr s = None →
  read_separator ":" i (read_number 16 (Some 4%nat) u16_max true) s = Some (g, rest) →
  read_groups (S n) i s = let '(gs, v4, rest') := read_groups n (S i) rest in (g :: gs, v4, rest').
Proof. intros H4 Hg. cbn [read_groups]. rewrite H4, Hg. by destruct n. Qed.

Lemma read_groups_v4 n i s a b c d rest :
  read_separator ":" i read_ipv4_addr s = Some ([a; b; c; d], rest) →
  read_groups (S (S n)) i s = ([a * 256 + b; c * 256 + d], true, rest).
Proof. intros H4. cbn [read_groups]. by rewrite H4. Qed.

Lemma read_mapped_fmt ab cd rest :
  0 ≤ ab ≤ u16_max → 0 ≤ cd ≤ u16_max → stops 10 rest →
  read_ipv6_addr ("::ffff:" +:+ fmt_ipv4 [ab / 256; ab mod 256; cd / 256; cd mod 256] +:+ rest) =
  Some ([0; 0; 0; 0; 0; 65535; ab; cd], rest).
Proof.
  unfold u16_max. intros Hab Hcd Hs. unfold read_ipv6_addr. rewrite !str_app_cons.
  change (EmptyString +:+ ?x) with x. set (v4 := fmt_ipv4 _ +:+ rest).
  change (read_groups 8 0 (String ":" ?x)) with (@nil Z, false, String ":" x). cbn [length Nat.eqb].
  do 2 (change (read_given_char ":" (String ":" ?x)) with (Some (tt, x)); cbv iota beta).
  assert (read_ipv4_addr v4 = Some ([ab / 256; ab mod 256; cd / 256; cd mod 256], rest)) as H4.
  { apply read_ipv4_fmt; [done| |done].
    repeat (constructor; [Z.div_mod_to_equations; lia|]). constructor. }
  change (8 - (0 + 1))%nat with 7%nat.
  assert (read_groups 7 0 (String "f" (String "f" (String "f" (String "f" (String ":" v4))))) =
          ([65535; ab; cd], true, rest)) as ->.
  { rewrite (read_groups_hex 6 0 _ 65535 (String ":" v4)) by (done || by apply read_ipv4_no_dot).
    rewrite (read_groups_v4 4 1 _ _ _ _ _ rest) by exact H4.
    f_equal. f_equal. f_equal. f_equal; [|f_equal]; Z.div_mod_to_equations; lia. }
  done.
Qed.

Lemma read_ipv6_fmt segs rest :
  length segs = 8%nat → Forall (λ g, 0 ≤ g ≤ u16_max) segs → closes rest →
  read_ipv6_addr (fmt_ipv6 segs +:+ rest) = Some (segs, rest).
Proof.
  intros Hl Hs Hc. pose proof (closes_ends _ Hc) as He. unfold fmt_ipv6.
  destruct (to_ipv4_mapped segs) as [v4|] eqn:Hm.
  - do 8 (destruct segs as [|? segs]; [done|]). destruct segs; [|done]. simpl in Hm.
    case_bool_decide as Hz; [|done]. injection Hz as -> -> -> -> -> ->. injection Hm as <-.
    rewrite <-str_app_assoc. repeat (apply Forall_cons in Hs as [? Hs]).
    apply read_mapped_fmt; [done..|]. by destruct Hc as [s [->| ->]].
  - pose proof (zero_span_run [] (0%nat, 0%nat) (0%nat, 0%nat) segs ltac:(done)) as Hrun.
    destruct Hrun as (p&q&Heq&Hp); [by exists [], []|]. simpl in Heq, Hp.
    destruct (zero_span 0 _ _ segs) as [start len]. simpl in Heq, Hp.
    destruct (Nat.ltb_spec 1 len) as [Hlen|Hlen].
    + subst segs start. rewrite take_app_length.
      rewrite app_assoc, drop_app_length' by (rewrite length_app, length_replicate; lia).
      rewrite !length_app, length_replicate in Hl. rewrite !Forall_app in Hs.
      rewrite <-!str_app_assoc, read_compressed_fmt; [|lia|naive_solver..].
      rewrite <-app_assoc. do 3 f_equal. f_equal. f_equal. lia.
    + unfold read_ipv6_addr, fmt_groups. rewrite join_seq, read_groups_fmt by (done || lia).
      by rewrite Hl.
Qed.

(** An address the type can hold: octets, groups, scope and port in range. *)
Definition addr_ok (a : SocketAddr) : Prop :=
  match a with
  | SocketAddrV4 ip port =>
      length ip = 4%nat ∧ Forall (λ b, 0 ≤ b ≤ 255) ip ∧ 0 ≤ port ≤ u16_max
  | SocketAddrV6 segments scope_id port =>
      length segments = 8%nat ∧ Forall (λ g, 0 ≤ g ≤ u16_max) segments ∧
      0 ≤ scope_id ≤ u32_max ∧ 0 ≤ port ≤ u16_max
  end.

Lemma read_port_fmt port :
  0 ≤ port ≤ u16_max → read_port (String ":" (fmt_dec port)) = Some (port, EmptyString).
Proof.
  intros Hp. unfold read_port. simpl. rewrite <-(str_app_nil_r (fmt_dec port)).
  by apply read_fmt_dec.
Qed.

Lemma read_v6_fmt segs scope port sc :
  length segs = 8%nat → Forall (λ g, 0 ≤ g ≤ u16_max) segs → 0 ≤ port ≤ u16_max →
  closes (sc +:+ "]:" +:+ fmt_dec port) →
  default (0, sc +:+ "]:" +:+ fmt_dec port) (read_scope_id (sc +:+ "]:" +:+ fmt_dec port)) =
    (scope, "]:" +:+ fmt_dec port) →
  SocketAddr_from_str ("[" +:+ fmt_ipv6 segs +:+ sc +:+ "]:" +:+ fmt_dec port) =
  Some (SocketAddrV6 segs scope port).
Proof.
  intros Hl Hs Hp Hc Hsc. unfold SocketAddr_from_str.
  rewrite (str_app_cons "["). change (EmptyString +:+ ?x) with x.
  change (read_socket_addr_v4 (String "[" _)) with (@None (SocketAddr * string)). cbv iota.
  unfold read_socket_addr_v6. simpl read_given_char. cbv iota beta.
  rewrite read_ipv6_fmt by done. rewrite Hsc. rewrite !str_app_cons. simpl.
  change (EmptyString +:+ ?x) with x. by rewrite read_port_fmt.
Qed.

(** ** Properties *)


