(* ===== verification/Routing.v ===== *)
(** * The route table ([src/config.rs], lines 36-73 and 672-757)

    Routes, their match rule and their order of preference, and the sorted
    [RouteTable] the proxy selects an upstream from. *)

From S2P Require Import Prelude RustStr.

(** ** Data *)

(** Which layer supplied a value. *)
Inductive Source :=
| Source_Default
| Source_File
| Source_Discovered
| Source_Env
| Source_Cli.

#[export] Instance Source_eq_dec : EqDecision Source.
Proof. solve_decision. Defined.

Definition route_rank (s : Source) : nat :=
  match s with
  | Source_Discovered | Source_Env | Source_Cli => 1
  | Source_File | Source_Default => 0
  end.

Record Route := mkRoute {
  route_name : string;
  route_host : string;
  route_path_prefix : string;
  route_upstream : string;
  route_strict_attestation : option bool;
  route_source : Source;
}.

#[export] Instance Route_eq_dec : EqDecision Route.
Proof. solve_decision. Defined.

(** ** Matching *)

(** The ordering key: host bonus, prefix length, source rank. *)
Definition specificity (r : Route) : nat * nat * nat :=
  let host_bonus := if is_empty (route_host r) then 0 else 1 in
  (host_bonus, String.length (route_path_prefix r), route_rank (route_source r)).

Definition path_prefix_matches (prefix path : string) : bool :=
  let p := trim_end_matches "/" prefix in
  if is_empty p then true
  else match strip_prefix p path with
       | Some rest => is_empty rest || starts_with "/" rest
       | None => false
       end.

Definition matches (r : Route) (host path : string) : bool :=
  if negb (is_empty (route_host r)) && negb (eq_ignore_ascii_case host (route_host r))
  then false
  else if negb (path_prefix_matches (route_path_prefix r) path) then false
  else true.

(** ** The table *)

(** The lexicographic order on keys. *)
Definition key_ge (a b : nat * nat * nat) : bool :=
  let '(a1, a2, a3) := a in
  let '(b1, b2, b3) := b in
  (b1 <? a1) || ((b1 =? a1) && ((b2 <? a2) || ((b2 =? a2) && (b3 <=? a3)))).

(** [r] sorts before [r'] or ties with it under the reversed key. *)
Definition route_ge (r r' : Route) : bool := key_ge (specificity r) (specificity r').

Record RouteTable := mkRouteTable { routes : list Route }.

(** [RouteTable::default]. *)
Definition RouteTable_default : RouteTable := mkRouteTable [].

Definition RouteTable_new (rs : list Route) : RouteTable :=
  mkRouteTable (stable_sort route_ge rs).

Definition select (t : RouteTable) (host path : string) : option Route :=
  List.find (λ r, matches r host path) (routes t).

Definition RouteTable_is_empty (t : RouteTable) : bool :=
  match routes t with [] => true | _ => false end.

(** ** Lemmas *)

Lemma key_ge_total a b : key_ge a b = true ∨ key_ge b a = true.
Proof.
  destruct a as [[a1 a2] a3], b as [[b1 b2] b3]. unfold key_ge.
  repeat rewrite ?orb_true_iff, ?andb_true_iff, ?Nat.ltb_lt, ?Nat.eqb_eq, ?Nat.leb_le. lia.
Qed.

Lemma key_ge_trans a b c : key_ge a b = true → key_ge b c = true → key_ge a c = true.
Proof.
  destruct a as [[a1 a2] a3], b as [[b1 b2] b3], c as [[c1 c2] c3]. unfold key_ge.
  repeat rewrite ?orb_true_iff, ?andb_true_iff, ?Nat.ltb_lt, ?Nat.eqb_eq, ?Nat.leb_le. lia.
Qed.

Lemma route_ge_total r r' : route_ge r r' = true ∨ route_ge r' r = true.
Proof. apply key_ge_total. Qed.

Lemma route_ge_trans r r' r'' :
  route_ge r r' = true → route_ge r' r'' = true → route_ge r r'' = true.
Proof. apply key_ge_trans. Qed.

#[export] Hint Resolve route_ge_total route_ge_trans : proxy.

Lemma matches_spec r host path :
  matches r host path = true ↔
  (route_host r = EmptyString ∨ eq_ignore_ascii_case host (route_host r) = true) ∧
  path_prefix_matches (route_path_prefix r) path = true.
Proof.
  unfold matches. destruct (route_host r) as [|a h]; simpl.
  - destruct (path_prefix_matches _ _); naive_solver.
  - destruct (eq_ignore_ascii_case _ _), (path_prefix_matches _ _); naive_solver.
Qed.

(** The reference selection: the first of the most specific matching routes. *)
Definition best_route (rs : list Route) (host path : string) : option Route :=
  first_max route_ge (List.filter (λ r, matches r host path) rs).

Lemma select_new rs host path : select (RouteTable_new rs) host path = best_route rs host path.
Proof. apply find_stable_sort; eauto with proxy. Qed.

Lemma best_route_Some rs host path r :
  best_route rs host path = Some r ↔
  ∃ l1 l2, List.filter (λ r, matches r host path) rs = l1 ++ r :: l2 ∧
    Forall (λ r', route_ge r' r = false) l1 ∧ Forall (λ r', route_ge r r' = true) l2.
Proof. apply first_max_Some; eauto with proxy. Qed.

Lemma best_route_ge rs host path r r' :
  best_route rs host path = Some r → r' ∈ rs → matches r' host path = true →
  route_ge r r' = true.
Proof.
  intros (l1&l2&Heq&H1&H2)%best_route_Some Hin Hm.
  assert (r' ∈ List.filter (λ r, matches r host path) rs) as Hf
    by (by apply list_elem_of_In, filter_In; rewrite <-list_elem_of_In).
  rewrite Heq in Hf. rewrite Forall_forall in H1, H2.
  apply elem_of_app in Hf as [Hf%H1|[->|Hf]%elem_of_cons].
  - destruct (route_ge_total r r'); congruence.
  - by destruct (route_ge_total r r).
  - auto.
Qed.

Lemma best_route_elem rs host path r :
  best_route rs host path = Some r → r ∈ rs ∧ matches r host path = true.
Proof.
  intros (l1&l2&Heq&_)%best_route_Some.
  assert (In r (List.filter (λ r, matches r host path) rs)) as Hin
    by (rewrite Heq; apply in_elt).
  apply filter_In in Hin as [? ?]. by rewrite list_elem_of_In.
Qed.

Lemma best_route_None rs host path :
  best_route rs host path = None ↔ ∀ r, r ∈ rs → matches r host path = false.
Proof.
  unfold best_route. rewrite first_max_None. split.
  - intros Hf r Hr. apply not_true_is_false. intros Hm.
    assert (In r (List.filter (λ r, matches r host path) rs)) as Hin
      by (apply filter_In; by rewrite <-list_elem_of_In).
    by rewrite Hf in Hin.
  - intros Hall. destruct (List.filter _ rs) as [|r l] eqn:E; [done|].
    assert (In r (List.filter (λ r, matches r host path) rs)) as Hin
      by (rewrite E; apply in_eq).
    apply filter_In in Hin as [Hr Hm]. rewrite Hall in Hm; [done|].
    by apply list_elem_of_In.
Qed.

(** ** Properties *)

(** C5: [RouteTable::new] followed by [select] returns the reference choice:
    a route is selected exactly when it matches, no earlier matching route is
    at least as specific, and no later one is more specific. *)
Theorem select_correct rs host path r :
  select (RouteTable_new rs) host path = Some r ↔
  ∃ before after, rs = before ++ r :: after ∧
    matches r host path = true ∧
    (∀ r', r' ∈ before → matches r' host path = true → route_ge r' r = false) ∧
    (∀ r', r' ∈ after → matches r' host path = true → route_ge r r' = true).
Proof.
  rewrite select_new, best_route_Some. split.
  - intros (l1&l2&Hf&H1&H2). apply filter_app_cons_inv in Hf as (a&b&->&?&<-&<-).
    rewrite Forall_List_filter in H1, H2. by exists a, b.
  - intros (a&b&->&Hm&H1&H2). eexists _, _. split.
    + by apply filter_app_cons_inv; exists a, b.
    + by rewrite !Forall_List_filter.
Qed.

(** Selection fails exactly when no route of the table matches. *)
Theorem select_none rs host path :
  select (RouteTable_new rs) host path = None ↔
  ∀ r, r ∈ rs → matches r host path = false.
Proof. rewrite select_new. apply best_route_None. Qed.

(** A path prefix matches on segment boundaries only: the prefix without
    its trailing slashes is empty, is the whole path, or is followed in the
    path by a slash. *)
Theorem path_prefix_matches_spec prefix path :
  path_prefix_matches prefix path = true ↔
  let p := trim_end_matches "/" prefix in
  p = EmptyString ∨ path = p ∨ ∃ rest, path = p +:+ "/" +:+ rest.
Proof.
  cbv zeta. unfold path_prefix_matches.
  destruct (trim_end_matches "/" prefix) as [|a p]; simpl is_empty; cbv iota; [naive_solver|].
  destruct (strip_prefix _ path) as [rest|] eqn:E.
  - apply strip_prefix_Some in E as ->. rewrite orb_true_iff, starts_with_spec. split.
    + intros [He|[r ->]]; [|eauto]. destruct rest; [|done]. rewrite str_app_nil_r. auto.
    + intros [?|[Heq|[r Heq]]]; [done| |].
      * rewrite <-(str_app_nil_r (String a p)) in Heq at 2.
        apply (inj (String.app _)) in Heq as ->. auto.
      * apply (inj (String.app _)) in Heq as ->. eauto.
  - rewrite strip_prefix_None in E. split; [done|]. intros [?|[->|[r ->]]]; [done| |].
    + by destruct (E EmptyString); rewrite str_app_nil_r.
    + by destruct (E ("/" +:+ r)).
Qed.

Lemma route_ge_spec r r' :
  route_ge r r' = true ↔
  let '(h, n, k) := specificity r in let '(h', n', k') := specificity r' in
  h' < h ∨ h' = h ∧ (n' < n ∨ n' = n ∧ k' ≤ k).
Proof.
  unfold route_ge, key_ge. destruct (specificity r) as [[h n] k], (specificity r') as [[h' n'] k'].
  by rewrite !orb_true_iff, !andb_true_iff, orb_true_iff, andb_true_iff,
    !Nat.ltb_lt, !Nat.eqb_eq, Nat.leb_le.
Qed.

(** The precedence of the documentation: against every matching route, the
    selected one has a host rule if the other has, a prefix at least as long
    if their host rules tie, and a source that is at least as dynamic if
    their prefixes tie too. *)
Theorem select_precedence rs host path r r'
    (Hsel : select (RouteTable_new rs) host path = Some r)
    (Hin : r' ∈ rs) (Hm : matches r' host path = true) :
  (route_host r = EmptyString → route_host r' = EmptyString) ∧
  (is_empty (route_host r) = is_empty (route_host r') →
   String.length (route_path_prefix r') ≤ String.length (route_path_prefix r) ∧
   (String.length (route_path_prefix r') = String.length (route_path_prefix r) →
    route_rank (route_source r') ≤ route_rank (route_source r))).
Proof.
  rewrite select_new in Hsel. pose proof (best_route_ge _ _ _ _ _ Hsel Hin Hm) as Hge.
  apply route_ge_spec in Hge. simpl in Hge.
  destruct (route_host r), (route_host r'); simpl in *; split; intros; simplify_eq; try done; lia.
Qed.

(** Dynamic precedence: when file routes and discovered routes are merged,
    a file route is selected only if every matching discovered route is
    strictly less specific (by host, then by prefix length). *)
Theorem discovered_overrides_file file disc host path r d
    (Hsel : select (RouteTable_new (file ++ disc)) host path = Some r)
    (Hr : route_source r = Source_File)
    (Hd : d ∈ disc) (Hds : route_source d = Source_Discovered)
    (Hm : matches d host path = true) :
  (route_host d = EmptyString ∧ route_host r ≠ EmptyString) ∨
  (is_empty (route_host d) = is_empty (route_host r) ∧
   String.length (route_path_prefix d) < String.length (route_path_prefix r)).
Proof.
  rewrite select_new in Hsel.
  pose proof (best_route_ge _ _ _ _ d Hsel ltac:(set_solver) Hm) as Hge.
  apply route_ge_spec in Hge. simpl in Hge. rewrite Hr, Hds in Hge. simpl in Hge.
  destruct (route_host r), (route_host d); simpl in *; [right; split; [done|lia]|lia|by left|].
  right. split; [done|lia].
Qed.

(** [sort_by_key] leaves no freedom: every list with the same routes of
    each specificity in the same order that is sorted from most to least
    specific is the table's list. *)
Theorem table_order_unique rs l
    (Hsorted : StronglySorted (λ r r', route_ge r r' = true) l)
    (Hstable : ∀ r, List.filter (λ x, route_ge x r && route_ge r x) l =
                    List.filter (λ x, route_ge x r && route_ge r x) rs) :
  l = routes (RouteTable_new rs).
Proof.
  apply (stable_sorted_unique route_ge); eauto with proxy.
  - apply stable_sort_sorted; eauto with proxy.
  - intros r. rewrite Hstable. symmetry. apply filter_stable_sort; eauto with proxy.
Qed.

(** ** Concrete inputs *)

Definition example_api : Route :=
  mkRoute "api" "api.internal" "/v1" "http://api:8080" None Source_File.
Definition example_any : Route :=
  mkRoute "any" EmptyString EmptyString "http://web:80" None Source_Discovered.

Lemma select_precedence_witness :
  select (RouteTable_new [example_any; example_api]) "API.internal" "/v1/x" = Some example_api ∧
  (route_host example_api = EmptyString → route_host example_any = EmptyString).
Proof.
  split; [vm_compute; reflexivity|].
  apply (select_precedence [example_any; example_api] "API.internal" "/v1/x" example_api example_any).
  - vm_compute. reflexivity.
  - apply list_elem_of_In. left. reflexivity.
  - vm_compute. reflexivity.
Defined.

Lemma discovered_overrides_file_witness :
  (route_host example_any = EmptyString ∧ route_host example_api ≠ EmptyString) ∨
  (is_empty (route_host example_any) = is_empty (route_host example_api) ∧
   String.length (route_path_prefix example_any) < String.length (route_path_prefix example_api)).
Proof.
  apply (discovered_overrides_file [example_api] [example_any] "api.internal" "/v1").
  - vm_compute. reflexivity.
  - reflexivity.
  - apply list_elem_of_In. left. reflexivity.
  - reflexivity.
  - vm_compute. reflexivity.
Defined.

Lemma table_order_unique_witness :
  [example_api; example_any] = routes (RouteTable_new [example_any; example_api]).
Proof.
  apply (table_order_unique [example_any; example_api] [example_api; example_any]).
  - repeat constructor.
  - intros [name host prefix up strict src]. unfold route_ge, specificity. simpl.
    destruct (is_empty host), (String.length prefix) as [|[|[|[|n]]]], (route_rank src) as [|[|k]];
      reflexivity.
Defined.
