(* ===== verification/Config.v ===== *)
(** * Configuration values ([src/config.rs], lines 75-670)

    The selectable kinds with their parsers, the TLS and ACME blocks with
    [TlsConfig::validate], the resolved static configuration, and the TPM
    reference policy with the loading of its root certificates.

    An error message is modelled by a constructor that carries the values the
    message interpolates. *)

From S2P Require Import Prelude RustStr SocketAddr Routing.

(** ** Boolean tokens *)

Definition parse_bool_token (s : string) : option bool :=
  let t := to_ascii_lowercase (trim s) in
  if bool_decide (t ∈ ["1"; "true"; "yes"; "on"]) then Some true
  else if bool_decide (t ∈ ["0"; "false"; "no"; "off"]) then Some false
  else None.

(** ** Kinds selected by name *)

Inductive TeeProviderKind :=
| Tee_Mock
| Tee_Tdx
| Tee_SevSnp
| Tee_Sgx
| Tee_TrustZone
| Tee_AwsNitro
| Tee_Tpm.

Inductive VerifierKind :=
| Ver_Mock
| Ver_Maa
| Ver_Ita
| Ver_AmdSnp
| Ver_Tpm
| Ver_Nvidia
| Ver_Dcap.

Inductive AcmeChallenge :=
| TlsAlpn01
| Http01
| Dns01.

Inductive DnsProviderKind :=
| Dns_Manual
| Dns_Cloudflare.

#[export] Instance TeeProviderKind_eq_dec : EqDecision TeeProviderKind.
Proof. solve_decision. Defined.
#[export] Instance VerifierKind_eq_dec : EqDecision VerifierKind.
Proof. solve_decision. Defined.
#[export] Instance AcmeChallenge_eq_dec : EqDecision AcmeChallenge.
Proof. solve_decision. Defined.
#[export] Instance DnsProviderKind_eq_dec : EqDecision DnsProviderKind.
Proof. solve_decision. Defined.

Definition TeeProviderKind_is_mock (k : TeeProviderKind) : bool :=
  match k with Tee_Mock => true | _ => false end.

Definition VerifierKind_is_mock (k : VerifierKind) : bool :=
  match k with Ver_Mock => true | _ => false end.

Definition TeeProviderKind_as_str (k : TeeProviderKind) : string :=
  match k with
  | Tee_Mock => "mock"
  | Tee_Tdx => "tdx"
  | Tee_SevSnp => "sev_snp"
  | Tee_Sgx => "sgx"
  | Tee_TrustZone => "trustzone"
  | Tee_AwsNitro => "aws_nitro"
  | Tee_Tpm => "tpm"
  end.

Definition VerifierKind_as_str (k : VerifierKind) : string :=
  match k with
  | Ver_Mock => "mock"
  | Ver_Maa => "maa"
  | Ver_Ita => "ita"
  | Ver_AmdSnp => "amd_snp"
  | Ver_Tpm => "tpm"
  | Ver_Nvidia => "nvidia"
  | Ver_Dcap => "dcap"
  end.

Definition AcmeChallenge_as_str (k : AcmeChallenge) : string :=
  match k with
  | TlsAlpn01 => "tls-alpn-01"
  | Http01 => "http-01"
  | Dns01 => "dns-01"
  end.

Definition DnsProviderKind_as_str (k : DnsProviderKind) : string :=
  match k with
  | Dns_Manual => "manual"
  | Dns_Cloudflare => "cloudflare"
  end.

(** The error of the four [FromStr] implementations: the normalised token. *)
Inductive KindError :=
| UnknownTeeProvider (other : string)
| UnknownVerifier (other : string)
| UnknownAcmeChallenge (other : string)
| UnknownDnsProvider (other : string).

(** A [match] on a string with alternatives: the first arm that lists it. *)
Fixpoint match_str {A} (arms : list (list string * A)) (s : string) : option A :=
  match arms with
  | [] => None
  | (ss, a) :: arms => if bool_decide (s ∈ ss) then Some a else match_str arms s
  end.

Definition TeeProviderKind_from_str (s : string) : result KindError TeeProviderKind :=
  let t := to_ascii_lowercase (trim s) in
  ok_or (UnknownTeeProvider t) $ match_str
    [(["mock"], Tee_Mock);
     (["tdx"], Tee_Tdx);
     (["sev_snp"; "sevsnp"; "snp"], Tee_SevSnp);
     (["sgx"], Tee_Sgx);
     (["trustzone"; "trust_zone"], Tee_TrustZone);
     (["aws_nitro"; "nitro"], Tee_AwsNitro);
     (["tpm"], Tee_Tpm)] t.

Definition VerifierKind_from_str (s : string) : result KindError VerifierKind :=
  let t := to_ascii_lowercase (trim s) in
  ok_or (UnknownVerifier t) $ match_str
    [(["mock"], Ver_Mock);
     (["maa"], Ver_Maa);
     (["ita"], Ver_Ita);
     (["amd_snp"; "amdsnp"; "sev_snp"; "snp"], Ver_AmdSnp);
     (["tpm"], Ver_Tpm);
     (["nvidia"; "nvidia_gpu"], Ver_Nvidia);
     (["dcap"], Ver_Dcap)] t.

Definition AcmeChallenge_from_str (s : string) : result KindError AcmeChallenge :=
  let t := to_ascii_lowercase (trim s) in
  ok_or (UnknownAcmeChallenge t) $ match_str
    [(["tls-alpn-01"; "tls_alpn_01"; "tlsalpn01"; "tls-alpn"], TlsAlpn01);
     (["http-01"; "http_01"; "http01"; "http"], Http01);
     (["dns-01"; "dns_01"; "dns01"; "dns"], Dns01)] t.

Definition DnsProviderKind_from_str (s : string) : result KindError DnsProviderKind :=
  let t := to_ascii_lowercase (trim s) in
  ok_or (UnknownDnsProvider t) $ match_str
    [(["manual"; "hook"], Dns_Manual);
     (["cloudflare"; "cf"], Dns_Cloudflare)] t.

(** [Display] of a kind, and its [Deserialize]: [d] is the string of the
    deserializer or its error, [custom] is [serde::de::Error::custom]. *)
Definition TeeProviderKind_fmt (k : TeeProviderKind) : string := TeeProviderKind_as_str k.
Definition VerifierKind_fmt (k : VerifierKind) : string := VerifierKind_as_str k.
Definition AcmeChallenge_fmt (k : AcmeChallenge) : string := AcmeChallenge_as_str k.
Definition DnsProviderKind_fmt (k : DnsProviderKind) : string := DnsProviderKind_as_str k.

Definition TeeProviderKind_deserialize {E} (custom : KindError → E) (d : result E string)
  : result E TeeProviderKind := s ← d; map_err custom (TeeProviderKind_from_str s).
Definition VerifierKind_deserialize {E} (custom : KindError → E) (d : result E string)
  : result E VerifierKind := s ← d; map_err custom (VerifierKind_from_str s).
Definition AcmeChallenge_deserialize {E} (custom : KindError → E) (d : result E string)
  : result E AcmeChallenge := s ← d; map_err custom (AcmeChallenge_from_str s).
Definition DnsProviderKind_deserialize {E} (custom : KindError → E) (d : result E string)
  : result E DnsProviderKind := s ← d; map_err custom (DnsProviderKind_from_str s).

(** ** The process environment and the file system

    [std::env::var] and [std::fs]: the variables with a Unicode value, the
    paths that exist and what reading one gives. *)
Record World (io_error : Type) := mkWorld {
  w_env : gmap string string;
  w_exists : string → bool;
  w_read : string → result io_error (list Z);
}.
Arguments mkWorld {io_error}.
Arguments w_env {io_error}.
Arguments w_exists {io_error}.
Arguments w_read {io_error}.

(** [std::env::var(name).ok()]. *)
Definition env_var {E} (w : World E) (name : string) : option string := w_env w !! name.

(** ** TLS and ACME blocks *)

Record AcmeDnsConfig := mkAcmeDnsConfig {
  dns_provider : DnsProviderKind;
  dns_hook_command : option string;
  dns_cleanup_command : option string;
  dns_api_token : option string;
  dns_api_token_env : option string;
  dns_zone_id : option string;
  dns_propagation_secs : Z;
}.

Definition default_dns_propagation_secs : Z := 60.

Definition AcmeDnsConfig_default : AcmeDnsConfig :=
  mkAcmeDnsConfig Dns_Manual None None None None None default_dns_propagation_secs.

Definition resolve_cf_token {E} (w : World E) (c : AcmeDnsConfig) : option string :=
  match option_filter (λ t, negb (is_empty t)) (dns_api_token c) with
  | Some t => Some t
  | None =>
      match dns_api_token_env c with
      | None => None
      | Some var => option_filter (λ t, negb (is_empty t)) (env_var w var)
      end
  end.

Record AcmeConfig := mkAcmeConfig {
  acme_enabled : bool;
  acme_domains : list string;
  acme_contact : option string;
  acme_challenge : AcmeChallenge;
  acme_directory_url : option string;
  acme_staging : bool;
  acme_cache_dir : option string;
  acme_http01_listen : option SocketAddr;
  acme_dns : AcmeDnsConfig;
}.

Record TlsConfig := mkTlsConfig {
  tls_cert_path : option string;
  tls_key_path : option string;
  tls_acme : option AcmeConfig;
}.

Inductive TlsMode :=
| TlsMode_Static (cert_path key_path : string)
| TlsMode_Acme (acme : AcmeConfig).

(** [TlsUnreachable] stands for the panics of the two impossible arms. *)
Inductive TlsConfigError :=
| TlsMutuallyExclusive
| TlsNoCertSource
| TlsKeyPathMissing
| TlsCertPathMissing
| TlsNoDomains
| TlsWildcardNeedsDns01 (challenge : AcmeChallenge)
| TlsUnreachable.

Definition TlsConfig_validate (t : TlsConfig) : result TlsConfigError TlsMode :=
  let acme_enabled := match tls_acme t with Some a => acme_enabled a | None => false end in
  let has_static := bool_decide (is_Some (tls_cert_path t)) ||
                    bool_decide (is_Some (tls_key_path t)) in
  match acme_enabled, has_static with
  | true, true => Err TlsMutuallyExclusive
  | false, false => Err TlsNoCertSource
  | false, true =>
      match tls_cert_path t, tls_key_path t with
      | Some cert_path, Some key_path => Ok (TlsMode_Static cert_path key_path)
      | Some _, None => Err TlsKeyPathMissing
      | None, Some _ => Err TlsCertPathMissing
      | None, None => Err TlsUnreachable
      end
  | true, false =>
      match tls_acme t with
      | None => Err TlsUnreachable
      | Some acme =>
          if bool_decide (acme_domains acme = []) then Err TlsNoDomains
          else if negb (bool_decide (acme_challenge acme = Dns01)) &&
                  existsb (starts_with "*.") (acme_domains acme)
          then Err (TlsWildcardNeedsDns01 (acme_challenge acme))
          else Ok (TlsMode_Acme acme)
      end
  end.

(** ** The TPM reference policy *)

Record TpmConfig := mkTpmConfig {
  tpm_expected_pcrs : gmap Z (list Z);
  tpm_pinned_ak_sec1 : option (list Z);
  tpm_pcr_selection : option (list Z);
  tpm_trusted_ek_root_paths : list string;
  tpm_allow_unpinned_ak : bool;
}.

(** ** Resolved static configuration *)

Record ServerConfig := mkServerConfig {
  server_listen : SocketAddr;
  server_max_body_bytes : Z;
  server_tls : option TlsConfig;
}.

Record AttestationConfig := mkAttestationConfig {
  att_allow_mock : bool;
  att_strict_attestation : bool;
  att_atb_ttl_secs : Z;
  att_atb_eviction_interval_secs : Z;
  att_atb_max_sessions : Z;
  att_tee_provider : TeeProviderKind;
  att_verifier : VerifierKind;
  att_verifier_endpoint : option string;
  att_verifier_api_key : option string;
  att_tpm : option TpmConfig;
}.

Record RateLimitConfig := mkRateLimitConfig {
  rl_max_requests : Z;
  rl_window_secs : Z;
}.

Record DockerDiscoveryConfig := mkDockerDiscoveryConfig {
  docker_enabled : bool;
  docker_socket : string;
  docker_poll_secs : Z;
}.

Record KubernetesDiscoveryConfig := mkKubernetesDiscoveryConfig {
  kubernetes_enabled : bool;
  kubernetes_namespace : option string;
}.

Record DiscoveryConfig := mkDiscoveryConfig {
  disc_docker : DockerDiscoveryConfig;
  disc_kubernetes : KubernetesDiscoveryConfig;
}.

Record StaticConfig := mkStaticConfig {
  static_server : ServerConfig;
  static_attestation : AttestationConfig;
  static_discovery : DiscoveryConfig;
  static_rate_limit : RateLimitConfig;
}.

(** ** Lemmas *)

(** Surrounding white space and letter case do not change a token. *)
Lemma normalise_token ws1 ws2 s t :
  Forall (.∈ white_space) ws1 → Forall (.∈ white_space) ws2 →
  to_ascii_lowercase s = t → t ≠ EmptyString → str_forallb is_plain t = true →
  to_ascii_lowercase (trim (str_concat ws1 +:+ s +:+ str_concat ws2)) = t.
Proof.
  intros H1 H2 <- Ht Hp. rewrite to_ascii_lowercase_plain in Hp.
  rewrite trim_token; auto. by intros ->.
Qed.

Lemma option_filter_Some {A} (f : A → bool) o a :
  option_filter f o = Some a ↔ o = Some a ∧ f a = true.
Proof. destruct o as [b|]; simpl; [destruct (f b) eqn:E|]; naive_solver congruence. Qed.

(** ** Properties *)

(** The textual kinds round-trip: printing a TEE provider, verifier, ACME
    challenge or DNS provider and parsing it back gives the same kind, in
    any letter case and with any white space around it. *)
Theorem kinds_roundtrip ws1 ws2 s
    (H1 : Forall (.∈ white_space) ws1) (H2 : Forall (.∈ white_space) ws2) :
  let padded := str_concat ws1 +:+ s +:+ str_concat ws2 in
  (∀ k, to_ascii_lowercase s = TeeProviderKind_as_str k →
        TeeProviderKind_from_str padded = Ok k) ∧
  (∀ k, to_ascii_lowercase s = VerifierKind_as_str k →
        VerifierKind_from_str padded = Ok k) ∧
  (∀ k, to_ascii_lowercase s = AcmeChallenge_as_str k →
        AcmeChallenge_from_str padded = Ok k) ∧
  (∀ k, to_ascii_lowercase s = DnsProviderKind_as_str k →
        DnsProviderKind_from_str padded = Ok k).
Proof.
  intros padded; subst padded.
  unfold TeeProviderKind_from_str, VerifierKind_from_str, AcmeChallenge_from_str,
    DnsProviderKind_from_str.
  split_and!; intros k Hk; rewrite (normalise_token _ _ _ _ H1 H2 Hk) by (by destruct k);
    by destruct k.
Qed.

(** What a kind displays as is deserialized to it. *)
Lemma kinds_deserialize {E} (custom : KindError → E) :
  (∀ k, TeeProviderKind_deserialize custom (Ok (TeeProviderKind_fmt k)) = Ok k) ∧
  (∀ k, VerifierKind_deserialize custom (Ok (VerifierKind_fmt k)) = Ok k) ∧
  (∀ k, AcmeChallenge_deserialize custom (Ok (AcmeChallenge_fmt k)) = Ok k) ∧
  (∀ k, DnsProviderKind_deserialize custom (Ok (DnsProviderKind_fmt k)) = Ok k).
Proof. by split_and!; intros []. Qed.

(** C34: [TlsConfig::validate] accepts exactly the blocks with one certificate
    source: a full static pair with ACME off, or ACME on with no static path,
    at least one domain, and wildcards only under DNS-01; its two impossible
    arms are never reached. *)
Theorem tls_validate_exactly_one t :
  (∀ c k, TlsConfig_validate t = Ok (TlsMode_Static c k) ↔
     tls_cert_path t = Some c ∧ tls_key_path t = Some k ∧
     (∀ a, tls_acme t = Some a → acme_enabled a = false)) ∧
  (∀ a, TlsConfig_validate t = Ok (TlsMode_Acme a) ↔
     tls_cert_path t = None ∧ tls_key_path t = None ∧
     tls_acme t = Some a ∧ acme_enabled a = true ∧ acme_domains a ≠ [] ∧
     (∀ d, In d (acme_domains a) → starts_with "*." d = true → acme_challenge a = Dns01)) ∧
  TlsConfig_validate t ≠ Err TlsUnreachable.
Proof.
  destruct t as [cert key acme]. unfold TlsConfig_validate. simpl.
  assert (∀ a, negb (bool_decide (acme_challenge a = Dns01)) &&
               existsb (starts_with "*.") (acme_domains a) = false ↔
     ∀ d, In d (acme_domains a) → starts_with "*." d = true → acme_challenge a = Dns01) as Hw.
  { intros a. rewrite andb_false_iff, negb_false_iff, bool_decide_eq_true. split.
    - intros [Hd|He] d Hin Hs; [done|].
      assert (existsb (starts_with "*.") (acme_domains a) = true)
        by (apply existsb_exists; eauto). congruence.
    - intros Hall. destruct (existsb _ _) eqn:E; [|by right].
      apply existsb_exists in E as (d&?&?). left. eauto. }
  destruct acme as [a|]; [destruct (acme_enabled a) eqn:Ha|];
    destruct cert as [c|], key as [k|]; simpl; split_and!; try done;
    try (intros; split; intros; destruct_and?; simplify_eq/=; try done;
         split_and?; try done; intros; by simplify_eq).
  - intros ??. split; [done|]. intros (_&_&Hoff). by rewrite Hoff in Ha.
  - intros ??. split; [by repeat case_match|]. by intros [? _].
  - intros a'. case_bool_decide as Hd; [split; [done|intros; destruct_and?; by simplify_eq]|].
    destruct (negb (bool_decide (acme_challenge a = Dns01)) && _) eqn:E.
    + split; [done|]. intros (_&_&[= <-]&_&_&Hall). rewrite (proj2 (Hw a) Hall) in E. done.
    + pose proof (proj1 (Hw a) E). split; [by intros [= <-]|]. by intros (_&_&[= <-]&_).
  - by repeat case_match.
  - intros a'. split; [done|]. intros (_&_&[= <-]&Hon&_). by rewrite Hon in Ha.
Qed.

(** A resolved Cloudflare token is never empty and comes from the inline
    field or the named variable. *)
Lemma resolve_cf_token_Some {E} (w : World E) c t :
  resolve_cf_token w c = Some t →
  t ≠ EmptyString ∧
  (dns_api_token c = Some t ∨
   ∃ var, dns_api_token_env c = Some var ∧ env_var w var = Some t).
Proof.
  unfold resolve_cf_token. destruct (option_filter _ (dns_api_token c)) as [u|] eqn:E1.
  - apply option_filter_Some in E1 as [-> Hu]. intros [= <-]. destruct u; naive_solver.
  - destruct (dns_api_token_env c) as [var|]; [|done].
    intros [He Ht]%option_filter_Some. destruct t; naive_solver.
Qed.

Lemma kinds_roundtrip_witness :
  TeeProviderKind_from_str " TDX " = Ok Tee_Tdx.
Proof.
  apply (kinds_roundtrip [" "] [" "] "TDX").
  - repeat constructor.
  - repeat constructor.
  - reflexivity.
Defined.
