(* ===== verification/Layers.v ===== *)
(** * Layered configuration ([src/config.rs], lines 491-507, 585-642, 759-776
    and 948-1646)

    The partial layers (file, environment, command line), their readers, the
    field-wise resolution with provenance, and the validation applied after
    it.  Third-party parsers (TOML, hex, PEM, X.509) are the operations of
    the class [ConfigExt]. *)

From S2P Require Import Prelude RustStr SocketAddr Routing Config.

(** ** Provenance *)

Definition Provenance := gmap string Source.

Definition prov_record (p : gmap string Source) (field : string) (source : Source)
  : gmap string Source := <[field := source]> p.

Definition prov_get (p : gmap string Source) (field : string) : option Source := p !! field.

(** ** Defaults *)

Definition DEFAULT_MAX_BODY_BYTES : Z := 4 * 1024 * 1024.
Definition DEFAULT_LISTEN : string := "127.0.0.1:8443".
Definition DEFAULT_DOCKER_SOCKET : string := "unix:///var/run/docker.sock".
Definition DEFAULT_DOCKER_POLL_SECS : Z := 10.
Definition DEFAULT_ATB_TTL_SECS : Z := 300.
Definition DEFAULT_ATB_EVICTION_INTERVAL_SECS : Z := 60.
Definition DEFAULT_ATB_MAX_SESSIONS : Z := 10000.
Definition DEFAULT_TEE_PROVIDER : TeeProviderKind := Tee_Mock.
Definition DEFAULT_VERIFIER : VerifierKind := Ver_Mock.
Definition DEFAULT_RATE_LIMIT_MAX_REQUESTS : Z := 0.
Definition DEFAULT_RATE_LIMIT_WINDOW_SECS : Z := 60.
Definition ENV_CONFIG_PATH : string := "ARCHETYPE_PROXY_CONFIG".
Definition DEFAULT_CONFIG_PATH : string := "./archetype-proxy.toml".

(** [DEFAULT_LISTEN.parse().expect(..)]. *)
Definition default_listen : SocketAddr :=
  default (SocketAddrV4 [] 0) (SocketAddr_from_str DEFAULT_LISTEN).

(** ** Layer inputs *)

Record PartialStatic := mkPartialStatic {
  ps_listen : option SocketAddr;
  ps_max_body_bytes : option Z;
  ps_tls : option TlsConfig;
  ps_allow_mock : option bool;
  ps_strict_attestation : option bool;
  ps_atb_ttl_secs : option Z;
  ps_atb_eviction_interval_secs : option Z;
  ps_atb_max_sessions : option Z;
  ps_tee_provider : option TeeProviderKind;
  ps_verifier : option VerifierKind;
  ps_verifier_endpoint : option string;
  ps_verifier_api_key : option string;
  ps_tpm : option TpmConfig;
  ps_rate_limit_max_requests : option Z;
  ps_rate_limit_window_secs : option Z;
  ps_docker_enabled : option bool;
  ps_docker_socket : option string;
  ps_docker_poll_secs : option Z;
  ps_kubernetes_enabled : option bool;
  ps_kubernetes_namespace : option (option string);
}.

Definition PartialStatic_default : PartialStatic :=
  mkPartialStatic None None None None None None None None None None None None None
    None None None None None None None.

Definition namespace_layer (v : option string) : option (option string) :=
  (λ s, if is_empty s then None else Some s) <$> v.

(** ** The TOML file representation *)

Record FileTpm := mkFileTpm {
  ft_expected_pcrs : gmap string string;
  ft_pinned_ak_sec1_hex : option string;
  ft_pcr_selection : option (list Z);
  ft_trusted_ek_root_paths : list string;
  ft_allow_unpinned_ak : bool;
}.

Record FileServer := mkFileServer {
  fs_listen : option SocketAddr;
  fs_max_body_bytes : option Z;
  fs_tls : option TlsConfig;
}.

Record FileAttestation := mkFileAttestation {
  fa_allow_mock : option bool;
  fa_strict_attestation : option bool;
  fa_atb_ttl_secs : option Z;
  fa_atb_eviction_interval_secs : option Z;
  fa_atb_max_sessions : option Z;
  fa_tee_provider : option TeeProviderKind;
  fa_verifier : option VerifierKind;
  fa_verifier_endpoint : option string;
  fa_verifier_api_key : option string;
  fa_tpm : option FileTpm;
}.

Record FileRateLimit := mkFileRateLimit {
  frl_max_requests : option Z;
  frl_window_secs : option Z;
}.

Record FileDiscovery := mkFileDiscovery {
  fd_docker : option bool;
  fd_docker_socket : option string;
  fd_docker_poll_secs : option Z;
  fd_kubernetes : option bool;
  fd_kubernetes_namespace : option string;
}.

Record FileUpstream := mkFileUpstream { fu_target : string }.

Record FileRoute := mkFileRoute {
  fr_name : option string;
  fr_host : string;
  fr_path_prefix : string;
  fr_upstream : string;
  fr_strict_attestation : option bool;
}.

Record FileConfig := mkFileConfig {
  fc_server : FileServer;
  fc_attestation : FileAttestation;
  fc_rate_limit : FileRateLimit;
  fc_discovery : FileDiscovery;
  fc_upstream : option FileUpstream;
  fc_routes : list FileRoute;
}.

(** ** Third-party parsers *)

(** [toml::from_str], [hex::decode], [rustls_pemfile::certs] and
    [X509Certificate::from_der], each with its error type, and the I/O error
    of [std::fs]. *)
Class ConfigExt := {
  io_error : Type;
  toml_error : Type;
  hex_error : Type;
  pem_error : Type;
  x509_error : Type;
  invalid_utf8 : io_error;
  toml_from_str : string → result toml_error FileConfig;
  hex_decode : string → result hex_error (list Z);
  pem_certs : list Z → result pem_error (list (list Z));
  x509_from_der : list Z → result x509_error unit;
}.

(** ** Resolution of one field *)

(** The layers are listed from lowest to highest precedence. *)
Definition resolve {T} (field : string) (dflt : T) (layers : list (Source * option T))
    (prov : gmap string Source) : T * gmap string Source :=
  foldl (λ '(value, prov) '(source, candidate),
           match candidate with
           | Some v => (v, prov_record prov field source)
           | None => (value, prov)
           end)
    (dflt, prov_record prov field Source_Default) layers.

Record Config := mkConfig {
  cfg_static : StaticConfig;
  cfg_file_routes : list Route;
  cfg_provenance : gmap string Source;
}.

Definition initial_routes (c : Config) : RouteTable := RouteTable_new (cfg_file_routes c).

Section resolve_layers.
Context (file env cli : PartialStatic).

(** The [field!] macro: the accessor read in the three layers. *)
Definition field_layers {T} (accessor : PartialStatic → option T) : list (Source * option T) :=
  [(Source_File, accessor file); (Source_Env, accessor env); (Source_Cli, accessor cli)].

(** An optional field: a layer that sets it sets it to [Some]. *)
Definition opt_layers {T} (accessor : PartialStatic → option T)
  : list (Source * option (option T)) := field_layers (λ p, Some <$> accessor p).

Definition resolve_static (prov : gmap string Source) : StaticConfig * gmap string Source :=
  let '(listen, prov) :=
    resolve "server.listen" default_listen (field_layers ps_listen) prov in
  let '(max_body_bytes, prov) :=
    resolve "server.max_body_bytes" DEFAULT_MAX_BODY_BYTES (field_layers ps_max_body_bytes) prov in
  let '(allow_mock, prov) :=
    resolve "attestation.allow_mock" true (field_layers ps_allow_mock) prov in
  let '(strict_attestation, prov) :=
    resolve "attestation.strict_attestation" false (field_layers ps_strict_attestation) prov in
  let '(atb_ttl_secs, prov) :=
    resolve "attestation.atb_ttl_secs" DEFAULT_ATB_TTL_SECS (field_layers ps_atb_ttl_secs) prov in
  let '(atb_eviction_interval_secs, prov) :=
    resolve "attestation.atb_eviction_interval_secs" DEFAULT_ATB_EVICTION_INTERVAL_SECS
      (field_layers ps_atb_eviction_interval_secs) prov in
  let '(atb_max_sessions, prov) :=
    resolve "attestation.atb_max_sessions" DEFAULT_ATB_MAX_SESSIONS
      (field_layers ps_atb_max_sessions) prov in
  let '(tee_provider, prov) :=
    resolve "attestation.tee_provider" DEFAULT_TEE_PROVIDER (field_layers ps_tee_provider) prov in
  let '(verifier, prov) :=
    resolve "attestation.verifier" DEFAULT_VERIFIER (field_layers ps_verifier) prov in
  let '(verifier_endpoint, prov) :=
    resolve "attestation.verifier_endpoint" None (opt_layers ps_verifier_endpoint) prov in
  let '(verifier_api_key, prov) :=
    resolve "attestation.verifier_api_key" None (opt_layers ps_verifier_api_key) prov in
  let '(tpm, prov) :=
    resolve "attestation.tpm" None (opt_layers ps_tpm) prov in
  let '(tls, prov) :=
    resolve "server.tls" None (opt_layers ps_tls) prov in
  let '(rate_limit_max_requests, prov) :=
    resolve "rate_limit.max_requests" DEFAULT_RATE_LIMIT_MAX_REQUESTS
      (field_layers ps_rate_limit_max_requests) prov in
  let '(rate_limit_window_secs, prov) :=
    resolve "rate_limit.window_secs" DEFAULT_RATE_LIMIT_WINDOW_SECS
      (field_layers ps_rate_limit_window_secs) prov in
  let '(docker_enabled, prov) :=
    resolve "discovery.docker" false (field_layers ps_docker_enabled) prov in
  let '(docker_socket, prov) :=
    resolve "discovery.docker.socket" DEFAULT_DOCKER_SOCKET (field_layers ps_docker_socket) prov in
  let '(docker_poll_secs, prov) :=
    resolve "discovery.docker.poll_secs" DEFAULT_DOCKER_POLL_SECS
      (field_layers ps_docker_poll_secs) prov in
  let '(kubernetes_enabled, prov) :=
    resolve "discovery.kubernetes" false (field_layers ps_kubernetes_enabled) prov in
  let '(kubernetes_namespace, prov) :=
    resolve "discovery.kubernetes.namespace" None (field_layers ps_kubernetes_namespace) prov in
  (mkStaticConfig
     (mkServerConfig listen max_body_bytes tls)
     (mkAttestationConfig allow_mock strict_attestation atb_ttl_secs
        atb_eviction_interval_secs atb_max_sessions tee_provider verifier
        verifier_endpoint verifier_api_key tpm)
     (mkDiscoveryConfig
        (mkDockerDiscoveryConfig docker_enabled docker_socket docker_poll_secs)
        (mkKubernetesDiscoveryConfig kubernetes_enabled kubernetes_namespace))
     (mkRateLimitConfig rate_limit_max_requests rate_limit_window_secs),
   prov).

End resolve_layers.

(** [Config::resolve_layers]. *)
Definition resolve_layers (file : PartialStatic * list Route) (env cli : PartialStatic)
  : Config :=
  let '(file_partial, file_routes) := file in
  let '(static, prov) := resolve_static file_partial env cli ∅ in
  mkConfig static file_routes prov.

(** ** Errors *)

Section ext.
Context `{CE : !ConfigExt}.

(** The [reason] of [ConfigError::Env]. *)
Inductive EnvReason :=
| Reason_Int (k : IntErrorKind)
| Reason_PcrIndex (k : IntErrorKind)
| Reason_Addr
| Reason_Kind (k : KindError)
| Reason_Bool
| Reason_Hex (e : hex_error)
| Reason_Pairs.

(** The message of [ConfigError::Validation]. *)
Inductive ValidationReason :=
| EmptyTpmPolicy (verifier : VerifierKind) (tee_provider : TeeProviderKind)
| NoAkTrust (verifier : VerifierKind) (tee_provider : TeeProviderKind)
| PemParse (path : string) (e : pem_error)
| NoPemCertificate (path : string)
| NotX509 (path : string) (e : x509_error).

Inductive ConfigError :=
| ConfigError_Read (path : string) (source : io_error)
| ConfigError_Parse (path : string) (source : toml_error)
| ConfigError_Env (var value : string) (reason : EnvReason)
| ConfigError_Validation (reason : ValidationReason).

(** ** Root certificates *)

(** [bytes.windows(n).any(|w| w == pat)] for [pat] of length [n > 0]. *)
Fixpoint contains_window (pat bytes : list Z) : bool :=
  match bytes with
  | [] => false
  | _ :: bytes' => bool_decide (take (length pat) bytes = pat) || contains_window pat bytes'
  end.

Definition load_cert_der (w : World io_error) (path : string)
  : result ConfigError (list (list Z)) :=
  bytes ← map_err (ConfigError_Read path) (w_read w path);
  ders ← (if contains_window (as_bytes "-----BEGIN ") bytes then
            certs ← map_err (λ e, ConfigError_Validation (PemParse path e)) (pem_certs bytes);
            if bool_decide (certs = []) then Err (ConfigError_Validation (NoPemCertificate path))
            else Ok certs
          else Ok [bytes]);
  _ ← try_fold (λ _ der, map_err (λ e, ConfigError_Validation (NotX509 path e))
                           (x509_from_der der)) tt ders;
  Ok ders.

Definition trusted_ek_roots_der (w : World io_error) (t : TpmConfig)
  : result ConfigError (list (list Z)) :=
  try_fold (λ out path, ders ← load_cert_der w path; Ok (out ++ ders)) []
    (tpm_trusted_ek_root_paths t).

(** ** The file layer *)

Definition decode_hex_field (value field : string) : result ConfigError (list Z) :=
  map_err (λ e, ConfigError_Env field value (Reason_Hex e)) (hex_decode (trim value)).

(** [FileTpm::resolve]: the entries in ascending order of their TOML key. *)
Definition FileTpm_resolve (t : FileTpm) : result ConfigError TpmConfig :=
  expected_pcrs ← try_fold (λ (acc : gmap Z (list Z)) '(idx_str, hex_str),
      idx ← map_err (λ k, ConfigError_Env "attestation.tpm.expected_pcrs" idx_str
                            (Reason_PcrIndex k))
              (parse_uint u32_max (trim idx_str));
      bytes ← decode_hex_field hex_str
                ("attestation.tpm.expected_pcrs[" +:+ pretty idx +:+ "]");
      Ok (<[idx := bytes]> acc))
    ∅ (btree_iter_str (ft_expected_pcrs t));
  pinned_ak_sec1 ← match ft_pinned_ak_sec1_hex t with
                   | Some h => Some <$> decode_hex_field h "attestation.tpm.pinned_ak_sec1_hex"
                   | None => Ok None
                   end;
  Ok (mkTpmConfig expected_pcrs pinned_ak_sec1 (ft_pcr_selection t)
        (ft_trusted_ek_root_paths t) (ft_allow_unpinned_ak t)).

Definition file_route (i : nat) (r : FileRoute) : Route :=
  mkRoute (default ("route-" +:+ pretty i) (fr_name r)) (fr_host r) (fr_path_prefix r)
    (fr_upstream r) (fr_strict_attestation r) Source_File.

(** The routes of a parsed file: the [[route]] tables in order, then the
    legacy [upstream] target as a catch-all. *)
Definition file_routes (fc : FileConfig) : list Route :=
  imap file_route (fc_routes fc) ++
  match fc_upstream fc with
  | Some up => [mkRoute "upstream-default" EmptyString EmptyString (fu_target up) None Source_File]
  | None => []
  end.

(** [std::fs::read_to_string]. *)
Definition read_to_string (w : World io_error) (path : string) : result io_error string :=
  bytes ← w_read w path; ok_or invalid_utf8 (from_utf8 bytes).

Definition read_file (w : World io_error) (path : string)
  : result ConfigError (PartialStatic * list Route) :=
  if negb (w_exists w path) then Ok (PartialStatic_default, [])
  else
    raw ← map_err (ConfigError_Read path) (read_to_string w path);
    fc ← map_err (ConfigError_Parse path) (toml_from_str raw);
    let fs := fc_server fc in
    let fa := fc_attestation fc in
    let fd := fc_discovery fc in
    tpm ← match fa_tpm fa with
          | Some t => Some <$> FileTpm_resolve t
          | None => Ok None
          end;
    Ok ({| ps_listen := fs_listen fs;
           ps_max_body_bytes := fs_max_body_bytes fs;
           ps_tls := fs_tls fs;
           ps_allow_mock := fa_allow_mock fa;
           ps_strict_attestation := fa_strict_attestation fa;
           ps_atb_ttl_secs := fa_atb_ttl_secs fa;
           ps_atb_eviction_interval_secs := fa_atb_eviction_interval_secs fa;
           ps_atb_max_sessions := fa_atb_max_sessions fa;
           ps_tee_provider := fa_tee_provider fa;
           ps_verifier := fa_verifier fa;
           ps_verifier_endpoint := fa_verifier_endpoint fa;
           ps_verifier_api_key := fa_verifier_api_key fa;
           ps_tpm := tpm;
           ps_rate_limit_max_requests := frl_max_requests (fc_rate_limit fc);
           ps_rate_limit_window_secs := frl_window_secs (fc_rate_limit fc);
           ps_docker_enabled := fd_docker fd;
           ps_docker_socket := fd_docker_socket fd;
           ps_docker_poll_secs := fd_docker_poll_secs fd;
           ps_kubernetes_enabled := fd_kubernetes fd;
           ps_kubernetes_namespace := namespace_layer (fd_kubernetes_namespace fd) |},
        file_routes fc).

(** ** The environment layer *)

(** The local [var]: set and not empty. *)
Definition var (w : World io_error) (name : string) : option string :=
  option_filter (λ s, negb (is_empty s)) (env_var w name).

(** The local [parse::<T>], with the parser of [T]. *)
Definition env_parse {T} (p : string → result EnvReason T) (w : World io_error) (name : string)
  : result ConfigError (option T) :=
  match var w name with
  | None => Ok None
  | Some v => map_err (ConfigError_Env name v) (Some <$> p v)
  end.

Definition parse_int_of (max : Z) (v : string) : result EnvReason Z :=
  map_err Reason_Int (parse_uint max v).

Definition parse_addr (v : string) : result EnvReason SocketAddr :=
  ok_or Reason_Addr (SocketAddr_from_str v).

(** The local [parse_bool]. *)
Definition env_parse_bool (w : World io_error) (name : string)
  : result ConfigError (option bool) :=
  match var w name with
  | None => Ok None
  | Some v =>
      match parse_bool_token v with
      | Some b => Ok (Some b)
      | None => Err (ConfigError_Env name v Reason_Bool)
      end
  end.

(** [raw.split(..).map(str::trim).filter(|s| !s.is_empty())]. *)
Definition split_trim (f : ascii → bool) (raw : string) : list string :=
  List.filter (λ s, negb (is_empty s)) (trim <$> split f raw).

Definition is_comma (a : ascii) : bool := Ascii.eqb a ",".
Definition is_comma_or_colon (a : ascii) : bool := Ascii.eqb a "," || Ascii.eqb a ":".

(** One [index:hex] pair of [ARCHETYPE_PROXY_TPM_EXPECTED_PCRS]. *)
Definition read_pcr_pair (acc : gmap Z (list Z)) (pair : string)
  : result ConfigError (gmap Z (list Z)) :=
  '(idx_s, hex_s) ← ok_or (ConfigError_Env "ARCHETYPE_PROXY_TPM_EXPECTED_PCRS" pair Reason_Pairs)
                      (split_once ":" pair);
  idx ← map_err (λ k, ConfigError_Env "ARCHETYPE_PROXY_TPM_EXPECTED_PCRS" idx_s
                        (Reason_PcrIndex k))
          (parse_uint u32_max (trim idx_s));
  bytes ← decode_hex_field hex_s "ARCHETYPE_PROXY_TPM_EXPECTED_PCRS";
  Ok (<[idx := bytes]> acc).

Definition read_tpm_env (w : World io_error) : result ConfigError (option TpmConfig) :=
  let pcrs_raw := var w "ARCHETYPE_PROXY_TPM_EXPECTED_PCRS" in
  let ak_raw := var w "ARCHETYPE_PROXY_TPM_PINNED_AK_SEC1_HEX" in
  let sel_raw := var w "ARCHETYPE_PROXY_TPM_PCR_SELECTION" in
  let roots_raw := var w "ARCHETYPE_PROXY_TPM_TRUSTED_EK_ROOT_PATHS" in
  let allow_raw := var w "ARCHETYPE_PROXY_TPM_ALLOW_UNPINNED_AK" in
  if bool_decide (pcrs_raw = None) && bool_decide (ak_raw = None) &&
     bool_decide (sel_raw = None) && bool_decide (roots_raw = None) &&
     bool_decide (allow_raw = None)
  then Ok None
  else
    expected_pcrs ← match pcrs_raw with
                    | Some raw => try_fold read_pcr_pair ∅ (split_trim is_comma raw)
                    | None => Ok ∅
                    end;
    pinned_ak_sec1 ← match ak_raw with
                     | Some h => Some <$> decode_hex_field h "ARCHETYPE_PROXY_TPM_PINNED_AK_SEC1_HEX"
                     | None => Ok None
                     end;
    pcr_selection ← match sel_raw with
                    | Some raw => Some <$> try_fold (λ sel s,
                        i ← map_err (λ k, ConfigError_Env "ARCHETYPE_PROXY_TPM_PCR_SELECTION" s
                                            (Reason_PcrIndex k)) (parse_uint u32_max s);
                        Ok (sel ++ [i])) [] (split_trim is_comma raw)
                    | None => Ok None
                    end;
    let trusted_ek_root_paths := match roots_raw with
                                 | Some raw => split_trim is_comma_or_colon raw
                                 | None => []
                                 end in
    allow_unpinned_ak ← match allow_raw with
                        | None => Ok false
                        | Some v => ok_or (ConfigError_Env "ARCHETYPE_PROXY_TPM_ALLOW_UNPINNED_AK" v
                                             Reason_Bool) (parse_bool_token v)
                        end;
    Ok (Some (mkTpmConfig expected_pcrs pinned_ak_sec1 pcr_selection trusted_ek_root_paths
                allow_unpinned_ak)).

Definition read_env (w : World io_error) : result ConfigError PartialStatic :=
  listen ← env_parse parse_addr w "ARCHETYPE_PROXY_LISTEN";
  max_body_bytes ← env_parse (parse_int_of usize_max) w "ARCHETYPE_PROXY_MAX_BODY_BYTES";
  allow_mock ← env_parse_bool w "ARCHETYPE_PROXY_ALLOW_MOCK";
  strict_attestation ← env_parse_bool w "ARCHETYPE_PROXY_STRICT_ATTESTATION";
  atb_ttl_secs ← env_parse (parse_int_of u64_max) w "ARCHETYPE_PROXY_ATB_TTL_SECS";
  atb_eviction_interval_secs ←
    env_parse (parse_int_of u64_max) w "ARCHETYPE_PROXY_ATB_EVICTION_INTERVAL_SECS";
  atb_max_sessions ← env_parse (parse_int_of usize_max) w "ARCHETYPE_PROXY_ATB_MAX_SESSIONS";
  tee_provider ← env_parse (λ v, map_err Reason_Kind (TeeProviderKind_from_str v)) w
                   "ARCHETYPE_PROXY_TEE_PROVIDER";
  verifier ← env_parse (λ v, map_err Reason_Kind (VerifierKind_from_str v)) w
               "ARCHETYPE_PROXY_VERIFIER";
  let verifier_endpoint := var w "ARCHETYPE_PROXY_VERIFIER_ENDPOINT" in
  let verifier_api_key := var w "ARCHETYPE_PROXY_VERIFIER_API_KEY" in
  tpm ← read_tpm_env w;
  rate_limit_max_requests ←
    env_parse (parse_int_of usize_max) w "ARCHETYPE_PROXY_RATE_LIMIT_MAX_REQUESTS";
  rate_limit_window_secs ←
    env_parse (parse_int_of u64_max) w "ARCHETYPE_PROXY_RATE_LIMIT_WINDOW_SECS";
  docker_enabled ← env_parse_bool w "ARCHETYPE_PROXY_DOCKER";
  let docker_socket := var w "ARCHETYPE_PROXY_DOCKER_SOCKET" in
  docker_poll_secs ← env_parse (parse_int_of u64_max) w "ARCHETYPE_PROXY_DOCKER_POLL_SECS";
  kubernetes_enabled ← env_parse_bool w "ARCHETYPE_PROXY_KUBERNETES";
  let kubernetes_namespace :=
    namespace_layer (env_var w "ARCHETYPE_PROXY_KUBERNETES_NAMESPACE") in
  Ok (mkPartialStatic listen max_body_bytes None allow_mock strict_attestation atb_ttl_secs
        atb_eviction_interval_secs atb_max_sessions tee_provider verifier verifier_endpoint
        verifier_api_key tpm rate_limit_max_requests rate_limit_window_secs docker_enabled
        docker_socket docker_poll_secs kubernetes_enabled kubernetes_namespace).

(** ** Validation and loading *)

Definition uses_tpm (att : AttestationConfig) : bool :=
  bool_decide (att_verifier att = Ver_Tpm) || bool_decide (att_tee_provider att = Tee_Tpm).

Definition validate (w : World io_error) (c : Config) : result ConfigError unit :=
  let att := static_attestation (cfg_static c) in
  if uses_tpm att then
    match option_filter (λ t, negb (bool_decide (tpm_expected_pcrs t = ∅))) (att_tpm att) with
    | None => Err (ConfigError_Validation
                     (EmptyTpmPolicy (att_verifier att) (att_tee_provider att)))
    | Some tpm =>
        let has_pin := bool_decide (is_Some (tpm_pinned_ak_sec1 tpm)) in
        let has_roots := negb (bool_decide (tpm_trusted_ek_root_paths tpm = [])) in
        if negb has_pin && negb has_roots && negb (tpm_allow_unpinned_ak tpm)
        then Err (ConfigError_Validation (NoAkTrust (att_verifier att) (att_tee_provider att)))
        else if has_roots then _ ← trusted_ek_roots_der w tpm; Ok tt
        else Ok tt
    end
  else Ok tt.

Definition config_path (w : World io_error) (explicit : option string) : string :=
  default DEFAULT_CONFIG_PATH (option_or explicit (env_var w ENV_CONFIG_PATH)).

Definition load (w : World io_error) (cli : PartialStatic) (explicit : option string)
  : result ConfigError Config :=
  let path := config_path w explicit in
  file ← read_file w path;
  env ← read_env w;
  let cfg := resolve_layers file env cli in
  _ ← validate w cfg;
  Ok cfg.

End ext.

(** ** Lemmas *)

(** The documented precedence of one field: the value and the layer that
    supplies it. *)
Definition winner {T} (dflt : T) (file env cli : option T) : T * Source :=
  match cli, env, file with
  | Some v, _, _ => (v, Source_Cli)
  | None, Some v, _ => (v, Source_Env)
  | None, None, Some v => (v, Source_File)
  | None, None, None => (dflt, Source_Default)
  end.

Lemma resolve_winner {T} field (dflt : T) (file env cli : option T) prov :
  resolve field dflt [(Source_File, file); (Source_Env, env); (Source_Cli, cli)] prov =
  ((winner dflt file env cli).1, <[field := (winner dflt file env cli).2]> prov).
Proof.
  unfold resolve, prov_record. destruct file, env, cli; simpl; by rewrite ?insert_insert_eq.
Qed.

(** The resolved static configuration as a record of winners. *)
Section static_spec.
Context (file env cli : PartialStatic).

Definition won {T} (dflt : T) (acc : PartialStatic → option T) : T * Source :=
  winner dflt (acc file) (acc env) (acc cli).

Definition won_opt {T} (acc : PartialStatic → option T) : option T * Source :=
  won None (λ p, Some <$> acc p).

Definition static_spec : StaticConfig :=
  mkStaticConfig
    (mkServerConfig (won default_listen ps_listen).1
       (won DEFAULT_MAX_BODY_BYTES ps_max_body_bytes).1 (won_opt ps_tls).1)
    (mkAttestationConfig (won true ps_allow_mock).1 (won false ps_strict_attestation).1
       (won DEFAULT_ATB_TTL_SECS ps_atb_ttl_secs).1
       (won DEFAULT_ATB_EVICTION_INTERVAL_SECS ps_atb_eviction_interval_secs).1
       (won DEFAULT_ATB_MAX_SESSIONS ps_atb_max_sessions).1
       (won DEFAULT_TEE_PROVIDER ps_tee_provider).1 (won DEFAULT_VERIFIER ps_verifier).1
       (won_opt ps_verifier_endpoint).1 (won_opt ps_verifier_api_key).1 (won_opt ps_tpm).1)
    (mkDiscoveryConfig
       (mkDockerDiscoveryConfig (won false ps_docker_enabled).1
          (won DEFAULT_DOCKER_SOCKET ps_docker_socket).1
          (won DEFAULT_DOCKER_POLL_SECS ps_docker_poll_secs).1)
       (mkKubernetesDiscoveryConfig (won false ps_kubernetes_enabled).1
          (won None ps_kubernetes_namespace).1))
    (mkRateLimitConfig (won DEFAULT_RATE_LIMIT_MAX_REQUESTS ps_rate_limit_max_requests).1
       (won DEFAULT_RATE_LIMIT_WINDOW_SECS ps_rate_limit_window_secs).1).

Definition provenance_spec : list (string * Source) :=
  [("server.listen", (won default_listen ps_listen).2);
   ("server.max_body_bytes", (won DEFAULT_MAX_BODY_BYTES ps_max_body_bytes).2);
   ("attestation.allow_mock", (won true ps_allow_mock).2);
   ("attestation.strict_attestation", (won false ps_strict_attestation).2);
   ("attestation.atb_ttl_secs", (won DEFAULT_ATB_TTL_SECS ps_atb_ttl_secs).2);
   ("attestation.atb_eviction_interval_secs",
    (won DEFAULT_ATB_EVICTION_INTERVAL_SECS ps_atb_eviction_interval_secs).2);
   ("attestation.atb_max_sessions", (won DEFAULT_ATB_MAX_SESSIONS ps_atb_max_sessions).2);
   ("attestation.tee_provider", (won DEFAULT_TEE_PROVIDER ps_tee_provider).2);
   ("attestation.verifier", (won DEFAULT_VERIFIER ps_verifier).2);
   ("attestation.verifier_endpoint", (won_opt ps_verifier_endpoint).2);
   ("attestation.verifier_api_key", (won_opt ps_verifier_api_key).2);
   ("attestation.tpm", (won_opt ps_tpm).2);
   ("server.tls", (won_opt ps_tls).2);
   ("rate_limit.max_requests",
    (won DEFAULT_RATE_LIMIT_MAX_REQUESTS ps_rate_limit_max_requests).2);
   ("rate_limit.window_secs", (won DEFAULT_RATE_LIMIT_WINDOW_SECS ps_rate_limit_window_secs).2);
   ("discovery.docker", (won false ps_docker_enabled).2);
   ("discovery.docker.socket", (won DEFAULT_DOCKER_SOCKET ps_docker_socket).2);
   ("discovery.docker.poll_secs", (won DEFAULT_DOCKER_POLL_SECS ps_docker_poll_secs).2);
   ("discovery.kubernetes", (won false ps_kubernetes_enabled).2);
   ("discovery.kubernetes.namespace", (won None ps_kubernetes_namespace).2)].

Lemma resolve_static_spec prov :
  resolve_static file env cli prov =
  (static_spec, foldl (λ p '(f, s), <[f := s]> p) prov provenance_spec).
Proof. unfold resolve_static, opt_layers, field_layers. by rewrite !resolve_winner. Qed.

Lemma provenance_spec_NoDup : NoDup provenance_spec.*1.
Proof. by apply (bool_decide_unpack _). Qed.
End static_spec.

(** ** Properties *)

(** C7: layered resolution: every static field takes its value from the
    highest layer that sets it (command line, then environment, then file,
    then default), the provenance names that layer for each of the twenty
    fields and nothing else, and the file's routes are kept. *)
Theorem resolve_layers_precedence file routes env cli :
  let c := resolve_layers (file, routes) env cli in
  cfg_static c = static_spec file env cli ∧
  (∀ field source, prov_get (cfg_provenance c) field = Some source ↔
     (field, source) ∈ provenance_spec file env cli) ∧
  cfg_file_routes c = routes.
Proof.
  cbv zeta. unfold resolve_layers. rewrite resolve_static_spec.
  split_and!; [done| |done]. intros field source. unfold prov_get. cbn [cfg_provenance].
  rewrite foldl_insert_lookup by (apply provenance_spec_NoDup || done).
  rewrite lookup_empty. naive_solver.
Qed.

Section ext_props.
Context `{CE : !ConfigExt}.

Lemma load_cert_der_Ok w path ders :
  load_cert_der w path = Ok ders →
  ders ≠ [] ∧ (∀ der, der ∈ ders → x509_from_der der = Ok tt).
Proof.
  unfold load_cert_der. intros (bytes&_&H1)%result_bind_Ok.
  apply result_bind_Ok in H1 as (ds&Hds&H1). apply result_bind_Ok in H1 as ([]&Hv&[= <-]).
  split.
  - destruct (contains_window _ _); [|by injection Hds as <-].
    apply result_bind_Ok in Hds as (certs&_&Hds). by case_bool_decide; simplify_eq.
  - intros der Hin. destruct (try_fold_Ok_elem _ _ _ _ _ Hv Hin) as (?&[]&He).
    by apply map_err_Ok in He.
Qed.

Lemma trusted_ek_roots_der_Ok w t out path :
  trusted_ek_roots_der w t = Ok out → path ∈ tpm_trusted_ek_root_paths t →
  ∃ ders, load_cert_der w path = Ok ders.
Proof.
  intros Hf Hin. destruct (try_fold_Ok_elem _ _ _ _ _ Hf Hin) as (?&?&He).
  apply result_bind_Ok in He as (ders&?&_). eauto.
Qed.

Lemma validate_Ok w c :
  validate w c = Ok tt ↔
  let att := static_attestation (cfg_static c) in
  uses_tpm att = true →
  ∃ t, att_tpm att = Some t ∧ tpm_expected_pcrs t ≠ ∅ ∧
    (is_Some (tpm_pinned_ak_sec1 t) ∨ tpm_trusted_ek_root_paths t ≠ [] ∨
     tpm_allow_unpinned_ak t = true) ∧
    (tpm_trusted_ek_root_paths t ≠ [] → ∃ ders, trusted_ek_roots_der w t = Ok ders).
Proof.
  cbv zeta. unfold validate. destruct (uses_tpm _); [|naive_solver].
  destruct (att_tpm _) as [t|]; simpl; [|naive_solver].
  destruct (decide (tpm_expected_pcrs t = ∅)) as [He|He];
    [rewrite bool_decide_eq_true_2 by done|rewrite bool_decide_eq_false_2 by done]; simpl;
    [naive_solver|].
  destruct (decide (tpm_trusted_ek_root_paths t = [])) as [Hr|Hr];
    [rewrite (bool_decide_eq_true_2 _ Hr)|rewrite (bool_decide_eq_false_2 _ Hr)]; simpl.
  - destruct (tpm_pinned_ak_sec1 t) as [ak|] eqn:Hp, (tpm_allow_unpinned_ak t) eqn:Ha; simpl;
      (split; [intros Hok _; exists t; rewrite Hp, Ha; split_and!; by eauto|intros Hok]);
      try done.
    destruct (Hok eq_refl) as (t'&[= <-]&_&[Hs|[Hs|Hs]]&_); [|done|congruence].
    rewrite Hp in Hs. by destruct Hs.
  - rewrite andb_false_r. simpl. rewrite result_bind_Ok. split.
    + intros (ders&Hd&_) _. exists t. split_and!; by eauto.
    + intros Hok. destruct (Hok eq_refl) as (t'&[= <-]&_&_&Hd). destruct (Hd Hr); by eauto.
Qed.

(** C8: fail-closed start: a configuration that loads with a TPM verifier or
    provider has a non-empty reference policy, trusts the attestation key in
    at least one of the three ways, and every configured root file holds at
    least one certificate, all of them valid X.509. *)
Theorem load_tpm_fail_closed w cli explicit c
    (Hload : load w cli explicit = Ok c)
    (Htpm : uses_tpm (static_attestation (cfg_static c)) = true) :
  ∃ t, att_tpm (static_attestation (cfg_static c)) = Some t ∧
    tpm_expected_pcrs t ≠ ∅ ∧
    (is_Some (tpm_pinned_ak_sec1 t) ∨ tpm_trusted_ek_root_paths t ≠ [] ∨
     tpm_allow_unpinned_ak t = true) ∧
    ∀ path, path ∈ tpm_trusted_ek_root_paths t →
      ∃ ders, load_cert_der w path = Ok ders ∧ ders ≠ [] ∧
        ∀ der, der ∈ ders → x509_from_der der = Ok tt.
Proof.
  unfold load in Hload. apply result_bind_Ok in Hload as (file&_&Hload).
  apply result_bind_Ok in Hload as (env&_&Hload).
  apply result_bind_Ok in Hload as ([]&Hval&[= <-]).
  destruct (proj1 (validate_Ok _ _) Hval Htpm) as (t&Ht&Hne&Htrust&Hroots).
  exists t. split_and!; [done..|]. intros path Hin.
  destruct Hroots as [ders Hders]; [by intros Hn; rewrite Hn in Hin; apply elem_of_nil in Hin|].
  destruct (trusted_ek_roots_der_Ok _ _ _ _ Hders Hin) as [ds Hds].
  exists ds. split; [done|]. by apply load_cert_der_Ok with w path.
Qed.

(** The TPM environment layer is silent exactly when its five variables
    are all unset or empty, so that it cannot clobber a file policy. *)
Theorem read_tpm_env_silent w :
  read_tpm_env w = Ok None ↔
  Forall (λ name, var w name = None)
    ["ARCHETYPE_PROXY_TPM_EXPECTED_PCRS"; "ARCHETYPE_PROXY_TPM_PINNED_AK_SEC1_HEX";
     "ARCHETYPE_PROXY_TPM_PCR_SELECTION"; "ARCHETYPE_PROXY_TPM_TRUSTED_EK_ROOT_PATHS";
     "ARCHETYPE_PROXY_TPM_ALLOW_UNPINNED_AK"].
Proof.
  unfold read_tpm_env. rewrite !Forall_cons, Forall_nil.
  destruct (bool_decide (var w "ARCHETYPE_PROXY_TPM_EXPECTED_PCRS" = None) && _ && _ && _ && _)
    eqn:E.
  - rewrite !andb_true_iff, !bool_decide_eq_true in E. naive_solver.
  - split.
    + intros Hr. repeat (apply result_bind_Ok in Hr as (?&?&Hr)). done.
    + intros (H1&H2&H3&H4&H5&_). by rewrite H1, H2, H3, H4, H5 in E.
Qed.
End ext_props.
