(* ===== verification/Dump.v ===== *)
(** * The configuration dump ([Config::dump] of [src/config.rs])

    The text printed by the [dump] command: one line per static field with its
    value and the layer that supplied it, then the routes of the file.  The
    theorems say what a resolved configuration prints and that no secret is
    in the text. *)

From S2P Require Import Prelude RustStr SocketAddr Format Routing Config Layers.

Local Open Scope Z_scope.

(** [Display] of [Source]. *)
Definition Source_to_string (s : Source) : string :=
  match s with
  | Source_Default => "default"
  | Source_File => "file"
  | Source_Discovered => "discovered"
  | Source_Env => "env"
  | Source_Cli => "cli"
  end.

(** The texts of [TlsConfig::validate]; the last stands for its panics. *)
Definition TlsConfigError_to_string (e : TlsConfigError) : string :=
  match e with
  | TlsMutuallyExclusive =>
      "[server.tls]: static cert_path/key_path and [server.tls.acme] enabled=true are " +:+
      "mutually exclusive — configure exactly one cert source"
  | TlsNoCertSource =>
      "[server.tls] is present but configures no cert source: set cert_path+key_path " +:+
      "OR [server.tls.acme] enabled=true"
  | TlsKeyPathMissing => "[server.tls]: cert_path is set but key_path is missing"
  | TlsCertPathMissing => "[server.tls]: key_path is set but cert_path is missing"
  | TlsNoDomains => "[server.tls.acme]: enabled=true but `domains` is empty"
  | TlsWildcardNeedsDns01 challenge =>
      "[server.tls.acme]: wildcard domain requires challenge=" +:+ dq +:+ "dns-01" +:+ dq +:+
      " (got challenge=" +:+ dq +:+ AcmeChallenge_as_str challenge +:+ dq +:+ ")"
  | TlsUnreachable => "unreachable"
  end.

Section dump.
Context `{UT : !UnicodeTables}.

(** The closure [line], with the source looked up. *)
Definition dump_line (field val : string) (src : Source) : string :=
  "  " +:+ pad_right 28 field +:+ " = " +:+ pad_right 30 val +:+ " [" +:+
  Source_to_string src +:+ "]" +:+ nl.

Definition dump_pcrs (tpm : option TpmConfig) : string :=
  match tpm with
  | None => "<none>"
  | Some t =>
      let idxs := (btree_iter Z.le (tpm_expected_pcrs t)).*1 in
      fmt_dec (Z.of_nat (length idxs)) +:+ " PCR(s) [" +:+ join "," (fmt_dec <$> idxs) +:+ "]"
  end.

Definition dump_pinned_ak (tpm : option TpmConfig) : string :=
  match tpm with
  | None => "<none>"
  | Some t => if bool_decide (is_Some (tpm_pinned_ak_sec1 t)) then "<set>" else "<none>"
  end.

Definition dump_ek_roots (tpm : option TpmConfig) : string :=
  match tpm with
  | None => "<none>"
  | Some t => fmt_dec (Z.of_nat (length (tpm_trusted_ek_root_paths t)))
  end.

Definition dump_unpinned (tpm : option TpmConfig) : string :=
  fmt_bool (match tpm with Some t => tpm_allow_unpinned_ak t | None => false end).

Definition dump_tls (tls : option TlsConfig) : string :=
  match tls with
  | None => "<none>"
  | Some t =>
      match TlsConfig_validate t with
      | Ok (TlsMode_Static cert_path key_path) => "static cert=" +:+ cert_path +:+ " key=" +:+ key_path
      | Ok (TlsMode_Acme a) =>
          "acme challenge=" +:+ AcmeChallenge_as_str (acme_challenge a) +:+
          " domains=" +:+ fmt_debug_list (acme_domains a) +:+
          " staging=" +:+ fmt_bool (acme_staging a)
      | Err e => "<invalid: " +:+ TlsConfigError_to_string e +:+ ">"
      end
  end.

(** The printed fields, in order, with their values. *)
Definition dump_fields (s : StaticConfig) : list (string * string) :=
  let att := static_attestation s in
  let docker := disc_docker (static_discovery s) in
  let kubernetes := disc_kubernetes (static_discovery s) in
  [("server.listen", SocketAddr_to_string (server_listen (static_server s)));
   ("server.max_body_bytes", fmt_dec (server_max_body_bytes (static_server s)));
   ("attestation.allow_mock", fmt_bool (att_allow_mock att));
   ("attestation.strict_attestation", fmt_bool (att_strict_attestation att));
   ("attestation.atb_ttl_secs", fmt_dec (att_atb_ttl_secs att));
   ("attestation.atb_eviction_interval_secs", fmt_dec (att_atb_eviction_interval_secs att));
   ("attestation.atb_max_sessions", fmt_dec (att_atb_max_sessions att));
   ("attestation.tee_provider", TeeProviderKind_as_str (att_tee_provider att));
   ("attestation.verifier", VerifierKind_as_str (att_verifier att));
   ("attestation.verifier_endpoint", default "<none>" (att_verifier_endpoint att));
   ("attestation.tpm.expected_pcrs", dump_pcrs (att_tpm att));
   ("attestation.tpm.pinned_ak", dump_pinned_ak (att_tpm att));
   ("attestation.tpm.trusted_ek_roots", dump_ek_roots (att_tpm att));
   ("attestation.tpm.allow_unpinned_ak", dump_unpinned (att_tpm att));
   ("server.tls", dump_tls (server_tls (static_server s)));
   ("rate_limit.max_requests", fmt_dec (rl_max_requests (static_rate_limit s)));
   ("rate_limit.window_secs", fmt_dec (rl_window_secs (static_rate_limit s)));
   ("discovery.docker", fmt_bool (docker_enabled docker));
   ("discovery.docker.socket", docker_socket docker);
   ("discovery.docker.poll_secs", fmt_dec (docker_poll_secs docker));
   ("discovery.kubernetes", fmt_bool (kubernetes_enabled kubernetes));
   ("discovery.kubernetes.namespace", default "<all>" (kubernetes_namespace kubernetes))].

Definition dump_route (r : Route) : string :=
  "  - " +:+ route_name r +:+ " host=" +:+ fmt_debug_str (route_host r) +:+ " prefix=" +:+
  fmt_debug_str (route_path_prefix r) +:+ " -> " +:+ route_upstream r +:+ " [" +:+
  Source_to_string (route_source r) +:+ "]" +:+ nl.

(** [Config::dump]. *)
Definition dump (c : Config) : string :=
  let line '(field, val) :=
    dump_line field val (default Source_Default (prov_get (cfg_provenance c) field)) in
  "static config (boot-time only):" +:+ nl +:+
  str_concat (line <$> dump_fields (cfg_static c)) +:+
  "dynamic routes (file): " +:+ fmt_dec (Z.of_nat (length (cfg_file_routes c))) +:+ nl +:+
  str_concat (dump_route <$> cfg_file_routes c).

(** ** Lemmas *)

Lemma resolve_layers_static file routes env cli :
  cfg_static (resolve_layers (file, routes) env cli) = static_spec file env cli.
Proof. unfold resolve_layers. by rewrite resolve_static_spec. Qed.

Lemma resolve_layers_routes file routes env cli :
  cfg_file_routes (resolve_layers (file, routes) env cli) = routes.
Proof. unfold resolve_layers. by rewrite resolve_static_spec. Qed.

Lemma prov_get_resolved file routes env cli field :
  prov_get (cfg_provenance (resolve_layers (file, routes) env cli)) field =
  snd <$> List.find (λ p, bool_decide (p.1 = field)) (provenance_spec file env cli).
Proof.
  unfold resolve_layers. rewrite resolve_static_spec. unfold prov_get. cbn [cfg_provenance].
  apply option_eq. intros src.
  rewrite foldl_insert_lookup by (apply provenance_spec_NoDup || done).
  rewrite lookup_empty. split.
  - intros [Hin|?]; [|done]. pose proof (provenance_spec_NoDup file env cli) as Hnd.
    induction (provenance_spec file env cli) as [|[f s] l IH]; [by apply elem_of_nil in Hin|].
    apply NoDup_cons in Hnd as [Hf Hnd]. simpl. apply elem_of_cons in Hin as [[= -> ->]|Hin].
    + by rewrite bool_decide_eq_true_2.
    + rewrite bool_decide_eq_false_2; [by apply IH|]. intros ->. apply Hf.
      apply list_elem_of_fmap. by exists (field, src).
  - destruct (List.find _ _) as [[f s]|] eqn:Hf; [|done]. simpl. intros [= ->]. left.
    apply List.find_some in Hf as [Hin Hd]. apply bool_decide_eq_true in Hd. simpl in Hd. subst f.
    by apply list_elem_of_In.
Qed.

(** ** Redaction *)

(** The configuration without its secrets and what leads to them: the
    verifier's key, the attestation key, the reference values and root paths
    of the TPM policy, and the commands, tokens, contact and cache of ACME. *)
Definition redact_tpm (t : TpmConfig) : TpmConfig :=
  mkTpmConfig ((λ _, []) <$> tpm_expected_pcrs t) ((λ _, []) <$> tpm_pinned_ak_sec1 t) None
    ((λ _, EmptyString) <$> tpm_trusted_ek_root_paths t) (tpm_allow_unpinned_ak t).

Definition redact_acme (a : AcmeConfig) : AcmeConfig :=
  mkAcmeConfig (acme_enabled a) (acme_domains a) None (acme_challenge a) None (acme_staging a)
    None None (mkAcmeDnsConfig Dns_Manual None None None None None 0).

Definition redact_tls (t : TlsConfig) : TlsConfig :=
  mkTlsConfig (tls_cert_path t) (tls_key_path t) (redact_acme <$> tls_acme t).

Definition redact (c : Config) : Config :=
  let s := cfg_static c in
  let srv := static_server s in
  let att := static_attestation s in
  mkConfig
    (mkStaticConfig
       (mkServerConfig (server_listen srv) (server_max_body_bytes srv) (redact_tls <$> server_tls srv))
       (mkAttestationConfig (att_allow_mock att) (att_strict_attestation att)
          (att_atb_ttl_secs att) (att_atb_eviction_interval_secs att) (att_atb_max_sessions att)
          (att_tee_provider att) (att_verifier att) (att_verifier_endpoint att) None
          (redact_tpm <$> att_tpm att))
       (static_discovery s) (static_rate_limit s))
    (cfg_file_routes c)
    (delete "attestation.verifier_api_key" (cfg_provenance c)).

Lemma redact_tls_validate t :
  TlsConfig_validate (redact_tls t) =
  match TlsConfig_validate t with
  | Ok (TlsMode_Acme a) => Ok (TlsMode_Acme (redact_acme a))
  | r => r
  end.
Proof.
  destruct t as [cert key [a|]]; unfold TlsConfig_validate; simpl;
    [destruct (acme_enabled a)|]; destruct cert, key; simpl; try done.
  case_bool_decide; [done|]. by destruct (negb _ && _).
Qed.

Lemma redact_tls_dump o : dump_tls (redact_tls <$> o) = dump_tls o.
Proof.
  destruct o as [t|]; [|done]. simpl. rewrite redact_tls_validate.
  by destruct (TlsConfig_validate t) as [[]|].
Qed.

Lemma redact_tpm_dump o :
  dump_pcrs (redact_tpm <$> o) = dump_pcrs o ∧ dump_pinned_ak (redact_tpm <$> o) = dump_pinned_ak o ∧
  dump_ek_roots (redact_tpm <$> o) = dump_ek_roots o ∧
  dump_unpinned (redact_tpm <$> o) = dump_unpinned o.
Proof.
  destruct o as [t|]; [|done]. split_and!; simpl; [|by destruct (tpm_pinned_ak_sec1 t)| |done].
  - by rewrite !(btree_iter_fmap_keys Z.le).
  - by rewrite length_fmap.
Qed.

Lemma redact_fields c : dump_fields (cfg_static (redact c)) = dump_fields (cfg_static c).
Proof.
  destruct (redact_tpm_dump (att_tpm (static_attestation (cfg_static c)))) as (H1&H2&H3&H4).
  unfold redact, dump_fields. cbn [cfg_static static_server static_attestation static_discovery
    static_rate_limit att_tpm server_tls].
  by rewrite H1, H2, H3, H4, redact_tls_dump.
Qed.

Lemma dump_fields_no_key s :
  Forall (λ p, p.1 ≠ "attestation.verifier_api_key") (dump_fields s).
Proof. unfold dump_fields. repeat (constructor; [discriminate|]). constructor. Qed.

(** The layers the dump names, in the order of its lines. *)
Definition printed_sources (file env cli : PartialStatic) : list Source :=
  let won {T} (d : T) acc := (won file env cli d acc).2 in
  let won_opt {T} (acc : PartialStatic → option T) := (won_opt file env cli acc).2 in
  [won default_listen ps_listen; won DEFAULT_MAX_BODY_BYTES ps_max_body_bytes;
   won true ps_allow_mock; won false ps_strict_attestation;
   won DEFAULT_ATB_TTL_SECS ps_atb_ttl_secs;
   won DEFAULT_ATB_EVICTION_INTERVAL_SECS ps_atb_eviction_interval_secs;
   won DEFAULT_ATB_MAX_SESSIONS ps_atb_max_sessions;
   won DEFAULT_TEE_PROVIDER ps_tee_provider; won DEFAULT_VERIFIER ps_verifier;
   won_opt ps_verifier_endpoint;
   Source_Default; Source_Default; Source_Default; Source_Default;
   won_opt ps_tls; won DEFAULT_RATE_LIMIT_MAX_REQUESTS ps_rate_limit_max_requests;
   won DEFAULT_RATE_LIMIT_WINDOW_SECS ps_rate_limit_window_secs;
   won false ps_docker_enabled; won DEFAULT_DOCKER_SOCKET ps_docker_socket;
   won DEFAULT_DOCKER_POLL_SECS ps_docker_poll_secs;
   won false ps_kubernetes_enabled; won None ps_kubernetes_namespace].

(** ** Properties *)

(** The dump of a resolved configuration: one line per field in a fixed
    order with the value in force and the layer that supplied it, then the
    routes of the file.  The four lines of the TPM block are the exception:
    they name the default layer whichever layer supplied the block, because
    the provenance is recorded under the name of the block. *)
Theorem dump_resolved file routes env cli :
  dump (resolve_layers (file, routes) env cli) =
  "static config (boot-time only):" +:+ nl +:+
  str_concat (zip_with (λ '(field, val) src, dump_line field val src)
                (dump_fields (static_spec file env cli)) (printed_sources file env cli)) +:+
  "dynamic routes (file): " +:+ fmt_dec (Z.of_nat (length routes)) +:+ nl +:+
  str_concat (dump_route <$> routes).
Proof.
  unfold dump. rewrite (resolve_layers_static file routes env cli), (resolve_layers_routes file routes env cli).
  do 3 f_equal. generalize (static_spec file env cli). intros st. unfold dump_fields.
  cbn [fmap list_fmap zip_with printed_sources]. by rewrite !prov_get_resolved.
Qed.

(** C19: the dump shows no secret: it is determined by the configuration
    without the verifier's key, the attestation key, the reference values and
    root paths of the TPM policy, and the tokens, commands, contact and cache
    directory of ACME. *)
Theorem dump_redacted c : dump c = dump (redact c).
Proof.
  unfold dump. rewrite redact_fields. cbn [redact cfg_file_routes cfg_provenance].
  do 4 f_equal. apply list_fmap_ext. intros i [field val] Hi. f_equal. unfold prov_get.
  rewrite lookup_delete_ne; [done|]. intros <-.
  pose proof (dump_fields_no_key (cfg_static c)) as Hf. rewrite Forall_lookup in Hf.
  by apply Hf in Hi.
Qed.

End dump.

(** ** A concrete dump *)

Module DumpExample.
#[local] Instance tables : UnicodeTables := {| debug_escapes _ := false |}.

(** A TPM policy from the file and a listen address from the command line. *)
Definition file : PartialStatic :=
  mkPartialStatic None None None None None None None None None (Some Ver_Tpm) None None
    (Some (mkTpmConfig {[ 7 := [1]; 0 := [2] ]} None None [] true)) None None None None None None None.

Definition cli : PartialStatic :=
  mkPartialStatic (Some (SocketAddrV6 [0; 0; 0; 0; 0; 0; 0; 1] 0 8443))
    None None None None None None None None None None None None None None None None None None None.

Example dump_names_layers :
  let text := dump (resolve_layers (file, [mkRoute "api" "a" "/" "http://u" None Source_File])
                      PartialStatic_default cli) in
  take 2 (split (λ a, Ascii.eqb a "010") text) =
    ["static config (boot-time only):";
     "  server.listen                = [::1]:8443                     [cli]"] ∧
  (split (λ a, Ascii.eqb a "010") text !! 9%nat =
     Some "  attestation.verifier         = tpm                            [file]") ∧
  (split (λ a, Ascii.eqb a "010") text !! 11%nat =
     Some "  attestation.tpm.expected_pcrs = 2 PCR(s) [0,7]                 [default]").
Proof. vm_compute. split_and!; reflexivity. Qed.
End DumpExample.
