(* ===== verification/TpmEnv.v ===== *)
(** * The TPM policy in the environment ([src/config.rs], lines 1390-1482)

    The reference policy can be supplied through five variables.  This file
    shows that the reader accepts every policy in its documented syntax:
    rendering a policy into the variables and reading it back gives the
    policy. *)

From S2P Require Import Prelude RustStr SocketAddr Routing Config Layers.

Local Open Scope Z_scope.

(** ** Documented behaviour of the [hex] crate *)

Definition is_hex_digit (a : ascii) : bool :=
  let b := byte_of_ascii a in in_range 48 57 b || in_range 97 102 b || in_range 65 70 b.

Definition is_bytes (l : list Z) : Prop := Forall (λ b, 0 ≤ b < 256) l.

(** [hex::encode] writes two hexadecimal digits a byte and [hex::decode]
    inverts it. *)
Class HexLaws `{!ConfigExt} := {
  hex_encode : list Z → string;
  hex_decode_encode bs : is_bytes bs → hex_decode (hex_encode bs) = Ok bs;
  hex_encode_digits bs : str_forallb is_hex_digit (hex_encode bs) = true;
  hex_encode_nonempty bs : bs ≠ [] → hex_encode bs ≠ EmptyString;
}.

(** ** The documented syntax *)

Section tpm_env.
Context `{HC : !ConfigExt, HL : !HexLaws}.

Definition show_u32 (i : Z) : string := pretty (Z.to_N i).

Definition show_pcr (p : Z * list Z) : string := show_u32 p.1 +:+ String ":" (hex_encode p.2).

Definition show_pcrs (m : gmap Z (list Z)) : string := join "," (show_pcr <$> btree_iter Z.le m).

Definition tpm_vars (t : TpmConfig) : gmap string string :=
  list_to_map
    [("ARCHETYPE_PROXY_TPM_EXPECTED_PCRS", show_pcrs (tpm_expected_pcrs t));
     ("ARCHETYPE_PROXY_TPM_PINNED_AK_SEC1_HEX",
      default EmptyString (hex_encode <$> tpm_pinned_ak_sec1 t));
     ("ARCHETYPE_PROXY_TPM_PCR_SELECTION",
      default EmptyString (join "," ∘ fmap show_u32 <$> tpm_pcr_selection t));
     ("ARCHETYPE_PROXY_TPM_TRUSTED_EK_ROOT_PATHS", join "," (tpm_trusted_ek_root_paths t));
     ("ARCHETYPE_PROXY_TPM_ALLOW_UNPINNED_AK",
      if tpm_allow_unpinned_ak t then "true" else "false")].

Definition is_u32 (i : Z) : Prop := 0 ≤ i ≤ u32_max.

(** A path the comma- and colon-separated list can carry. *)
Definition plain_path (p : string) : Prop :=
  p ≠ EmptyString ∧
  str_forallb (λ a, is_plain a && negb (is_comma_or_colon a)) p = true.

(** The policies the variables can express. *)
Record expressible (t : TpmConfig) : Prop := {
  ex_pcrs : ∀ i bs, tpm_expected_pcrs t !! i = Some bs → is_u32 i ∧ is_bytes bs;
  ex_ak : ∀ bs, tpm_pinned_ak_sec1 t = Some bs → bs ≠ [] ∧ is_bytes bs;
  ex_sel : ∀ l, tpm_pcr_selection t = Some l → l ≠ [] ∧ Forall is_u32 l;
  ex_roots : Forall plain_path (tpm_trusted_ek_root_paths t);
}.

(** ** Lemmas *)

Lemma is_hex_digit_plain a : is_hex_digit a = true → is_plain a = true.
Proof. by destruct a as [[] [] [] [] [] [] [] []]. Qed.

Lemma is_hex_digit_no_comma a : is_hex_digit a = true → negb (is_comma a) = true.
Proof. by destruct a as [[] [] [] [] [] [] [] []]. Qed.

Lemma is_digit_no_comma a : is_digit a = true → negb (is_comma a) = true.
Proof. by destruct a as [[] [] [] [] [] [] [] []]. Qed.

Lemma str_mem_forallb c f s :
  f c = false → str_forallb f s = true → str_mem c s = false.
Proof.
  intros Hc. induction s as [|a s IH]; simpl; [done|]. intros [Ha Hs]%andb_true_iff.
  apply orb_false_iff. split; [|by apply IH]. apply Ascii.eqb_neq. intros ->. congruence.
Qed.

Lemma split_trim_join (f : ascii → bool) c l :
  f c = true →
  Forall (λ s, s ≠ EmptyString ∧ str_forallb is_plain s = true ∧
               str_forallb (λ a, negb (f a)) s = true) l →
  split_trim f (join (String c EmptyString) l) = l.
Proof.
  intros Hc Hl. unfold split_trim. destruct (decide (l = [])) as [->|Hne]; [done|].
  rewrite split_join; [|done..|by eapply Forall_impl; [exact Hl|]; naive_solver].
  clear Hne. induction Hl as [|s l (Hs&Hp&_) Hl IH]; [done|].
  rewrite fmap_cons, trim_plain by done. simpl. destruct s; [done|]. simpl. by rewrite IH.
Qed.

Lemma join_nonempty c l :
  l ≠ [] → Forall (λ s, s ≠ EmptyString) l → join (String c EmptyString) l ≠ EmptyString.
Proof.
  intros Hne Hl. destruct Hl as [|s l Hs Hl]; [done|]. destruct l; [done|]. by destruct s.
Qed.

Lemma show_u32_digits i : str_forallb is_digit (show_u32 i) = true ∧ show_u32 i ≠ EmptyString.
Proof. apply pretty_digits. Qed.

Lemma parse_show_u32 i : is_u32 i → parse_uint u32_max (show_u32 i) = Ok i.
Proof.
  intros Hi. unfold show_u32, is_u32 in *. rewrite parse_uint_pretty by lia.
  by rewrite Z2N.id by lia.
Qed.

Lemma show_u32_item i :
  show_u32 i ≠ EmptyString ∧ str_forallb is_plain (show_u32 i) = true ∧
  str_forallb (λ a, negb (is_comma a)) (show_u32 i) = true.
Proof.
  destruct (show_u32_digits i) as [Hd Hn].
  split_and!; [done|..]; (eapply str_forallb_impl; [|exact Hd]);
    [apply is_digit_plain|apply is_digit_no_comma].
Qed.

Lemma show_pcr_item p :
  show_pcr p ≠ EmptyString ∧ str_forallb is_plain (show_pcr p) = true ∧
  str_forallb (λ a, negb (is_comma a)) (show_pcr p) = true.
Proof.
  unfold show_pcr. destruct (show_u32_item p.1) as (Hn&Hp&Hc).
  pose proof (hex_encode_digits p.2) as Hh.
  rewrite !str_forallb_app, Hp, Hc. simpl.
  split_and!; [by destruct (show_u32 p.1)|..]; (eapply str_forallb_impl; [|exact Hh]);
    [apply is_hex_digit_plain|apply is_hex_digit_no_comma].
Qed.

Lemma read_show_pcr acc i bs :
  is_u32 i → is_bytes bs → read_pcr_pair acc (show_pcr (i, bs)) = Ok (<[i := bs]> acc).
Proof.
  intros Hi Hbs. unfold read_pcr_pair.
  assert (split_once ":" (show_pcr (i, bs)) = Some (show_u32 i, hex_encode bs)) as ->.
  { apply split_once_Some. split; [done|].
    by eapply str_mem_forallb; [|apply show_u32_digits]. }
  destruct (show_u32_item i) as (_&Hp&_). cbn [ok_or mbind result_bind].
  rewrite (trim_plain (show_u32 i)), parse_show_u32 by done. cbn [map_err mbind result_bind].
  unfold decode_hex_field. rewrite trim_plain, hex_decode_encode; [done..|].
  eapply str_forallb_impl; [apply is_hex_digit_plain|apply hex_encode_digits].
Qed.

Lemma read_show_pcrs l acc :
  Forall (λ p, is_u32 p.1 ∧ is_bytes p.2) l →
  try_fold read_pcr_pair acc (show_pcr <$> l) = Ok (foldl (λ m '(i, bs), <[i := bs]> m) acc l).
Proof.
  intros Hl. revert acc. induction Hl as [|[i bs] l [Hi Hb] Hl IH]; intros acc; [done|].
  rewrite fmap_cons. cbn [try_fold]. rewrite read_show_pcr by done. apply IH.
Qed.

Lemma foldl_btree_iter (m : gmap Z (list Z)) :
  foldl (λ m '(i, bs), <[i := bs]> m) ∅ (btree_iter Z.le m) = m.
Proof.
  apply map_eq. intros i. apply option_eq. intros bs.
  rewrite foldl_insert_lookup by (apply btree_iter_NoDup_fst || done).
  rewrite elem_of_btree_iter by apply _. rewrite lookup_empty. naive_solver.
Qed.
Lemma var_Some (w : World io_error) name s :
  env_var w name = Some s → s ≠ EmptyString → var w name = Some s.
Proof. unfold var. intros ->. by destruct s. Qed.

Lemma var_empty (w : World io_error) name :
  env_var w name = Some EmptyString → var w name = None.
Proof. unfold var. by intros ->. Qed.

(** The value of one variable: absent when its rendering is empty. *)
Lemma var_render (w : World io_error) name s :
  env_var w name = Some s → var w name = if is_empty s then None else Some s.
Proof. unfold var. intros ->. simpl. by destruct s. Qed.

Lemma is_empty_false s : s ≠ EmptyString → is_empty s = false.
Proof. by destruct s. Qed.

Section fields.
Context (t : TpmConfig) (Ht : expressible t).

Lemma show_pcrs_read :
  match (if is_empty (show_pcrs (tpm_expected_pcrs t)) then None
         else Some (show_pcrs (tpm_expected_pcrs t))) with
  | Some raw => try_fold read_pcr_pair ∅ (split_trim is_comma raw)
  | None => Ok ∅
  end = Ok (tpm_expected_pcrs t).
Proof.
  pose proof (foldl_btree_iter (tpm_expected_pcrs t)) as Hfold.
  assert (Forall (λ p, is_u32 p.1 ∧ is_bytes p.2) (btree_iter Z.le (tpm_expected_pcrs t))) as Hall.
  { apply Forall_forall. intros [i bs] Hin. apply elem_of_btree_iter in Hin; [|apply _..].
    by apply (ex_pcrs t Ht). }
  unfold show_pcrs. destruct (btree_iter Z.le (tpm_expected_pcrs t)) as [|p l] eqn:El.
  { simpl in Hfold. by rewrite <-Hfold. }
  rewrite is_empty_false.
  - rewrite split_trim_join, read_show_pcrs, Hfold; [done..|].
    apply Forall_fmap, Forall_true. intros q. apply show_pcr_item.
  - apply join_nonempty; [done|]. apply Forall_fmap, Forall_true. intros q. apply show_pcr_item.
Qed.

Lemma show_selection_read :
  match (let s := default EmptyString (join "," ∘ fmap show_u32 <$> tpm_pcr_selection t) in
         if is_empty s then None else Some s) with
  | Some raw => Some <$> try_fold (λ sel s,
      i ← map_err (λ k, ConfigError_Env "ARCHETYPE_PROXY_TPM_PCR_SELECTION" s
                          (Reason_PcrIndex k)) (parse_uint u32_max s);
      Ok (sel ++ [i])) [] (split_trim is_comma raw)
  | None => Ok None
  end = Ok (tpm_pcr_selection t).
Proof.
  destruct (tpm_pcr_selection t) as [l|] eqn:El; [|done].
  destruct (ex_sel t Ht l El) as [Hne Hl]. simpl. rewrite is_empty_false.
  - rewrite split_trim_join; [|done|apply Forall_fmap, Forall_true; intros i; apply show_u32_item].
    match goal with |- _ <$> ?c = _ => enough (c = Ok l) as ->; [done|] end.
    match goal with |- try_fold ?f _ _ = _ =>
      enough (∀ acc, try_fold f acc (show_u32 <$> l) = Ok (acc ++ l)) as Hacc by apply (Hacc [])
    end.
    clear Hne El.
    induction Hl as [|i l Hi Hl IH]; intros acc; [by rewrite app_nil_r|].
    rewrite fmap_cons. cbn [try_fold]. rewrite parse_show_u32 by done.
    cbn [map_err mbind result_bind]. by rewrite IH, <-app_assoc.
  - apply join_nonempty; [by destruct l|]. apply Forall_fmap, Forall_true. intros i.
    apply show_u32_item.
Qed.

Lemma show_roots_read :
  match (let s := join "," (tpm_trusted_ek_root_paths t) in
         if is_empty s then None else Some s) with
  | Some raw => split_trim is_comma_or_colon raw
  | None => []
  end = tpm_trusted_ek_root_paths t.
Proof.
  pose proof (ex_roots t Ht) as Hr. destruct (tpm_trusted_ek_root_paths t) as [|p l]; [done|].
  cbv zeta. rewrite is_empty_false.
  - apply split_trim_join; [done|]. eapply Forall_impl; [exact Hr|]. intros x [Hne Hx].
    split_and!; [done|..]; (eapply str_forallb_impl; [|exact Hx]);
      intros a [? ?]%andb_true_iff; done.
  - apply join_nonempty; [done|]. eapply Forall_impl; [exact Hr|]. by intros x [? _].
Qed.

Lemma show_ak_read :
  match (let s := default EmptyString (hex_encode <$> tpm_pinned_ak_sec1 t) in
         if is_empty s then None else Some s) with
  | Some h => Some <$> decode_hex_field h "ARCHETYPE_PROXY_TPM_PINNED_AK_SEC1_HEX"
  | None => Ok None
  end = Ok (tpm_pinned_ak_sec1 t).
Proof.
  destruct (tpm_pinned_ak_sec1 t) as [bs|] eqn:Eb; [|done]. simpl.
  destruct (ex_ak t Ht bs Eb) as [Hne Hb]. rewrite is_empty_false by by apply hex_encode_nonempty.
  unfold decode_hex_field. rewrite trim_plain, hex_decode_encode; [done..|].
  eapply str_forallb_impl; [apply is_hex_digit_plain|apply hex_encode_digits].
Qed.
End fields.

(** C31: the TPM environment layer reads back every policy its five variables
    can express, with root paths of printable ASCII without spaces and
    separators: the reader inverts the documented syntax. *)
Theorem read_tpm_env_roundtrip (w : World io_error) (t : TpmConfig)
    (Hvars : tpm_vars t ⊆ w_env w) (Ht : expressible t) :
  read_tpm_env w = Ok (Some t).
Proof.
  assert (∀ name s, tpm_vars t !! name = Some s →
          var w name = if is_empty s then None else Some s) as Hv.
  { intros name s Hs. apply var_render. by eapply lookup_weaken. }
  unfold read_tpm_env.
  rewrite (Hv "ARCHETYPE_PROXY_TPM_EXPECTED_PCRS" (show_pcrs (tpm_expected_pcrs t)) eq_refl),
    (Hv "ARCHETYPE_PROXY_TPM_PINNED_AK_SEC1_HEX"
       (default EmptyString (hex_encode <$> tpm_pinned_ak_sec1 t)) eq_refl),
    (Hv "ARCHETYPE_PROXY_TPM_PCR_SELECTION"
       (default EmptyString (join "," ∘ fmap show_u32 <$> tpm_pcr_selection t)) eq_refl),
    (Hv "ARCHETYPE_PROXY_TPM_TRUSTED_EK_ROOT_PATHS"
       (join "," (tpm_trusted_ek_root_paths t)) eq_refl),
    (Hv "ARCHETYPE_PROXY_TPM_ALLOW_UNPINNED_AK"
       (if tpm_allow_unpinned_ak t then "true" else "false") eq_refl).
  cbv zeta. rewrite show_pcrs_read, show_ak_read, show_selection_read, show_roots_read by done.
  destruct t as [? ? ? ? []]; by rewrite andb_false_r.
Qed.
End tpm_env.

(** ** A concrete instance

    Base-16 coding written out, one empty configuration file syntax, and
    certificates that are any non-empty byte string: enough to run the reader
    and the loader. *)
Module Concrete.

Definition hex_char (n : Z) : ascii :=
  ascii_of_N (Z.to_N (if n <? 10 then 48 + n else 87 + n)).

Definition hex_val (a : ascii) : option Z :=
  let b := byte_of_ascii a in
  if in_range 48 57 b then Some (b - 48)
  else if in_range 97 102 b then Some (b - 87)
  else if in_range 65 70 b then Some (b - 55)
  else None.

Fixpoint encode (bs : list Z) : string :=
  match bs with
  | [] => EmptyString
  | b :: bs => String (hex_char (b / 16 mod 16)) (String (hex_char (b mod 16)) (encode bs))
  end.

Fixpoint decode (s : string) : result unit (list Z) :=
  match s with
  | EmptyString => Ok []
  | String a (String b s) =>
      match hex_val a, hex_val b with
      | Some x, Some y => l ← decode s; Ok (16 * x + y :: l)
      | _, _ => Err tt
      end
  | String _ EmptyString => Err tt
  end.

Definition empty_file : FileConfig :=
  mkFileConfig (mkFileServer None None None)
    (mkFileAttestation None None None None None None None None None None)
    (mkFileRateLimit None None) (mkFileDiscovery None None None None None) None [].

#[export] Instance ext : ConfigExt := {|
  io_error := unit; toml_error := unit; hex_error := unit; pem_error := unit;
  x509_error := unit; invalid_utf8 := tt;
  toml_from_str s := if is_empty s then Ok empty_file else Err tt;
  hex_decode := decode;
  pem_certs bs := Ok [bs];
  x509_from_der bs := match bs with [] => Err tt | _ => Ok tt end |}.

Lemma hex_char_spec n :
  0 ≤ n < 16 → hex_val (hex_char n) = Some n ∧ is_hex_digit (hex_char n) = true.
Proof.
  intros Hn. assert (n ∈ seqZ 0 16) as Hin by by apply elem_of_seqZ.
  vm_compute in Hin. repeat (apply elem_of_cons in Hin as [->|Hin]; [done|]).
  by apply elem_of_nil in Hin.
Qed.

Lemma decode_encode bs : is_bytes bs → decode (encode bs) = Ok bs.
Proof.
  induction 1 as [|b bs Hb Hbs IH]; [done|]. simpl.
  destruct (hex_char_spec (b / 16 mod 16)) as [-> _]; [by apply Z.mod_pos_bound|].
  destruct (hex_char_spec (b mod 16)) as [-> _]; [by apply Z.mod_pos_bound|].
  rewrite IH. cbn [mbind result_bind]. do 2 f_equal. rewrite Z.mod_small.
  - symmetry. by apply Z.div_mod.
  - split; [apply Z.div_pos; lia|apply Z.div_lt_upper_bound; lia].
Qed.

Lemma encode_digits bs : str_forallb is_hex_digit (encode bs) = true.
Proof.
  induction bs as [|b bs IH]; [done|]. simpl. rewrite IH.
  destruct (hex_char_spec (b / 16 mod 16)) as [_ ->]; [by apply Z.mod_pos_bound|].
  by destruct (hex_char_spec (b mod 16)) as [_ ->]; [by apply Z.mod_pos_bound|].
Qed.

#[export] Instance laws : HexLaws.
Proof.
  refine {| hex_encode := encode; hex_decode_encode := decode_encode;
            hex_encode_digits := encode_digits |}.
  by intros [].
Defined.

(** A policy that uses every variable. *)
Definition policy : TpmConfig :=
  mkTpmConfig {[ 0 := [171; 205]; 7 := [0; 255] ]} (Some [4; 18]) (Some [0; 7]) ["/etc/root.pem"] false.

Definition world : World (@io_error ext) :=
  mkWorld (<["ARCHETYPE_PROXY_VERIFIER" := "tpm"]> (tpm_vars policy)) (λ _, false)
    (λ p, if bool_decide (p = "/etc/root.pem") then Ok [48; 130] else Err tt).

Lemma policy_expressible : expressible policy.
Proof.
  split.
  - intros i bs. cbn [policy tpm_expected_pcrs].
    rewrite lookup_insert_Some, lookup_singleton_Some.
    intros [[<- <-]|[_ [<- <-]]]; (split; [done|repeat constructor; done]).
  - intros bs [= <-]. split; [done|repeat constructor; done].
  - intros l [= <-]. split; [done|repeat constructor; done].
  - repeat constructor. done.
Qed.
End Concrete.

Section witnesses.
Import Concrete.

Lemma read_tpm_env_roundtrip_witness :
  read_tpm_env Concrete.world = Ok (Some Concrete.policy).
Proof.
  apply (read_tpm_env_roundtrip (HC := ext) Concrete.world Concrete.policy).
  - apply insert_subseteq. reflexivity.
  - exact Concrete.policy_expressible.
Defined.

Lemma load_tpm_fail_closed_witness :
  ∃ c, load Concrete.world PartialStatic_default None = Ok c ∧
    ∃ t, att_tpm (static_attestation (cfg_static c)) = Some t ∧ tpm_expected_pcrs t ≠ ∅.
Proof.
  assert (match load Concrete.world PartialStatic_default None with
          | Ok c => uses_tpm (static_attestation (cfg_static c)) | Err _ => false end = true)
    as Hok by (vm_compute; reflexivity).
  destruct (load Concrete.world PartialStatic_default None) as [c|e] eqn:Hload; [|discriminate].
  exists c. split; [reflexivity|].
  destruct (load_tpm_fail_closed (CE := ext) Concrete.world PartialStatic_default None c Hload Hok)
    as (t&Ht&Hne&_).
  exists t. split; [exact Ht|exact Hne].
Defined.

End witnesses.
