(* ===== verification/ConfigTypes.v ===== *)
(** * Machine ranges of a loaded configuration

    The model keeps the machine integers of the configuration as [Z]; here
    every value that [Config::load] can produce is shown to lie in the range
    of its Rust type, through the parsers of the environment layer, the
    resolution of the layers and the defaults. *)

From S2P Require Import Prelude RustStr SocketAddr Format Routing Config Layers TpmEnv.

Local Open Scope Z_scope.

(** ** The parser of addresses yields addresses *)

Lemma to_digit_range radix a d : to_digit radix a = Some d → 0 ≤ d < radix.
Proof.
  unfold to_digit. cbv zeta. pose proof (byte_of_ascii_range a) as Ha. unfold in_range.
  destruct (Z.leb_spec 48 (byte_of_ascii a)), (Z.leb_spec (byte_of_ascii a) 57),
    (Z.leb_spec 97 (byte_of_ascii a)), (Z.leb_spec (byte_of_ascii a) 122),
    (Z.leb_spec 65 (byte_of_ascii a)), (Z.leb_spec (byte_of_ascii a) 90); cbn [andb];
    match goal with |- (if ?d <? _ then _ else _) = _ → _ => destruct (Z.ltb_spec d radix) end;
    intros [= <-]; lia.
Qed.

Lemma number_loop_nonneg radix md max acc count s v c rest :
  0 ≤ radix → 0 ≤ acc → number_loop radix md max acc count s = Some (v, c, rest) → 0 ≤ v.
Proof.
  intros Hr. revert acc count. induction s as [|a s IH]; intros acc count Hacc; simpl.
  { by intros [= <- _ _]. }
  destruct (to_digit radix a) as [d|] eqn:Hd; [|by intros [= <- _ _]].
  apply to_digit_range in Hd. assert (0 ≤ acc * radix + d) as Hn by nia.
  destruct md as [m|]; [case_match; [done|]|repeat (case_match; [done|])]; by apply IH.
Qed.

Lemma read_number_range radix md max az s v rest :
  0 ≤ radix → read_number radix md max az s = Some (v, rest) → 0 ≤ v ≤ max.
Proof.
  intros Hr. unfold read_number. destruct (number_loop _ _ _ _ _ _) as [[[v' c] r]|] eqn:Hl; [|done].
  apply number_loop_nonneg in Hl; [|lia..]. destruct (c =? 0)%nat; [done|].
  destruct (_ && _ && _); [done|]. destruct (Z.leb_spec v' max); [|done]. intros [= <- _]. lia.
Qed.

Lemma read_separator_inner {A} sep i (inner : reader A) s r :
  read_separator sep i inner s = Some r → ∃ s', inner s' = Some r.
Proof.
  destruct i; simpl; [eauto|]. destruct (read_given_char sep s) as [[_ s']|]; [eauto|done].
Qed.

Lemma read_octets_range n i s l rest :
  read_octets n i s = Some (l, rest) → length l = n ∧ Forall (λ b, 0 ≤ b ≤ 255) l.
Proof.
  revert i s l. induction n as [|n IH]; intros i s l; simpl; [by intros [= <- _]|].
  destruct (read_separator _ _ _ _) as [[b s']|] eqn:Hb; [|done].
  destruct (read_octets n (S i) s') as [[bs s'']|] eqn:Hn; [|done]. intros [= <- <-].
  apply read_separator_inner in Hb as [s0 Hb]. apply read_number_range in Hb; [|lia].
  apply IH in Hn as [Hl Hf]. simpl. auto.
Qed.

Lemma read_groups_range n i s l v4 rest :
  read_groups n i s = (l, v4, rest) → (length l ≤ n)%nat ∧ Forall (λ g, 0 ≤ g ≤ u16_max) l.
Proof.
  revert i s l v4 rest. induction n as [|n IH]; intros i s l v4 rest.
  { intros [= <- _ _]. by split. }
  cbn [read_groups].
  assert ((match read_separator ":" i (read_number 16 (Some 4%nat) u16_max true) s with
           | Some (g, rest) => let '(gs, v4, rest') := read_groups n (S i) rest in (g :: gs, v4, rest')
           | None => ([], false, s) end) = (l, v4, rest) →
    (length l ≤ S n)%nat ∧ Forall (λ g, 0 ≤ g ≤ u16_max) l) as Hhex.
  { destruct (read_separator _ _ _ _) as [[g r]|] eqn:Hg; [|intros [= <- _ _]; split; [simpl; lia|done]].
    destruct (read_groups n (S i) r) as [[gs b] r'] eqn:Hr. intros [= <- _ _].
    apply read_separator_inner in Hg as [s0 Hg]. apply read_number_range in Hg; [|lia].
    apply IH in Hr as [Hl Hf]. simpl. split; [lia|auto]. }
  destruct n as [|n']; [exact Hhex|].
  destruct (read_separator ":" i read_ipv4_addr s) as [[ip r]|] eqn:H4; [|exact Hhex].
  apply read_separator_inner in H4 as [s0 H4]. apply read_octets_range in H4 as [Hl Hf].
  destruct ip as [|a [|b [|c [|d [|]]]]]; try done. intros [= <- _ _]. simpl.
  rewrite !Forall_cons in Hf. unfold u16_max. split; [lia|].
  repeat (apply Forall_cons; split; [lia|]). done.
Qed.

Lemma read_ipv6_range s l rest :
  read_ipv6_addr s = Some (l, rest) → length l = 8%nat ∧ Forall (λ g, 0 ≤ g ≤ u16_max) l.
Proof.
  unfold read_ipv6_addr. destruct (read_groups 8 0 s) as [[head v4] s1] eqn:Hh.
  apply read_groups_range in Hh as [Hl Hf].
  destruct (Nat.eqb_spec (length head) 8); [by intros [= <- _]|]. destruct v4; [done|].
  destruct (read_given_char ":" s1) as [[_ s2]|]; [|done].
  destruct (read_given_char ":" s2) as [[_ s3]|]; [|done].
  destruct (read_groups (8 - (length head + 1)) 0 s3) as [[tail b] s4] eqn:Ht.
  apply read_groups_range in Ht as [Hlt Hft]. intros [= <- _].
  rewrite !length_app, length_replicate, !Forall_app. split; [lia|]. split_and!; [done| |done].
  apply Forall_replicate. unfold u16_max. lia.
Qed.

Lemma read_port_range s p rest : read_port s = Some (p, rest) → 0 ≤ p ≤ u16_max.
Proof.
  unfold read_port. destruct (read_given_char ":" s) as [[_ s']|]; [|done].
  apply read_number_range. lia.
Qed.

Lemma from_str_addr_ok s a : SocketAddr_from_str s = Some a → addr_ok a.
Proof.
  unfold SocketAddr_from_str.
  destruct (read_socket_addr_v4 s) as [[a' r]|] eqn:H4;
    [|destruct (read_socket_addr_v6 s) as [[a' r]|] eqn:H6; [|done]];
    (destruct r; [|done]); intros [= <-].
  - unfold read_socket_addr_v4 in H4. destruct (read_ipv4_addr s) as [[ip s1]|] eqn:Hi; [|done].
    destruct (read_port s1) as [[p s2]|] eqn:Hp; [|done]. injection H4 as <- _.
    apply read_octets_range in Hi as [Hl Hf]. apply read_port_range in Hp. done.
  - unfold read_socket_addr_v6 in H6. destruct (read_given_char "[" s) as [[_ s1]|]; [|done].
    destruct (read_ipv6_addr s1) as [[ip s2]|] eqn:Hi; [|done].
    destruct (default (0, s2) (read_scope_id s2)) as [sc s3] eqn:Hs.
    destruct (read_given_char "]" s3) as [[_ s4]|]; [|done].
    destruct (read_port s4) as [[p s5]|] eqn:Hp; [|done]. injection H6 as <- _.
    apply read_ipv6_range in Hi as [Hl Hf]. apply read_port_range in Hp. simpl. split_and!; try done.
    all: unfold read_scope_id in Hs; destruct (read_given_char "%" s2) as [[_ s6]|];
      simpl in Hs; [|injection Hs as <- _; unfold u32_max; lia].
    all: destruct (read_number 10 None u32_max true s6) as [[v r]|] eqn:Hn; simpl in Hs;
      injection Hs as <- _; [apply read_number_range in Hn; lia|unfold u32_max; lia].
Qed.

(** ** The ranges *)

Definition in_width (max v : Z) : Prop := 0 ≤ v ≤ max.

Definition opt_in {T} (P : T → Prop) (o : option T) : Prop := ∀ v, o = Some v → P v.

Record tpm_typed (t : TpmConfig) : Prop := {
  tt_pcrs : map_Forall (λ i bs, in_width u32_max i ∧ is_bytes bs) (tpm_expected_pcrs t);
  tt_ak : opt_in is_bytes (tpm_pinned_ak_sec1 t);
  tt_selection : opt_in (Forall (in_width u32_max)) (tpm_pcr_selection t);
}.

(** One layer. *)
Record layer_typed (p : PartialStatic) : Prop := {
  lt_listen : opt_in addr_ok (ps_listen p);
  lt_max_body : opt_in (in_width usize_max) (ps_max_body_bytes p);
  lt_ttl : opt_in (in_width u64_max) (ps_atb_ttl_secs p);
  lt_eviction : opt_in (in_width u64_max) (ps_atb_eviction_interval_secs p);
  lt_sessions : opt_in (in_width usize_max) (ps_atb_max_sessions p);
  lt_tpm : opt_in tpm_typed (ps_tpm p);
  lt_max_requests : opt_in (in_width usize_max) (ps_rate_limit_max_requests p);
  lt_window : opt_in (in_width u64_max) (ps_rate_limit_window_secs p);
  lt_poll : opt_in (in_width u64_max) (ps_docker_poll_secs p);
}.

(** The resolved configuration. *)
Record config_typed (c : StaticConfig) : Prop := {
  ct_listen : addr_ok (server_listen (static_server c));
  ct_max_body : in_width usize_max (server_max_body_bytes (static_server c));
  ct_ttl : in_width u64_max (att_atb_ttl_secs (static_attestation c));
  ct_eviction : in_width u64_max (att_atb_eviction_interval_secs (static_attestation c));
  ct_sessions : in_width usize_max (att_atb_max_sessions (static_attestation c));
  ct_tpm : opt_in tpm_typed (att_tpm (static_attestation c));
  ct_max_requests : in_width usize_max (rl_max_requests (static_rate_limit c));
  ct_window : in_width u64_max (rl_window_secs (static_rate_limit c));
  ct_poll : in_width u64_max (docker_poll_secs (disc_docker (static_discovery c)));
}.

(** ** Resolution keeps the ranges *)

Lemma winner_in {T} (P : T → Prop) dflt file env cli :
  P dflt → opt_in P file → opt_in P env → opt_in P cli → P (winner dflt file env cli).1.
Proof. intros Hd Hf He Hc. destruct cli, env, file; simpl; auto. Qed.

Lemma opt_in_Some {T} (P : T → Prop) o : opt_in P o → opt_in (opt_in P) (Some <$> o).
Proof. intros Ho v. destruct o as [x|]; simpl; [|done]. intros [= <-] y [= <-]. by apply Ho. Qed.

Lemma default_listen_ok : addr_ok default_listen.
Proof. apply (from_str_addr_ok DEFAULT_LISTEN). reflexivity. Qed.

Lemma static_spec_typed file env cli :
  layer_typed file → layer_typed env → layer_typed cli → config_typed (static_spec file env cli).
Proof.
  intros [] [] []. split; cbn; unfold won_opt, won; try (apply winner_in; try done).
  1: apply default_listen_ok.
  all: try (apply opt_in_Some; done); try done; unfold in_width; by apply (bool_decide_unpack _).
Qed.

Section load.
Context `{CE : !ConfigExt}.

(** What the code relies on of its parsers: TOML integers deserialise into
    the types of the fields, addresses included, and hex decodes to bytes. *)
Record file_typed (fc : FileConfig) : Prop := {
  ft_listen : opt_in addr_ok (fs_listen (fc_server fc));
  ft_max_body : opt_in (in_width usize_max) (fs_max_body_bytes (fc_server fc));
  ft_ttl : opt_in (in_width u64_max) (fa_atb_ttl_secs (fc_attestation fc));
  ft_eviction : opt_in (in_width u64_max) (fa_atb_eviction_interval_secs (fc_attestation fc));
  ft_sessions : opt_in (in_width usize_max) (fa_atb_max_sessions (fc_attestation fc));
  ft_selection t : fa_tpm (fc_attestation fc) = Some t →
    opt_in (Forall (in_width u32_max)) (ft_pcr_selection t);
  ft_max_requests : opt_in (in_width usize_max) (frl_max_requests (fc_rate_limit fc));
  ft_window : opt_in (in_width u64_max) (frl_window_secs (fc_rate_limit fc));
  ft_poll : opt_in (in_width u64_max) (fd_docker_poll_secs (fc_discovery fc));
}.

Class ParserLaws := {
  toml_typed s fc : toml_from_str s = Ok fc → file_typed fc;
  hex_bytes s bs : hex_decode s = Ok bs → is_bytes bs;
}.

Context `{PL : !ParserLaws}.

(** ** The environment layer *)

Lemma env_parse_in {T} (P : T → Prop) p (w : World io_error) name o :
  (∀ v t, p v = Ok t → P t) → env_parse p w name = Ok o → opt_in P o.
Proof.
  intros Hp. unfold env_parse. destruct (var w name) as [v|]; [|by intros [= <-]].
  intros Ho%map_err_Ok. destruct (p v) as [t|e] eqn:Hv; [|done]. injection Ho as <-.
  intros x [= <-]. eauto.
Qed.

Lemma env_int_in max (w : World io_error) name o :
  0 ≤ max → env_parse (parse_int_of max) w name = Ok o → opt_in (in_width max) o.
Proof.
  intros Hm. apply env_parse_in. intros v t Ht%map_err_Ok. by apply parse_uint_range in Ht.
Qed.

Lemma env_addr_in (w : World io_error) name o :
  env_parse parse_addr w name = Ok o → opt_in addr_ok o.
Proof.
  apply env_parse_in. intros v t. unfold parse_addr.
  destruct (SocketAddr_from_str v) eqn:Hv; [|done]. intros [= <-]. by eapply from_str_addr_ok.
Qed.

Lemma decode_hex_bytes v field bs : decode_hex_field v field = Ok bs → is_bytes bs.
Proof. intros Hd%map_err_Ok. by eapply hex_bytes. Qed.

Lemma u32_in s i : parse_uint u32_max s = Ok i → in_width u32_max i.
Proof. apply parse_uint_range. by unfold u32_max. Qed.

Definition pcrs_typed (m : gmap Z (list Z)) : Prop :=
  map_Forall (λ i bs, in_width u32_max i ∧ is_bytes bs) m.

Lemma pcrs_typed_empty : pcrs_typed ∅.
Proof. intros i bs Hi. by rewrite lookup_empty in Hi. Qed.

Lemma read_pcr_pair_typed acc pair acc' :
  pcrs_typed acc → read_pcr_pair acc pair = Ok acc' → pcrs_typed acc'.
Proof.
  intros Ha. unfold read_pcr_pair. intros ([i h]&_&H1)%result_bind_Ok.
  apply result_bind_Ok in H1 as (idx&Hi%map_err_Ok&H1).
  apply result_bind_Ok in H1 as (bs&Hb&[= <-]).
  apply map_Forall_insert_2; [|done]. split; [by eapply u32_in|by eapply decode_hex_bytes].
Qed.

Lemma read_tpm_env_typed (w : World io_error) o : read_tpm_env w = Ok o → opt_in tpm_typed o.
Proof.
  unfold read_tpm_env. cbv zeta. destruct (_ && _ && _ && _ && _); [by intros [= <-]|].
  intros (pcrs&Hp&H1)%result_bind_Ok. apply result_bind_Ok in H1 as (ak&Hak&H1).
  apply result_bind_Ok in H1 as (sel&Hsel&H1). apply result_bind_Ok in H1 as (allow&_&[= <-]).
  intros t [= <-]. split; simpl.
  - destruct (var w "ARCHETYPE_PROXY_TPM_EXPECTED_PCRS"); [|injection Hp as <-; apply pcrs_typed_empty].
    apply (try_fold_Ok_inv _ pcrs_typed _ _ _ Hp); [apply pcrs_typed_empty|].
    intros acc pair acc' _. apply read_pcr_pair_typed.
  - destruct (var w "ARCHETYPE_PROXY_TPM_PINNED_AK_SEC1_HEX"); [|by injection Hak as <-].
    destruct (decode_hex_field _ _) as [bs|] eqn:Hd; [|done]. injection Hak as <-.
    intros x [= <-]. by eapply decode_hex_bytes.
  - destruct (var w "ARCHETYPE_PROXY_TPM_PCR_SELECTION"); [|by injection Hsel as <-].
    destruct (try_fold _ _ _) as [l|] eqn:Hf; [|done]. injection Hsel as <-. intros x [= <-].
    apply (try_fold_Ok_inv _ (Forall (in_width u32_max)) _ _ _ Hf); [done|].
    intros l1 x l2 _ Hl (i&Hi%map_err_Ok&[= <-])%result_bind_Ok. apply Forall_app. split; [done|].
    constructor; [by eapply u32_in|done].
Qed.

Lemma read_env_typed (w : World io_error) env : read_env w = Ok env → layer_typed env.
Proof.
  unfold read_env. intros H.
  repeat (apply result_bind_Ok in H as (?&?&H)). injection H as <-.
  split; simpl; eauto using env_addr_in, read_tpm_env_typed;
    (eapply env_int_in; [|eassumption]; by unfold usize_max, u64_max).
Qed.

(** ** The file layer *)

Lemma FileTpm_resolve_typed t c :
  opt_in (Forall (in_width u32_max)) (ft_pcr_selection t) → FileTpm_resolve t = Ok c → tpm_typed c.
Proof.
  intros Hsel. unfold FileTpm_resolve. intros (pcrs&Hp&H1)%result_bind_Ok.
  apply result_bind_Ok in H1 as (ak&Hak&[= <-]). split; simpl; [| |done].
  - apply (try_fold_Ok_inv _ pcrs_typed _ _ _ Hp); [apply pcrs_typed_empty|].
    intros acc [i h] acc' _ Ha (idx&Hi%map_err_Ok&H1)%result_bind_Ok.
    apply result_bind_Ok in H1 as (bs&Hb&[= <-]).
    apply map_Forall_insert_2; [|done]. split; [by eapply u32_in|by eapply decode_hex_bytes].
  - destruct (ft_pinned_ak_sec1_hex t); [|by injection Hak as <-].
    destruct (decode_hex_field _ _) as [bs|] eqn:Hd; [|done]. injection Hak as <-.
    intros x [= <-]. by eapply decode_hex_bytes.
Qed.

Lemma layer_default_typed : layer_typed PartialStatic_default.
Proof. by split; intros v. Qed.

Lemma read_file_typed (w : World io_error) path p routes :
  read_file w path = Ok (p, routes) → layer_typed p.
Proof.
  unfold read_file. destruct (negb (w_exists w path)).
  { intros [= <- _]. apply layer_default_typed. }
  intros (raw&_&H1)%result_bind_Ok. apply result_bind_Ok in H1 as (fc&Hfc%map_err_Ok&H1).
  apply result_bind_Ok in H1 as (tpm&Ht&[= <- _]).
  destruct (toml_typed _ _ Hfc) as [? ? ? ? ? Hsel ? ? ?]. split; simpl; try done.
  destruct (fa_tpm (fc_attestation fc)) as [t|]; [|by injection Ht as <-].
  destruct (FileTpm_resolve t) as [c|] eqn:Hr; [|done]. injection Ht as <-. intros x [= <-].
  eapply FileTpm_resolve_typed, Hr. by apply Hsel.
Qed.

(** ** Property *)

(** A loaded configuration is well typed: whatever the file, the
    environment and the command line say, every machine integer of the
    resolved configuration, the PCR indices and the bytes of the TPM policy
    and the parts of the listen address included, is in the range of its Rust
    type, so that no arithmetic on [Z] below hides a wrap-around. *)
Theorem load_well_typed w cli explicit c
    (Hcli : layer_typed cli) (Hload : load w cli explicit = Ok c) :
  config_typed (cfg_static c).
Proof.
  unfold load in Hload. apply result_bind_Ok in Hload as ([file routes]&Hf&Hload).
  apply result_bind_Ok in Hload as (env&He&Hload). apply result_bind_Ok in Hload as ([]&_&[= <-]).
  unfold resolve_layers. rewrite resolve_static_spec. simpl.
  apply static_spec_typed; [by eapply read_file_typed|by eapply read_env_typed|done].
Qed.

End load.

(** ** The concrete parsers *)

Module TypedConcrete.

Lemma hex_val_range a x : Concrete.hex_val a = Some x → 0 ≤ x < 16.
Proof.
  unfold Concrete.hex_val. cbv zeta. unfold in_range.
  destruct (Z.leb_spec 48 (byte_of_ascii a)), (Z.leb_spec (byte_of_ascii a) 57),
    (Z.leb_spec 97 (byte_of_ascii a)), (Z.leb_spec (byte_of_ascii a) 102),
    (Z.leb_spec 65 (byte_of_ascii a)), (Z.leb_spec (byte_of_ascii a) 70); cbn [andb];
    intros [= <-]; lia.
Qed.

Lemma decode_bytes n s bs :
  (String.length s ≤ n)%nat → Concrete.decode s = Ok bs → is_bytes bs.
Proof.
  revert s bs. induction n as [|n IH]; intros [|a [|b s]] bs Hn; simpl in *; try done; try lia.
  1, 2: by intros [= <-]; constructor.
  destruct (Concrete.hex_val a) as [x|] eqn:Hx, (Concrete.hex_val b) as [y|] eqn:Hy; try done.
  apply hex_val_range in Hx, Hy. intros (l&Hl&[= <-])%result_bind_Ok.
  constructor; [lia|]. eapply IH, Hl. lia.
Qed.

#[export] Instance laws : ParserLaws (CE := Concrete.ext).
Proof.
  split.
  - intros s fc. simpl. destruct (is_empty s); [|done]. intros [= <-].
    by split; intros v.
  - intros s bs. by apply (decode_bytes (String.length s)).
Qed.
End TypedConcrete.

Lemma load_well_typed_witness :
  ∃ c, load (CE := Concrete.ext) Concrete.world PartialStatic_default None = Ok c ∧
    in_width usize_max (server_max_body_bytes (static_server (cfg_static c))).
Proof.
  assert (is_ok (load (CE := Concrete.ext) Concrete.world PartialStatic_default None) = true)
    as Hs by (vm_compute; reflexivity).
  destruct (load (CE := Concrete.ext) Concrete.world PartialStatic_default None) as [c|e] eqn:Hl;
    [|discriminate Hs].
  exists c. split; [reflexivity|].
  exact (ct_max_body _ (load_well_typed (CE := Concrete.ext) (PL := TypedConcrete.laws)
           Concrete.world PartialStatic_default None c layer_default_typed Hl)).
Defined.
