(* ===== verification/Labels.v ===== *)
(** * Route declarations ([src/discovery/labels.rs] and the annotation mapping
    of [src/discovery/k8s.rs])

    Container labels and object annotations become routes.  The label parser
    is shown equal to a reference definition that reads each field of each
    declared route directly from the label map. *)

From S2P Require Import Prelude RustStr SocketAddr Routing Config.

Definition ENABLE_KEY : string := "archetype.enable".
Definition GLOBAL_STRICT_KEY : string := "archetype.attestation.strict".
Definition IMPLICIT_UPSTREAM_KEY : string := "archetype.upstream".
Definition ROUTE_PREFIX : string := "archetype.route.".

(** The messages returned to the caller for logging. *)
Inductive LabelWarning :=
| MalformedLabel (k : string)
| MissingUpstream (name : string)
| NoRoutes (short_id : string).

Definition short (id : string) : string := take_chars 12 id.

(** The body of the grouping loop for one label. *)
Definition group_label (st : gmap string (gmap string string) * list LabelWarning)
    (kv : string * string) : gmap string (gmap string string) * list LabelWarning :=
  let '(grouped, warnings) := st in
  let '(k, v) := kv in
  match strip_prefix ROUTE_PREFIX k with
  | None => (grouped, warnings)
  | Some rest =>
      match rsplit_once "." rest with
      | None => (grouped, warnings ++ [MalformedLabel k])
      | Some (name, field) =>
          (<[name := <[to_ascii_lowercase field := v]> (default ∅ (grouped !! name))]> grouped,
           warnings)
      end
  end.

(** The body of the loop over the grouped routes. *)
Definition label_route (container_id : string) (global_strict : option bool)
    (st : list Route * list LabelWarning) (nf : string * gmap string string)
  : list Route * list LabelWarning :=
  let '(routes, warnings) := st in
  let '(name, fields) := nf in
  match fields !! "upstream" with
  | None => (routes, warnings ++ [MissingUpstream name])
  | Some upstream =>
      let strict := option_or ((fields !! "strict") ≫= parse_bool_token) global_strict in
      (routes ++
         [mkRoute ("docker/" +:+ short container_id +:+ "/" +:+ name)
            (default EmptyString (fields !! "host"))
            (default EmptyString (fields !! "pathprefix"))
            upstream strict Source_Discovered],
       warnings)
  end.

Definition routes_from_labels (container_id : string) (labels : gmap string string)
  : list Route * list LabelWarning :=
  if bool_decide ((labels !! ENABLE_KEY) ≫= parse_bool_token = Some true) then
    let global_strict := (labels !! GLOBAL_STRICT_KEY) ≫= parse_bool_token in
    let '(grouped, warnings) := foldl group_label (∅, []) (btree_iter_str labels) in
    let '(routes, warnings) :=
      foldl (label_route container_id global_strict) ([], warnings) (btree_iter_str grouped) in
    if bool_decide (routes = []) then
      match labels !! IMPLICIT_UPSTREAM_KEY with
      | Some upstream =>
          ([mkRoute ("docker/" +:+ short container_id)
              (default EmptyString (labels !! "archetype.host"))
              (default EmptyString (labels !! "archetype.pathprefix"))
              upstream global_strict Source_Discovered], warnings)
      | None => ([], warnings ++ [NoRoutes (short container_id)])
      end
    else (routes, warnings)
  else ([], []).

(** ** Kubernetes annotations *)

Definition ANN_ENABLE : string := "archetype.li/enable".
Definition ANN_UPSTREAM : string := "archetype.li/upstream".
Definition ANN_HOST : string := "archetype.li/host".
Definition ANN_PATH_PREFIX : string := "archetype.li/path-prefix".
Definition ANN_STRICT : string := "archetype.li/strict".

Definition route_from_annotations (object_name : string) (annotations : gmap string string)
  : option Route :=
  if bool_decide ((annotations !! ANN_ENABLE) ≫= parse_bool_token = Some true) then
    upstream ← annotations !! ANN_UPSTREAM;
    Some (mkRoute ("k8s/" +:+ object_name)
            (default EmptyString (annotations !! ANN_HOST))
            (default EmptyString (annotations !! ANN_PATH_PREFIX))
            upstream ((annotations !! ANN_STRICT) ≫= parse_bool_token) Source_Discovered)
  else None.

(** ** Reference definition

    A label [archetype.route.<name>.<field>] declares a field; of the labels
    that declare the same field up to letter case, the greatest key wins. *)
Definition label_key (k : string) : option (string * string) :=
  rest ← strip_prefix ROUTE_PREFIX k;
  '(name, field) ← rsplit_once "." rest;
  Some (name, to_ascii_lowercase field).

Definition declared (labels : gmap string string) (name field : string) : option string :=
  last (omap (λ '(k, v), if bool_decide (label_key k = Some (name, field)) then Some v else None)
          (btree_iter_str labels)).

Definition declared_names (labels : gmap string string) : gset string :=
  list_to_set (omap (λ kv, fst <$> label_key kv.1) (btree_iter_str labels)).

Definition ref_route (container_id : string) (labels : gmap string string) (name : string)
  : option Route :=
  upstream ← declared labels name "upstream";
  Some (mkRoute ("docker/" +:+ short container_id +:+ "/" +:+ name)
          (default EmptyString (declared labels name "host"))
          (default EmptyString (declared labels name "pathprefix"))
          upstream
          (option_or (declared labels name "strict" ≫= parse_bool_token)
             ((labels !! GLOBAL_STRICT_KEY) ≫= parse_bool_token))
          Source_Discovered).

Definition ref_implicit (container_id : string) (labels : gmap string string) : option Route :=
  upstream ← labels !! IMPLICIT_UPSTREAM_KEY;
  Some (mkRoute ("docker/" +:+ short container_id)
          (default EmptyString (labels !! "archetype.host"))
          (default EmptyString (labels !! "archetype.pathprefix"))
          upstream ((labels !! GLOBAL_STRICT_KEY) ≫= parse_bool_token) Source_Discovered).

Definition ref_routes (container_id : string) (labels : gmap string string) : list Route :=
  match omap (ref_route container_id labels)
          (merge_sort String.le (elements (declared_names labels))) with
  | [] => option_list (ref_implicit container_id labels)
  | routes => routes
  end.

(** ** Lemmas *)

(** A field of the grouped map. *)
Definition gfield (g : gmap string (gmap string string)) (name field : string) : option string :=
  (g !! name) ≫= (.!! field).

Lemma group_label_key g ws k v :
  (group_label (g, ws) (k, v)).1 =
  match label_key k with
  | Some (name, field) => <[name := <[field := v]> (default ∅ (g !! name))]> g
  | None => g
  end.
Proof.
  unfold group_label, label_key. destruct (strip_prefix _ k) as [rest|]; simpl; [|done].
  by destruct (rsplit_once "." rest) as [[name field]|].
Qed.

Lemma group_fold l g ws name field :
  gfield (foldl group_label (g, ws) l).1 name field =
  option_or
    (last (omap (λ '(k, v), if bool_decide (label_key k = Some (name, field)) then Some v
                            else None) l))
    (gfield g name field).
Proof.
  revert g ws. induction l as [|[k v] l IH]; intros g ws; [done|].
  cbn [foldl]. destruct (group_label (g, ws) (k, v)) as [g' ws'] eqn:Eg.
  rewrite IH. pose proof (group_label_key g ws k v) as Hk. rewrite Eg in Hk. simpl in Hk.
  assert (gfield g' name field =
          if bool_decide (label_key k = Some (name, field)) then Some v else gfield g name field)
    as Hg.
  { subst g'. unfold gfield. destruct (label_key k) as [[n f]|]; [|by rewrite bool_decide_eq_false_2].
    destruct (decide (n = name)) as [->|Hn].
    - rewrite lookup_insert_eq. simpl. destruct (decide (f = field)) as [->|Hf].
      + by rewrite lookup_insert_eq, bool_decide_eq_true_2.
      + rewrite lookup_insert_ne, bool_decide_eq_false_2 by naive_solver.
        by destruct (g !! name).
    - by rewrite lookup_insert_ne, bool_decide_eq_false_2 by naive_solver. }
  rewrite Hg. simpl omap. case_bool_decide; [|done].
  rewrite last_cons. by destruct (last _).
Qed.

Lemma group_dom l g ws name :
  is_Some ((foldl group_label (g, ws) l).1 !! name) ↔
  name ∈ omap (λ kv : string * string, fst <$> label_key kv.1) l ∨ is_Some (g !! name).
Proof.
  revert g ws. induction l as [|[k v] l IH]; intros g ws; [set_solver|].
  cbn [foldl]. destruct (group_label (g, ws) (k, v)) as [g' ws'] eqn:Eg. rewrite IH.
  pose proof (group_label_key g ws k v) as Hk. rewrite Eg in Hk. simpl in Hk. subst g'.
  simpl omap. destruct (label_key k) as [[n f]|]; simpl; [|done].
  rewrite elem_of_cons, lookup_insert_is_Some. destruct (decide (n = name)); naive_solver.
Qed.

Lemma label_route_fold id gs l routes ws :
  (foldl (label_route id gs) (routes, ws) l).1 =
  routes ++ omap (λ '(name, fields),
    upstream ← fields !! "upstream";
    Some (mkRoute ("docker/" +:+ short id +:+ "/" +:+ name)
            (default EmptyString (fields !! "host"))
            (default EmptyString (fields !! "pathprefix"))
            upstream (option_or ((fields !! "strict") ≫= parse_bool_token) gs)
            Source_Discovered)) l.
Proof.
  revert routes ws. induction l as [|[name fields] l IH]; intros routes ws; [by rewrite app_nil_r|].
  cbn [foldl]. unfold label_route at 2. simpl omap.
  destruct (fields !! "upstream") as [u|]; rewrite IH; [by rewrite <-app_assoc|done].
Qed.

Lemma sorted_names_unique (g : gmap string (gmap string string)) (X : gset string) :
  (∀ n, n ∈ X ↔ is_Some (g !! n)) →
  (btree_iter_str g).*1 = merge_sort String.le (elements X).
Proof.
  intros HX. apply (StronglySorted_unique String.le).
  - pose proof (btree_iter_sorted String.le g) as Hs. induction Hs as [|x l Hs IH Hx]; [constructor|].
    constructor; [done|]. apply Forall_fmap. eapply Forall_impl; [exact Hx|]. done.
  - apply StronglySorted_merge_sort; apply _.
  - rewrite merge_sort_Permutation. apply NoDup_Permutation.
    + apply btree_iter_NoDup_fst.
    + apply NoDup_elements.
    + intros n. rewrite elem_of_elements, HX, list_elem_of_fmap. split.
      * intros ([k v]&->&Hin). apply elem_of_btree_iter in Hin; [|apply _..]. eauto.
      * intros [v Hv]. exists (n, v). split; [done|]. by apply elem_of_btree_iter; [apply _..|].
Qed.

Lemma omap_fst_lookup {A B} (g : gmap string A) (l : list (string * A))
    (F : string * A → option B) (G : string → option B) :
  Forall (λ p, F p = G p.1) l → omap F l = omap G l.*1.
Proof.
  induction 1 as [|p l Hp Hl IH]; [done|]. rewrite fmap_cons. simpl. rewrite Hp.
  destruct (G p.1); [f_equal|]; exact IH.
Qed.

(** ** Properties *)

(** C33: the label parser computes the reference definition: an opted-in
    container yields one route per declared name that has an upstream, in
    ascending order of names, each field read from the winning label, the
    strict flag falling back to the container's; with no such name it yields
    the implicit route, if any; a container that has not opted in yields
    nothing and no warning. *)
Theorem routes_from_labels_ref id labels :
  if bool_decide ((labels !! ENABLE_KEY) ≫= parse_bool_token = Some true)
  then (routes_from_labels id labels).1 = ref_routes id labels
  else routes_from_labels id labels = ([], []).
Proof.
  unfold routes_from_labels. case_bool_decide as He; [|done].
  pose proof (group_dom (btree_iter_str labels) ∅ []) as Hdom.
  pose proof (group_fold (btree_iter_str labels) ∅ []) as Hfield.
  destruct (foldl group_label _ _) as [g ws] eqn:Eg. simpl in Hdom, Hfield.
  pose proof (label_route_fold id ((labels !! GLOBAL_STRICT_KEY) ≫= parse_bool_token)
    (btree_iter_str g) [] ws) as Hr.
  destruct (foldl (label_route _ _) _ _) as [routes ws'] eqn:Er. simpl in Hr. subst routes.
  rewrite (omap_fst_lookup g _ _ (ref_route id labels)).
  2: { apply Forall_forall. intros [name fields] Hin. apply elem_of_btree_iter in Hin; [|apply _..].
       unfold ref_route, declared.
       assert (∀ f, declared labels name f = fields !! f) as Hf.
       { intros f. unfold declared. pose proof (Hfield name f) as Hff. unfold gfield in Hff.
         rewrite Hin, lookup_empty in Hff. simpl in Hff. rewrite Hff. by destruct (last _). }
       unfold declared in Hf. by rewrite !Hf. }
  unfold ref_routes. rewrite <-(sorted_names_unique g).
  - destruct (omap (ref_route id labels) (btree_iter_str g).*1) as [|r routes];
      [rewrite bool_decide_eq_true_2 by done|by rewrite bool_decide_eq_false_2].
    unfold ref_implicit. by destruct (labels !! IMPLICIT_UPSTREAM_KEY).
  - intros n. unfold declared_names. rewrite elem_of_list_to_set, Hdom, lookup_empty.
    split; [by left|]. intros [?|[? ?]]; done.
Qed.

(** An object yields a route exactly when it has opted in and declares an
    upstream; the route carries the declared fields and is marked as
    discovered. *)
Theorem route_from_annotations_spec name annotations r :
  route_from_annotations name annotations = Some r ↔
  (annotations !! ANN_ENABLE) ≫= parse_bool_token = Some true ∧
  annotations !! ANN_UPSTREAM = Some (route_upstream r) ∧
  route_name r = "k8s/" +:+ name ∧
  route_host r = default EmptyString (annotations !! ANN_HOST) ∧
  route_path_prefix r = default EmptyString (annotations !! ANN_PATH_PREFIX) ∧
  route_strict_attestation r = (annotations !! ANN_STRICT) ≫= parse_bool_token ∧
  route_source r = Source_Discovered.
Proof.
  unfold route_from_annotations. case_bool_decide; [|naive_solver].
  destruct (annotations !! ANN_UPSTREAM) as [u|]; simpl; [|naive_solver].
  destruct r; naive_solver.
Qed.

(** A route name may hold dots: the field is what follows the last one. *)
Lemma label_key_any_name name field :
  str_mem "." field = false →
  label_key (ROUTE_PREFIX +:+ name +:+ String "." field) = Some (name, to_ascii_lowercase field).
Proof.
  intros Hf. unfold label_key. rewrite strip_prefix_app. simpl.
  assert (rsplit_once "." (name +:+ String "." field) = Some (name, field)) as ->;
    [by apply rsplit_once_Some|done].
Qed.

Example dotted_route_name :
  route_name <$> (routes_from_labels "c1"
    {[ ENABLE_KEY := "true"; "archetype.route.a.b.upstream" := "http://x" ]}).1 =
  ["docker/c1/a.b"].
Proof. vm_compute. reflexivity. Qed.

(** The implicit route is also created for a container that declares route
    keys but no upstream among them. *)
Example implicit_route_beside_route_keys :
  routes_from_labels "c1"
    {[ ENABLE_KEY := "true"; "archetype.route.web.host" := "h";
       IMPLICIT_UPSTREAM_KEY := "http://x" ]} =
  ([mkRoute "docker/c1" EmptyString EmptyString "http://x" None Source_Discovered],
   [MissingUpstream "web"]).
Proof. vm_compute. reflexivity. Qed.
