(* ===== verification/Discovery.v ===== *)
(** * Route discovery ([src/discovery/mod.rs], [docker.rs] and [k8s.rs])

    Providers push complete snapshots of their routes over a channel; the
    manager keeps the latest snapshot of each provider and recomputes the
    live table.  Each task is a step function over what its environment
    answers: the daemon's replies for Docker, the watch stream for
    Kubernetes, the received updates for the manager. *)

From S2P Require Import Prelude RustStr SocketAddr Routing Config Labels.

Record ProviderUpdate := mkProviderUpdate {
  pu_provider : string;
  pu_routes : list Route;
}.

(** ** The route manager *)

Module Manager.

Record RouteManager := mkRouteManager {
  file_routes : list Route;
  provider_routes : gmap string (list Route);
  table : RouteTable;
}.

Definition manager_new (files : list Route) : RouteManager :=
  mkRouteManager files ∅ (RouteTable_new files).

(** The handle read on every request is the table itself. *)
Definition handle (m : RouteManager) : RouteTable := table m.

Definition recompute (m : RouteManager) : RouteManager :=
  let all := foldl (λ all rs, all ++ rs) (file_routes m) (btree_values_str (provider_routes m)) in
  mkRouteManager (file_routes m) (provider_routes m) (RouteTable_new all).

(** One received update. *)
Definition on_update (m : RouteManager) (u : ProviderUpdate) : RouteManager :=
  recompute (mkRouteManager (file_routes m)
               (<[pu_provider u := pu_routes u]> (provider_routes m)) (table m)).

(** [run]: the updates in the order of their arrival. *)
Definition manager_run (m : RouteManager) (us : list ProviderUpdate) : RouteManager :=
  foldl on_update m us.

End Manager.

(** ** The Docker provider *)

Module Docker.

Record DockerProvider := mkDockerProvider { socket : string; poll_secs : Z }.

Definition docker_new (socket : string) (poll_secs : Z) : DockerProvider :=
  mkDockerProvider socket (Z.max poll_secs 1).

Inductive SocketKind := Unix | Http.

Definition socket_kind (socket : string) : SocketKind :=
  if starts_with "unix://" socket then Unix else Http.

(** [connect]: the constructor of the client that fits the socket, with a
    timeout of 120 seconds. *)
Definition docker_connect {A} (connect_with_unix connect_with_http : string → Z → A)
    (p : DockerProvider) : A :=
  match socket_kind (socket p) with
  | Unix => connect_with_unix (socket p) 120%Z
  | Http => connect_with_http (socket p) 120%Z
  end.

(** A container as the daemon lists it. *)
Record Container := mkContainer {
  c_labels : option (gmap string string);
  c_id : option string;
}.

(** What the loop logs. *)
Inductive Log :=
| LogConnected
| LogCannotConnect
| LogPollFailed
| LogWarning (container : string) (w : LabelWarning).

Definition poll_containers (containers : list Container) : list Route * list Log :=
  foldl (λ '(routes, logs) c,
           let labels := default ∅ (c_labels c) in
           let id := default EmptyString (c_id c) in
           let '(r, warnings) := routes_from_labels id labels in
           (routes ++ r, logs ++ (LogWarning (short id) <$> warnings)))
    ([], []) containers.

(** What the environment answers in one iteration: whether [docker_connect]
    succeeds (asked when there is no client) and the listed containers (asked
    when there is one).  [receiving] below says whether a send succeeds, that
    is, whether the manager has kept its end of the channel. *)
Record Tick := mkTick {
  t_connect : bool;
  t_list : option (list Container);
}.

Record DockerState := mkState {
  client : bool;
  last : option (list Route);
  warned_connect : bool;
}.

Definition docker_init : DockerState := mkState false None false.

(** What one iteration does besides changing the state. *)
Record Effect := mkEffect {
  e_sent : list ProviderUpdate;
  e_logs : list Log;
}.

(** The part of an iteration after a client exists. *)
Definition poll_step (receiving : bool) (st : DockerState) (t : Tick) : option DockerState * Effect :=
  match t_list t with
  | Some containers =>
      let '(routes, logs) := poll_containers containers in
      if bool_decide (last st ≠ Some routes) then
        if receiving then
          (Some (mkState (client st) (Some routes) (warned_connect st)),
           mkEffect [mkProviderUpdate "docker" routes] logs)
        else (None, mkEffect [] logs)
      else (Some st, mkEffect [] logs)
  | None =>
      (Some (mkState false (last st) (warned_connect st)), mkEffect [] [LogPollFailed])
  end.

(** One iteration of the loop; [None] is the return. *)
Definition docker_step (receiving : bool) (st : DockerState) (t : Tick) : option DockerState * Effect :=
  if client st then poll_step receiving st t
  else if t_connect t then
    let '(st', e) := poll_step receiving (mkState true (last st) false) t in
    (st', mkEffect (e_sent e) ((if warned_connect st then [LogConnected] else []) ++ e_logs e))
  else
    (Some (mkState false (last st) true),
     mkEffect [] (if warned_connect st then [] else [LogCannotConnect])).

(** The loop while the manager receives. *)
Fixpoint docker_run (st : DockerState) (ts : list Tick) : option DockerState * list Effect :=
  match ts with
  | [] => (Some st, [])
  | t :: ts =>
      match docker_step true st t with
      | (Some st', e) => let '(r, es) := docker_run st' ts in (r, e :: es)
      | (None, e) => (None, [e])
      end
  end.

Definition sent (es : list Effect) : list ProviderUpdate := es ≫= e_sent.

End Docker.

(** ** The Kubernetes provider *)

Module K8s.

(** The metadata of a watched object. *)
Record Object := mkObject {
  o_namespace : option string;
  o_name : option string;
  o_annotations : option (gmap string string);
}.

Inductive Kind := Service | Ingress.

Inductive Op :=
| Op_Init
| Op_InitApply (key : string) (route : option Route)
| Op_InitDone
| Op_Apply (key : string) (route : option Route)
| Op_Delete (key : string).

(** The events of a [kube] watcher. *)
Inductive Event :=
| Event_Init
| Event_InitApply (obj : Object)
| Event_InitDone
| Event_Apply (obj : Object)
| Event_Delete (obj : Object).

Definition object_key (obj : Object) : string :=
  default EmptyString (o_namespace obj) +:+ "/" +:+ default EmptyString (o_name obj).

Definition route_from_object (obj : Object) : option Route :=
  route_from_annotations (default EmptyString (o_name obj)) (default ∅ (o_annotations obj)).

Definition to_op (ev : Event) : Op :=
  match ev with
  | Event_Init => Op_Init
  | Event_InitDone => Op_InitDone
  | Event_InitApply obj => Op_InitApply (object_key obj) (route_from_object obj)
  | Event_Apply obj => Op_Apply (object_key obj) (route_from_object obj)
  | Event_Delete obj => Op_Delete (object_key obj)
  end.

Record KindStore := mkKindStore {
  committed : gmap string Route;
  buffer : option (gmap string Route);
}.

Definition KindStore_default : KindStore := mkKindStore ∅ None.

Definition apply (s : KindStore) (op : Op) : KindStore * bool :=
  match op with
  | Op_Init => (mkKindStore (committed s) (Some ∅), false)
  | Op_InitApply key route =>
      match buffer s, route with
      | Some buf, Some r => (mkKindStore (committed s) (Some (<[key := r]> buf)), false)
      | _, _ => (s, false)
      end
  | Op_InitDone =>
      let new := default ∅ (buffer s) in
      (mkKindStore new None, bool_decide (new ≠ committed s))
  | Op_Apply key route =>
      match route with
      | Some r =>
          (mkKindStore (<[key := r]> (committed s)) (buffer s),
           bool_decide (committed s !! key ≠ Some r))
      | None =>
          (mkKindStore (delete key (committed s)) (buffer s),
           bool_decide (is_Some (committed s !! key)))
      end
  | Op_Delete key =>
      (mkKindStore (delete key (committed s)) (buffer s),
       bool_decide (is_Some (committed s !! key)))
  end.

Definition store_routes (s : KindStore) : list Route := btree_values_str (committed s).

Record K8sState := mkState {
  svc_store : KindStore;
  ing_store : KindStore;
  last_sent : option (list Route);
}.

Definition k8s_init : K8sState := mkState KindStore_default KindStore_default None.

Definition all_routes (st : K8sState) : list Route :=
  store_routes (svc_store st) ++ store_routes (ing_store st).

(** An item of the merged stream: an event or a transient watch error. *)
Definition Item := option (Kind * Op).

(** One iteration of the loop; [receiving] says whether a send succeeds. *)
Definition k8s_step (receiving : bool) (st : K8sState) (item : Item)
  : option K8sState * list ProviderUpdate :=
  match item with
  | None => (Some st, [])
  | Some (kind, op) =>
      let '(st', changed) :=
        match kind with
        | Service => let '(s, c) := apply (svc_store st) op in
                     (mkState s (ing_store st) (last_sent st), c)
        | Ingress => let '(s, c) := apply (ing_store st) op in
                     (mkState (svc_store st) s (last_sent st), c)
        end in
      if negb changed then (Some st', [])
      else
        let routes := all_routes st' in
        if bool_decide (last_sent st' = Some routes) then (Some st', [])
        else if receiving then
          (Some (mkState (svc_store st') (ing_store st') (Some routes)),
           [mkProviderUpdate "kubernetes" routes])
        else (None, [])
  end.

(** The loop while the manager receives. *)
Fixpoint k8s_run (st : K8sState) (items : list Item) : option K8sState * list ProviderUpdate :=
  match items with
  | [] => (Some st, [])
  | i :: items =>
      match k8s_step true st i with
      | (Some st', us) => let '(r, us') := k8s_run st' items in (r, us ++ us')
      | (None, us) => (None, us)
      end
  end.

(** The provider built without the watcher: it sends nothing. *)
Definition run_stub (namespace : option string) : list ProviderUpdate := [].

(** The whole provider task: no client, no updates. *)
Definition provider_run (feature : bool) (client : bool) (namespace : option string)
    (items : list Item) : list ProviderUpdate :=
  if negb feature then run_stub namespace
  else if client then (k8s_run k8s_init items).2 else [].

End K8s.

(** ** The enabled providers *)

Inductive Provider :=
| Provider_Docker (p : Docker.DockerProvider)
| Provider_Kubernetes (namespace : option string).

Definition provider_name (p : Provider) : string :=
  match p with Provider_Docker _ => "docker" | Provider_Kubernetes _ => "kubernetes" end.

Definition build_providers (cfg : DiscoveryConfig) : list Provider :=
  (if docker_enabled (disc_docker cfg)
   then [Provider_Docker (Docker.docker_new (docker_socket (disc_docker cfg))
                            (docker_poll_secs (disc_docker cfg)))]
   else []) ++
  (if kubernetes_enabled (disc_kubernetes cfg)
   then [Provider_Kubernetes (kubernetes_namespace (disc_kubernetes cfg))]
   else []).
