(* ===== verification/LiveTable.v ===== *)
(** * The live route table

    What a discovery provider promises to the manager is the class
    [DiscoveryProvider]; the manager's theorem is proved against it, and the
    Docker and Kubernetes tasks are its instances. *)

From S2P Require Import Prelude RustStr SocketAddr Routing Config Labels Discovery.

(** ** The manager *)

(** The latest snapshot of a provider in a sequence of updates. *)
Definition latest (us : list ProviderUpdate) (p : string) : option (list Route) :=
  last (omap (λ u, if bool_decide (pu_provider u = p) then Some (pu_routes u) else None) us).

Lemma latest_snoc us u p :
  latest (us ++ [u]) p = if bool_decide (pu_provider u = p) then Some (pu_routes u) else latest us p.
Proof.
  unfold latest. rewrite omap_app. simpl. case_bool_decide; [by rewrite last_snoc|].
  by rewrite app_nil_r.
Qed.

Lemma foldl_app_concat {A} (l : list (list A)) acc :
  foldl (λ all rs, all ++ rs) acc l = acc ++ concat l.
Proof.
  revert acc. induction l as [|x l IH]; intros acc; simpl; [by rewrite app_nil_r|].
  by rewrite IH, <-app_assoc.
Qed.

(** The invariant of the manager: the table is the merge of its snapshots. *)
Definition manager_ok (files : list Route) (us : list ProviderUpdate)
    (m : Manager.RouteManager) : Prop :=
  Manager.file_routes m = files ∧
  (∀ p, Manager.provider_routes m !! p = latest us p) ∧
  Manager.table m = RouteTable_new (files ++ concat (btree_values_str (Manager.provider_routes m))).

Lemma manager_new_ok files : manager_ok files [] (Manager.manager_new files).
Proof.
  split_and!; [done..|]. simpl. unfold btree_values. by rewrite btree_iter_empty, app_nil_r.
Qed.

Lemma manager_on_update_ok files us m u :
  manager_ok files us m → manager_ok files (us ++ [u]) (Manager.on_update m u).
Proof.
  intros (Hf&Hp&_). split_and!; simpl; [done|..].
  - intros p. rewrite latest_snoc. case_bool_decide as Hu.
    + subst. by rewrite lookup_insert_eq.
    + by rewrite lookup_insert_ne.
  - by rewrite Hf, foldl_app_concat.
Qed.

Lemma manager_run_ok files us : manager_ok files us (Manager.manager_run (Manager.manager_new files) us).
Proof.
  induction us as [|u us IH] using rev_ind; [apply manager_new_ok|].
  unfold Manager.manager_run. rewrite foldl_snoc. by apply manager_on_update_ok.
Qed.

Lemma manager_table files us (m : gmap string (list Route)) :
  (∀ p, m !! p = latest us p) →
  Manager.handle (Manager.manager_run (Manager.manager_new files) us) =
  RouteTable_new (files ++ concat (btree_values_str m)).
Proof.
  intros Hm. destruct (manager_run_ok files us) as (_&Hp&Ht). unfold Manager.handle. rewrite Ht.
  by assert (Manager.provider_routes (Manager.manager_run (Manager.manager_new files) us) = m) as ->
    by (apply map_eq; intros p; by rewrite Hp, Hm).
Qed.

(** The live table is a function of the file's routes and the latest
    snapshot of each provider: a request is served by the best match among
    them, whatever updates came before. *)
Theorem manager_selects_latest files us host path (m : gmap string (list Route))
    (Hm : ∀ p, m !! p = latest us p) :
  select (Manager.handle (Manager.manager_run (Manager.manager_new files) us)) host path =
  best_route (files ++ concat (btree_values_str m)) host path.
Proof. by rewrite (manager_table _ _ m), select_new. Qed.

(** ** The interface of a provider *)

(** A provider task, as a function of what its environment answers: its
    updates carry its own name, and the last one is its current view. *)
Class DiscoveryProvider (I : Type) := {
  dp_name : string;
  dp_run : list I → list ProviderUpdate;
  dp_current : list I → list Route;
  dp_own_name inp : Forall (λ u, pu_provider u = dp_name) (dp_run inp);
  dp_latest inp : default [] (pu_routes <$> last (dp_run inp)) = dp_current inp;
}.
Arguments dp_name I {_}.

(** Two tasks send into one channel in any order that keeps theirs. *)
Inductive interleave {A} : list A → list A → list A → Prop :=
| interleave_nil : interleave [] [] []
| interleave_l x l1 l2 l : interleave l1 l2 l → interleave (x :: l1) l2 (x :: l)
| interleave_r x l1 l2 l : interleave l1 l2 l → interleave l1 (x :: l2) (x :: l).

Lemma latest_own us p :
  Forall (λ u, pu_provider u = p) us → latest us p = pu_routes <$> last us.
Proof.
  induction us as [|u us IH] using rev_ind; [done|]. intros [_ Hu]%Forall_app.
  apply Forall_cons in Hu as [Hu _]. rewrite latest_snoc, last_snoc. by rewrite bool_decide_eq_true_2.
Qed.

Lemma latest_other us p q : p ≠ q → Forall (λ u, pu_provider u = q) us → latest us p = None.
Proof.
  intros Hne. induction us as [|u us IH] using rev_ind; [done|]. intros [Hus Hu]%Forall_app.
  apply Forall_cons in Hu as [Hu _]. rewrite latest_snoc, bool_decide_eq_false_2 by congruence. auto.
Qed.

(** The updates of one name are a subsequence that interleaving keeps. *)
Lemma latest_interleave us1 us2 us p q r :
  p ≠ q → interleave us1 us2 us →
  Forall (λ u, pu_provider u = p) us1 → Forall (λ u, pu_provider u = q) us2 →
  latest us r = if bool_decide (r = p) then latest us1 r else latest us2 r.
Proof.
  intros Hne Hi H1 H2. unfold latest. destruct (decide (r = p)) as [->|Hr].
  - rewrite bool_decide_eq_true_2 by done. f_equal.
    induction Hi as [|u ? ? ? ? IH|u ? ? ? ? IH]; [done|..].
    + apply Forall_cons in H1 as [Hu H1]. simpl. rewrite bool_decide_eq_true_2 by done.
      f_equal. by apply IH.
    + apply Forall_cons in H2 as [Hu H2]. simpl. rewrite bool_decide_eq_false_2 by congruence.
      by apply IH.
  - rewrite bool_decide_eq_false_2 by done. f_equal.
    induction Hi as [|u ? ? ? ? IH|u ? ? ? ? IH]; [done|..].
    + apply Forall_cons in H1 as [Hu H1]. simpl. rewrite bool_decide_eq_false_2 by congruence.
      by apply IH.
    + apply Forall_cons in H2 as [Hu H2]. simpl. case_bool_decide; [f_equal|]; by apply IH.
Qed.

(** Iterating over a map with two keys. *)
Lemma btree_values_two {V} (m : gmap string V) p q :
  String.le p q → p ≠ q → (∀ r, r ≠ p → r ≠ q → m !! r = None) →
  btree_values_str m = option_list (m !! p) ++ option_list (m !! q).
Proof.
  intros Hle Hne Hm. unfold btree_values.
  rewrite <-(btree_iter_unique _ m
    (option_list ((p,.) <$> m !! p) ++ option_list ((q,.) <$> m !! q))).
  - by destruct (m !! p), (m !! q).
  - destruct (m !! p), (m !! q); simpl; repeat constructor; done.
  - destruct (m !! p), (m !! q); simpl; repeat constructor; set_solver.
  - intros k v. destruct (decide (k = p)) as [->|]; [|destruct (decide (k = q)) as [->|]].
    + destruct (m !! p), (m !! q); simpl; set_solver.
    + destruct (m !! p), (m !! q); simpl; set_solver.
    + rewrite (Hm k) by done. destruct (m !! p), (m !! q); simpl; set_solver.
Qed.

Section two_providers.
Context {I1 I2 : Type} `{P1 : !DiscoveryProvider I1, P2 : !DiscoveryProvider I2}.
Context (names_ordered : String.le (dp_name I1) (dp_name I2)).
Context (names_distinct : dp_name I1 ≠ dp_name I2).

Lemma live_table files (is1 : list I1) (is2 : list I2) us :
  interleave (dp_run is1) (dp_run is2) us →
  Manager.handle (Manager.manager_run (Manager.manager_new files) us) =
  RouteTable_new (files ++ dp_current is1 ++ dp_current is2).
Proof.
  intros Hi.
  pose proof (λ r, latest_interleave _ _ _ _ _ r names_distinct Hi (dp_own_name is1)
                (dp_own_name is2)) as Hl.
  destruct (manager_run_ok files us) as (_&Hp&Ht). unfold Manager.handle. rewrite Ht.
  rewrite (btree_values_two _ (dp_name I1) (dp_name I2)); [|done..|].
  - rewrite !Hp, !Hl, bool_decide_eq_true_2, bool_decide_eq_false_2 by done.
    rewrite !latest_own by apply dp_own_name. rewrite <-!dp_latest.
    f_equal. rewrite concat_app.
    by destruct (last (dp_run is1)), (last (dp_run is2)); simpl; rewrite ?app_nil_r.
  - intros r H1 H2. rewrite Hp, Hl, bool_decide_eq_false_2 by done.
    by eapply latest_other, dp_own_name.
Qed.
End two_providers.

(** ** The Docker task *)

Module DockerSpec.
Import Docker.

(** The routes of the last successful poll; [up] says whether a client
    exists. *)
Fixpoint last_poll (up : bool) (acc : list Route) (ts : list Tick) : list Route :=
  match ts with
  | [] => acc
  | t :: ts =>
      if up || t_connect t then
        match t_list t with
        | Some containers => last_poll true (poll_containers containers).1 ts
        | None => last_poll false acc ts
        end
      else last_poll false acc ts
  end.

(** One iteration while the manager receives: the loop goes on, an update is
    sent exactly when the polled snapshot differs from the last one. *)
Lemma poll_step_spec st t :
  ∃ st' e, poll_step true st t = (Some st', e) ∧ warned_connect st' = warned_connect st ∧
  match t_list t with
  | Some cs => client st' = client st ∧ last st' = Some (poll_containers cs).1 ∧
      ((last st = last st' ∧ e_sent e = []) ∨
       (last st ≠ last st' ∧ e_sent e = [mkProviderUpdate "docker" (poll_containers cs).1]))
  | None => client st' = false ∧ last st' = last st ∧ e_sent e = []
  end.
Proof.
  unfold poll_step. destruct (t_list t) as [cs|]; [|eauto 10].
  destruct (poll_containers cs) as [routes logs] eqn:Ep.
  case_bool_decide as Hl; eexists _, _; (split; [done|]); split_and!; try done; simpl.
  - by right.
  - by left.
Qed.

Lemma docker_step_spec st t :
  ∃ st' e, docker_step true st t = (Some st', e) ∧
  match (if client st || t_connect t then t_list t else None) with
  | Some cs => client st' = true ∧ last st' = Some (poll_containers cs).1 ∧
      ((last st = last st' ∧ e_sent e = []) ∨
       (last st ≠ last st' ∧ e_sent e = [mkProviderUpdate "docker" (poll_containers cs).1]))
  | None => client st' = false ∧ last st' = last st ∧ e_sent e = []
  end.
Proof.
  unfold docker_step. destruct (client st) eqn:Hc; simpl.
  - destruct (poll_step_spec st t) as (st'&e&->&_&Hs). exists st', e. split; [done|].
    destruct (t_list t); naive_solver.
  - destruct (t_connect t); simpl; [|eauto 10].
    destruct (poll_step_spec (mkState true (last st) false) t) as (st'&e&->&_&Hs).
    eexists _, _. split; [done|]. simpl in *. by destruct (t_list t).
Qed.

(** The loop, from any state: it does not return, its updates carry its name,
    differ from one to the next, and end in its state's [last]. *)
Lemma docker_run_spec ts st :
  ∃ st' es, docker_run st ts = (Some st', es) ∧
  Forall (λ u, pu_provider u = "docker") (sent es) ∧
  default (default [] (last st)) (pu_routes <$> list.last (sent es)) =
    last_poll (client st) (default [] (last st)) ts ∧
  (∀ us1 u us2, sent es = us1 ++ u :: us2 →
     Some (pu_routes u) ≠ match list.last us1 with
                          | Some u' => Some (pu_routes u')
                          | None => last st
                          end).
Proof.
  revert st. induction ts as [|t ts IH]; intros st.
  { exists st, []. split_and!; [done..|]. intros [] ??; done. }
  destruct (docker_step_spec st t) as (st1&e&Hs&Hcase). cbn [docker_run]. rewrite Hs.
  destruct (IH st1) as (st2&es&->&Hn&Hl&Hd). exists st2, (e :: es). split; [done|].
  change (sent (e :: es)) with (e_sent e ++ sent es). cbn [last_poll].
  destruct (client st || t_connect t).
  1: destruct (t_list t) as [cs|]; destruct Hcase as (Hc&Hlast&Hcase).
  - rewrite Hc, Hlast in Hl. simpl in Hl. destruct Hcase as [[Heq ->]|[Hne ->]]; simpl.
    + rewrite Hlast in Heq. rewrite Heq. simpl. split_and!; [done..|].
      intros us1 u us2 Hu. rewrite <-Hlast. by apply Hd with us2.
    + split_and!; [by constructor| |].
      * rewrite last_cons. rewrite <-Hl. by destruct (list.last (sent es)).
      * intros us1 u us2 Hu.
        destruct us1 as [|u1 us1]; injection Hu as <- Hu; simpl; [congruence|].
        specialize (Hd us1 u us2 Hu). rewrite Hlast in Hd.
        rewrite last_cons. by destruct (list.last us1).
  - rewrite Hcase. simpl. rewrite Hc, Hlast in Hl. rewrite Hlast in Hd. by split_and!.
  - destruct Hcase as (Hc&Hlast&->). simpl. rewrite Hc, Hlast in Hl. rewrite Hlast in Hd.
    by split_and!.
Qed.

#[export] Program Instance docker_provider : DiscoveryProvider Tick := {|
  dp_name := "docker";
  dp_run ts := sent (docker_run docker_init ts).2;
  dp_current ts := last_poll false [] ts;
|}.
Next Obligation. intros ts. by destruct (docker_run_spec ts docker_init) as (st&es&->&?&_). Qed.
Next Obligation. intros ts. by destruct (docker_run_spec ts docker_init) as (st&es&->&_&Hl&_). Qed.

End DockerSpec.

(** C38: the Docker task keeps running while the manager receives, sends an
    update only when the polled routes differ from the last ones it sent, and
    its last update is the snapshot of the last successful poll, across
    failed connections and failed polls. *)
Theorem docker_task_correct ts :
  ∃ st es, Docker.docker_run Docker.docker_init ts = (Some st, es) ∧
    default [] (pu_routes <$> last (Docker.sent es)) = DockerSpec.last_poll false [] ts ∧
    ∀ us1 u us2 u', Docker.sent es = us1 ++ u :: u' :: us2 → pu_routes u ≠ pu_routes u'.
Proof.
  destruct (DockerSpec.docker_run_spec ts Docker.docker_init) as (st&es&Hr&_&Hl&Hd).
  exists st, es. split_and!; [done..|]. intros us1 u us2 u' Hs.
  specialize (Hd (us1 ++ [u]) u' us2). rewrite last_snoc in Hd. rewrite <-app_assoc in Hd.
  specialize (Hd Hs). congruence.
Qed.

(** ** The Kubernetes task *)

Module K8sSpec.
Import K8s.

(** The flag [apply] returns is exact: the committed set changed. *)
Lemma apply_changed s op :
  (apply s op).2 = bool_decide (committed (apply s op).1 ≠ committed s).
Proof.
  destruct op as [|key route| |key [r|]|key]; simpl.
  - by rewrite bool_decide_eq_false_2 by (intros Hn; by apply Hn).
  - destruct (buffer s), route; simpl; by rewrite bool_decide_eq_false_2 by (intros Hn; by apply Hn).
  - done.
  - apply bool_decide_ext. split; intros Hne Heq; apply Hne.
    + rewrite <-Heq. by rewrite lookup_insert_eq.
    + by apply insert_id.
  - apply bool_decide_ext. split.
    + intros [r Hr] Heq. rewrite <-Heq, lookup_delete_eq in Hr. done.
    + intros Hne. destruct (committed s !! key) eqn:Hk; [done|]. by rewrite delete_id in Hne.
  - apply bool_decide_ext. split.
    + intros [r Hr] Heq. rewrite <-Heq, lookup_delete_eq in Hr. done.
    + intros Hne. destruct (committed s !! key) eqn:Hk; [done|]. by rewrite delete_id in Hne.
Qed.

(** The two stores after a stream of items, without the sending. *)
Definition store_step (s : KindStore * KindStore) (i : Item) : KindStore * KindStore :=
  match i with
  | None => s
  | Some (Service, op) => ((apply s.1 op).1, s.2)
  | Some (Ingress, op) => (s.1, (apply s.2 op).1)
  end.

Definition stores (items : list Item) : KindStore * KindStore :=
  foldl store_step (KindStore_default, KindStore_default) items.

Definition store_pair_routes (s : KindStore * KindStore) : list Route :=
  store_routes s.1 ++ store_routes s.2.

(** One iteration: the stores k8s_step, and the routes of the state are always
    those last sent. *)
Lemma k8s_step_spec st i :
  all_routes st = default [] (last_sent st) →
  ∃ st' us, k8s_step true st i = (Some st', us) ∧
    (svc_store st', ing_store st') = store_step (svc_store st, ing_store st) i ∧
    all_routes st' = default [] (last_sent st') ∧
    ((us = [] ∧ last_sent st' = last_sent st) ∨
     (us = [mkProviderUpdate "kubernetes" (all_routes st')] ∧ last_sent st ≠ last_sent st')).
Proof.
  intros Hinv. destruct i as [[kind op]|]; [|by exists st, []; eauto 10].
  unfold k8s_step.
  assert (∃ st1 c, (match kind with
     | Service => let '(s, c) := apply (svc_store st) op in
                  (mkState s (ing_store st) (last_sent st), c)
     | Ingress => let '(s, c) := apply (ing_store st) op in
                  (mkState (svc_store st) s (last_sent st), c) end) = (st1, c) ∧
     (svc_store st1, ing_store st1) = store_step (svc_store st, ing_store st) (Some (kind, op)) ∧
     last_sent st1 = last_sent st ∧
     (c = false → all_routes st1 = all_routes st)) as (st1&c&->&Hst&Hl&Hc).
  { destruct kind;
      [pose proof (apply_changed (svc_store st) op) as Hch
      |pose proof (apply_changed (ing_store st) op) as Hch];
      destruct (apply _ op) as [s c] eqn:Ea; eexists _, _; (split; [done|]);
      simpl in *; rewrite Ea; simpl; (split_and!; [done..|]); intros ->;
      symmetry in Hch; apply bool_decide_eq_false, dec_stable in Hch;
      unfold all_routes, store_routes; simpl; by rewrite Hch. }
  destruct c; simpl.
  - case_bool_decide as Hs.
    + exists st1, []. split_and!; [done|done|by rewrite Hs|by left].
    + eexists _, _. split_and!; [done|done|done|]. right. simpl. split; [done|congruence].
  - exists st1, []. split_and!; [done|done| |by left]. by rewrite Hc, Hl.
Qed.

Lemma k8s_run_spec items st :
  all_routes st = default [] (last_sent st) →
  ∃ st' us, k8s_run st items = (Some st', us) ∧
    (svc_store st', ing_store st') = foldl store_step (svc_store st, ing_store st) items ∧
    Forall (λ u, pu_provider u = "kubernetes") us ∧
    all_routes st' = default (default [] (last_sent st)) (pu_routes <$> last us).
Proof.
  revert st. induction items as [|i items IH]; intros st Hinv; [by exists st, []|].
  destruct (k8s_step_spec st i Hinv) as (st1&us1&Hs&Hst&Hinv1&Hus). cbn [k8s_run foldl]. rewrite Hs.
  destruct (IH st1 Hinv1) as (st2&us2&->&Hst2&Hn&Hl). eexists _, _. split; [done|].
  rewrite <-Hst. split; [done|].
  destruct Hus as [[-> Hsent]|[-> _]]; simpl.
  - by rewrite Hsent in Hl.
  - split; [by constructor|]. rewrite last_cons, Hl, <-Hinv1. by destruct (last us2).
Qed.

#[export] Program Instance k8s_provider : DiscoveryProvider Item := {|
  dp_name := "kubernetes";
  dp_run items := (k8s_run k8s_init items).2;
  dp_current items := store_pair_routes (stores items);
|}.
Next Obligation. intros items. by destruct (k8s_run_spec items k8s_init) as (st&us&->&_&?&_). Qed.
Next Obligation.
  intros items. destruct (k8s_run_spec items k8s_init) as (st&us&->&Hst&_&Hl); [done|].
  simpl in Hl |- *. rewrite <-Hl. unfold stores. simpl in Hst. by rewrite <-Hst.
Qed.
End K8sSpec.

(** ** The cluster behind a watch stream

    The abstract state of one kind is the last listed or announced version of
    each object; a relist in progress does not show before it is complete. *)
Module Cluster.
Import K8s.

Record View := mkView {
  live : gmap string Object;
  listing : option (gmap string Object);
}.

Definition init_view : View := mkView ∅ None.

(** What an event says about the cluster.  A list names each object once. *)
Inductive view_step : View → Event → View → Prop :=
| view_init v : view_step v Event_Init (mkView (live v) (Some ∅))
| view_list v l obj :
    listing v = Some l → l !! object_key obj = None →
    view_step v (Event_InitApply obj) (mkView (live v) (Some (<[object_key obj := obj]> l)))
| view_done v l :
    listing v = Some l → view_step v Event_InitDone (mkView l None)
| view_apply v obj :
    view_step v (Event_Apply obj) (mkView (<[object_key obj := obj]> (live v)) (listing v))
| view_delete v obj :
    view_step v (Event_Delete obj) (mkView (delete (object_key obj) (live v)) (listing v)).

Inductive view_steps : View → list Event → View → Prop :=
| view_steps_nil v : view_steps v [] v
| view_steps_cons v e v' es v'' :
    view_step v e v' → view_steps v' es v'' → view_steps v (e :: es) v''.

(** The routes of the objects that have opted in. *)
Definition view_routes (m : gmap string Object) : gmap string Route := omap route_from_object m.

(** The refinement relation. *)
Definition store_refines (s : KindStore) (v : View) : Prop :=
  committed s = view_routes (live v) ∧ buffer s = view_routes <$> listing v.

Lemma view_routes_insert m key obj :
  view_routes (<[key := obj]> m) =
  match route_from_object obj with
  | Some r => <[key := r]> (view_routes m)
  | None => delete key (view_routes m)
  end.
Proof.
  unfold view_routes. destruct (route_from_object obj) as [r|] eqn:Er.
  - by apply omap_insert_Some.
  - by apply omap_insert_None.
Qed.

Lemma apply_refines s v e v' :
  store_refines s v → view_step v e v' → store_refines (apply s (to_op e)).1 v'.
Proof.
  intros [Hc Hb] Hstep. destruct Hstep as [v|v l obj Hl Hn|v l Hl|v obj|v obj]; simpl.
  - split; [done|]. simpl. unfold view_routes. by rewrite omap_empty.
  - rewrite Hb, Hl. simpl. destruct (route_from_object obj) as [r|] eqn:Er; simpl.
    + split; [done|]. simpl. by rewrite view_routes_insert, Er.
    + split; [done|]. simpl. rewrite view_routes_insert, Er, delete_id, Hb, Hl; [done|].
      unfold view_routes. by rewrite lookup_omap, Hn.
  - split; [|done]. simpl. by rewrite Hb, Hl.
  - destruct (route_from_object obj) as [r|] eqn:Er; (split; [|done]); simpl;
      by rewrite view_routes_insert, Er, Hc.
  - split; [|done]. simpl. rewrite Hc. unfold view_routes. by rewrite omap_delete.
Qed.

Lemma run_refines es s v v' :
  store_refines s v → view_steps v es v' →
  store_refines (foldl (λ s e, (apply s (to_op e)).1) s es) v'.
Proof.
  intros Hr Hs. revert s Hr. induction Hs as [|v e v1 es v2 He Hs IH]; intros s Hr; [done|].
  simpl. apply IH. by eapply apply_refines.
Qed.

(** The events of one kind in the merged stream, whose other items are events
    of the other kind and watch errors. *)
Definition events_of (kind : Kind) (items : list (option (Kind * Event))) : list Event :=
  omap (λ i, match i, kind with
             | Some (Service, e), Service | Some (Ingress, e), Ingress => Some e
             | _, _ => None
             end) items.

Definition item_of (i : option (Kind * Event)) : Item := (λ '(k, e), (k, to_op e)) <$> i.

Lemma stores_split items s :
  foldl K8sSpec.store_step s (item_of <$> items) =
  (foldl (λ s e, (apply s (to_op e)).1) s.1 (events_of Service items),
   foldl (λ s e, (apply s (to_op e)).1) s.2 (events_of Ingress items)).
Proof.
  revert s. induction items as [|[[[] e]|] items IH]; intros s; simpl; [by destruct s|..];
    by rewrite IH.
Qed.

Lemma stores_refine items vs vi :
  view_steps init_view (events_of Service items) vs →
  view_steps init_view (events_of Ingress items) vi →
  K8sSpec.store_pair_routes (K8sSpec.stores (item_of <$> items)) =
  btree_values_str (view_routes (live vs)) ++ btree_values_str (view_routes (live vi)).
Proof.
  intros Hs Hi. unfold K8sSpec.stores. rewrite stores_split.
  assert (store_refines KindStore_default init_view) as H0.
  { split; [|done]. simpl. unfold view_routes. by rewrite omap_empty. }
  destruct (run_refines _ _ _ _ H0 Hs) as [H1 _], (run_refines _ _ _ _ H0 Hi) as [H2 _].
  unfold K8sSpec.store_pair_routes, store_routes. simpl. by rewrite H1, H2.
Qed.

End Cluster.

(** C9: the Kubernetes task refines the cluster: whatever the order in which
    the Service and Ingress events and the watch errors arrive, its last
    update holds exactly the routes of the objects that are live and have
    opted in, and a relist in progress shows nothing before it is done. *)
Theorem k8s_task_refines_cluster items vs vi
    (Hsvc : Cluster.view_steps Cluster.init_view (Cluster.events_of K8s.Service items) vs)
    (Hing : Cluster.view_steps Cluster.init_view (Cluster.events_of K8s.Ingress items) vi) :
  ∃ st us, K8s.k8s_run K8s.k8s_init (Cluster.item_of <$> items) = (Some st, us) ∧
    default [] (pu_routes <$> last us) =
    btree_values_str (Cluster.view_routes (Cluster.live vs)) ++
    btree_values_str (Cluster.view_routes (Cluster.live vi)).
Proof.
  destruct (K8sSpec.k8s_run_spec (Cluster.item_of <$> items) K8s.k8s_init) as (st&us&Hr&Hst&_&Hl); [done|].
  exists st, us. split; [done|]. simpl in Hl. rewrite <-Hl.
  rewrite <-(Cluster.stores_refine _ _ _ Hsvc Hing).
  unfold K8sSpec.stores. simpl in Hst. by rewrite <-Hst.
Qed.

(** The flag that suppresses updates is exact: an operation reports a
    change exactly when it changed the committed routes. *)
Theorem k8s_apply_changed_exact s op :
  (K8s.apply s op).2 = true ↔ K8s.committed (K8s.apply s op).1 ≠ K8s.committed s.
Proof. by rewrite K8sSpec.apply_changed, bool_decide_eq_true. Qed.

(** C6: end to end: for every run of the two tasks and every order in which
    the manager receives their updates, the live table is the merge of the
    file's routes, the last successful Docker poll and the committed
    Kubernetes objects. *)
Theorem discovery_live_table files (ts : list Docker.Tick) (items : list K8s.Item) us
    (Hi : interleave (Docker.sent (Docker.docker_run Docker.docker_init ts).2) (K8s.k8s_run K8s.k8s_init items).2 us) :
  Manager.handle (Manager.manager_run (Manager.manager_new files) us) =
  RouteTable_new (files ++ DockerSpec.last_poll false [] ts ++
                  K8sSpec.store_pair_routes (K8sSpec.stores items)).
Proof.
  apply (live_table (P1 := DockerSpec.docker_provider) (P2 := K8sSpec.k8s_provider)); [|done|done].
  by apply (bool_decide_unpack _).
Qed.

(** ** Concrete runs *)

Definition example_container : Docker.Container :=
  Docker.mkContainer
    (Some {[ "archetype.enable" := "true"; "archetype.upstream" := "http://c:80" ]}) (Some "abc").

Definition example_ticks : list Docker.Tick :=
  [Docker.mkTick false None; Docker.mkTick true (Some [example_container]);
   Docker.mkTick false None].

Definition example_service : K8s.Object :=
  K8s.mkObject (Some "ns") (Some "svc")
    (Some {[ "archetype.li/enable" := "true"; "archetype.li/upstream" := "http://svc:80" ]}).

Definition example_items : list (option (K8s.Kind * K8s.Event)) :=
  [Some (K8s.Service, K8s.Event_Init); None;
   Some (K8s.Service, K8s.Event_InitApply example_service);
   Some (K8s.Ingress, K8s.Event_Init);
   Some (K8s.Service, K8s.Event_InitDone)].

Definition example_view : Cluster.View :=
  Cluster.mkView {[ "ns/svc" := example_service ]} None.

Lemma manager_selects_latest_witness :
  select (Manager.handle (Manager.manager_run (Manager.manager_new [example_api])
            [mkProviderUpdate "docker" [example_any]])) "h" "/" =
  best_route ([example_api] ++ concat (btree_values_str {[ "docker" := [example_any] ]})) "h" "/".
Proof.
  apply (manager_selects_latest [example_api] [mkProviderUpdate "docker" [example_any]] "h" "/"
           {[ "docker" := [example_any] ]}).
  intros p. unfold latest. simpl. case_bool_decide as Hp.
  - subst p. apply lookup_singleton_eq.
  - by apply lookup_singleton_ne.
Defined.

Lemma k8s_task_refines_cluster_witness :
  ∃ st us, K8s.k8s_run K8s.k8s_init (Cluster.item_of <$> example_items) = (Some st, us) ∧
    default [] (pu_routes <$> last us) =
    btree_values_str (Cluster.view_routes (Cluster.live example_view)) ++
    btree_values_str (Cluster.view_routes (Cluster.live (Cluster.mkView ∅ (Some ∅)))).
Proof.
  apply (k8s_task_refines_cluster example_items example_view (Cluster.mkView ∅ (Some ∅))).
  - eapply Cluster.view_steps_cons; [apply Cluster.view_init|].
    eapply Cluster.view_steps_cons; [by eapply (Cluster.view_list _ ∅)|].
    eapply Cluster.view_steps_cons; [by eapply Cluster.view_done|]. apply Cluster.view_steps_nil.
  - eapply Cluster.view_steps_cons; [apply Cluster.view_init|]. apply Cluster.view_steps_nil.
Defined.

Lemma discovery_live_table_witness :
  Manager.handle (Manager.manager_run (Manager.manager_new [example_api])
    (Docker.sent (Docker.docker_run Docker.docker_init example_ticks).2 ++
     (K8s.k8s_run K8s.k8s_init (Cluster.item_of <$> example_items)).2)) =
  RouteTable_new ([example_api] ++ DockerSpec.last_poll false [] example_ticks ++
    K8sSpec.store_pair_routes (K8sSpec.stores (Cluster.item_of <$> example_items))).
Proof.
  apply (discovery_live_table [example_api] example_ticks (Cluster.item_of <$> example_items)).
  vm_compute. apply interleave_l, interleave_r, interleave_nil.
Defined.
