(* ===== verification/DiscoverySystem.v ===== *)
(** * The discovery system

    The provider tasks, the bounded channel of [main.rs] and the manager as
    one transition system.  A task works on one answer of its environment at a
    time; an update it wants to send waits until the channel has room; the
    manager receives in the order of the channel.  The manager keeps its end
    until every sender is gone, so a send never fails.  The theorems are
    proved against the class [ProviderTask], whose instances are the Docker
    and Kubernetes loops; a provider that is not enabled is a task that gets
    no input. *)

From stdpp Require Import relations.
From S2P Require Import Prelude RustStr SocketAddr Routing Config Labels Discovery LiveTable.

(** The capacity of the channel that [main] opens. *)
Definition CHANNEL_CAPACITY : nat := 16.

(** ** A task and what it promises *)

(** One iteration, and the view of its environment that a task has announced:
    an iteration announces at most one snapshot, under the task's own name,
    and its view is the last announced one. *)
Class ProviderTask (St In : Type) := {
  pt_name : string;
  pt_init : St;
  pt_step : St → In → St * list ProviderUpdate;
  pt_view : St → list Route;
  pt_current : list In → list Route;
  pt_init_view : pt_view pt_init = [];
  pt_step_spec st i :
    ((pt_step st i).2 = [] ∧ pt_view (pt_step st i).1 = pt_view st) ∨
    (pt_step st i).2 = [mkProviderUpdate pt_name (pt_view (pt_step st i).1)];
  pt_view_current inp : pt_view (foldl (λ s i, (pt_step s i).1) pt_init inp) = pt_current inp;
}.
Arguments pt_name St In {_}.
Arguments pt_init St In {_}.

(** A running task: its loop's state, what it waits to send, and the answers
    it has seen. *)
Record Task (St In : Type) := mkTask {
  tk_state : St;
  tk_pending : list ProviderUpdate;
  tk_seen : list In;
}.
Arguments mkTask {St In}.
Arguments tk_state {St In}.
Arguments tk_pending {St In}.
Arguments tk_seen {St In}.

Section system.
Context {S1 I1 S2 I2 : Type} `{P1 : !ProviderTask S1 I1, P2 : !ProviderTask S2 I2}.
Context (names_ordered : String.le (pt_name S1 I1) (pt_name S2 I2)).
Context (names_distinct : pt_name S1 I1 ≠ pt_name S2 I2).

Record Sys := mkSys {
  sy_1 : Task S1 I1;
  sy_2 : Task S2 I2;
  sy_channel : list ProviderUpdate;
  sy_manager : Manager.RouteManager;
}.

Definition sys_init (files : list Route) : Sys :=
  mkSys (mkTask (pt_init S1 I1) [] []) (mkTask (pt_init S2 I2) [] []) [] (Manager.manager_new files).

(** A task takes the next answer when it has nothing left to send. *)
Definition task_work {St In} `{!ProviderTask St In} (t : Task St In) (i : In) : Task St In :=
  mkTask (pt_step (tk_state t) i).1 (pt_step (tk_state t) i).2 (tk_seen t ++ [i]).

(** The bounded channel of [main], [mpsc::channel(16)]: a pending update enters
    it when it has room, or the manager receives. *)
Inductive deliver : Sys → Sys → Prop :=
| deliver_push1 t1 u us t2 ch m :
    tk_pending t1 = u :: us → length ch < CHANNEL_CAPACITY →
    deliver (mkSys t1 t2 ch m) (mkSys (mkTask (tk_state t1) us (tk_seen t1)) t2 (ch ++ [u]) m)
| deliver_push2 t1 t2 u us ch m :
    tk_pending t2 = u :: us → length ch < CHANNEL_CAPACITY →
    deliver (mkSys t1 t2 ch m) (mkSys t1 (mkTask (tk_state t2) us (tk_seen t2)) (ch ++ [u]) m)
| deliver_recv t1 t2 u ch m :
    deliver (mkSys t1 t2 (u :: ch) m) (mkSys t1 t2 ch (Manager.on_update m u)).

Inductive sys_step : Sys → Sys → Prop :=
| sys_work1 t1 t2 ch m i :
    tk_pending t1 = [] → sys_step (mkSys t1 t2 ch m) (mkSys (task_work t1 i) t2 ch m)
| sys_work2 t1 t2 ch m i :
    tk_pending t2 = [] → sys_step (mkSys t1 t2 ch m) (mkSys t1 (task_work t2 i) ch m)
| sys_deliver s s' : deliver s s' → sys_step s s'.

(** ** The invariant *)

(** What the manager will hold of a provider once the given updates are
    received. *)
Definition in_flight (us : list ProviderUpdate) (m : Manager.RouteManager) (p : string) : list Route :=
  default (default [] (Manager.provider_routes m !! p)) (latest us p).

Definition task_ok {St In} `{!ProviderTask St In} (t : Task St In) (ch : list ProviderUpdate)
    (m : Manager.RouteManager) : Prop :=
  length (tk_pending t) ≤ 1 ∧
  Forall (λ u, pu_provider u = pt_name St In) (tk_pending t) ∧
  tk_state t = foldl (λ s i, (pt_step s i).1) (pt_init St In) (tk_seen t) ∧
  in_flight (ch ++ tk_pending t) m (pt_name St In) = pt_view (tk_state t).

(** The own updates among [us] are the views of the task after longer and
    longer prefixes of its answers, starting from [pre] and not beyond [seen]. *)
Fixpoint trail {St In} `{!ProviderTask St In} (pre : list In) (us : list ProviderUpdate)
    (seen : list In) : Prop :=
  match us with
  | [] => pre `prefix_of` seen
  | u :: us =>
      if bool_decide (pu_provider u = pt_name St In) then
        ∃ pre', pre `prefix_of` pre' ∧ pu_routes u = pt_current pre' ∧ trail pre' us seen
      else trail pre us seen
  end.

(** The manager holds the task's view after the answers [pre], and what is on
    its way continues from there. *)
Definition held_view {St In} `{!ProviderTask St In} (t : Task St In) (ch : list ProviderUpdate)
    (m : Manager.RouteManager) (pre : list In) : Prop :=
  default [] (Manager.provider_routes m !! pt_name St In) = pt_current pre ∧
  trail pre (ch ++ tk_pending t) (tk_seen t).

Definition own_name (p : string) : Prop := p = pt_name S1 I1 ∨ p = pt_name S2 I2.

Definition held (s : Sys) (pre1 : list I1) (pre2 : list I2) : Prop :=
  held_view (sy_1 s) (sy_channel s) (sy_manager s) pre1 ∧
  held_view (sy_2 s) (sy_channel s) (sy_manager s) pre2.

Record sys_ok (files : list Route) (s : Sys) : Prop := {
  ok_capacity : length (sy_channel s) ≤ CHANNEL_CAPACITY;
  ok_names : Forall (λ u, own_name (pu_provider u)) (sy_channel s);
  ok_task1 : task_ok (sy_1 s) (sy_channel s) (sy_manager s);
  ok_task2 : task_ok (sy_2 s) (sy_channel s) (sy_manager s);
  ok_files : Manager.file_routes (sy_manager s) = files;
  ok_others p : is_Some (Manager.provider_routes (sy_manager s) !! p) → own_name p;
  ok_table : Manager.table (sy_manager s) =
    RouteTable_new (files ++ concat (btree_values_str (Manager.provider_routes (sy_manager s))));
}.

Lemma held_view_init {St In} `{!ProviderTask St In} files :
  held_view (mkTask (pt_init St In) [] []) [] (Manager.manager_new files) [].
Proof.
  split; [|apply prefix_nil]. simpl. rewrite lookup_empty, <-pt_view_current. simpl.
  by rewrite pt_init_view.
Qed.

Lemma sys_init_ok files : sys_ok files (sys_init files).
Proof.
  destruct (manager_new_ok files) as (Hf&_&Ht).
  constructor; simpl; try done.
  - unfold CHANNEL_CAPACITY. lia.
  - split_and!; simpl; [lia|done|done|]. by rewrite pt_init_view.
  - split_and!; simpl; [lia|done|done|]. by rewrite pt_init_view.
  - intros p [? Hp]. by rewrite lookup_empty in Hp.
Qed.

(** ** Preservation, one task at a time *)

Lemma in_flight_recv us m u p : in_flight us (Manager.on_update m u) p = in_flight (u :: us) m p.
Proof.
  unfold in_flight, Manager.on_update, Manager.recompute. simpl. unfold latest. simpl.
  case_bool_decide as Hp.
  - subst. rewrite lookup_insert_eq. simpl. rewrite last_cons. by destruct (last _).
  - by rewrite lookup_insert_ne.
Qed.

Lemma latest_app_other us us' p :
  Forall (λ u, pu_provider u ≠ p) us' → latest (us ++ us') p = latest us p.
Proof.
  intros Hu. unfold latest. rewrite omap_app.
  assert (omap (λ u, if bool_decide (pu_provider u = p) then Some (pu_routes u) else None) us' = [])
    as ->; [|by rewrite app_nil_r].
  induction Hu as [|u us' Hp _ IH]; [done|]. simpl. by rewrite bool_decide_eq_false_2.
Qed.

Section task.
Context {St In : Type} `{P : !ProviderTask St In}.
Implicit Types t : Task St In.

Lemma task_work_ok t ch m i : tk_pending t = [] → task_ok t ch m → task_ok (task_work t i) ch m.
Proof.
  intros Hp (_&_&Hs&Hv). rewrite Hp, app_nil_r in Hv. unfold task_ok. simpl.
  rewrite foldl_snoc, <-Hs. destruct (pt_step_spec (tk_state t) i) as [[Hu Hv']|Hu]; rewrite Hu.
  - rewrite app_nil_r, Hv'. split_and!; [simpl; lia|done..].
  - split_and!; [simpl; lia|by constructor|done|].
    unfold in_flight. rewrite latest_snoc. simpl. by rewrite bool_decide_eq_true_2.
Qed.

Lemma task_push_ok t ch m u us :
  tk_pending t = u :: us → task_ok t ch m →
  task_ok (mkTask (tk_state t) us (tk_seen t)) (ch ++ [u]) m.
Proof.
  intros Hp (Hl&Hn&Hs&Hv). rewrite Hp in *. apply Forall_cons in Hn as [_ Hn]. simpl in Hl.
  split_and!; simpl; [lia|done|done|]. by rewrite <-app_assoc.
Qed.

Lemma task_other_ok t ch m u :
  pu_provider u ≠ pt_name St In → task_ok t ch m → task_ok t (ch ++ [u]) m.
Proof.
  intros Hne (Hl&Hn&Hs&Hv). split_and!; [done..|]. rewrite <-Hv. unfold in_flight.
  destruct (tk_pending t) as [|w [|]] eqn:Hp; simpl in Hl; [| |lia].
  - rewrite !app_nil_r, latest_app_other; [done|]. by constructor.
  - apply Forall_cons in Hn as [Hw _]. by rewrite !latest_snoc, !bool_decide_eq_true_2.
Qed.

Lemma task_recv_ok t ch m u : task_ok t (u :: ch) m → task_ok t ch (Manager.on_update m u).
Proof. intros (Hl&Hn&Hs&Hv). split_and!; [done..|]. by rewrite in_flight_recv. Qed.

(** *** What the manager holds only moves forward *)

Lemma trail_seen pre us seen : trail pre us seen → pre `prefix_of` seen.
Proof.
  revert pre. induction us as [|u us IH]; intros pre; [done|]. simpl. case_bool_decide; [|apply IH].
  intros (pre'&Hp&_&Ht). etrans; [done|by apply IH].
Qed.

Lemma trail_mono pre us seen seen' :
  seen `prefix_of` seen' → trail pre us seen → trail pre us seen'.
Proof.
  intros Hs. revert pre. induction us as [|u us IH]; intros pre; simpl; [by intros; etrans|].
  case_bool_decide; [|apply IH]. intros (pre'&?&?&?). eauto.
Qed.

Lemma trail_announce pre us seen u :
  pu_routes u = pt_current seen → trail pre us seen → trail pre (us ++ [u]) seen.
Proof.
  intros Hu. revert pre. induction us as [|w us IH]; intros pre; simpl.
  - intros Hp. case_bool_decide; [|done]. by exists seen.
  - case_bool_decide; [|apply IH]. intros (pre'&?&?&?). eauto.
Qed.

Lemma trail_other pre us us' seen u :
  pu_provider u ≠ pt_name St In → trail pre (us ++ us') seen → trail pre (us ++ u :: us') seen.
Proof.
  intros Hu. revert pre. induction us as [|w us IH]; intros pre; simpl.
  - by rewrite bool_decide_eq_false_2.
  - case_bool_decide; [|apply IH]. intros (pre'&?&?&?). eauto.
Qed.

Lemma held_view_work t ch m i pre :
  tk_pending t = [] → task_ok t ch m → held_view t ch m pre → held_view (task_work t i) ch m pre.
Proof.
  intros Hp (_&_&Hs&_) [Hm Ht]. split; [done|]. rewrite Hp, app_nil_r in Ht.
  apply (trail_mono _ _ _ (tk_seen t ++ [i])) in Ht; [|by exists [i]]. simpl.
  destruct (pt_step_spec (tk_state t) i) as [[-> _]| ->]; [by rewrite app_nil_r|].
  apply trail_announce; [|done]. simpl. by rewrite <-pt_view_current, foldl_snoc, <-Hs.
Qed.

Lemma held_view_push t ch m u us pre :
  tk_pending t = u :: us → held_view t ch m pre →
  held_view (mkTask (tk_state t) us (tk_seen t)) (ch ++ [u]) m pre.
Proof. intros Hp [Hm Ht]. rewrite Hp in Ht. split; [done|]. simpl. by rewrite <-app_assoc. Qed.

Lemma held_view_other t ch m u pre :
  pu_provider u ≠ pt_name St In → held_view t ch m pre → held_view t (ch ++ [u]) m pre.
Proof. intros Hne [Hm Ht]. split; [done|]. rewrite <-app_assoc. by apply trail_other. Qed.

Lemma held_view_recv t ch m u pre :
  held_view t (u :: ch) m pre →
  ∃ pre', pre `prefix_of` pre' ∧ held_view t ch (Manager.on_update m u) pre'.
Proof.
  intros [Hm Ht]. simpl in Ht. case_bool_decide as Hu.
  - destruct Ht as (pre'&Hp&Hr&Ht). exists pre'. split; [done|]. split; [|done]. simpl.
    by rewrite Hu, lookup_insert_eq.
  - exists pre. split; [done|]. split; [|done]. simpl. by rewrite lookup_insert_ne.
Qed.

Lemma pending_name t ch m u us :
  tk_pending t = u :: us → task_ok t ch m → pu_provider u = pt_name St In.
Proof. intros Hp (_&Hn&_). rewrite Hp in Hn. by apply Forall_cons in Hn as [? _]. Qed.
End task.

Lemma deliver_ok files s s' : sys_ok files s → deliver s s' → sys_ok files s'.
Proof.
  intros [Hc Hn H1 H2 Hf Ho Ht] Hd.
  destruct Hd as [t1 u us t2 ch m Hp Hlen|t1 t2 u us ch m Hp Hlen|t1 t2 u ch m]; simpl in *.
  - pose proof (pending_name _ _ _ _ _ Hp H1) as Hu. constructor; simpl; try done.
    + rewrite length_app. simpl. lia.
    + apply Forall_app. split; [done|]. constructor; [by left|done].
    + by apply task_push_ok.
    + apply task_other_ok; [congruence|done].
  - pose proof (pending_name _ _ _ _ _ Hp H2) as Hu. constructor; simpl; try done.
    + rewrite length_app. simpl. lia.
    + apply Forall_app. split; [done|]. constructor; [by right|done].
    + apply task_other_ok; [congruence|done].
    + by apply task_push_ok.
  - apply Forall_cons in Hn as [Hu Hn]. constructor; simpl; try done.
    + lia.
    + by apply task_recv_ok.
    + by apply task_recv_ok.
    + intros p. destruct (decide (p = pu_provider u)) as [->|]; [done|].
      rewrite lookup_insert_ne by done. apply Ho.
    + by rewrite Hf, foldl_app_concat.
Qed.

Lemma sys_step_ok files s s' : sys_ok files s → sys_step s s' → sys_ok files s'.
Proof.
  intros Hok Hs. destruct Hs as [t1 t2 ch m i Hp|t1 t2 ch m i Hp|s s' Hd].
  - destruct Hok. constructor; simpl in *; try done. by apply task_work_ok.
  - destruct Hok. constructor; simpl in *; try done. by apply task_work_ok.
  - by eapply deliver_ok.
Qed.

Lemma reachable_ok files s : rtc sys_step (sys_init files) s → sys_ok files s.
Proof.
  intros Hr. assert (∀ s0, sys_ok files s0 → rtc sys_step s0 s → sys_ok files s) as H.
  { intros s0 H0 Hs. induction Hs; [done|]. eauto using sys_step_ok. }
  eapply H; [apply sys_init_ok|done].
Qed.

(** ** Delivery ends, and where *)

Definition undelivered (s : Sys) : nat :=
  2 * (length (tk_pending (sy_1 s)) + length (tk_pending (sy_2 s))) + length (sy_channel s).

Lemma deliver_decreases s s' : deliver s s' → undelivered s = S (undelivered s').
Proof.
  destruct 1 as [t1 u us t2 ch m Hp Hlen|t1 t2 u us ch m Hp Hlen|]; unfold undelivered; simpl;
    [rewrite Hp, length_app; simpl; lia..|lia].
Qed.

Lemma deliver_nsteps n s s' : nsteps deliver n s s' → undelivered s = n + undelivered s'.
Proof.
  induction 1 as [s|n s1 s2 s3 Hd _ IH]; [done|]. apply deliver_decreases in Hd. lia.
Qed.

(** A state with something to deliver can deliver: a full channel never
    blocks the manager. *)
Lemma deliver_progress s :
  (∀ s', ¬ deliver s s') → tk_pending (sy_1 s) = [] ∧ tk_pending (sy_2 s) = [] ∧ sy_channel s = [].
Proof.
  intros Hn. destruct s as [t1 t2 ch m]. destruct ch as [|u ch].
  2: { exfalso. eapply Hn, deliver_recv. }
  simpl. split_and!; [| |done].
  - destruct (tk_pending t1) eqn:Hp; [done|]. exfalso. eapply Hn. eapply deliver_push1; [done|].
    unfold CHANNEL_CAPACITY. simpl. lia.
  - destruct (tk_pending t2) eqn:Hp; [done|]. exfalso. eapply Hn. eapply deliver_push2; [done|].
    unfold CHANNEL_CAPACITY. simpl. lia.
Qed.

Lemma sys_ok_bound files s : sys_ok files s → undelivered s ≤ CHANNEL_CAPACITY + 4.
Proof. intros [Hc _ (H1&_) (H2&_) _ _ _]. unfold undelivered. lia. Qed.

(** The live table, by the snapshots the manager holds. *)
Lemma held_table files s :
  sys_ok files s →
  Manager.handle (sy_manager s) =
  RouteTable_new (files ++
    default [] (Manager.provider_routes (sy_manager s) !! pt_name S1 I1) ++
    default [] (Manager.provider_routes (sy_manager s) !! pt_name S2 I2)).
Proof.
  intros [_ _ _ _ _ Ho Ht]. unfold Manager.handle. rewrite Ht.
  rewrite (btree_values_two _ (pt_name S1 I1) (pt_name S2 I2)); [|done..|].
  - f_equal. rewrite concat_app.
    destruct (Manager.provider_routes (sy_manager s) !! pt_name S1 I1),
      (Manager.provider_routes (sy_manager s) !! pt_name S2 I2); simpl; by rewrite ?app_nil_r.
  - intros r H1 H2. apply eq_None_not_Some. intros Hr. by destruct (Ho r Hr).
Qed.

Lemma settled_table files s :
  sys_ok files s → (∀ s', ¬ deliver s s') →
  Manager.handle (sy_manager s) =
  RouteTable_new (files ++ pt_current (tk_seen (sy_1 s)) ++ pt_current (tk_seen (sy_2 s))).
Proof.
  intros Hok (Hp1&Hp2&Hch)%deliver_progress. rewrite (held_table files s Hok).
  destruct Hok as [_ _ (_&_&Hs1&Hv1) (_&_&Hs2&Hv2) _ _ _].
  rewrite Hp1, Hch in Hv1. rewrite Hp2, Hch in Hv2. unfold in_flight in *. simpl in *.
  by rewrite Hv1, Hv2, Hs1, Hs2, !pt_view_current.
Qed.

(** One step, and a run: each provider's held view moves to a longer prefix. *)
Lemma sys_step_held files s s' pre1 pre2 :
  sys_ok files s → held s pre1 pre2 → sys_step s s' →
  ∃ pre1' pre2', pre1 `prefix_of` pre1' ∧ pre2 `prefix_of` pre2' ∧ held s' pre1' pre2'.
Proof.
  intros [_ _ Hok1 Hok2 _ _ _] [H1 H2] Hs.
  destruct Hs as [t1 t2 ch m i Hp|t1 t2 ch m i Hp|s s' [t1 u us t2 ch m Hp _|t1 t2 u us ch m Hp _|t1 t2 u ch m]];
    simpl in *.
  - exists pre1, pre2. split_and!; [done..|]. split; [by apply held_view_work|done].
  - exists pre1, pre2. split_and!; [done..|]. split; [done|by apply held_view_work].
  - pose proof (pending_name _ _ _ _ _ Hp Hok1) as Hu. exists pre1, pre2. split_and!; [done..|].
    split; [by apply held_view_push|]. apply held_view_other; [congruence|done].
  - pose proof (pending_name _ _ _ _ _ Hp Hok2) as Hu. exists pre1, pre2. split_and!; [done..|].
    split; [|by apply held_view_push]. apply held_view_other; [congruence|done].
  - apply held_view_recv in H1 as (pre1'&?&?), H2 as (pre2'&?&?). by exists pre1', pre2'.
Qed.

Lemma sys_run_held files s s' pre1 pre2 :
  sys_ok files s → held s pre1 pre2 → rtc sys_step s s' →
  ∃ pre1' pre2', pre1 `prefix_of` pre1' ∧ pre2 `prefix_of` pre2' ∧ held s' pre1' pre2'.
Proof.
  intros Hok Hh Hr. revert pre1 pre2 Hok Hh.
  induction Hr as [s|s1 s2 s3 Hs _ IH]; intros pre1 pre2 Hok Hh; [by exists pre1, pre2|].
  destruct (sys_step_held _ _ _ _ _ Hok Hh Hs) as (q1&q2&Hq1&Hq2&Hh').
  destruct (IH q1 q2 (sys_step_ok _ _ _ Hok Hs) Hh') as (r1&r2&?&?&?).
  exists r1, r2. split_and!; [by etrans..|done].
Qed.

Lemma sys_init_held files : held (sys_init files) [] [].
Proof. split; apply held_view_init. Qed.

Lemma held_seen s pre1 pre2 :
  held s pre1 pre2 → pre1 `prefix_of` tk_seen (sy_1 s) ∧ pre2 `prefix_of` tk_seen (sy_2 s).
Proof. intros [[_ H1] [_ H2]]. split; by eapply trail_seen. Qed.

Lemma held_view_table files s pre1 pre2 :
  sys_ok files s → held s pre1 pre2 →
  Manager.handle (sy_manager s) = RouteTable_new (files ++ pt_current pre1 ++ pt_current pre2).
Proof. intros Hok [[H1 _] [H2 _]]. by rewrite (held_table files s Hok), H1, H2. Qed.

Lemma consistent_table files s :
  rtc sys_step (sys_init files) s →
  ∃ inp1 inp2, inp1 `prefix_of` tk_seen (sy_1 s) ∧ inp2 `prefix_of` tk_seen (sy_2 s) ∧
    Manager.handle (sy_manager s) = RouteTable_new (files ++ pt_current inp1 ++ pt_current inp2).
Proof.
  intros Hr. destruct (sys_run_held files _ _ _ _ (sys_init_ok files) (sys_init_held files) Hr)
    as (pre1&pre2&_&_&Hh).
  exists pre1, pre2. destruct (held_seen _ _ _ Hh). split_and!; [done..|].
  by apply held_view_table; [apply reachable_ok|].
Qed.

(** Two moments of one run. *)
Lemma monotone_table files s s' :
  rtc sys_step (sys_init files) s → rtc sys_step s s' →
  ∃ inp1 inp2 inp1' inp2',
    inp1 `prefix_of` inp1' ∧ inp1' `prefix_of` tk_seen (sy_1 s') ∧
    inp2 `prefix_of` inp2' ∧ inp2' `prefix_of` tk_seen (sy_2 s') ∧
    inp1 `prefix_of` tk_seen (sy_1 s) ∧ inp2 `prefix_of` tk_seen (sy_2 s) ∧
    Manager.handle (sy_manager s) = RouteTable_new (files ++ pt_current inp1 ++ pt_current inp2) ∧
    Manager.handle (sy_manager s') = RouteTable_new (files ++ pt_current inp1' ++ pt_current inp2').
Proof.
  intros Hr Hr'. pose proof (reachable_ok files s Hr) as Hok.
  destruct (sys_run_held files _ _ _ _ (sys_init_ok files) (sys_init_held files) Hr)
    as (p1&p2&_&_&Hh).
  destruct (sys_run_held files _ _ _ _ Hok Hh Hr') as (q1&q2&?&?&Hh').
  destruct (held_seen _ _ _ Hh), (held_seen _ _ _ Hh').
  exists p1, p2, q1, q2. split_and!; [done..|by apply held_view_table|].
  apply held_view_table; [apply reachable_ok; by etrans|done].
Qed.

Lemma delivered_seen s s' :
  rtc deliver s s' → tk_seen (sy_1 s') = tk_seen (sy_1 s) ∧ tk_seen (sy_2 s') = tk_seen (sy_2 s).
Proof.
  induction 1 as [|s1 s2 s3 Hd _ [IH1 IH2]]; [done|]. rewrite IH1, IH2. by destruct Hd.
Qed.

Lemma deliver_rtc_ok files s s' : sys_ok files s → rtc deliver s s' → sys_ok files s'.
Proof. intros Hok. induction 1; [done|]. eauto using deliver_ok. Qed.

Lemma deliver_dec s : (∃ s', deliver s s') ∨ (∀ s', ¬ deliver s s').
Proof.
  destruct s as [t1 t2 [|u ch] m]; [|left; eexists; apply deliver_recv].
  destruct (tk_pending t1) as [|u us] eqn:H1.
  2: { left. eexists. eapply deliver_push1; [done|]. unfold CHANNEL_CAPACITY. simpl. lia. }
  destruct (tk_pending t2) as [|u us] eqn:H2.
  2: { left. eexists. eapply deliver_push2; [done|]. unfold CHANNEL_CAPACITY. simpl. lia. }
  right. intros s' Hd. inversion Hd; congruence.
Qed.

(** From every state a settled one is reached. *)
Lemma deliver_settles s : ∃ s', rtc deliver s s' ∧ ∀ s'', ¬ deliver s' s''.
Proof.
  remember (undelivered s) as n eqn:Hn. revert s Hn.
  induction n as [n IH] using lt_wf_ind. intros s ->.
  destruct (deliver_dec s) as [[s1 Hd]|Hno]; [|by exists s].
  destruct (IH (undelivered s1)) with (s := s1) as (s2&Hr&Hno); [|done|].
  - rewrite (deliver_decreases _ _ Hd). lia.
  - exists s2. split; [by eapply rtc_l|done].
Qed.

End system.

(** ** The Docker and Kubernetes tasks *)

Module DockerTask.
Import Docker.

Definition task_step (st : DockerState) (t : Tick) : DockerState * list ProviderUpdate :=
  let '(st', e) := docker_step true st t in (default st st', e_sent e).

Lemma docker_task_view st ts :
  default [] (last (foldl (λ s t, (task_step s t).1) st ts)) =
  DockerSpec.last_poll (client st) (default [] (last st)) ts.
Proof.
  revert st. induction ts as [|t ts IH]; intros st; [done|]. simpl. rewrite IH.
  unfold task_step. destruct (DockerSpec.docker_step_spec st t) as (st'&e&->&Hc). simpl.
  destruct (client st || t_connect t); [destruct (t_list t)|]; destruct Hc as (->&->&_); done.
Qed.

#[global] Program Instance docker_task : ProviderTask DockerState Tick := {|
  pt_name := "docker"; pt_init := docker_init; pt_step := task_step;
  pt_view st := default [] (last st); pt_current := DockerSpec.last_poll false [] |}.
Next Obligation. done. Qed.
Next Obligation.
  intros st t. unfold task_step. destruct (DockerSpec.docker_step_spec st t) as (st'&e&->&Hc).
  simpl. destruct (if client st || t_connect t then t_list t else None).
  - destruct Hc as (_&->&[[-> ->]|[_ ->]]); [by left|by right].
  - destruct Hc as (_&->&->). by left.
Qed.
Next Obligation. intros ts. apply (docker_task_view docker_init). Qed.
End DockerTask.

Module K8sTask.
Import K8s.

Definition task_step (st : K8sState) (i : Item) : K8sState * list ProviderUpdate :=
  let '(st', us) := k8s_step true st i in (default st st', us).

Lemma k8s_task_view st items :
  all_routes st = default [] (last_sent st) →
  default [] (last_sent (foldl (λ s i, (task_step s i).1) st items)) =
  K8sSpec.store_pair_routes (foldl K8sSpec.store_step (svc_store st, ing_store st) items).
Proof.
  revert st. induction items as [|i items IH]; intros st Hinv; [symmetry; exact Hinv|]. simpl.
  destruct (K8sSpec.k8s_step_spec st i Hinv) as (st'&us&Hs&Hst&Hinv'&_).
  assert ((task_step st i).1 = st') as -> by (unfold task_step; by rewrite Hs).
  rewrite IH by done. by rewrite Hst.
Qed.

#[global] Program Instance k8s_task : ProviderTask K8sState Item := {|
  pt_name := "kubernetes"; pt_init := k8s_init; pt_step := task_step;
  pt_view st := default [] (last_sent st);
  pt_current items := K8sSpec.store_pair_routes (K8sSpec.stores items) |}.
Next Obligation. done. Qed.
Next Obligation.
  intros st [[kind op]|]; [|by left]. unfold task_step. simpl.
  destruct kind; destruct (apply _ op) as [s []]; simpl; [|by left| |by left];
    (case_bool_decide; simpl; [by left|by right]).
Qed.
Next Obligation. intros items. by apply (k8s_task_view k8s_init). Qed.
End K8sTask.

(** ** Where the discovered routes come from *)

Lemma poll_containers_origin cs routes logs r :
  r ∈ (foldl (λ '(routes, logs) c,
         let labels := default ∅ (Docker.c_labels c) in
         let id := default EmptyString (Docker.c_id c) in
         let '(r, warnings) := routes_from_labels id labels in
         (routes ++ r, logs ++ (Docker.LogWarning (short id) <$> warnings))) (routes, logs) cs).1 →
  r ∈ routes ∨ ∃ c, c ∈ cs ∧
    r ∈ (routes_from_labels (default EmptyString (Docker.c_id c)) (default ∅ (Docker.c_labels c))).1.
Proof.
  revert routes logs. induction cs as [|c cs IH]; intros routes logs Hr; [by left|]. simpl in Hr.
  destruct (routes_from_labels _ _) as [rs ws] eqn:Hc. apply IH in Hr as [Hr|(c'&Hin&Hr)].
  - apply elem_of_app in Hr as [Hr|Hr]; [by left|]. right. exists c. split; [by left|]. by rewrite Hc.
  - right. exists c'. by split; [right|].
Qed.

Lemma last_poll_origin up acc ts r :
  r ∈ DockerSpec.last_poll up acc ts →
  r ∈ acc ∨ ∃ t cs c, t ∈ ts ∧ Docker.t_list t = Some cs ∧ c ∈ cs ∧
    r ∈ (routes_from_labels (default EmptyString (Docker.c_id c)) (default ∅ (Docker.c_labels c))).1.
Proof.
  revert up acc. induction ts as [|t ts IH]; intros up acc Hr; [by left|]. simpl in Hr.
  assert (∀ up' acc', r ∈ DockerSpec.last_poll up' acc' ts → r ∈ acc' ∨
    ∃ t' cs c, t' ∈ t :: ts ∧ Docker.t_list t' = Some cs ∧ c ∈ cs ∧
    r ∈ (routes_from_labels (default EmptyString (Docker.c_id c)) (default ∅ (Docker.c_labels c))).1)
    as Hrec.
  { intros up' acc' [?|(t'&cs&c&Ht&H)]%IH; [by left|]. right. exists t', cs, c. by split; [right|]. }
  destruct (up || Docker.t_connect t); [|eauto]. destruct (Docker.t_list t) as [cs|] eqn:Ht; [|eauto].
  apply Hrec in Hr as [Hr|?]; [|by right]. right. exists t, cs.
  unfold Docker.poll_containers in Hr.
  destruct (poll_containers_origin cs [] [] r Hr) as [Hn|(c&Hc&Hin)]; [by apply elem_of_nil in Hn|].
  exists c. split_and!; [by left|done..].
Qed.

(** The route that a watch event carries. *)
Definition op_route (op : K8s.Op) : option Route :=
  match op with K8s.Op_InitApply _ r | K8s.Op_Apply _ r => r | _ => None end.

Definition store_all (P : Route → Prop) (s : K8s.KindStore) : Prop :=
  map_Forall (λ _, P) (K8s.committed s) ∧ map_Forall (λ _, P) (default ∅ (K8s.buffer s)).

Lemma store_empty (P : Route → Prop) : map_Forall (λ _ : string, P) (∅ : gmap string Route).
Proof. intros k r Hk. by rewrite lookup_empty in Hk. Qed.

Lemma apply_all P s op :
  (∀ r, op_route op = Some r → P r) → store_all P s → store_all P (K8s.apply s op).1.
Proof.
  intros Hop [Hc Hb]. destruct s as [com buf]. simpl in Hc, Hb.
  destruct op as [|key [r|]| |key [r|]|key]; simpl.
  - split; [done|]. apply store_empty.
  - destruct buf as [buf|]; [|done]. split; [done|]. simpl in *.
    apply map_Forall_insert_2; [by apply Hop|done].
  - by destruct buf.
  - split; [done|]. apply store_empty.
  - split; [|done]. apply map_Forall_insert_2; [by apply Hop|done].
  - split; [|done]. by apply map_Forall_delete.
  - split; [|done]. by apply map_Forall_delete.
Qed.

Lemma stores_origin items r :
  r ∈ K8sSpec.store_pair_routes (K8sSpec.stores items) →
  ∃ kind op, Some (kind, op) ∈ items ∧ op_route op = Some r.
Proof.
  set (P r := ∃ kind op, Some (kind, op) ∈ items ∧ op_route op = Some r).
  assert (store_all P (K8sSpec.stores items).1 ∧ store_all P (K8sSpec.stores items).2) as [H1 H2].
  { unfold K8sSpec.stores. assert (∀ its s, (∀ i, i ∈ its → i ∈ items) →
      store_all P s.1 → store_all P s.2 →
      store_all P (foldl K8sSpec.store_step s its).1 ∧ store_all P (foldl K8sSpec.store_step s its).2)
      as H.
    { induction its as [|i its IH]; intros s Hin H1 H2; [done|]. simpl.
      assert (∀ k op, i = Some (k, op) → ∀ r, op_route op = Some r → P r) as Hop.
      { intros k op -> r' Hr. exists k, op. split; [apply Hin; by left|done]. }
      apply IH; [intros j Hj; apply Hin; by right|..]; destruct i as [[[] op]|]; simpl; try done;
        apply apply_all; eauto. }
    apply H; [done|..]; (split; simpl; apply store_empty). }
  unfold K8sSpec.store_pair_routes, K8s.store_routes. rewrite elem_of_app.
  intros [[k Hk]%elem_of_btree_values|[k Hk]%elem_of_btree_values];
    [by apply (proj1 H1 k)|by apply (proj1 H2 k)].
Qed.

(** The system that [main] starts. *)
Definition discovery_sys : Type := (Sys (S1 := Docker.DockerState) (I1 := Docker.Tick)
  (S2 := K8s.K8sState) (I2 := K8s.Item)).

Lemma discovery_names :
  String.le (pt_name Docker.DockerState Docker.Tick) (pt_name K8s.K8sState K8s.Item) ∧
  pt_name Docker.DockerState Docker.Tick ≠ pt_name K8s.K8sState K8s.Item.
Proof. split; [by apply (bool_decide_unpack _)|done]. Qed.

(** ** Properties *)

(** Delivery terminates: in every state that the discovery tasks, the
    channel and the manager can reach, the channel holds at most 16 updates,
    and every sequence of deliveries, in whatever order, ends within 20 steps:
    no task and no full channel keeps the others from going on. *)
Theorem discovery_delivery_bounded files (s s' : discovery_sys) n
    (Hreach : rtc sys_step (sys_init files) s) (Hdel : nsteps deliver n s s') :
  (length (sy_channel s) ≤ 16 ∧ n ≤ 20)%nat.
Proof.
  destruct discovery_names as [_ Hne].
  pose proof (reachable_ok Hne files s Hreach) as Hok. split; [by destruct Hok|].
  apply sys_ok_bound in Hok. apply deliver_nsteps in Hdel. unfold CHANNEL_CAPACITY in *. lia.
Qed.

(** C15: the live table catches up: from every reachable state some deliveries
    lead to a state with nothing left to deliver, and after any deliveries
    that lead to such a state the live table is the merge of the file's
    routes, the last successful Docker poll and the committed Kubernetes
    objects among what the tasks had seen. *)
Theorem discovery_settles files (s : discovery_sys)
    (Hreach : rtc sys_step (sys_init files) s) :
  (∃ s', rtc deliver s s' ∧ ∀ s'', ¬ deliver s' s'') ∧
  ∀ s', rtc deliver s s' → (∀ s'', ¬ deliver s' s'') →
    Manager.handle (sy_manager s') =
    RouteTable_new (files ++ DockerSpec.last_poll false [] (tk_seen (sy_1 s)) ++
                    K8sSpec.store_pair_routes (K8sSpec.stores (tk_seen (sy_2 s)))).
Proof.
  destruct discovery_names as [Hle Hne]. split; [apply deliver_settles|]. intros s' Hd Hno.
  pose proof (deliver_rtc_ok Hne _ _ _ (reachable_ok Hne files s Hreach) Hd) as Hok.
  rewrite (settled_table Hle Hne files s' Hok Hno). by destruct (delivered_seen _ _ Hd) as [-> ->].
Qed.

(** the live table is never torn and never goes back: in every reachable
    state, deliveries pending or not, it is the merge of the file's routes with
    one complete past view of each provider, the view after some prefix of the
    answers its task has seen; and at any later moment of the run it is the
    merge of views after prefixes that are at least as long. *)
Theorem discovery_snapshot_monotone files (s s' : discovery_sys)
    (Hreach : rtc sys_step (sys_init files) s) (Hlater : rtc sys_step s s') :
  ∃ ts items ts' items',
    ts `prefix_of` ts' ∧ ts' `prefix_of` tk_seen (sy_1 s') ∧
    items `prefix_of` items' ∧ items' `prefix_of` tk_seen (sy_2 s') ∧
    ts `prefix_of` tk_seen (sy_1 s) ∧ items `prefix_of` tk_seen (sy_2 s) ∧
    Manager.handle (sy_manager s) =
    RouteTable_new (files ++ DockerSpec.last_poll false [] ts ++
                    K8sSpec.store_pair_routes (K8sSpec.stores items)) ∧
    Manager.handle (sy_manager s') =
    RouteTable_new (files ++ DockerSpec.last_poll false [] ts' ++
                    K8sSpec.store_pair_routes (K8sSpec.stores items')).
Proof.
  destruct discovery_names as [Hle Hne]. exact (monotone_table Hle Hne files s s' Hreach Hlater).
Qed.

(** ** A run: one poll, one announced service, and the deliveries *)

Definition example_sys (t1 : Task Docker.DockerState Docker.Tick) (t2 : Task K8s.K8sState K8s.Item)
    : discovery_sys := mkSys t1 t2 [] (Manager.manager_new [example_api]).

Definition polled : Task Docker.DockerState Docker.Tick :=
  task_work (mkTask Docker.docker_init [] []) (Docker.mkTick true (Some [example_container])).

Definition announced : Task K8s.K8sState K8s.Item :=
  task_work (mkTask K8s.k8s_init [] []) (Cluster.item_of (Some (K8s.Service, K8s.Event_Apply example_service))).

Lemma example_reachable : rtc sys_step (sys_init [example_api]) (example_sys polled announced).
Proof.
  eapply rtc_l; [apply (sys_work1 (mkTask Docker.docker_init [] []) _ _ _
    (Docker.mkTick true (Some [example_container]))); reflexivity|].
  apply rtc_once, (sys_work2 _ (mkTask K8s.k8s_init [] [])). reflexivity.
Qed.

Lemma discovery_delivery_bounded_witness :
  ∃ s', nsteps deliver 4 (example_sys polled announced) s' ∧ (4 ≤ 20)%nat.
Proof.
  eexists. split.
  - eapply nsteps_l; [eapply deliver_push1; [reflexivity|apply (bool_decide_unpack _); reflexivity]|].
    eapply nsteps_l; [eapply deliver_push2; [reflexivity|apply (bool_decide_unpack _); reflexivity]|].
    eapply nsteps_l; [apply deliver_recv|]. eapply nsteps_l; [apply deliver_recv|]. apply nsteps_O.
  - eapply (discovery_delivery_bounded [example_api] (example_sys polled announced)).
    + exact example_reachable.
    + eapply nsteps_l; [eapply deliver_push2; [reflexivity|apply (bool_decide_unpack _); reflexivity]|].
      eapply nsteps_l; [eapply deliver_push1; [reflexivity|apply (bool_decide_unpack _); reflexivity]|].
      eapply nsteps_l; [apply deliver_recv|]. eapply nsteps_l; [apply deliver_recv|]. apply nsteps_O.
Defined.

Lemma discovery_settles_witness :
  ∃ s', rtc deliver (example_sys polled announced) s' ∧
    length (routes (Manager.handle (sy_manager s'))) = 3%nat.
Proof.
  destruct (discovery_settles [example_api] (example_sys polled announced)) as [(s'&Hd&Hno) Ht].
  - exact example_reachable.
  - exists s'. split; [exact Hd|]. rewrite (Ht s' Hd Hno). vm_compute. reflexivity.
Defined.

Lemma discovery_snapshot_monotone_witness :
  ∃ ts items ts' items', ts `prefix_of` ts' ∧ items `prefix_of` items' ∧
    RouteTable_new [example_api] =
    RouteTable_new ([example_api] ++ DockerSpec.last_poll false [] ts ++
                    K8sSpec.store_pair_routes (K8sSpec.stores items)) ∧
    RouteTable_new ([example_api] ++ (Docker.poll_containers [example_container]).1) =
    RouteTable_new ([example_api] ++ DockerSpec.last_poll false [] ts' ++
                    K8sSpec.store_pair_routes (K8sSpec.stores items')).
Proof.
  edestruct (discovery_snapshot_monotone [example_api] (example_sys polled announced))
    as (ts&items&ts'&items'&H1&_&H2&_&_&_&Ht&Ht').
  - exact example_reachable.
  - eapply rtc_l; [apply sys_deliver; eapply deliver_push1;
      [reflexivity|apply (bool_decide_unpack _); reflexivity]|].
    apply rtc_once, sys_deliver, deliver_recv.
  - exists ts, items, ts', items'. split; [exact H1|]. split; [exact H2|]. split; [exact Ht|].
    rewrite <-Ht'. vm_compute. reflexivity.
Defined.
