(* ===== verification/Float.v ===== *)
(** * Rust's [f64]

    Binary64 numbers are the Standard Library's [spec_float] at precision 53
    and maximal exponent 1024.  Besides the arithmetic, the conversions the
    sources use: [u64 as f64], [round() as u64] and the shortest decimal
    rendering of [Display]. *)

From S2P Require Import Prelude RustStr.
From Stdlib Require Export SpecFloat.

Local Open Scope Z_scope.

Definition f64 : Type := spec_float.

Definition f64_le (x y : f64) : bool := SFleb x y.
Definition f64_mul (x y : f64) : f64 := SFmul 53 1024 x y.
Definition f64_div (x y : f64) : f64 := SFdiv 53 1024 x y.

(** [z as f64] for an unsigned [z]. *)
Definition f64_of_Z (z : Z) : f64 := binary_normalize 53 1024 z 0 false.

(** The number nearest to [num / den], for a literal or a decimal. *)
Definition f64_ratio (num den : positive) : f64 :=
  SFdiv 53 1024 (S754_finite false num 0) (S754_finite false den 0).

(** The magnitude of [x.round()]: halves away from zero. *)
Definition round_mag (m : positive) (e : Z) : Z :=
  if 0 <=? e then Zpos m * 2 ^ e else (Zpos m + 2 ^ (- e - 1)) / 2 ^ (- e).

(** [x.round() as u64]: saturating, a NaN gives zero. *)
Definition f64_round_u64 (x : f64) : Z :=
  match x with
  | S754_zero _ | S754_nan => 0
  | S754_infinity s => if s then 0 else u64_max
  | S754_finite s m e => if s then 0 else Z.min (round_mag m e) u64_max
  end.

(** ** [Display] *)

(** The number nearest to [d * 10^p]. *)
Definition f64_dec (d : Z) (p : Z) : f64 :=
  match d with
  | Zpos m =>
      if 0 <=? p then f64_ratio (m * Z.to_pos (10 ^ p)) 1
      else f64_ratio m (Z.to_pos (10 ^ (- p)))
  | _ => S754_zero false
  end.

Definition f64_eqb (x y : f64) : bool :=
  match x, y with
  | S754_finite s m e, S754_finite s' m' e' => Bool.eqb s s' && Pos.eqb m m' && Z.eqb e e'
  | _, _ => false
  end.

(** [m * 2^e / 10^p] as a fraction. *)
Definition scaled (m : positive) (e p : Z) : Z * Z :=
  (Zpos m * 2 ^ Z.max e 0 * 10 ^ Z.max (- p) 0, 2 ^ Z.max (- e) 0 * 10 ^ Z.max p 0).

(** The decimal with exponent [p] that reads back as the number: the closest
    of the two neighbours that do. *)
Definition decimal_at (m : positive) (e p : Z) : option Z :=
  let '(num, den) := scaled m e p in
  let lo := num / den in
  let ok d := f64_eqb (f64_dec d p) (S754_finite false m e) in
  match ok lo, ok (lo + 1) with
  | true, true => Some (if 2 * (num - lo * den) <=? den then lo else lo + 1)
  | true, false => Some lo
  | false, true => Some (lo + 1)
  | false, false => None
  end.

(** The shortest decimal: the largest exponent at which one reads back. *)
Fixpoint shortest (fuel : nat) (m : positive) (e p : Z) : option (Z * Z) :=
  match decimal_at m e p with
  | Some d => Some (d, p)
  | None => match fuel with O => None | S fuel => shortest fuel m e (p - 1) end
  end.

(** The exponents tried start above the number's magnitude. *)
Definition shortest_decimal (m : positive) (e : Z) : option (Z * Z) :=
  let top := Z.max 0 (Z.log2 (Zpos m) + e) / 3 + 1 in
  shortest (Z.to_nat (top + 400)) m e top.

Fixpoint zeros (n : nat) : string :=
  match n with O => EmptyString | S n => String "0" (zeros n) end.

(** Positional notation, with at least one digit before the point. *)
Definition positional (d p : Z) : string :=
  let ds : string := pretty (Z.to_N d) in
  if 0 <=? p then ds +:+ zeros (Z.to_nat p)
  else
    let frac := Z.to_nat (- p) in
    let ds := zeros (S frac - String.length ds) +:+ ds in
    let int := (String.length ds - frac)%nat in
    String.substring 0 int ds +:+ "." +:+ String.substring int frac ds.

Definition f64_display (x : f64) : string :=
  match x with
  | S754_zero s => if s then "-0" else "0"
  | S754_infinity s => if s then "-inf" else "inf"
  | S754_nan => "NaN"
  | S754_finite s m e =>
      (if s then "-" else EmptyString) +:+
      match shortest_decimal m e with
      | Some (d, p) => positional d p
      | None => EmptyString
      end
  end.

Example display_small : f64_display (f64_ratio 5 1000) = "0.005".
Proof. vm_compute. reflexivity. Qed.
Example display_ten : f64_display (f64_of_Z 10) = "10".
Proof. vm_compute. reflexivity. Qed.
Example display_third : f64_display (f64_ratio 1 3) = "0.3333333333333333".
Proof. vm_compute. reflexivity. Qed.
Example display_sum : f64_display (f64_div (f64_of_Z 2030000) (f64_of_Z 1000000)) = "2.03".
Proof. vm_compute. reflexivity. Qed.
Example round_micros : f64_round_u64 (f64_mul (f64_ratio 3 100) (f64_of_Z 1000000)) = 30000.
Proof. vm_compute. reflexivity. Qed.

(** ** Lemmas *)

(** A bound below another bound: what the first admits the second admits. *)
Definition fin_le (x y : f64) : bool :=
  match x, y with
  | S754_finite false _ _, S754_finite false _ _ => SFleb x y
  | _, _ => false
  end.

Lemma compare_cont_Eq m1 m2 : Pos.compare_cont Eq m1 m2 = Pos.compare m1 m2.
Proof. done. Qed.

Lemma f64_le_finite s m1 e1 m2 e2 :
  f64_le (S754_finite s m1 e1) (S754_finite false m2 e2) = true ↔
  s = true ∨ e1 < e2 ∨ e1 = e2 ∧ (m1 <= m2)%positive.
Proof.
  unfold f64_le, SFleb, SFcompare. rewrite compare_cont_Eq.
  destruct s; [by naive_solver|].
  destruct (Z.compare_spec e1 e2) as [->|Hlt|Hgt].
  - destruct (Pos.compare_spec m1 m2) as [->|Hm|Hm]; split; try done.
    + intros _. right. lia.
    + intros _. right. lia.
    + intros [?|?]; [done|lia].
  - naive_solver.
  - split; [done|]. intros [?|[?|?]]; [done|lia|lia].
Qed.

Lemma f64_le_trans_fin x a b :
  fin_le a b = true → f64_le x a = true → f64_le x b = true.
Proof.
  destruct a as [| | |[] ma ea], b as [| | |[] mb eb]; try done. cbn [fin_le].
  change (SFleb _ _) with (f64_le (S754_finite false ma ea) (S754_finite false mb eb)).
  rewrite f64_le_finite. intros [|Hab]; [done|].
  destruct x as [s|s| |s m e]; [done..|].
  rewrite !f64_le_finite. intros [?|Hx]; [by left|]. right. lia.
Qed.
