(* ===== verification/Metrics.v ===== *)
(** * Process metrics ([src/metrics.rs])

    The counters are 64-bit atomics that wrap; concurrent tasks call the
    operations below in some order, so a run is a sequence of them.  The
    histogram's buckets are cumulative. *)

From S2P Require Import Prelude RustStr Float.

Local Open Scope Z_scope.

Definition LATENCY_BUCKETS_SECS : list f64 :=
  [f64_ratio 5 1000; f64_ratio 1 100; f64_ratio 25 1000; f64_ratio 5 100; f64_ratio 1 10;
   f64_ratio 25 100; f64_ratio 5 10; f64_ratio 1 1; f64_ratio 25 10; f64_ratio 5 1;
   f64_ratio 10 1].

Record Metrics := mkMetrics {
  handshakes_total : Z;
  decrypt_failures_total : Z;
  upstream_requests_total : Z;
  upstream_errors_total : Z;
  latency_buckets : list Z;
  latency_count : Z;
  latency_sum_micros : Z;
}.

Definition Metrics_new : Metrics :=
  mkMetrics 0 0 0 0 ((λ _, 0) <$> LATENCY_BUCKETS_SECS) 0 0.

(** [fetch_add]. *)
Definition fetch_add (v n : Z) : Z := wrap64 (v + n).

Definition inc_handshakes (m : Metrics) : Metrics :=
  mkMetrics (fetch_add (handshakes_total m) 1) (decrypt_failures_total m)
    (upstream_requests_total m) (upstream_errors_total m) (latency_buckets m)
    (latency_count m) (latency_sum_micros m).

Definition inc_decrypt_failures (m : Metrics) : Metrics :=
  mkMetrics (handshakes_total m) (fetch_add (decrypt_failures_total m) 1)
    (upstream_requests_total m) (upstream_errors_total m) (latency_buckets m)
    (latency_count m) (latency_sum_micros m).

Definition inc_upstream_requests (m : Metrics) : Metrics :=
  mkMetrics (handshakes_total m) (decrypt_failures_total m)
    (fetch_add (upstream_requests_total m) 1) (upstream_errors_total m) (latency_buckets m)
    (latency_count m) (latency_sum_micros m).

Definition inc_upstream_errors (m : Metrics) : Metrics :=
  mkMetrics (handshakes_total m) (decrypt_failures_total m) (upstream_requests_total m)
    (fetch_add (upstream_errors_total m) 1) (latency_buckets m)
    (latency_count m) (latency_sum_micros m).

(** [(secs * 1_000_000.0).round() as u64]. *)
Definition micros_of (secs : f64) : Z := f64_round_u64 (f64_mul secs (f64_of_Z 1000000)).

Definition observe_upstream_latency (m : Metrics) (secs : f64) : Metrics :=
  mkMetrics (handshakes_total m) (decrypt_failures_total m) (upstream_requests_total m)
    (upstream_errors_total m)
    (zip_with (λ ub c, if f64_le secs ub then fetch_add c 1 else c)
       LATENCY_BUCKETS_SECS (latency_buckets m))
    (fetch_add (latency_count m) 1)
    (fetch_add (latency_sum_micros m) (micros_of secs)).

(** ** Rendering *)

Definition show_u64 (z : Z) : string := pretty (Z.to_N z).

Definition counter_lines (name help : string) (v : Z) : string :=
  "# HELP " +:+ name +:+ " " +:+ help +:+ nl +:+
  "# TYPE " +:+ name +:+ " counter" +:+ nl +:+
  name +:+ " " +:+ show_u64 v +:+ nl.

Definition bucket_line (le : string) (c : Z) : string :=
  "archetype_proxy_upstream_latency_seconds_bucket{le=" +:+ dq +:+ le +:+ dq +:+ "} " +:+
  show_u64 c +:+ nl.

Definition render_prometheus (i : Metrics) (active_sessions : Z) : string :=
  counter_lines "archetype_proxy_handshakes_total"
    "Total attestation handshakes served on /attest." (handshakes_total i) +:+
  counter_lines "archetype_proxy_decrypt_failures_total"
    "Total trusted-request decrypt/MAC verification failures." (decrypt_failures_total i) +:+
  counter_lines "archetype_proxy_upstream_requests_total"
    "Total upstream requests attempted." (upstream_requests_total i) +:+
  counter_lines "archetype_proxy_upstream_errors_total"
    "Total upstream requests that failed at the transport level." (upstream_errors_total i) +:+
  "# HELP archetype_proxy_active_sessions Live AtB sessions in the registry." +:+ nl +:+
  "# TYPE archetype_proxy_active_sessions gauge" +:+ nl +:+
  "archetype_proxy_active_sessions " +:+ show_u64 active_sessions +:+ nl +:+
  "# HELP archetype_proxy_upstream_latency_seconds Upstream round-trip latency." +:+ nl +:+
  "# TYPE archetype_proxy_upstream_latency_seconds histogram" +:+ nl +:+
  str_concat (zip_with (λ ub c, bucket_line (f64_display ub) c)
                LATENCY_BUCKETS_SECS (latency_buckets i)) +:+
  bucket_line "+Inf" (latency_count i) +:+
  "archetype_proxy_upstream_latency_seconds_sum " +:+
  f64_display (f64_div (f64_of_Z (latency_sum_micros i)) (f64_of_Z 1000000)) +:+ nl +:+
  "archetype_proxy_upstream_latency_seconds_count " +:+ show_u64 (latency_count i) +:+ nl.

(** ** Runs *)

(** The calls of a process, in the order in which they take effect. *)
Inductive MetricOp :=
| Op_handshake
| Op_decrypt_failure
| Op_upstream_request
| Op_upstream_error
| Op_latency (secs : f64).

Definition metric_step (m : Metrics) (op : MetricOp) : Metrics :=
  match op with
  | Op_handshake => inc_handshakes m
  | Op_decrypt_failure => inc_decrypt_failures m
  | Op_upstream_request => inc_upstream_requests m
  | Op_upstream_error => inc_upstream_errors m
  | Op_latency secs => observe_upstream_latency m secs
  end.

Definition metrics_after (ops : list MetricOp) : Metrics := foldl metric_step Metrics_new ops.

(** ** What the counters count *)

Definition count_ops (f : MetricOp → bool) (ops : list MetricOp) : Z :=
  Z.of_nat (length (List.filter f ops)).

Definition latencies (ops : list MetricOp) : list f64 :=
  omap (λ op, match op with Op_latency s => Some s | _ => None end) ops.

Definition count_le (ub : f64) (obs : list f64) : Z :=
  Z.of_nat (length (List.filter (λ s, f64_le s ub) obs)).

Definition sum_micros (obs : list f64) : Z := foldr Z.add 0 (micros_of <$> obs).

Definition metrics_spec (ops : list MetricOp) : Metrics :=
  let obs := latencies ops in
  mkMetrics
    (wrap64 (count_ops (λ op, match op with Op_handshake => true | _ => false end) ops))
    (wrap64 (count_ops (λ op, match op with Op_decrypt_failure => true | _ => false end) ops))
    (wrap64 (count_ops (λ op, match op with Op_upstream_request => true | _ => false end) ops))
    (wrap64 (count_ops (λ op, match op with Op_upstream_error => true | _ => false end) ops))
    ((λ ub, wrap64 (count_le ub obs)) <$> LATENCY_BUCKETS_SECS)
    (wrap64 (Z.of_nat (length obs)))
    (wrap64 (sum_micros obs)).

Lemma fetch_add_wrap a b : fetch_add (wrap64 a) b = wrap64 (a + b).
Proof. unfold fetch_add, wrap64. by rewrite Z.add_mod_idemp_l. Qed.

Lemma count_ops_snoc f ops op :
  count_ops f (ops ++ [op]) = count_ops f ops + (if f op then 1 else 0).
Proof.
  unfold count_ops. rewrite List.filter_app, length_app. simpl. destruct (f op); simpl; lia.
Qed.

Lemma count_le_snoc ub obs s :
  count_le ub (obs ++ [s]) = count_le ub obs + (if f64_le s ub then 1 else 0).
Proof.
  unfold count_le. rewrite List.filter_app, length_app. simpl. destruct (f64_le s ub); simpl; lia.
Qed.

Lemma sum_micros_snoc obs s : sum_micros (obs ++ [s]) = sum_micros obs + micros_of s.
Proof.
  unfold sum_micros. induction obs as [|o obs IH]; [simpl; lia|].
  rewrite <-app_comm_cons, !fmap_cons. cbn [foldr]. rewrite IH. lia.
Qed.

Lemma buckets_step bs obs s :
  zip_with (λ ub c, if f64_le s ub then fetch_add c 1 else c) bs
    ((λ ub, wrap64 (count_le ub obs)) <$> bs) =
  (λ ub, wrap64 (count_le ub (obs ++ [s]))) <$> bs.
Proof.
  induction bs as [|ub bs IH]; [done|]. rewrite !fmap_cons. cbn [zip_with]. rewrite IH. f_equal.
  rewrite count_le_snoc. destruct (f64_le s ub); [apply fetch_add_wrap|by rewrite Z.add_0_r].
Qed.

Lemma metric_step_spec ops op :
  metric_step (metrics_spec ops) op = metrics_spec (ops ++ [op]).
Proof.
  unfold metrics_spec. rewrite !count_ops_snoc. unfold latencies. rewrite omap_app.
  fold (latencies ops).
  destruct op as [| | | |s]; cbn [metric_step]; simpl omap;
    unfold inc_handshakes, inc_decrypt_failures, inc_upstream_requests, inc_upstream_errors;
    cbn [handshakes_total decrypt_failures_total upstream_requests_total upstream_errors_total
         latency_buckets latency_count latency_sum_micros];
    rewrite ?fetch_add_wrap, ?Z.add_0_r, ?app_nil_r; try done.
  unfold observe_upstream_latency.
  cbn [handshakes_total decrypt_failures_total upstream_requests_total upstream_errors_total
       latency_buckets latency_count latency_sum_micros].
  rewrite buckets_step, !fetch_add_wrap, sum_micros_snoc, length_app. simpl length.
  by rewrite Nat2Z.inj_add.
Qed.

Lemma metrics_after_spec ops : metrics_after ops = metrics_spec ops.
Proof.
  induction ops as [|op ops IH] using rev_ind.
  - unfold metrics_after, metrics_spec. by vm_compute.
  - unfold metrics_after. rewrite foldl_snoc. fold (metrics_after ops). rewrite IH.
    apply metric_step_spec.
Qed.

Lemma count_le_mono a b obs : fin_le a b = true → count_le a obs ≤ count_le b obs.
Proof.
  intros Hab. unfold count_le. induction obs as [|s obs IH]; simpl; [done|].
  destruct (f64_le s a) eqn:Ha.
  - rewrite (f64_le_trans_fin s a b) by done. simpl. lia.
  - destruct (f64_le s b); simpl; lia.
Qed.

Lemma count_le_length ub obs : count_le ub obs ≤ Z.of_nat (length obs).
Proof.
  unfold count_le. induction obs as [|s obs IH]; simpl; [done|].
  destruct (f64_le s ub); simpl; lia.
Qed.

Lemma wrap64_small z : 0 ≤ z < 2 ^ 64 → wrap64 z = z.
Proof. apply Z.mod_small. Qed.

(** ** Properties *)

(** The histogram is well formed: with fewer than 2^64 observations the
    buckets do not decrease and none exceeds the total count. *)
Theorem histogram_cumulative ops
    (Hsmall : Z.of_nat (length (latencies ops)) < 2 ^ 64) :
  let m := metrics_after ops in
  length (latency_buckets m) = length LATENCY_BUCKETS_SECS ∧
  (∀ i c d, latency_buckets m !! i = Some c → latency_buckets m !! S i = Some d → c ≤ d) ∧
  (∀ i c, latency_buckets m !! i = Some c → c ≤ latency_count m).
Proof.
  cbv zeta. rewrite metrics_after_spec. cbn [metrics_spec latency_buckets latency_count].
  assert (∀ ub, wrap64 (count_le ub (latencies ops)) = count_le ub (latencies ops)) as Hw.
  { intros ub. apply wrap64_small. pose proof (count_le_length ub (latencies ops)).
    unfold count_le in *. lia. }
  rewrite wrap64_small by lia. split_and!; [by rewrite length_fmap|..].
  - intros i c d. rewrite !list_lookup_fmap, !fmap_Some. intros (a&Ha&->) (b&Hb&->).
    rewrite !Hw. apply count_le_mono.
    do 11 (destruct i as [|i]; [vm_compute in Ha, Hb; by simplify_eq|]). done.
  - intros i c. rewrite list_lookup_fmap, fmap_Some. intros (a&Ha&->). rewrite Hw.
    apply count_le_length.
Qed.

Lemma histogram_cumulative_witness :
  let m := metrics_after [Op_latency (f64_ratio 3 100); Op_handshake; Op_latency (f64_of_Z 2)] in
  latency_buckets m = [0; 0; 0; 1; 1; 1; 1; 1; 2; 2; 2] ∧
  (∀ i c, latency_buckets m !! i = Some c → c ≤ latency_count m).
Proof.
  split; [vm_compute; reflexivity|].
  apply (histogram_cumulative
           [Op_latency (f64_ratio 3 100); Op_handshake; Op_latency (f64_of_Z 2)]).
  vm_compute. reflexivity.
Defined.
