(* ===== verification/Exposition.v ===== *)
(** * Reading the metrics back

    A scraper of the Prometheus text format: the lines that are no comments,
    each a name (with its labels) and a value after the last space.  What it
    reads from [render_prometheus] are the process's counters. *)

From S2P Require Import Prelude RustStr Float Metrics.

Local Open Scope Z_scope.

Definition is_newline (a : ascii) : bool := Ascii.eqb a (ascii_of_nat 10).

Definition sample (line : string) : option (string * string) :=
  if starts_with "#" line then None else rsplit_once " " line.

Definition samples (text : string) : list (string * string) := omap sample (split is_newline text).

Definition lookup_sample (name text : string) : option string :=
  snd <$> List.find (λ kv, bool_decide (kv.1 = name)) (samples text).

(** An integer sample, as a [u64]. *)
Definition scrape (name text : string) : option Z :=
  lookup_sample name text ≫= λ v, result_ok (parse_uint u64_max v).

(** ** Lines *)

Definition one_line (s : string) : bool := str_forallb (λ a, negb (is_newline a)) s.

Lemma one_line_app s t : one_line (s +:+ t) = one_line s && one_line t.
Proof. apply str_forallb_app. Qed.

Lemma plain_one_line s : str_forallb is_plain s = true → one_line s = true.
Proof.
  apply str_forallb_impl. intros a Ha. unfold is_newline.
  destruct (Ascii.eqb_spec a (ascii_of_nat 10)) as [->|]; [discriminate Ha|done].
Qed.

Lemma plain_no_space s : str_forallb is_plain s = true → str_mem " " s = false.
Proof.
  induction s as [|a s IH]; [done|]. cbn [str_forallb str_mem]. intros [Ha Hs]%andb_prop.
  rewrite IH by done. destruct (Ascii.eqb_spec a " ") as [->|]; [discriminate Ha|done].
Qed.

Lemma show_plain v : str_forallb is_plain (show_u64 v) = true.
Proof. eapply str_forallb_impl; [apply is_digit_plain|]. apply (pretty_digits (Z.to_N v)). Qed.

(** A text of whole lines. *)
Definition text_of (ls : list string) : string := str_concat ((λ l, l +:+ nl) <$> ls).

Lemma text_of_app ls ks : text_of (ls ++ ks) = text_of ls +:+ text_of ks.
Proof. unfold text_of. by rewrite fmap_app, str_concat_app. Qed.

Lemma samples_text ls :
  Forall (λ l, one_line l = true) ls → samples (text_of ls) = omap sample ls.
Proof.
  induction 1 as [|l ls Hl _ IH]; [done|]. unfold samples in *.
  change (text_of (l :: ls)) with ((l +:+ nl) +:+ text_of ls). rewrite <-str_app_assoc.
  change (nl +:+ text_of ls) with (String (ascii_of_nat 10) (text_of ls)).
  rewrite split_app_delim by done. cbn [omap list_omap]. by rewrite IH.
Qed.

Lemma sample_value name v :
  starts_with "#" (name +:+ " " +:+ v) = false → str_forallb is_plain v = true →
  sample (name +:+ " " +:+ v) = Some (name, v).
Proof.
  intros Hn Hv. unfold sample. rewrite Hn. apply rsplit_once_Some.
  split; [done|by apply plain_no_space].
Qed.

(** ** Numbers print without spaces *)

Lemma str_forallb_substring f s n m :
  str_forallb f s = true → str_forallb f (String.substring n m s) = true.
Proof.
  revert n m. induction s as [|a s IH]; intros n m Hs; [by destruct n, m|].
  cbn [str_forallb] in Hs. apply andb_prop in Hs as [Ha Hs].
  destruct n as [|n]; [|by apply IH]. destruct m as [|m]; [done|].
  cbn [String.substring str_forallb]. by rewrite Ha, IH.
Qed.

Lemma zeros_plain n : str_forallb is_plain (zeros n) = true.
Proof. by induction n. Qed.

Lemma positional_plain d p : str_forallb is_plain (positional d p) = true.
Proof.
  pose proof (show_plain d) as Hd. unfold show_u64 in Hd. unfold positional.
  destruct (0 <=? p); rewrite !str_forallb_app; [by rewrite Hd, zeros_plain|].
  rewrite !str_forallb_substring; [done|..]; by rewrite str_forallb_app, Hd, zeros_plain.
Qed.

Lemma f64_display_plain x : str_forallb is_plain (f64_display x) = true.
Proof.
  destruct x as [[]|[]| |[] m e]; try reflexivity; cbn [f64_display]; rewrite str_forallb_app;
    destruct (shortest_decimal m e) as [[d p]|]; rewrite ?positional_plain; reflexivity.
Qed.

(** ** The whole text *)

Definition bucket_name (le : string) : string :=
  "archetype_proxy_upstream_latency_seconds_bucket{le=" +:+ dq +:+ le +:+ dq +:+ "}".

(** The integer samples that a process exports. *)
Definition exported (i : Metrics) (active_sessions : Z) : list (string * Z) :=
  [("archetype_proxy_handshakes_total", handshakes_total i);
   ("archetype_proxy_decrypt_failures_total", decrypt_failures_total i);
   ("archetype_proxy_upstream_requests_total", upstream_requests_total i);
   ("archetype_proxy_upstream_errors_total", upstream_errors_total i);
   ("archetype_proxy_active_sessions", active_sessions)] ++
  zip_with (λ ub c, (bucket_name (f64_display ub), c)) LATENCY_BUCKETS_SECS (latency_buckets i) ++
  [(bucket_name "+Inf", latency_count i);
   ("archetype_proxy_upstream_latency_seconds_count", latency_count i)].

Definition SUM_NAME : string := "archetype_proxy_upstream_latency_seconds_sum".

Definition seconds_sum (i : Metrics) : string :=
  f64_display (f64_div (f64_of_Z (latency_sum_micros i)) (f64_of_Z 1000000)).

Definition counter_block (name help : string) (v : Z) : list string :=
  ["# HELP " +:+ name +:+ " " +:+ help; "# TYPE " +:+ name +:+ " counter";
   name +:+ " " +:+ show_u64 v].

Lemma counter_lines_block name help v : counter_lines name help v = text_of (counter_block name help v).
Proof.
  unfold counter_lines, counter_block, text_of. rewrite !fmap_cons. cbn [fmap list_fmap str_concat foldr].
  by rewrite <-!str_app_assoc, str_app_nil_r.
Qed.

Lemma bucket_lines_text ubs cs :
  str_concat (zip_with (λ ub c, bucket_line (f64_display ub) c) ubs cs) =
  text_of (zip_with (λ ub c, bucket_name (f64_display ub) +:+ " " +:+ show_u64 c) ubs cs).
Proof.
  revert cs. induction ubs as [|ub ubs IH]; intros [|c cs]; [done..|]. cbn [zip_with].
  change (text_of (?x :: ?l)) with ((x +:+ nl) +:+ text_of l).
  change (str_concat (?x :: ?l)) with (x +:+ str_concat l). rewrite IH. f_equal.
  unfold bucket_line, bucket_name. by rewrite <-!str_app_assoc.
Qed.

Definition render_lines (i : Metrics) (active_sessions : Z) : list string :=
  counter_block "archetype_proxy_handshakes_total"
    "Total attestation handshakes served on /attest." (handshakes_total i) ++
  counter_block "archetype_proxy_decrypt_failures_total"
    "Total trusted-request decrypt/MAC verification failures." (decrypt_failures_total i) ++
  counter_block "archetype_proxy_upstream_requests_total"
    "Total upstream requests attempted." (upstream_requests_total i) ++
  counter_block "archetype_proxy_upstream_errors_total"
    "Total upstream requests that failed at the transport level." (upstream_errors_total i) ++
  ["# HELP archetype_proxy_active_sessions Live AtB sessions in the registry.";
   "# TYPE archetype_proxy_active_sessions gauge";
   "archetype_proxy_active_sessions" +:+ " " +:+ show_u64 active_sessions;
   "# HELP archetype_proxy_upstream_latency_seconds Upstream round-trip latency.";
   "# TYPE archetype_proxy_upstream_latency_seconds histogram"] ++
  zip_with (λ ub c, bucket_name (f64_display ub) +:+ " " +:+ show_u64 c)
    LATENCY_BUCKETS_SECS (latency_buckets i) ++
  [bucket_name "+Inf" +:+ " " +:+ show_u64 (latency_count i);
   SUM_NAME +:+ " " +:+ seconds_sum i;
   "archetype_proxy_upstream_latency_seconds_count" +:+ " " +:+ show_u64 (latency_count i)].

Lemma render_text i active : render_prometheus i active = text_of (render_lines i active).
Proof.
  unfold render_prometheus, render_lines. rewrite !text_of_app, <-!counter_lines_block.
  rewrite <-bucket_lines_text. do 4 f_equal.
  generalize (str_concat (zip_with (λ ub c, bucket_line (f64_display ub) c)
                            LATENCY_BUCKETS_SECS (latency_buckets i))) as buckets.
  intros buckets. unfold text_of, bucket_line, bucket_name. rewrite !fmap_cons. cbn [fmap list_fmap str_concat foldr].
  rewrite !str_app_nil_r, <-!str_app_assoc. reflexivity.
Qed.

(** ** What is read *)

Lemma omap_buckets ubs cs :
  omap sample (zip_with (λ ub c, bucket_name (f64_display ub) +:+ " " +:+ show_u64 c) ubs cs) =
  prod_map id show_u64 <$> zip_with (λ ub c, (bucket_name (f64_display ub), c)) ubs cs.
Proof.
  revert cs. induction ubs as [|ub ubs IH]; intros [|c cs]; [done..|]. cbn [zip_with omap list_omap].
  rewrite fmap_cons, sample_value; [by rewrite IH|done|apply show_plain].
Qed.

Lemma bucket_one_line le v : str_forallb is_plain le = true →
  one_line (bucket_name le +:+ " " +:+ show_u64 v) = true.
Proof.
  intros Hle. unfold bucket_name. rewrite !one_line_app, (plain_one_line le) by done.
  by rewrite (plain_one_line _ (show_plain v)).
Qed.

Lemma render_lines_one i active : Forall (λ l, one_line l = true) (render_lines i active).
Proof.
  assert (∀ s v, one_line s = true → one_line (s +:+ " " +:+ show_u64 v) = true) as Hv.
  { intros s v Hs. by rewrite !one_line_app, Hs, (plain_one_line _ (show_plain v)). }
  assert (Forall (λ l, one_line l = true)
            (zip_with (λ ub c, bucket_name (f64_display ub) +:+ " " +:+ show_u64 c)
               LATENCY_BUCKETS_SECS (latency_buckets i))) as Hb.
  { apply Forall_forall. intros l (ub&c&->&_)%elem_of_zip_with.
    apply bucket_one_line, f64_display_plain. }
  unfold render_lines, counter_block. rewrite !Forall_app. split_and!; try exact Hb;
    rewrite !Forall_cons; split_and!; try reflexivity; try (apply Hv; reflexivity); try by constructor.
  rewrite !one_line_app, (plain_one_line (seconds_sum i)) by apply f64_display_plain. reflexivity.
Qed.

Lemma Permutation_in_tail {A} (l k : list A) x y z : y :: l ++ k ++ [x; z] ≡ₚ l ++ k ++ [x; y; z].
Proof.
  etrans; [|apply Permutation_app_head, Permutation_app_head, Permutation_swap].
  by rewrite !app_assoc, (Permutation_middle (l ++ k)).
Qed.

Lemma samples_render i active :
  samples (render_prometheus i active) ≡ₚ
    (SUM_NAME, seconds_sum i) :: (prod_map id show_u64 <$> exported i active).
Proof.
  rewrite render_text, samples_text by apply render_lines_one.
  unfold render_lines, exported. rewrite !omap_app, !fmap_app, omap_buckets.
  assert (∀ name help v, starts_with "#" (name +:+ " " +:+ show_u64 v) = false →
    omap sample (counter_block name help v) = [(name, show_u64 v)]) as Hc.
  { intros name help v Hn. unfold counter_block. cbn [omap list_omap].
    rewrite sample_value by (done || apply show_plain). done. }
  assert (∀ l, sample (String "#" l) = None) as Hh by done.
  rewrite !Hc by reflexivity. cbn [omap list_omap]. rewrite !Hh.
  rewrite !sample_value by (reflexivity || apply show_plain || apply f64_display_plain).
  generalize (prod_map id show_u64 <$> zip_with (λ ub c, (bucket_name (f64_display ub), c))
                LATENCY_BUCKETS_SECS (latency_buckets i)) as buckets. intros buckets.
  rewrite !fmap_cons, !fmap_nil. cbn [prod_map fst snd id]. symmetry.
  exact (Permutation_in_tail [_; _; _; _; _] buckets _ _ _).
Qed.

(** Looking up a name that occurs once. *)
Lemma find_name {V} (l : list (string * V)) k v :
  NoDup l.*1 → (k, v) ∈ l → List.find (λ kv, bool_decide (kv.1 = k)) l = Some (k, v).
Proof.
  induction l as [|[k' v'] l IH]; [by intros _ ?%elem_of_nil|]. rewrite fmap_cons.
  intros [Hk Hl]%NoDup_cons Hin. cbn [List.find fst].
  apply elem_of_cons in Hin as [[= -> ->]|Hin]; [by rewrite bool_decide_eq_true_2|].
  rewrite bool_decide_eq_false_2; [by apply IH|]. intros ->. apply Hk, list_elem_of_fmap.
  by exists (k, v).
Qed.

Definition NAMES : list string :=
  ["archetype_proxy_handshakes_total"; "archetype_proxy_decrypt_failures_total";
   "archetype_proxy_upstream_requests_total"; "archetype_proxy_upstream_errors_total";
   "archetype_proxy_active_sessions"] ++
  ((λ ub, bucket_name (f64_display ub)) <$> LATENCY_BUCKETS_SECS) ++
  [bucket_name "+Inf"; "archetype_proxy_upstream_latency_seconds_count"].

Lemma exported_names i active :
  length (latency_buckets i) = length LATENCY_BUCKETS_SECS → (exported i active).*1 = NAMES.
Proof.
  intros Hl. unfold exported, NAMES. rewrite !fmap_app. do 2 f_equal.
  generalize LATENCY_BUCKETS_SECS, (latency_buckets i), Hl.
  intros ubs. induction ubs as [|ub ubs IH]; intros [|c cs] Hcs; try done.
  cbn [zip_with]. rewrite !fmap_cons. f_equal. apply IH. by injection Hcs.
Qed.

Lemma names_nodup : NoDup (SUM_NAME :: NAMES).
Proof. apply (bool_decide_unpack _). vm_compute. constructor. Qed.

Lemma samples_nodup i active :
  length (latency_buckets i) = length LATENCY_BUCKETS_SECS →
  NoDup (samples (render_prometheus i active)).*1.
Proof.
  intros Hl. rewrite samples_render, fmap_cons, <-list_fmap_compose.
  replace ((fst ∘ prod_map id show_u64) <$> exported i active) with (exported i active).*1
    by (apply list_fmap_ext; by intros ? []).
  rewrite exported_names by done. apply names_nodup.
Qed.

Lemma lookup_render i active k v :
  length (latency_buckets i) = length LATENCY_BUCKETS_SECS →
  (k, v) ∈ (SUM_NAME, seconds_sum i) :: (prod_map id show_u64 <$> exported i active) →
  lookup_sample k (render_prometheus i active) = Some v.
Proof.
  intros Hl Hin. unfold lookup_sample. rewrite (find_name _ k v); [done|by apply samples_nodup|].
  by rewrite samples_render.
Qed.

Lemma wrap64_range z : 0 ≤ wrap64 z < 2 ^ 64.
Proof. apply Z.mod_pos_bound. done. Qed.

Lemma exported_range ops active :
  0 ≤ active < 2 ^ 64 → Forall (λ kv, 0 ≤ kv.2 < 2 ^ 64) (exported (metrics_after ops) active).
Proof.
  intros Ha. rewrite metrics_after_spec. unfold exported, metrics_spec.
  cbn [handshakes_total decrypt_failures_total upstream_requests_total upstream_errors_total
       latency_count latency_buckets].
  apply Forall_app; split; [|apply Forall_app; split].
  - repeat (constructor; [first [apply wrap64_range|exact Ha]|]). constructor.
  - apply Forall_forall. intros kv (ub&c&->&_&Hc)%elem_of_zip_with.
    apply list_elem_of_fmap in Hc as (u&->&_). apply wrap64_range.
  - repeat (constructor; [apply wrap64_range|]). constructor.
Qed.

(** C32: the metrics endpoint can be read back: from the text rendered after any
    calls, a scraper of the Prometheus format gets the number of calls of each
    counter, the gauge, for each bucket the number of latencies at most its
    bound and their number in all (modulo 2^64), and their sum as it is
    printed, each under a name that occurs once. *)
Theorem metrics_scrape_roundtrip ops active (Hactive : 0 ≤ active < 2 ^ 64) :
  let text := render_prometheus (metrics_after ops) active in
  NoDup (samples text).*1 ∧
  (∀ name v, (name, v) ∈ exported (metrics_spec ops) active → scrape name text = Some v) ∧
  lookup_sample SUM_NAME text = Some (seconds_sum (metrics_spec ops)).
Proof.
  cbv zeta. pose proof (exported_range ops active Hactive) as Hr. rewrite metrics_after_spec in *.
  set (m := metrics_spec ops) in *.
  assert (length (latency_buckets m) = length LATENCY_BUCKETS_SECS) as Hl by apply length_fmap.
  split_and!; [by apply samples_nodup|..].
  - intros name v Hin. unfold scrape. rewrite (lookup_render _ _ name (show_u64 v)); [|done|].
    + rewrite Forall_forall in Hr. specialize (Hr _ Hin). cbn [snd] in Hr.
      cbn [mbind option_bind]. unfold show_u64.
      rewrite parse_uint_pretty; [|rewrite Z2N.id; unfold u64_max; lia].
      cbn [result_ok]. f_equal. lia.
    + right. apply list_elem_of_fmap. by exists (name, v).
  - apply lookup_render; [done|by left].
Qed.

Lemma metrics_scrape_roundtrip_witness :
  let m := metrics_after [Op_latency (f64_ratio 3 100); Op_handshake; Op_latency (f64_of_Z 2)] in
  scrape "archetype_proxy_handshakes_total" (render_prometheus m 7) = Some 1 ∧
  scrape (bucket_name "0.05") (render_prometheus m 7) = Some 1 ∧
  lookup_sample SUM_NAME (render_prometheus m 7) = Some "2.03".
Proof.
  destruct (metrics_scrape_roundtrip
              [Op_latency (f64_ratio 3 100); Op_handshake; Op_latency (f64_of_Z 2)] 7) as (_&Hs&Hl).
  { split; [discriminate|reflexivity]. }
  split; [apply Hs; apply list_elem_of_In; left; vm_compute; reflexivity|].
  split; [apply Hs; apply (bool_decide_unpack _); vm_compute; constructor|].
  etrans; [exact Hl|]. vm_compute. reflexivity.
Defined.
