(* ===== verification/DumpSpec.v ===== *)
(** * Reading the dump back

    A reader of the text that [dump] prints, written against the format alone:
    an entry is an indented line with a name, [=], a value and a layer in
    brackets.  What it reads for each field of a resolved configuration is the
    value that the layers put in force and the layer that did. *)

From S2P Require Import Prelude RustStr SocketAddr Format Routing Config Layers Dump Float Metrics Exposition.

(** ** The reader *)

Definition read_entry (line : string) : option (string * (string * string)) :=
  rest ← strip_prefix "  " line;
  '(name, rest) ← split_once " " rest;
  '(_, rest) ← split_once "=" rest;
  '(value, layer) ← rsplit_once "[" rest;
  value ← strip_prefix " " value;
  Some (name, (trim_end_matches " " value, trim_end_matches "]" layer)).

Definition read_field (name text : string) : option (string * string) :=
  snd <$> List.find (λ e, bool_decide (e.1 = name)) (omap read_entry (split is_newline text)).

(** ** What it should read *)

Section expected.
Context `{UT : !UnicodeTables} (file env cli : PartialStatic).

(** A field with the value of the highest layer that sets it, and the layer. *)
Definition shown {T} (name : string) (show : T → string) (dflt : T) (acc : PartialStatic → option T)
  : string * string * Source :=
  let won := winner dflt (acc file) (acc env) (acc cli) in (name, show won.1, won.2).

(** The same for a field that may be absent. *)
Definition shown_opt {T} (name : string) (show : option T → string) (acc : PartialStatic → option T)
  : string * string * Source :=
  shown name show None (λ p, Some <$> acc p).

(** A line about the TPM policy: the layer is not the one that supplied it. *)
Definition shown_tpm (name : string) (show : option TpmConfig → string) : string * string * Source :=
  ((shown_opt name show ps_tpm).1, Source_Default).

Definition expected : list (string * string * Source) :=
  [shown "server.listen" SocketAddr_to_string default_listen ps_listen;
   shown "server.max_body_bytes" fmt_dec DEFAULT_MAX_BODY_BYTES ps_max_body_bytes;
   shown "attestation.allow_mock" fmt_bool true ps_allow_mock;
   shown "attestation.strict_attestation" fmt_bool false ps_strict_attestation;
   shown "attestation.atb_ttl_secs" fmt_dec DEFAULT_ATB_TTL_SECS ps_atb_ttl_secs;
   shown "attestation.atb_eviction_interval_secs" fmt_dec DEFAULT_ATB_EVICTION_INTERVAL_SECS
     ps_atb_eviction_interval_secs;
   shown "attestation.atb_max_sessions" fmt_dec DEFAULT_ATB_MAX_SESSIONS ps_atb_max_sessions;
   shown "attestation.tee_provider" TeeProviderKind_as_str DEFAULT_TEE_PROVIDER ps_tee_provider;
   shown "attestation.verifier" VerifierKind_as_str DEFAULT_VERIFIER ps_verifier;
   shown_opt "attestation.verifier_endpoint" (default "<none>") ps_verifier_endpoint;
   shown_tpm "attestation.tpm.expected_pcrs" dump_pcrs;
   shown_tpm "attestation.tpm.pinned_ak"
     (λ o, if bool_decide (is_Some (o ≫= tpm_pinned_ak_sec1)) then "<set>" else "<none>");
   shown_tpm "attestation.tpm.trusted_ek_roots"
     (λ o, default "<none>" ((λ t, fmt_dec (Z.of_nat (length (tpm_trusted_ek_root_paths t)))) <$> o));
   shown_tpm "attestation.tpm.allow_unpinned_ak"
     (λ o, fmt_bool (default false (tpm_allow_unpinned_ak <$> o)));
   shown_opt "server.tls" dump_tls ps_tls;
   shown "rate_limit.max_requests" fmt_dec DEFAULT_RATE_LIMIT_MAX_REQUESTS ps_rate_limit_max_requests;
   shown "rate_limit.window_secs" fmt_dec DEFAULT_RATE_LIMIT_WINDOW_SECS ps_rate_limit_window_secs;
   shown "discovery.docker" fmt_bool false ps_docker_enabled;
   shown "discovery.docker.socket" id DEFAULT_DOCKER_SOCKET ps_docker_socket;
   shown "discovery.docker.poll_secs" fmt_dec DEFAULT_DOCKER_POLL_SECS ps_docker_poll_secs;
   shown "discovery.kubernetes" fmt_bool false ps_kubernetes_enabled;
   shown "discovery.kubernetes.namespace" (default "<all>") None ps_kubernetes_namespace].

(** A value that fits into a line: no line break, no space at its end. *)
Definition fits (v : string) : bool := one_line v && bool_decide (trim_end_matches " " v = v).

(** ** Lines *)

Definition entry_line (e : string * string * Source) : string :=
  let '(name, value, src) := e in
  "  " +:+ pad_right 28 name +:+ " = " +:+ pad_right 30 value +:+ " [" +:+ Source_to_string src +:+ "]".

Lemma spaces_snoc n : spaces n +:+ " " = String " " (spaces n).
Proof. induction n as [|n IH]; [done|]. cbn [spaces]. by rewrite str_app_cons, IH. Qed.

Lemma spaces_iter n : spaces n = Nat.iter n (String " ") EmptyString.
Proof. by induction n as [|n IH]; simpl; rewrite ?IH. Qed.

Lemma spaces_no_equals n : str_mem "=" (spaces n) = false.
Proof. by induction n. Qed.

Lemma spaces_one_line n : one_line (spaces n) = true.
Proof. by induction n. Qed.

(** A padded text and a space: the space comes first. *)
Lemma pad_space w s t : pad_right w s +:+ String " " t = s +:+ String " " (spaces (w - char_count s) +:+ t).
Proof.
  unfold pad_right. rewrite <-str_app_assoc. f_equal.
  change (String " " t) with (" " +:+ t). by rewrite str_app_assoc, spaces_snoc.
Qed.

Lemma trim_pad w s : trim_end_matches " " (pad_right w s +:+ " ") = trim_end_matches " " s.
Proof.
  rewrite trim_end_matches_snoc. unfold pad_right. by rewrite spaces_iter, trim_end_matches_iter.
Qed.

Lemma read_entry_line name value src :
  str_mem " " name = false → trim_end_matches " " value = value →
  read_entry (entry_line (name, value, src)) = Some (name, (value, Source_to_string src)).
Proof.
  intros Hn Hv. unfold read_entry, entry_line.
  change ("  " +:+ ?x) with (String " " (String " " x)).
  change (strip_prefix "  " (String " " (String " " ?x))) with (Some x). cbn [mbind option_bind].
  change (" = " +:+ ?x) with (String " " (String "=" (" " +:+ x))). rewrite pad_space.
  rewrite (proj2 (split_once_Some _ _ _ _) (conj eq_refl Hn)). cbn [mbind option_bind].
  rewrite (proj2 (split_once_Some _ _ _ _) (conj eq_refl (spaces_no_equals _))). cbn [mbind option_bind].
  assert (str_mem "[" (Source_to_string src +:+ "]") = false) as Hs by by destruct src.
  assert (" " +:+ pad_right 30 value +:+ " [" +:+ Source_to_string src +:+ "]" =
          (" " +:+ pad_right 30 value +:+ " ") +:+ String "[" (Source_to_string src +:+ "]")) as ->.
  { by rewrite <-!str_app_assoc. }
  rewrite (proj2 (rsplit_once_Some _ _ _ _) (conj eq_refl Hs)). cbn [mbind option_bind].
  rewrite strip_prefix_app. cbn [mbind option_bind]. rewrite trim_pad, Hv. by destruct src.
Qed.

Lemma entry_line_one name value src :
  one_line name = true → one_line value = true → one_line (entry_line (name, value, src)) = true.
Proof.
  intros Hn Hv. unfold entry_line, pad_right. rewrite !one_line_app, Hn, Hv, !spaces_one_line.
  by destruct src.
Qed.

(** Whole lines come first in a text. *)
Lemma split_text ls rest :
  Forall (λ l, one_line l = true) ls →
  split is_newline (text_of ls +:+ rest) = ls ++ split is_newline rest.
Proof.
  induction 1 as [|l ls Hl _ IH]; [done|].
  change (text_of (l :: ls)) with ((l +:+ nl) +:+ text_of ls). rewrite <-!str_app_assoc.
  change (nl +:+ ?x) with (String (ascii_of_nat 10) x).
  rewrite split_app_delim by done. by rewrite IH.
Qed.

Lemma read_entries l :
  Forall (λ e, str_mem " " e.1.1 = false ∧ fits e.1.2 = true) l →
  omap read_entry (entry_line <$> l) = (λ '(n, v, s), (n, (v, Source_to_string s))) <$> l.
Proof.
  induction 1 as [|[[n v] s] l [Hn [_ Hv%bool_decide_eq_true]%andb_prop] _ IH]; [done|].
  cbn [fmap list_fmap omap list_omap]. by rewrite read_entry_line, IH.
Qed.

Lemma find_entry (l : list (string * string * Source)) rest name value src :
  NoDup (l.*1.*1) → (name, value, src) ∈ l →
  snd <$> List.find (λ e, bool_decide (e.1 = name))
    (((λ '(n, v, s), (n, (v, Source_to_string s))) <$> l) ++ rest) = Some (value, Source_to_string src).
Proof.
  induction l as [|[[n v] s] l IH]; [by intros _ ?%elem_of_nil|]. simpl.
  intros [Hn Hnd]%NoDup_cons [[= -> -> ->]|Hin]%elem_of_cons.
  { by rewrite bool_decide_eq_true_2. }
  rewrite bool_decide_eq_false_2; [by apply IH|]. intros ->. apply Hn.
  apply list_elem_of_fmap. exists (name, value). split; [done|].
  apply list_elem_of_fmap. by exists (name, value, src).
Qed.

Lemma expected_names :
  NoDup (expected.*1.*1) ∧
  Forall (λ n, str_mem " " n = false ∧ one_line n = true) (expected.*1.*1).
Proof.
  cbn [expected fmap list_fmap shown shown_opt shown_tpm fst]. split.
  - by apply (bool_decide_unpack _).
  - repeat (constructor; [by split|]). constructor.
Qed.

Lemma dump_line_entry name value src : dump_line name value src = entry_line (name, value, src) +:+ nl.
Proof. unfold dump_line, entry_line. by rewrite <-!str_app_assoc. Qed.

Lemma zip_lines (fields : list (string * string)) (sources : list Source) :
  zip_with (λ '(field, val) src, dump_line field val src) fields sources =
  (λ l, l +:+ nl) <$> (entry_line <$> zip_with pair fields sources).
Proof.
  revert sources. induction fields as [|[f v] fields IH]; intros [|src sources]; [done..|].
  cbn [zip_with fmap list_fmap]. by rewrite IH, dump_line_entry.
Qed.

(** The code's fields and layers are the expected ones. *)
Lemma expected_printed :
  zip_with pair (dump_fields (static_spec file env cli)) (printed_sources file env cli) = expected.
Proof.
  unfold expected, shown_tpm, shown_opt, shown. unfold dump_fields, printed_sources, static_spec.
  cbn [static_attestation static_discovery static_server static_rate_limit disc_docker disc_kubernetes
       server_listen server_max_body_bytes server_tls zip_with att_tpm].
  assert (∀ o, dump_pinned_ak o = if bool_decide (is_Some (o ≫= tpm_pinned_ak_sec1)) then "<set>" else "<none>")
    as Hak by by intros [].
  assert (∀ o, dump_ek_roots o = default "<none>" ((λ t, fmt_dec (Z.of_nat (length
    (tpm_trusted_ek_root_paths t)))) <$> o)) as Hek by by intros [].
  assert (∀ o, dump_unpinned o = fmt_bool (default false (tpm_allow_unpinned_ak <$> o))) as Hun
    by by intros [].
  rewrite Hak, Hek, Hun. reflexivity.
Qed.

Lemma dump_text routes :
  ∃ rest, dump (resolve_layers (file, routes) env cli) =
    text_of ("static config (boot-time only):" :: (entry_line <$> expected)) +:+ rest.
Proof.
  rewrite dump_resolved, zip_lines, expected_printed. eexists.
  change (text_of (?l :: ?ls)) with ((l +:+ nl) +:+ text_of ls). rewrite <-!str_app_assoc.
  fold (text_of (entry_line <$> expected)). reflexivity.
Qed.

(** ** Properties *)

(** C20: the dump tells the configuration in force: reading the text of a
    resolved configuration back gives, for each of its twenty-two lines, the
    value of the highest layer that sets the field and the name of that layer,
    whatever the routes are, as long as the values fit into lines.  The four
    lines about the TPM policy give the value, but always name the default
    layer: the provenance is recorded under the name of the block. *)
Theorem dump_read_back routes name value src
    (Hfit : Forall (λ e, fits e.1.2 = true) expected) (Hin : (name, value, src) ∈ expected) :
  read_field name (dump (resolve_layers (file, routes) env cli)) = Some (value, Source_to_string src).
Proof.
  destruct (dump_text routes) as [rest ->]. destruct expected_names as [Hnd Hnames].
  rewrite !Forall_fmap in Hnames.
  unfold read_field. rewrite split_text.
  - rewrite omap_app. cbn [omap list_omap]. change (read_entry "static config (boot-time only):") with
      (@None (string * (string * string))). cbv iota. rewrite read_entries; [by apply find_entry|].
    rewrite Forall_forall in *. intros e He. split; [by apply (Hnames e)|by apply Hfit].
  - constructor; [done|]. rewrite Forall_fmap, Forall_forall in *. intros [[n v] s] He.
    apply entry_line_one; [by apply (Hnames (n, v, s))|].
    by apply (proj1 (andb_true_iff _ _) (Hfit (n, v, s) He)).
Qed.
End expected.

#[local] Existing Instance DumpExample.tables.

Lemma dump_read_back_witness :
  let text := dump (resolve_layers (DumpExample.file, []) PartialStatic_default DumpExample.cli) in
  read_field "server.listen" text = Some ("[::1]:8443", "cli") ∧
  read_field "attestation.verifier" text = Some ("tpm", "file") ∧
  read_field "rate_limit.window_secs" text = Some ("60", "default").
Proof.
  assert (Forall (λ e, fits e.1.2 = true)
    (expected DumpExample.file PartialStatic_default DumpExample.cli)) as Hfit.
  { vm_compute. repeat (constructor; [reflexivity|]). constructor. }
  split; [|split].
  - apply (dump_read_back _ _ _ _ _ _ Source_Cli Hfit). apply (bool_decide_unpack _). vm_compute. reflexivity.
  - apply (dump_read_back _ _ _ _ _ _ Source_File Hfit). apply (bool_decide_unpack _). vm_compute. reflexivity.
  - apply (dump_read_back _ _ _ _ _ _ Source_Default Hfit). apply (bool_decide_unpack _). vm_compute. reflexivity.
Defined.
