(* ===== verification/Http.v ===== *)
(** * Requests and the attestation SDK

    The HTTP data the handlers read, and the operations of the HTTP and
    OpenHTTPA libraries they call.  The libraries are not part of the
    repository: their operations are the fields of the classes below, and
    what the handlers rely on of them is stated as laws where it is used. *)

From S2P Require Import Prelude RustStr.

Local Open Scope Z_scope.

(** ** Header maps and requests *)

(** Header names are lower-case; the list is in iteration order. *)
Definition HeaderMap := list (string * list Z).

(** [HeaderMap::get]: the first value of a name. *)
Definition hdr_get (h : HeaderMap) (name : string) : option (list Z) :=
  snd <$> List.find (λ p, bool_decide (p.1 = name)) h.

(** [HeaderMap::contains_key]. *)
Definition hdr_contains (h : HeaderMap) (name : string) : bool :=
  bool_decide (is_Some (hdr_get h name)).

Record Uri := mkUri {
  uri_authority : option string;
  uri_path : string;
  uri_query : option string;
}.

(** The head of a request; [p_original_uri] is the [OriginalUri] extension. *)
Record Parts := mkParts {
  p_method : string;
  p_uri : Uri;
  p_headers : HeaderMap;
  p_original_uri : option Uri;
}.

(** The HTTP status codes the handlers answer with. *)
Inductive StatusCode :=
| OK_200 | BAD_REQUEST | UNAUTHORIZED | NOT_FOUND | PAYLOAD_TOO_LARGE
| INTERNAL_SERVER_ERROR | BAD_GATEWAY | GATEWAY_TIMEOUT.

#[export] Instance StatusCode_eq_dec : EqDecision StatusCode.
Proof. solve_decision. Defined.

Definition as_u16 (s : StatusCode) : Z :=
  match s with
  | OK_200 => 200
  | BAD_REQUEST => 400
  | UNAUTHORIZED => 401
  | NOT_FOUND => 404
  | PAYLOAD_TOO_LARGE => 413
  | INTERNAL_SERVER_ERROR => 500
  | BAD_GATEWAY => 502
  | GATEWAY_TIMEOUT => 504
  end.

(** ** Library operations *)

(** [HeaderValue::to_str] and [Method::from_bytes] of the [http] crate. *)
Class HttpLib := {
  header_to_str : list Z → option string;
  method_from_bytes : list Z → option string;
}.

(** The AEAD keys of [openhttpa_crypto]: a bound key counts its seals. *)
Class Crypto := {
  aead_algorithm : Type;
  aead_key : Type;
  bound_key : Type;
  aead_nonce : Type;
  crypto_error : Type;
  AeadKey_new : aead_algorithm → list Z → result crypto_error aead_key;
  BoundAeadKey_new : aead_algorithm → list Z → list Z → result crypto_error bound_key;
  nonce_from_slice : list Z → result crypto_error aead_nonce;
  nonce_bytes : aead_nonce → list Z;
  open_in_place : aead_key → aead_nonce → list Z → list Z → result crypto_error (list Z);
  bound_open : bound_key → aead_nonce → list Z → list Z → result crypto_error (list Z);
  bound_seal : bound_key → list Z → list Z →
               result crypto_error (aead_nonce * list Z) * bound_key;
}.

(** The key material of a session. *)
Record SessionKeys := mkSessionKeys {
  server_write_key : list Z;
  server_write_iv : list Z;
  client_write_key : list Z;
  client_write_iv : list Z;
  client_mac_key : list Z;
}.

(** Big-endian integers. *)
Fixpoint be_encode (n : nat) (z : Z) : list Z :=
  match n with O => [] | S n => be_encode n (z / 256) ++ [z mod 256] end.

Definition be_decode (l : list Z) : Z := foldl (λ acc b, acc * 256 + b) 0 l.

Lemma be_encode_length n z : length (be_encode n z) = n.
Proof. revert z. induction n as [|n IH]; intros z; simpl; [done|]. rewrite length_app, IH. simpl. lia. Qed.

Lemma be_decode_encode n z : 0 ≤ z < 256 ^ Z.of_nat n → be_decode (be_encode n z) = z.
Proof.
  revert z. induction n as [|n IH]; intros z Hz.
  - simpl in *. unfold be_decode. simpl. lia.
  - simpl be_encode. unfold be_decode. rewrite foldl_app. simpl. fold (be_decode (be_encode n (z / 256))).
    rewrite Nat2Z.inj_succ, Z.pow_succ_r in Hz by lia.
    rewrite IH.
    + rewrite (Z.div_mod z 256) at 3 by done. lia.
    + split; [apply Z.div_pos; lia|apply Z.div_lt_upper_bound; lia].
Qed.

(** The nonce of TLS 1.3: the counter XORed into the last eight bytes. *)
Definition tls13_nonce (iv : list Z) (counter : Z) : list Z :=
  take 4 iv ++ zip_with Z.lxor (drop 4 iv) (be_encode 8 counter).

Lemma tls13_nonce_length iv c : length iv = 12%nat → length (tls13_nonce iv c) = 12%nat.
Proof.
  intros Hiv. unfold tls13_nonce.
  rewrite length_app, length_take, length_zip_with, length_drop, be_encode_length. lia.
Qed.

Lemma zip_with_lxor_cancel l1 l2 :
  length l1 = length l2 → zip_with Z.lxor (zip_with Z.lxor l1 l2) l1 = l2.
Proof.
  revert l2. induction l1 as [|a l1 IH]; intros [|b l2]; simpl; try done. intros [= Hl].
  rewrite IH by done. by rewrite (Z.lxor_comm a b), Z.lxor_assoc, Z.lxor_nilpotent, Z.lxor_0_r.
Qed.
