(* ===== verification/Ws.v ===== *)
(** * Attested WebSocket passthrough ([src/ws.rs])

    Upgrade detection, the upgrade handler, the frame codec and the two-way
    pump.  The pump's two directions run concurrently until the first of them
    ends: a run of the bridge is a sequence of events of either side, in any
    order. *)

From S2P Require Import Prelude RustStr SocketAddr Routing Http.

Local Open Scope Z_scope.

Definition MSG_TEXT : Z := 0.
Definition MSG_BINARY : Z := 1.
Definition MIN_FRAME : nat := 12 + 1 + 16.
Definition MAX_WS_FRAME : Z := 16 * 1024 * 1024.

(** Sessions of the SDK: the registry, the parser of their identifiers, and
    the key peek. *)
Class WsSdk `{!Crypto} := {
  HDR_ATTEST_BASE_ID : string;
  atb_id : Type;
  parse_atb_id : string → option atb_id;
  session : Type;
  session_id : session → string;
  is_alive : session → bool;
  session_algorithm : session → aead_algorithm;
  peek_keys : session → option SessionKeys;
  ws_error : Type;
}.

Section upgrade.
Context `{CR : !Crypto, HTTP : !HttpLib, SDK : !WsSdk}.

Definition is_attested_ws_upgrade (req : Parts) : bool :=
  if negb (bool_decide (p_method req = "GET")) then false
  else
    let has_upgrade :=
      match hdr_get (p_headers req) "upgrade" ≫= header_to_str with
      | Some v => eq_ignore_ascii_case v "websocket"
      | None => false
      end in
    has_upgrade && hdr_contains (p_headers req) HDR_ATTEST_BASE_ID.

Record WsKeys := mkWsKeys {
  wk_server_write_key : list Z;
  wk_server_write_iv : list Z;
  wk_client_write_key : list Z;
  wk_client_write_iv : list Z;
  wk_algorithm : aead_algorithm;
}.

(** [copy_from_slice] of the first twelve bytes; a shorter slice panics. *)
Definition slice12 (iv : list Z) : option (list Z) :=
  if bool_decide (12 ≤ length iv)%nat then Some (take 12 iv) else None.

Inductive KeyOutcome :=
| KeysUnavailable
| KeysPanic
| KeysReady (k : WsKeys).

Definition WsKeys_from_session (s : session) : KeyOutcome :=
  match peek_keys s with
  | None => KeysUnavailable
  | Some keys =>
      match slice12 (server_write_iv keys), slice12 (client_write_iv keys) with
      | Some server_iv, Some client_iv =>
          KeysReady (mkWsKeys (server_write_key keys) server_iv (client_write_key keys) client_iv
                       (session_algorithm s))
      | _, _ => KeysPanic
      end
  end.

Definition session_aad (s : session) : list Z := as_bytes "openhttpa:" ++ as_bytes (session_id s).

Record WsRequestMeta := mkWsRequestMeta {
  wm_host : string;
  wm_path : string;
  wm_query : option string;
  wm_base_id : option string;
}.

(** The error is the offending upstream. *)
Definition build_upstream_ws_url (upstream path : string) (query : option string)
  : result string string :=
  let base := trim_end_matches "/" upstream in
  ws_base ← match strip_prefix "https://" base with
            | Some rest => Ok ("wss://" +:+ rest)
            | None =>
                match strip_prefix "http://" base with
                | Some rest => Ok ("ws://" +:+ rest)
                | None =>
                    if starts_with "ws://" base || starts_with "wss://" base then Ok base
                    else Err upstream
                end
            end;
  let url := ws_base +:+ path in
  Ok match query with Some q => url +:+ "?" +:+ q | None => url end.

(** What the upgrade handler answers. *)
Inductive UpgradeOutcome :=
| Rejected (status : StatusCode) (message : string)
| UpgradePanic
| Upgraded (url : string) (keys : WsKeys) (aad : list Z).

Definition ws_upgrade_handler (registry : atb_id → option session) (table : RouteTable)
    (meta : WsRequestMeta) : UpgradeOutcome :=
  match wm_base_id meta ≫= parse_atb_id with
  | None => Rejected UNAUTHORIZED (HDR_ATTEST_BASE_ID +:+ " header missing or invalid")
  | Some id =>
      match registry id with
      | None => Rejected UNAUTHORIZED "AtB session not found or expired"
      | Some s =>
          if negb (is_alive s) then Rejected UNAUTHORIZED "AtB session not in attested state"
          else
            match select table (wm_host meta) (wm_path meta) with
            | None => Rejected NOT_FOUND "no route matched"
            | Some route =>
                match build_upstream_ws_url (route_upstream route) (wm_path meta) (wm_query meta) with
                | Err _ => Rejected BAD_GATEWAY "invalid upstream WS target"
                | Ok url =>
                    match WsKeys_from_session s with
                    | KeysUnavailable => Rejected UNAUTHORIZED "session keys unavailable"
                    | KeysPanic => UpgradePanic
                    | KeysReady keys => Upgraded url keys (session_aad s)
                    end
                end
            end
      end
  end.

(** ** Frames *)

Definition extract_counter (nonce iv : list Z) : Z :=
  be_decode (zip_with Z.lxor (take 8 (drop 4 nonce)) (take 8 (drop 4 iv))).

Inductive InPayload :=
| In_Text (t : string)
| In_Binary (b : list Z).

Inductive FrameError :=
| FrameTooShort (n : nat)
| BadNonce (e : crypto_error)
| NonceReplay
| OpenFailed (e : crypto_error)
| SealFailed (e : crypto_error)
| InvalidUtf8
| UnknownType (b : Z)
| EmptyPlaintext.

Definition encode_outbound (type_byte : Z) (payload : list Z) (key : bound_key) (aad : list Z)
  : result FrameError (list Z) * bound_key :=
  let plaintext := type_byte :: payload in
  let '(r, key') := bound_seal key aad plaintext in
  ('(nonce, ciphertext) ← map_err SealFailed r; Ok (nonce_bytes nonce ++ ciphertext), key').

(** The plaintext of a frame. *)
Definition parse_payload (plaintext : list Z) : result FrameError InPayload :=
  match plaintext with
  | [] => Err EmptyPlaintext
  | b :: rest =>
      if b =? MSG_TEXT then In_Text <$> ok_or InvalidUtf8 (from_utf8 rest)
      else if b =? MSG_BINARY then Ok (In_Binary rest)
      else Err (UnknownType b)
  end.

(** The mutable [last_counter] is returned beside the result. *)
Definition decode_inbound (frame : list Z) (key : aead_key) (iv aad : list Z) (last_counter : Z)
  : result FrameError InPayload * Z :=
  if bool_decide (length frame < MIN_FRAME)%nat
  then (Err (FrameTooShort (length frame)), last_counter)
  else
    match nonce_from_slice (take 12 frame) with
    | Err e => (Err (BadNonce e), last_counter)
    | Ok nonce =>
        let counter := extract_counter (take 12 frame) iv in
        if counter <=? last_counter then (Err NonceReplay, last_counter)
        else
          (plaintext ← map_err OpenFailed (open_in_place key nonce aad (drop 12 frame));
           parse_payload plaintext, counter)
    end.

(** ** The bridge *)

Inductive AxumMessage :=
| Ax_Text (t : string)
| Ax_Binary (data : list Z)
| Ax_Ping (p : list Z)
| Ax_Pong (p : list Z)
| Ax_Close (frame : option (Z * string)).

Inductive UpMessage :=
| Up_Text (t : string)
| Up_Binary (b : list Z)
| Up_Ping (p : list Z)
| Up_Pong (p : list Z)
| Up_Close (frame : option (Z * string))
| Up_Frame (raw : list Z).

Inductive BridgeError :=
| DialFailed (e : ws_error)
| OutboundKeySetup (e : crypto_error)
| InboundKeySetup (e : crypto_error)
| ClientRecv (e : ws_error)
| InboundOverCap
| BadFrame (e : FrameError)
| UpstreamSend
| UpstreamRecv (e : ws_error)
| OutboundOverCap
| ClientSend.

Definition Ending := result BridgeError unit.

(** [tx.send(m).await.map_err(err)?]: the message if the sink took it. *)
Definition send {M} (sink_ok : bool) (m : M) (err : BridgeError) : list M * option Ending :=
  if sink_ok then ([m], None) else ([], Some (Err err)).

(** [let _ = tx.send(m).await; return Ok(())]. *)
Definition send_close {M} (sink_ok : bool) (m : M) : list M * option Ending :=
  (if sink_ok then [m] else [], Some (Ok tt)).

(** One iteration of the loop from the client: the new counter, what was sent
    to the upstream, and how the direction ended if it did.  [None] is the end
    of the stream. *)
Definition client_to_upstream (key : aead_key) (iv aad : list Z) (last_counter : Z)
    (ev : option (result ws_error AxumMessage)) (sink_ok : bool)
  : Z * (list UpMessage * option Ending) :=
  match ev with
  | None => (last_counter, ([], Some (Ok tt)))
  | Some (Err e) => (last_counter, ([], Some (Err (ClientRecv e))))
  | Some (Ok msg) =>
      match msg with
      | Ax_Binary data =>
          if MAX_WS_FRAME <? Z.of_nat (length data)
          then (last_counter, ([], Some (Err InboundOverCap)))
          else
            let '(r, last_counter) := decode_inbound data key iv aad last_counter in
            (last_counter,
             match r with
             | Err e => ([], Some (Err (BadFrame e)))
             | Ok (In_Text t) => send sink_ok (Up_Text t) UpstreamSend
             | Ok (In_Binary b) => send sink_ok (Up_Binary b) UpstreamSend
             end)
      | Ax_Ping p => (last_counter, send sink_ok (Up_Ping p) UpstreamSend)
      | Ax_Pong p => (last_counter, send sink_ok (Up_Pong p) UpstreamSend)
      | Ax_Close _ => (last_counter, send_close sink_ok (Up_Close None))
      | Ax_Text _ => (last_counter, ([], None))
      end
  end.

(** Sealing one upstream payload for the client. *)
Definition seal_to_client (type_byte : Z) (payload : list Z) (key : bound_key) (aad : list Z)
    (sink_ok : bool) : bound_key * (list AxumMessage * option Ending) :=
  if MAX_WS_FRAME <? Z.of_nat (length payload)
  then (key, ([], Some (Err OutboundOverCap)))
  else
    let '(r, key) := encode_outbound type_byte payload key aad in
    (key,
     match r with
     | Err e => ([], Some (Err (BadFrame e)))
     | Ok frame => send sink_ok (Ax_Binary frame) ClientSend
     end).

(** One iteration of the loop from the upstream. *)
Definition upstream_to_client (key : bound_key) (aad : list Z)
    (ev : option (result ws_error UpMessage)) (sink_ok : bool)
  : bound_key * (list AxumMessage * option Ending) :=
  match ev with
  | None => (key, ([], Some (Ok tt)))
  | Some (Err e) => (key, ([], Some (Err (UpstreamRecv e))))
  | Some (Ok msg) =>
      match msg with
      | Up_Text t => seal_to_client MSG_TEXT (as_bytes t) key aad sink_ok
      | Up_Binary b => seal_to_client MSG_BINARY b key aad sink_ok
      | Up_Ping p => (key, send sink_ok (Ax_Ping p) ClientSend)
      | Up_Pong p => (key, send sink_ok (Ax_Pong p) ClientSend)
      | Up_Close _ => (key, send_close sink_ok (Ax_Close None))
      | Up_Frame _ => (key, ([], None))
      end
  end.

Record Bridge := mkBridge {
  br_last_counter : Z;
  br_out_key : bound_key;
  br_to_upstream : list UpMessage;
  br_to_client : list AxumMessage;
  br_end : option Ending;
}.

Inductive BridgeEvent :=
| FromClient (ev : option (result ws_error AxumMessage)) (sink_ok : bool)
| FromUpstream (ev : option (result ws_error UpMessage)) (sink_ok : bool).

(** [select!] of the two directions: the first to end drops the other. *)
Definition bridge_step (in_key : aead_key) (in_iv aad : list Z) (b : Bridge) (e : BridgeEvent)
  : Bridge :=
  match br_end b with
  | Some _ => b
  | None =>
      match e with
      | FromClient ev ok =>
          let '(last, (sent, ending)) :=
            client_to_upstream in_key in_iv aad (br_last_counter b) ev ok in
          mkBridge last (br_out_key b) (br_to_upstream b ++ sent) (br_to_client b) ending
      | FromUpstream ev ok =>
          let '(key, (sent, ending)) := upstream_to_client (br_out_key b) aad ev ok in
          mkBridge (br_last_counter b) key (br_to_upstream b) (br_to_client b ++ sent) ending
      end
  end.

(** [run_bridge]: dialling, key setup and the pump; a run that has not ended
    is still pumping. *)
Definition run_bridge (dial : result ws_error unit) (keys : WsKeys) (aad : list Z)
    (events : list BridgeEvent) : result BridgeError Bridge :=
  _ ← map_err DialFailed dial;
  out_key ← map_err OutboundKeySetup
              (BoundAeadKey_new (wk_algorithm keys) (wk_server_write_key keys)
                 (wk_server_write_iv keys));
  in_key ← map_err InboundKeySetup
             (AeadKey_new (wk_algorithm keys) (wk_client_write_key keys));
  Ok (foldl (bridge_step in_key (wk_client_write_iv keys) aad)
        (mkBridge 0 out_key [] [] None) events).

End upgrade.
