(* ===== verification/WsSpec.v ===== *)
(** * Correctness of the WebSocket bridge

    Integrity of the client's direction (what reaches the upstream is a
    subsequence of what the client sealed), the round trip of the server's
    direction, the size bounds, the upgrade handler and the URL mapping. *)

From S2P Require Import Prelude RustStr SocketAddr Routing Http Ws.

Local Open Scope Z_scope.

(** ** Counters *)

Lemma extract_counter_nonce iv c :
  length iv = 12%nat → 0 ≤ c < 2 ^ 64 → extract_counter (tls13_nonce iv c) iv = c.
Proof.
  intros Hiv Hc. unfold extract_counter, tls13_nonce.
  assert (length (take 4 iv) = 4%nat) as H4 by (rewrite length_take; lia).
  rewrite drop_app_length' by done.
  rewrite (take_ge (zip_with _ _ _)) by (rewrite length_zip_with, length_drop, be_encode_length; lia).
  rewrite take_ge by (rewrite length_drop; lia).
  rewrite zip_with_lxor_cancel by (rewrite length_drop, be_encode_length; lia).
  apply be_decode_encode. done.
Qed.

(** ** Sorted subsequences *)

(** A strictly increasing selection of a strictly increasing list is one of
    its subsequences. *)
Lemma sorted_sublist {A} (key : A → Z) (l k : list A) :
  StronglySorted (λ x y, key x < key y) l → StronglySorted (λ x y, key x < key y) k →
  (∀ x, x ∈ k → x ∈ l) → sublist k l.
Proof.
  intros Hl. revert k. induction Hl as [|y l Hl IH Hy]; intros k Hk Hin.
  { destruct k as [|x k]; [constructor|]. by specialize (Hin x ltac:(left)) as ?%elem_of_nil. }
  rewrite Forall_forall in Hy. destruct k as [|x k]; [apply sublist_nil_l|].
  apply StronglySorted_cons in Hk as [Hx Hk]. rewrite Forall_forall in Hx.
  assert (∀ z, z ∈ k → z ∈ l) as Hkl.
  { intros z Hz. pose proof (Hx z Hz) as Hlt.
    destruct (proj1 (elem_of_cons _ _ _) (Hin z ltac:(by right))) as [->|]; [|done].
    destruct (proj1 (elem_of_cons _ _ _) (Hin x ltac:(left))) as [->|Hxl]; [lia|].
    specialize (Hy x Hxl). simpl in *. lia. }
  destruct (proj1 (elem_of_cons _ _ _) (Hin x ltac:(left))) as [->|Hxl].
  - apply sublist_skip, IH; done.
  - apply sublist_cons, IH; [by constructor; [|apply Forall_forall]|].
    intros z [->|Hz]%elem_of_cons; auto.
Qed.

Lemma sublist_omap {A B} (f : A → option B) (k l : list A) :
  sublist k l → sublist (omap f k) (omap f l).
Proof.
  induction 1 as [|x k l H IH|x k l H IH]; simpl; [done|..]; destruct (f x); try done;
    by constructor.
Qed.

(** ** Integrity of the client's direction *)

Section integrity.
Context `{CR : !Crypto, HTTP : !HttpLib, SDK : !WsSdk}.
Context (in_key : aead_key) (iv aad : list Z).

(** A sealed frame as the client's log records it: nonce and plaintext. *)
Definition Sealed : Type := list Z * list Z.

(** The message a plaintext stands for upstream. *)
Definition up_message (p : InPayload) : UpMessage :=
  match p with In_Text t => Up_Text t | In_Binary b => Up_Binary b end.

Definition sealed_message (s : Sealed) : option UpMessage :=
  up_message <$> result_ok (parse_payload s.2).

Definition is_data (m : UpMessage) : bool :=
  match m with Up_Text _ | Up_Binary _ => true | _ => false end.

Definition sealed_counter (s : Sealed) : Z := extract_counter s.1 iv.

(** What the integrity argument assumes of the AEAD and of the client. *)
Record ClientLog (log : list Sealed) : Prop := {
  (** [AeadNonce::from_slice] keeps the bytes. *)
  cl_nonce bs n : nonce_from_slice bs = Ok n → nonce_bytes n = bs;
  (** Ciphertext integrity: what opens was sealed by the client. *)
  cl_auth n c p : open_in_place in_key n aad c = Ok p → (nonce_bytes n, p) ∈ log;
  (** The client seals with increasing counters. *)
  cl_sorted : StronglySorted (λ s s', sealed_counter s < sealed_counter s') log;
}.

Lemma decode_inbound_Ok frame last p last' :
  decode_inbound frame in_key iv aad last = (Ok p, last') →
  ∃ nonce plaintext, nonce_from_slice (take 12 frame) = Ok nonce ∧
    open_in_place in_key nonce aad (drop 12 frame) = Ok plaintext ∧
    parse_payload plaintext = Ok p ∧
    last' = extract_counter (take 12 frame) iv ∧ last < last' ∧ (MIN_FRAME ≤ length frame)%nat.
Proof.
  unfold decode_inbound. case_bool_decide as Hlen; [done|].
  destruct (nonce_from_slice _) as [n|] eqn:Hn; [|done].
  destruct (Z.leb_spec (extract_counter (take 12 frame) iv) last) as [|Hlt]; [done|].
  intros [= Hr <-]. apply result_bind_Ok in Hr as (pt&Hpt%map_err_Ok&Hp).
  exists n, pt. split_and!; try done. lia.
Qed.

(** The invariant: the data forwarded so far are the messages of a strictly
    increasing selection of the log, all at most the last counter. *)
Definition forwarded_ok (log : list Sealed) (b : Bridge) : Prop :=
  ∃ acc, StronglySorted (λ s s', sealed_counter s < sealed_counter s') acc ∧
    (∀ s, s ∈ acc → s ∈ log) ∧
    Forall (λ s, sealed_counter s ≤ br_last_counter b) acc ∧
    List.filter is_data (br_to_upstream b) = omap sealed_message acc.

Lemma forwarded_quiet log b b' :
  forwarded_ok log b → br_last_counter b ≤ br_last_counter b' →
  List.filter is_data (br_to_upstream b') = List.filter is_data (br_to_upstream b) →
  forwarded_ok log b'.
Proof.
  intros (acc&Hs&Hin&Hle&Hf) Hlast Hsame. exists acc. split_and!; [done..| |congruence].
  eapply Forall_impl; [exact Hle|]. simpl. lia.
Qed.

Lemma decode_last_mono frame last r last' :
  decode_inbound frame in_key iv aad last = (r, last') → last ≤ last'.
Proof.
  unfold decode_inbound. case_bool_decide; [naive_solver lia|].
  destruct (nonce_from_slice _); [|naive_solver lia].
  destruct (Z.leb_spec (extract_counter (take 12 frame) iv) last); naive_solver lia.
Qed.

(** What one client event sends: nothing but data that decode, or control
    messages; the counter never decreases. *)
Lemma client_step_cases last ev ok last' sent ending :
  client_to_upstream in_key iv aad last ev ok = (last', (sent, ending)) →
  last ≤ last' ∧
  (List.filter is_data sent = [] ∨
   ∃ data p, ev = Some (Ok (Ax_Binary data)) ∧ Z.of_nat (length data) ≤ MAX_WS_FRAME ∧
     decode_inbound data in_key iv aad last = (Ok p, last') ∧ sent = [up_message p]).
Proof.
  destruct ev as [[[t|data|p|p|f]|e]|]; simpl.
  - intros [= <- <- <-]. split; [done|by left].
  - destruct (Z.ltb_spec MAX_WS_FRAME (Z.of_nat (length data))) as [|Hcap];
      [intros [= <- <- <-]; split; [done|by left]|].
    destruct (decode_inbound data in_key iv aad last) as [r l'] eqn:Hd.
    pose proof (decode_last_mono _ _ _ _ Hd) as Hm.
    destruct r as [[t|b]|e]; unfold send; [destruct ok..|]; intros [= <- <- <-];
      (split; [done|]); (by left) || (right; eauto 10).
  - unfold send. destruct ok; intros [= <- <- <-]; (split; [done|by left]).
  - unfold send. destruct ok; intros [= <- <- <-]; (split; [done|by left]).
  - unfold send_close. destruct ok; intros [= <- <- <-]; (split; [done|by left]).
  - intros [= <- <- <-]. split; [done|by left].
  - intros [= <- <- <-]. split; [done|by left].
Qed.

Lemma bridge_step_forwarded log b e :
  ClientLog log → forwarded_ok log b → forwarded_ok log (bridge_step in_key iv aad b e).
Proof.
  intros Hlog Hok. unfold bridge_step. destruct (br_end b); [done|].
  destruct e as [ev ok|ev ok].
  2: { destruct (upstream_to_client _ _ _ _) as [key [sent ending]].
       by eapply forwarded_quiet. }
  destruct (client_to_upstream _ _ _ _ _ _) as [last [sent ending]] eqn:Hc.
  apply client_step_cases in Hc as [Hle [Hnone|(data&p&_&_&Hd&->)]].
  { eapply forwarded_quiet; [done..|]. simpl. by rewrite List.filter_app, Hnone, app_nil_r. }
  apply decode_inbound_Ok in Hd as (n&pt&Hn&Ho&Hp&Hlast&Hlt&_).
  destruct Hok as (acc&Hs&Hin&Hacc&Hf).
  pose proof (cl_auth _ Hlog _ _ _ Ho) as Hsealed. rewrite (cl_nonce _ Hlog _ _ Hn) in Hsealed.
  exists (acc ++ [(take 12 data, pt)]). simpl. split_and!.
  - apply StronglySorted_snoc; [done|]. eapply Forall_impl; [exact Hacc|].
    intros s Hsl. unfold sealed_counter in *. simpl in *. lia.
  - intros s Hsin. apply elem_of_app in Hsin as [Hsin|Hsin]; [auto|].
    by apply list_elem_of_singleton in Hsin as ->.
  - apply Forall_app. split.
    + eapply Forall_impl; [exact Hacc|]. simpl. lia.
    + repeat constructor. unfold sealed_counter. simpl. lia.
  - rewrite List.filter_app, omap_app, Hf. f_equal. simpl. unfold sealed_message. simpl.
    rewrite Hp. simpl. by destruct p.
Qed.

Lemma bridge_run_forwarded log es b :
  ClientLog log → forwarded_ok log b →
  forwarded_ok log (foldl (bridge_step in_key iv aad) b es).
Proof.
  intros Hlog. revert b. induction es as [|e es IH]; intros b Hok; [done|].
  simpl. by apply IH, bridge_step_forwarded.
Qed.

Lemma bridge_run_integrity log out_key es :
  ClientLog log →
  sublist (List.filter is_data
             (br_to_upstream (foldl (bridge_step in_key iv aad) (mkBridge 0 out_key [] [] None) es)))
    (omap sealed_message log).
Proof.
  intros Hlog. destruct (bridge_run_forwarded log es (mkBridge 0 out_key [] [] None) Hlog)
    as (acc&Hs&Hin&_&->).
  { exists []. split_and!; [constructor|set_solver|constructor|done]. }
  apply sublist_omap, (sorted_sublist sealed_counter); [apply Hlog|done|done].
Qed.

(** C1: integrity of the bridge: for every sequence of events on both sides,
    whatever frames are delivered (replayed, reordered, dropped or forged),
    the application messages forwarded to the upstream are a subsequence, in
    order and without repetition, of the messages the client sealed. *)
Theorem bridge_integrity log out_key es (Hlog : ClientLog log) :
  let b := foldl (bridge_step in_key iv aad) (mkBridge 0 out_key [] [] None) es in
  sublist (List.filter is_data (br_to_upstream b)) (omap sealed_message log).
Proof. exact (bridge_run_integrity log out_key es Hlog). Qed.
End integrity.

(** ** The server's direction *)

(** What the SDK documents of a bound key: the [n]-th seal uses counter [n] in
    the nonce construction of TLS 1.3, appends a 16-byte tag, and opens under
    the key of the same bytes.  [bound_to bk k iv c]: [bk] seals for [k] and
    has sealed [c] times. *)
Class CryptoLaws `{!Crypto} := {
  bound_to : bound_key → aead_key → list Z → Z → Prop;
  bound_to_new alg kb iv bk k :
    length iv = 12%nat → BoundAeadKey_new alg kb iv = Ok bk → AeadKey_new alg kb = Ok k →
    bound_to bk k iv 0;
  bound_to_seal bk k iv c aad p :
    bound_to bk k iv c → 0 ≤ c < 2 ^ 64 - 1 →
    ∃ n ct bk', bound_seal bk aad p = (Ok (n, ct), bk') ∧ bound_to bk' k iv (c + 1) ∧
      nonce_bytes n = tls13_nonce iv (c + 1) ∧ length ct = (length p + 16)%nat ∧
      open_in_place k n aad ct = Ok p;
  nonce_slice n : nonce_from_slice (nonce_bytes n) = Ok n;
}.

Lemma try_fold_snoc {E A B} (f : B → A → result E B) acc l x :
  try_fold f acc (l ++ [x]) = try_fold f acc l ≫= λ b, f b x.
Proof.
  revert acc. induction l as [|y l IH]; intros acc; simpl.
  - by destruct (f acc x).
  - destruct (f acc y); [apply IH|done].
Qed.

Section round_trip.
Context `{CR : !Crypto, HTTP : !HttpLib, SDK : !WsSdk, LAWS : !CryptoLaws}.
Context (k : aead_key) (iv aad : list Z) (Hiv : length iv = 12%nat).

(** The peer's decoder over a sequence of frames. *)
Definition decode_all (frames : list (list Z)) : result FrameError (list InPayload * Z) :=
  try_fold (λ '(acc, last) f,
    match decode_inbound f k iv aad last with
    | (Ok p, last') => Ok (acc ++ [p], last')
    | (Err e, _) => Err e
    end) ([], 0) frames.

(** Rust strings are UTF-8. *)
Definition payload_ok (p : InPayload) : Prop :=
  match p with In_Text t => utf8_valid (as_bytes t) = true | In_Binary _ => True end.

Definition payload_type (p : InPayload) : Z :=
  match p with In_Text _ => MSG_TEXT | In_Binary _ => MSG_BINARY end.

Definition payload_bytes (p : InPayload) : list Z :=
  match p with In_Text t => as_bytes t | In_Binary b => b end.

Lemma parse_payload_bytes p :
  payload_ok p → parse_payload (payload_type p :: payload_bytes p) = Ok p.
Proof.
  destruct p as [t|b]; [|done]. simpl. unfold from_utf8. intros ->.
  simpl. by rewrite string_of_as_bytes.
Qed.

Lemma encode_decode bk c p :
  bound_to bk k iv c → 0 ≤ c < 2 ^ 64 - 1 → payload_ok p →
  ∃ frame bk', encode_outbound (payload_type p) (payload_bytes p) bk aad = (Ok frame, bk') ∧
    bound_to bk' k iv (c + 1) ∧ decode_inbound frame k iv aad c = (Ok p, c + 1).
Proof.
  intros Hb Hc Hp. unfold encode_outbound.
  destruct (bound_to_seal bk k iv c aad (payload_type p :: payload_bytes p) Hb Hc)
    as (n&ct&bk'&->&Hb'&Hn&Hlen&Hopen).
  exists (nonce_bytes n ++ ct), bk'. split_and!; [done..|].
  assert (length (nonce_bytes n) = 12%nat) as Hnl by (rewrite Hn; by apply tls13_nonce_length).
  unfold decode_inbound. rewrite bool_decide_eq_false_2.
  2: { rewrite length_app, Hlen, Hnl. unfold MIN_FRAME. simpl. lia. }
  rewrite take_app_length' by done. rewrite drop_app_length' by done.
  rewrite nonce_slice, Hn, extract_counter_nonce by (done || lia).
  destruct (Z.leb_spec (c + 1) c); [lia|]. rewrite Hopen. simpl.
  f_equal. by apply parse_payload_bytes.
Qed.

(** The data the upstream sent that the client's sink accepted. *)
Definition upstream_data (es : list BridgeEvent) : list InPayload :=
  omap (λ e, match e with
             | FromUpstream (Some (Ok (Up_Text t))) true => Some (In_Text t)
             | FromUpstream (Some (Ok (Up_Binary b))) true => Some (In_Binary b)
             | _ => None
             end) es.

Definition client_frames (b : Bridge) : list (list Z) :=
  omap (λ m, match m with Ax_Binary f => Some f | _ => None end) (br_to_client b).

Definition outbound_ok (b : Bridge) (ps : list InPayload) : Prop :=
  bound_to (br_out_key b) k iv (Z.of_nat (length ps)) ∧
  decode_all (client_frames b) = Ok (ps, Z.of_nat (length ps)).

(** One upstream payload: sealed, sent and decodable, or the bridge ends. *)
Lemma seal_to_client_ok b ps p ok key sent ending :
  outbound_ok b ps → Z.of_nat (length ps) < 2 ^ 64 - 1 → payload_ok p →
  seal_to_client (payload_type p) (payload_bytes p) (br_out_key b) aad ok = (key, (sent, ending)) →
  let b' := mkBridge (br_last_counter b) key (br_to_upstream b) (br_to_client b ++ sent) ending in
  (ok = true ∧ ending = None ∧ outbound_ok b' (ps ++ [p])) ∨
  (is_Some ending ∧ decode_all (client_frames b') = Ok (ps, Z.of_nat (length ps))).
Proof.
  intros [Hb Hd] Hlen Hp. unfold seal_to_client.
  destruct (Z.ltb_spec MAX_WS_FRAME (Z.of_nat (length (payload_bytes p)))).
  { intros [= <- <- <-]. right. split; [done|]. unfold client_frames in *. simpl.
    by rewrite app_nil_r. }
  destruct (encode_decode _ _ p Hb ltac:(lia) Hp) as (frame&bk'&->&Hb'&Hdec).
  unfold send. destruct ok; intros [= <- <- <-].
  - left. split_and!; [done..|]. split.
    + simpl. rewrite length_app, Nat2Z.inj_add. done.
    + unfold client_frames in *. simpl. rewrite omap_app. simpl.
      unfold decode_all in *. rewrite try_fold_snoc, Hd. cbn [mbind result_bind].
      rewrite Hdec, length_app, Nat2Z.inj_add. done.
  - right. split; [done|]. unfold client_frames in *. simpl. by rewrite app_nil_r.
Qed.

(** Control messages and client events add no frame. *)
Lemma outbound_quiet b b' ps :
  outbound_ok b ps → br_out_key b' = br_out_key b → client_frames b' = client_frames b →
  outbound_ok b' ps.
Proof. intros [Hb Hd] Hk Hf. split; [by rewrite Hk|by rewrite Hf]. Qed.

Definition event_ok (e : BridgeEvent) : Prop :=
  match e with
  | FromUpstream (Some (Ok (Up_Text t))) _ => utf8_valid (as_bytes t) = true
  | _ => True
  end.

(** The state of the server's direction after a run. *)
Definition outbound_inv (es : list BridgeEvent) (b : Bridge) : Prop :=
  (br_end b = None ∧ outbound_ok b (upstream_data es)) ∨
  (is_Some (br_end b) ∧ ∃ ps, ps `prefix_of` upstream_data es ∧
     decode_all (client_frames b) = Ok (ps, Z.of_nat (length ps))).

Lemma client_frames_control b last key up m ending :
  (∀ f, m ≠ Ax_Binary f) →
  client_frames (mkBridge last key up (br_to_client b ++ [m]) ending) = client_frames b.
Proof.
  intros Hm. unfold client_frames. simpl. rewrite omap_app.
  destruct m; simpl; rewrite ?app_nil_r; naive_solver.
Qed.
Lemma upstream_data_snoc es e : upstream_data (es ++ [e]) = upstream_data es ++ upstream_data [e].
Proof. unfold upstream_data. by rewrite omap_app. Qed.

(** An event that adds no frame keeps the invariant. *)
Lemma outbound_inv_quiet es e b b' :
  outbound_ok b (upstream_data es) → br_out_key b' = br_out_key b →
  client_frames b' = client_frames b →
  (br_end b' = None → upstream_data [e] = []) →
  outbound_inv (es ++ [e]) b'.
Proof.
  intros Hok Hk Hf He. unfold outbound_inv. rewrite upstream_data_snoc.
  destruct (br_end b') eqn:Hend.
  - right. split; [done|]. exists (upstream_data es). split; [by eexists|].
    rewrite Hf. apply Hok.
  - left. split; [done|]. rewrite He, app_nil_r by done. by eapply outbound_quiet.
Qed.

Lemma bridge_step_outbound in_key in_iv es e b :
  event_ok e → Z.of_nat (length (upstream_data es)) < 2 ^ 64 - 1 →
  outbound_inv es b → outbound_inv (es ++ [e]) (bridge_step in_key in_iv aad b e).
Proof.
  intros He Hlen [[Hend Hok]|[[r Hend] (ps&Hps&Hd)]]; unfold bridge_step; rewrite Hend.
  2: { right. rewrite Hend. split; [done|]. exists ps. split; [|done].
       rewrite upstream_data_snoc. by apply prefix_app_r. }
  destruct e as [ev ok|ev ok].
  { destruct (client_to_upstream _ _ _ _ _ _) as [last [sent ending]].
    by eapply outbound_inv_quiet. }
  assert (∀ p, payload_ok p → FromUpstream ev ok = FromUpstream (Some (Ok (up_message p))) ok →
    outbound_inv (es ++ [FromUpstream ev ok])
      (let '(key, (sent, ending)) :=
         seal_to_client (payload_type p) (payload_bytes p) (br_out_key b) aad ok in
       mkBridge (br_last_counter b) key (br_to_upstream b) (br_to_client b ++ sent) ending))
    as Hdata.
  { intros p Hp Hev. destruct (seal_to_client _ _ _ _ _) as [key [sent ending]] eqn:Hs.
    unfold outbound_inv. rewrite upstream_data_snoc.
    destruct (seal_to_client_ok b (upstream_data es) p ok key sent ending Hok Hlen Hp Hs)
      as [(->&->&Hok')|[Hend' Hd]].
    - left. split; [done|]. rewrite Hev. by destruct p.
    - right. split; [done|]. exists (upstream_data es). split; [by eexists|done]. }
  destruct ev as [[[t|d|p|p|f|raw]|err]|]; simpl upstream_to_client.
  - by apply (Hdata (In_Text t)).
  - by apply (Hdata (In_Binary d)).
  - unfold send. destruct ok; (eapply outbound_inv_quiet; [done..| |done]);
      [by apply client_frames_control|unfold client_frames; simpl; by rewrite app_nil_r].
  - unfold send. destruct ok; (eapply outbound_inv_quiet; [done..| |done]);
      [by apply client_frames_control|unfold client_frames; simpl; by rewrite app_nil_r].
  - unfold send_close. destruct ok; (eapply outbound_inv_quiet; [done..| |done]);
      [by apply client_frames_control|unfold client_frames; simpl; by rewrite app_nil_r].
  - eapply outbound_inv_quiet; [done..| |done]. unfold client_frames; simpl; by rewrite app_nil_r.
  - eapply outbound_inv_quiet; [done..| |done]. unfold client_frames; simpl; by rewrite app_nil_r.
  - eapply outbound_inv_quiet; [done..| |done]. unfold client_frames; simpl; by rewrite app_nil_r.
Qed.

Lemma bridge_run_outbound in_key in_iv out_key es :
  bound_to out_key k iv 0 → Forall event_ok es →
  Z.of_nat (length (upstream_data es)) < 2 ^ 64 - 1 →
  outbound_inv es (foldl (bridge_step in_key in_iv aad) (mkBridge 0 out_key [] [] None) es).
Proof.
  intros Hb. induction es as [|e es IH] using rev_ind; intros Hok Hlen.
  { left. done. }
  rewrite foldl_snoc. apply Forall_app in Hok as [Hok He]. apply Forall_cons in He as [He _].
  rewrite upstream_data_snoc, length_app in Hlen.
  apply bridge_step_outbound; [done|lia|]. apply IH; [done|lia].
Qed.

(** C10: round trip of the server's direction: on every run of the bridge the
    peer, decoding the binary frames it received with the same key, gets a
    prefix of the messages the upstream sent, and all of them as long as the
    bridge is up. *)
Theorem bridge_outbound_roundtrip in_key in_iv out_key es
    (Hkey : bound_to out_key k iv 0) (Hutf8 : Forall event_ok es)
    (Hcount : Z.of_nat (length (upstream_data es)) < 2 ^ 64 - 1) :
  let b := foldl (bridge_step in_key in_iv aad) (mkBridge 0 out_key [] [] None) es in
  ∃ ps last, decode_all (client_frames b) = Ok (ps, last) ∧
    ps `prefix_of` upstream_data es ∧ (br_end b = None → ps = upstream_data es).
Proof.
  cbv zeta. destruct (bridge_run_outbound in_key in_iv out_key es Hkey Hutf8 Hcount)
    as [[Hend [_ Hd]]|[[r Hr] (ps&Hps&Hd)]].
  - eexists _, _. split_and!; [exact Hd|done|done].
  - eexists _, _. split_and!; [exact Hd|done|]. by rewrite Hr.
Qed.
End round_trip.

(** ** Size bounds *)

Section bounds.
Context `{CR : !Crypto, HTTP : !HttpLib, SDK : !WsSdk}.
Context (in_key : aead_key) (iv aad : list Z).

Definition data_len (m : UpMessage) : Z :=
  match m with
  | Up_Text t => Z.of_nat (length (as_bytes t))
  | Up_Binary b => Z.of_nat (length b)
  | _ => 0
  end.

Definition bytes_ok (l : list Z) : Prop := Forall (λ b, 0 ≤ b < 256) l.

Lemma parse_payload_len pt p :
  bytes_ok pt → parse_payload pt = Ok p → data_len (up_message p) + 1 = Z.of_nat (length pt).
Proof.
  intros Hb. destruct pt as [|b rest]; [done|]. simpl. apply Forall_cons in Hb as [_ Hb].
  destruct (b =? MSG_TEXT).
  - unfold from_utf8. destruct (utf8_valid rest); [|done]. intros [= <-]. simpl.
    rewrite as_bytes_of_bytes by done. lia.
  - destruct (b =? MSG_BINARY); [|done]. intros [= <-]. simpl. lia.
Qed.

(** The frame cap bounds what one message makes the upstream receive:
    with a 16-byte tag, no forwarded payload is longer than the cap less the
    nonce, the type byte and the tag. *)
Theorem bridge_payload_bound out_key es
    (Hopen : ∀ n c p, open_in_place in_key n aad c = Ok p →
               bytes_ok p ∧ length c = (length p + 16)%nat) :
  let b := foldl (bridge_step in_key iv aad) (mkBridge 0 out_key [] [] None) es in
  Forall (λ m, data_len m ≤ MAX_WS_FRAME - Z.of_nat MIN_FRAME)
    (List.filter is_data (br_to_upstream b)).
Proof.
  cbv zeta. induction es as [|e es IH] using rev_ind; [constructor|].
  rewrite foldl_snoc. revert IH. generalize (foldl (bridge_step in_key iv aad)
    (mkBridge 0 out_key [] [] None) es) as b. intros b IH.
  unfold bridge_step. destruct (br_end b); [done|]. destruct e as [ev ok|ev ok].
  2: by destruct (upstream_to_client _ _ _ _) as [key [sent ending]].
  destruct (client_to_upstream _ _ _ _ _ _) as [last [sent ending]] eqn:Hc.
  apply client_step_cases in Hc as [_ Hc]. simpl. rewrite List.filter_app. apply Forall_app.
  split; [done|]. destruct Hc as [->|(data&p&_&Hcap&Hd&->)]; [constructor|].
  apply decode_inbound_Ok in Hd as (n&pt&_&Ho&Hp&_&_&Hmin).
  destruct (Hopen _ _ _ Ho) as [Hb Hl]. rewrite length_drop in Hl.
  pose proof (parse_payload_len _ _ Hb Hp) as Hlen. unfold MIN_FRAME in *.
  simpl. destruct (is_data (up_message p)); repeat constructor. lia.
Qed.

(** C36: the bridge fails closed: a client frame that is too long or does not
    decode (short, replayed, forged, malformed) ends it with an error and
    forwards nothing. *)
Theorem bridge_fail_closed b data ok
    (Hup : br_end b = None)
    (Hbad : MAX_WS_FRAME < Z.of_nat (length data) ∨
            ∃ e last, decode_inbound data in_key iv aad (br_last_counter b) = (Err e, last)) :
  let b' := bridge_step in_key iv aad b (FromClient (Some (Ok (Ax_Binary data))) ok) in
  br_to_upstream b' = br_to_upstream b ∧ br_to_client b' = br_to_client b ∧
  ∃ err, br_end b' = Some (Err err).
Proof.
  cbv zeta. unfold bridge_step. rewrite Hup. simpl.
  destruct (Z.ltb_spec MAX_WS_FRAME (Z.of_nat (length data))) as [|Hle].
  { simpl. rewrite app_nil_r. eauto. }
  destruct Hbad as [|(e&last&->)]; [lia|]. simpl. rewrite app_nil_r. eauto.
Qed.
End bounds.

(** ** The upgrade *)

Section upgrade.
Context `{CR : !Crypto, HTTP : !HttpLib, SDK : !WsSdk}.

(** A bridge that runs: the key it opens frames with, and its state. *)
Lemma run_bridge_Ok dial keys aad es b :
  run_bridge dial keys aad es = Ok b →
  ∃ in_key out_key,
    AeadKey_new (wk_algorithm keys) (wk_client_write_key keys) = Ok in_key ∧
    b = foldl (bridge_step in_key (wk_client_write_iv keys) aad) (mkBridge 0 out_key [] [] None) es.
Proof.
  unfold run_bridge. intros (?&_&Hb)%result_bind_Ok. apply result_bind_Ok in Hb as (out&_&Hb).
  apply result_bind_Ok in Hb as (in_key&Hk%map_err_Ok&Hb). injection Hb as <-. eauto.
Qed.

Definition query_suffix (query : option string) : string :=
  match query with Some q => "?" +:+ q | None => EmptyString end.

(** C40: the upstream URL of a WebSocket keeps the route's transport security
    (https and wss give wss, http and ws give ws, anything else is refused)
    and appends the request's path and query unchanged. *)
Theorem build_upstream_ws_url_spec upstream path query url :
  build_upstream_ws_url upstream path query = Ok url ↔
  let base := trim_end_matches "/" upstream in
  ∃ rest, (base = "https://" +:+ rest ∨ base = "wss://" +:+ rest) ∧
            url = "wss://" +:+ rest +:+ path +:+ query_suffix query ∨
          (base = "http://" +:+ rest ∨ base = "ws://" +:+ rest) ∧
            url = "ws://" +:+ rest +:+ path +:+ query_suffix query.
Proof.
  cbv zeta. unfold build_upstream_ws_url. generalize (trim_end_matches "/" upstream). intros base.
  assert (∀ u, match query with Some q => u +:+ "?" +:+ q | None => u end = u +:+ query_suffix query)
    as Hq by (intros u; destruct query; [done|by rewrite str_app_nil_r]).
  destruct (strip_prefix "https://" base) as [r|] eqn:E1.
  { apply strip_prefix_Some in E1 as ->. cbn [mbind result_bind]. rewrite Hq, <-!str_app_assoc.
    split; [intros [= <-]; eauto|].
    intros (rest&[[[Hb|Hb] ->]|[[Hb|Hb] ->]]); cbn in Hb; simplify_eq; done. }
  destruct (strip_prefix "http://" base) as [r|] eqn:E2.
  { apply strip_prefix_Some in E2 as ->. cbn [mbind result_bind]. rewrite Hq, <-!str_app_assoc.
    split; [intros [= <-]; eauto|].
    intros (rest&[[[Hb|Hb] ->]|[[Hb|Hb] ->]]); cbn in Hb; simplify_eq; done. }
  pose proof (proj1 (strip_prefix_None _ _) E1) as N1.
  pose proof (proj1 (strip_prefix_None _ _) E2) as N2.
  destruct (starts_with "ws://" base || starts_with "wss://" base) eqn:E3.
  - cbn [mbind result_bind]. rewrite Hq. apply orb_true_iff in E3. rewrite !starts_with_spec in E3.
    destruct E3 as [[r ->]|[r ->]]; rewrite <-!str_app_assoc; (split; [intros [= <-]; eauto 10|]);
      intros (rest&[[[Hb|Hb] ->]|[[Hb|Hb] ->]]); cbn in Hb; simplify_eq; done.
  - split; [done|]. apply orb_false_iff in E3 as [E3 E4].
    assert (∀ p, starts_with p base = false → ∀ r, base ≠ p +:+ r) as Hn.
    { intros p Hp r ->. unfold starts_with in Hp. by rewrite strip_prefix_app in Hp. }
    intros (rest&[[[Hb|Hb] _]|[[Hb|Hb] _]]); exfalso;
      [by eapply N1|exact (Hn _ E4 _ Hb)|by eapply N2|exact (Hn _ E3 _ Hb)].
Qed.

(** A WebSocket is bridged exactly when the request names a live attested
    session, a route matches, its upstream has a usable scheme and the session
    yields its keys; the frames are bound to that session's identifier. *)
Lemma ws_upgrade_handler_iff registry table meta url keys aad :
  ws_upgrade_handler registry table meta = Upgraded url keys aad ↔
  ∃ id s route, wm_base_id meta ≫= parse_atb_id = Some id ∧ registry id = Some s ∧
    is_alive s = true ∧ select table (wm_host meta) (wm_path meta) = Some route ∧
    build_upstream_ws_url (route_upstream route) (wm_path meta) (wm_query meta) = Ok url ∧
    WsKeys_from_session s = KeysReady keys ∧ aad = session_aad s.
Proof.
  unfold ws_upgrade_handler. split.
  - intros Hw. repeat (case_match; try done). simplify_eq.
    eexists _, _, _. split_and!; try done. by destruct (is_alive _).
  - intros (id&s&route&-> & -> & -> & -> & -> & -> & ->). done.
Qed.
End upgrade.

(** ** Concrete runs *)

(** A transparent cipher with a constant tag, and an ideal one whose key is
    the list of what was sealed: enough to run the bridge. *)
Module Toy.

Definition tag : list Z := replicate 16 7.

Definition toy_open (c : list Z) : result unit (list Z) :=
  if bool_decide (drop (length c - 16) c = tag) then Ok (take (length c - 16) c) else Err tt.

#[export] Instance toy : Crypto := {|
  aead_algorithm := unit; aead_key := list Z; bound_key := list Z * list Z * Z;
  aead_nonce := list Z; crypto_error := unit;
  AeadKey_new _ kb := Ok kb;
  BoundAeadKey_new _ kb iv := Ok (kb, iv, 0);
  nonce_from_slice bs := Ok bs;
  nonce_bytes n := n;
  open_in_place _ _ _ c := toy_open c;
  bound_open _ _ _ c := toy_open c;
  bound_seal bk _ p := (Ok (tls13_nonce bk.1.2 (bk.2 + 1), p ++ tag), (bk.1, bk.2 + 1)) |}.

Definition ideal_open (log : list (list Z * list Z)) (n c : list Z) : result unit (list Z) :=
  p ← toy_open c; if bool_decide ((n, p) ∈ log) then Ok p else Err tt.

Lemma toy_open_length c p : toy_open c = Ok p → length c = (length p + 16)%nat.
Proof.
  unfold toy_open. case_bool_decide as Ht; [|done]. intros [= <-].
  pose proof (f_equal length Ht) as Hl. rewrite length_drop in Hl. rewrite length_take.
  change (length tag) with 16%nat in Hl. lia.
Qed.

Lemma ideal_open_Ok log n c p :
  ideal_open log n c = Ok p → (n, p) ∈ log ∧ length c = (length p + 16)%nat.
Proof.
  intros (q&Hq&Hp)%result_bind_Ok. case_bool_decide; [|done]. injection Hp as ->.
  split; [done|by apply toy_open_length].
Qed.

Definition ideal : Crypto := {|
  aead_algorithm := unit; aead_key := list (list Z * list Z); bound_key := unit;
  aead_nonce := list Z; crypto_error := unit;
  AeadKey_new _ _ := Err tt;
  BoundAeadKey_new _ _ _ := Err tt;
  nonce_from_slice bs := Ok bs;
  nonce_bytes n := n;
  open_in_place log n _ c := ideal_open log n c;
  bound_open _ _ _ _ := Err tt;
  bound_seal bk _ _ := (Err tt, bk) |}.

#[export] Program Instance toy_laws : CryptoLaws := {|
  bound_to bk k iv c := bk = (k, iv, c);
|}.
Next Obligation. intros alg kb iv bk k _ [= <-] [= <-]. done. Qed.
Next Obligation.
  intros bk k iv c aad p -> _. eexists _, _, _. split_and!; try done.
  - by rewrite length_app.
  - simpl. unfold toy_open. rewrite length_app.
    replace (length p + length tag - 16)%nat with (length p) by (simpl; lia).
    rewrite drop_app_length, take_app_length. by rewrite bool_decide_eq_true_2.
Qed.
Next Obligation. done. Qed.

Definition sdk (c : Crypto) (alg : @aead_algorithm c) : @WsSdk c := {|
  HDR_ATTEST_BASE_ID := "attest-base-id"; atb_id := string;
  parse_atb_id s := Some s; session := string; session_id s := s; is_alive _ := true;
  session_algorithm _ := alg; peek_keys _ := None; ws_error := unit |}.

Definition toy_sdk : @WsSdk toy := sdk toy tt.
Definition ideal_sdk : @WsSdk ideal := sdk ideal tt.

Definition iv : list Z := replicate 12 3.

(** Two sealed messages of twenty bytes. *)
Definition pt (b : Z) : list Z := MSG_BINARY :: replicate 19 b.
Definition log : list (list Z * list Z) := [(tls13_nonce iv 1, pt 5); (tls13_nonce iv 2, pt 6)].
Definition frame (s : list Z * list Z) : list Z := s.1 ++ s.2 ++ tag.

(** The first message, then a replay of it. *)
Definition replay_run : list (@BridgeEvent ideal ideal_sdk) :=
  [FromClient (Some (Ok (Ax_Binary (frame (tls13_nonce iv 1, pt 5))))) true;
   FromClient (Some (Ok (Ax_Text "ignored"))) true;
   FromClient (Some (Ok (Ax_Binary (frame (tls13_nonce iv 1, pt 5))))) true].

Definition chat_run : list (@BridgeEvent toy toy_sdk) :=
  [FromUpstream (Some (Ok (Up_Text "hello"))) true;
   FromUpstream (Some (Ok (Up_Ping []))) true;
   FromUpstream (Some (Ok (Up_Binary [1; 2; 3]))) true].
End Toy.

Lemma bridge_integrity_witness :
  let b := foldl (bridge_step (CR := Toy.ideal) (SDK := Toy.ideal_sdk) Toy.log Toy.iv [])
             (mkBridge (CR := Toy.ideal) 0 tt [] [] None) Toy.replay_run in
  List.filter is_data (br_to_upstream b) = [Up_Binary (replicate 19 5)] ∧
  sublist (List.filter is_data (br_to_upstream b)) (omap (sealed_message (CR := Toy.ideal)) Toy.log).
Proof.
  split; [vm_compute; reflexivity|].
  apply (bridge_integrity (CR := Toy.ideal) (SDK := Toy.ideal_sdk)
           Toy.log Toy.iv [] Toy.log tt Toy.replay_run).
  split.
  - intros bs n [= ->]. reflexivity.
  - intros n c p Hp. apply (Toy.ideal_open_Ok _ _ _ _ Hp).
  - repeat constructor.
Defined.

Lemma bridge_outbound_roundtrip_witness :
  let b := foldl (bridge_step (CR := Toy.toy) (SDK := Toy.toy_sdk) [] Toy.iv [])
             (mkBridge (CR := Toy.toy) 0 ([], Toy.iv, 0) [] [] None) Toy.chat_run in
  ∃ ps last, decode_all (CR := Toy.toy) [] Toy.iv [] (client_frames b) = Ok (ps, last) ∧
    ps = [In_Text "hello"; In_Binary [1; 2; 3]].
Proof.
  destruct (bridge_outbound_roundtrip (CR := Toy.toy) (SDK := Toy.toy_sdk) (LAWS := Toy.toy_laws)
              [] Toy.iv [] eq_refl [] Toy.iv ([], Toy.iv, 0) Toy.chat_run)
    as (ps&last&Hd&_&Hps).
  - reflexivity.
  - repeat constructor.
  - vm_compute. reflexivity.
  - exists ps, last. split; [exact Hd|].
    refine (eq_trans (Hps _) _); reflexivity.
Defined.

Lemma bridge_payload_bound_witness :
  let b := foldl (bridge_step (CR := Toy.ideal) (SDK := Toy.ideal_sdk) Toy.log Toy.iv [])
             (mkBridge (CR := Toy.ideal) 0 tt [] [] None) Toy.replay_run in
  Forall (λ m, data_len m ≤ MAX_WS_FRAME - Z.of_nat MIN_FRAME)
    (List.filter is_data (br_to_upstream b)).
Proof.
  apply (bridge_payload_bound (CR := Toy.ideal) (SDK := Toy.ideal_sdk) Toy.log Toy.iv [] tt
           Toy.replay_run).
  intros n c p Hp. destruct (Toy.ideal_open_Ok _ _ _ _ Hp) as [Hin Hl]. split; [|exact Hl].
  unfold Toy.log in Hin. apply elem_of_cons in Hin as [[= _ ->]|Hin].
  - apply (bool_decide_unpack _). vm_compute. constructor.
  - apply list_elem_of_singleton in Hin as [= _ ->].
    apply (bool_decide_unpack _). vm_compute. constructor.
Defined.

Lemma bridge_fail_closed_witness :
  let b := mkBridge (CR := Toy.ideal) (SDK := Toy.ideal_sdk) 0 tt [] [] None in
  let b' := bridge_step (CR := Toy.ideal) (SDK := Toy.ideal_sdk) Toy.log Toy.iv [] b
              (FromClient (Some (Ok (Ax_Binary [0]))) true) in
  br_to_upstream b' = [] ∧ br_to_client b' = [] ∧ ∃ err, br_end b' = Some (Err err).
Proof.
  apply (bridge_fail_closed (CR := Toy.ideal) (SDK := Toy.ideal_sdk) Toy.log Toy.iv []
           (mkBridge (CR := Toy.ideal) (SDK := Toy.ideal_sdk) 0 tt [] [] None) [0] true).
  - reflexivity.
  - right. eexists _, _. vm_compute. reflexivity.
Defined.
