(* ===== verification/Proxy.v ===== *)
(** * The attested reverse proxy ([src/proxy.rs], [src/envelope.rs])

    Opening a trusted request, forwarding it to the selected upstream and
    sealing the response stream; the dispatch of WebSocket upgrades and the
    observability endpoints. *)

From S2P Require Import Prelude RustStr SocketAddr Routing Float Metrics Http Ws.

Local Open Scope Z_scope.

Definition HDR_ATTEST_REAL_METHOD : string := "attest-real-method".

(** ** Wire frames of the response *)

Inductive StreamFrame :=
| Head (status : Z) (headers : list (string * string))
| Body (data : list Z).

Inductive LlmError := Transport (message : string).

(** ** Operations of the SDK and of the libraries *)

Inductive TicketError := Ticket_Missing | Ticket_Malformed.

Class ProxySdk `{CR : !Crypto} := {
  (** [OpenHttpaSession]: its bound data, and its extraction, whose failure is
      a response of the SDK. *)
  psession : Type;
  sdk_response : Type;
  ps_aad : psession → list Z;
  session_from_parts : Parts → result sdk_response psession;
  (** [decode_attest_ticket]: the nonce and the MAC. *)
  decode_attest_ticket : HeaderMap → result TicketError (Z * list Z);
  (** [axum::body::to_bytes], [serde_json::from_slice] of the envelope and
      [hex::decode]. *)
  http_body : Type;
  to_bytes : http_body → Z → option (list Z);
  parse_envelope : list Z → option string;
  hex_decode_body : string → option (list Z);
  (** [with_keys_for_trr]: the keys for a fresh nonce. *)
  trr_error : Type;
  with_keys_for_trr : ∀ {A : Type}, psession → Z → (SessionKeys → Z → A) → result trr_error A;
  (** HMAC-SHA-384 and the header list it covers. *)
  hmac_state : Type;
  hmac_new : list Z → option hmac_state;
  hmac_update : hmac_state → list Z → hmac_state;
  hmac_verify : hmac_state → list Z → bool;
  ahl_error : Type;
  ahl_chunks : string → string → option string → string → HeaderMap →
               result ahl_error (list (list Z));
  Aes256Gcm : aead_algorithm;
}.

Section proxy.
Context `{CR : !Crypto, HTTP : !HttpLib, WSDK : !WsSdk, PSDK : !ProxySdk}.

(** ** The trusted request *)

Record DecryptedRequest := mkDecryptedRequest {
  dr_session : psession;
  dr_method : string;
  dr_path : string;
  dr_query : option string;
  dr_host : string;
  dr_body : list Z;
}.

(** The text of a rejection. *)
Inductive Message :=
| Text (s : string)
| AhlMessage (e : ahl_error)
| TrrMessage (e : trr_error).

Inductive Rejection :=
| Rejection_Sdk (r : sdk_response)
| Reject (status : StatusCode) (message : Message).

(** A handler returns, rejects or panics. *)
Inductive Extracted (A : Type) :=
| Extracted_Ok (a : A)
| Extracted_Reject (r : Rejection)
| Extracted_Panic.
Arguments Extracted_Ok {A}.
Arguments Extracted_Reject {A}.
Arguments Extracted_Panic {A}.

Definition JSON_OVERHEAD : Z := 64.

Definition pre_decrypt_cap (max_body_bytes : Z) : Z :=
  saturating_add (saturating_mul (saturating_add max_body_bytes 16) 2) JSON_OVERHEAD.

(** The closure passed to [with_keys_for_trr]: verify the ticket's MAC, then
    open the body. *)
Definition open_trusted (s : psession) (nonce_val : Z) (mac_val : list Z) (parts : Parts)
    (path : string) (query : option string) (authority : string) (ciphertext : list Z)
    (keys : SessionKeys) : Extracted (list Z) :=
  match hmac_new (client_mac_key keys) with
  | None => Extracted_Reject (Reject INTERNAL_SERVER_ERROR (Text "HMAC init failed"))
  | Some h =>
      let h := hmac_update h (be_encode 8 nonce_val) in
      match ahl_chunks (p_method parts) path query authority (p_headers parts) with
      | Err e => Extracted_Reject (Reject BAD_REQUEST (AhlMessage e))
      | Ok chunks =>
          let h := foldl hmac_update h chunks in
          if negb (hmac_verify h mac_val)
          then Extracted_Reject (Reject UNAUTHORIZED (Text "Invalid header MAC"))
          else if negb (bool_decide (length (client_write_iv keys) = 12%nat)) then Extracted_Panic
          else
            match nonce_from_slice (tls13_nonce (client_write_iv keys) nonce_val) with
            | Err _ => Extracted_Panic
            | Ok nonce =>
                match BoundAeadKey_new Aes256Gcm (client_write_key keys) (client_write_iv keys) with
                | Err _ => Extracted_Reject (Reject INTERNAL_SERVER_ERROR (Text "Key setup failed"))
                | Ok key =>
                    match bound_open key nonce (ps_aad s) ciphertext with
                    | Err _ => Extracted_Reject (Reject BAD_REQUEST (Text "Decryption failed"))
                    | Ok p => Extracted_Ok p
                    end
                end
            end
      end
  end.

(** The path and query as the client sees them. *)
Definition client_path (parts : Parts) : string :=
  uri_path (default (p_uri parts) (p_original_uri parts)).
Definition client_query (parts : Parts) : option string :=
  uri_query (default (p_uri parts) (p_original_uri parts)).

Definition request_authority (parts : Parts) : string :=
  match uri_authority (p_uri parts) with
  | Some a => a
  | None => default EmptyString (hdr_get (p_headers parts) "host" ≫= header_to_str)
  end.

Definition real_method (parts : Parts) : string :=
  default (p_method parts)
    (v ← hdr_get (p_headers parts) HDR_ATTEST_REAL_METHOD;
     m ← header_to_str v;
     method_from_bytes (as_bytes m)).

(** [DecryptedRequest::from_request]. *)
Definition from_request (max_body_bytes : Z) (metrics : Metrics) (parts : Parts) (body : http_body)
  : Extracted DecryptedRequest * Metrics :=
  let reject st msg := (Extracted_Reject (Reject st (Text msg)), metrics) in
  match session_from_parts parts with
  | Err r => (Extracted_Reject (Rejection_Sdk r), metrics)
  | Ok session =>
      match decode_attest_ticket (p_headers parts) with
      | Err e => reject (match e with Ticket_Missing => UNAUTHORIZED | _ => BAD_REQUEST end)
                   "Invalid Attest-Ticket format"
      | Ok (nonce_val, mac_val) =>
          match to_bytes body (pre_decrypt_cap max_body_bytes) with
          | None => reject PAYLOAD_TOO_LARGE "Encrypted request envelope too large"
          | Some body_bytes =>
              match parse_envelope body_bytes with
              | None => reject BAD_REQUEST "Invalid request envelope"
              | Some hex =>
                  match hex_decode_body hex with
                  | None => reject BAD_REQUEST "Invalid ciphertext hex"
                  | Some ciphertext =>
                      let path := client_path parts in
                      let query := client_query parts in
                      let authority := request_authority parts in
                      if is_empty authority
                      then reject BAD_REQUEST
                             "Missing Host / authority header — required for AHL integrity"
                      else
                        match with_keys_for_trr session nonce_val (λ keys _,
                                open_trusted session nonce_val mac_val parts path query authority
                                  ciphertext keys) with
                        | Err e =>
                            (Extracted_Reject (Reject UNAUTHORIZED (TrrMessage e)),
                             inc_decrypt_failures metrics)
                        | Ok (Extracted_Reject r) =>
                            (Extracted_Reject r, inc_decrypt_failures metrics)
                        | Ok Extracted_Panic => (Extracted_Panic, metrics)
                        | Ok (Extracted_Ok plaintext) =>
                            (Extracted_Ok (mkDecryptedRequest session (real_method parts) path
                                             query authority plaintext), metrics)
                        end
                  end
              end
          end
      end
  end.

(** ** Forwarding *)

Definition STATIC_HOP_BY_HOP : list string :=
  ["content-length"; "transfer-encoding"; "connection"; "keep-alive"; "proxy-authenticate";
   "proxy-authorization"; "te"; "trailer"; "upgrade"].

(** A response of the upstream; a chunk is bytes or a read error. *)
Record UpstreamResponse := mkUpstreamResponse {
  up_status : Z;
  up_headers : HeaderMap;
  up_content_length : option Z;
  up_chunks : list (option (list Z));
}.

(** The HTTP client: a response, or an error that may be a timeout. *)
Inductive UpstreamResult :=
| Upstream_Ok (r : UpstreamResponse)
| Upstream_Err (is_timeout : bool).

(** Every answer of the handler is sealed for the request's session: a stream
    of frames and transport errors. *)
Record SealedResponse := mkSealedResponse {
  sr_session : psession;
  sr_frames : list (result LlmError StreamFrame);
}.

Definition seal_error (s : psession) (status : StatusCode) (message : string) : SealedResponse :=
  mkSealedResponse s
    [Ok (Head (as_u16 status) [("content-type", "text/plain")]); Ok (Body (as_bytes message))].

(** The names an upstream lists in its [Connection] header. *)
Definition connection_names (h : HeaderMap) : list string :=
  match hdr_get h "connection" ≫= header_to_str with
  | Some v => List.filter (λ t, negb (is_empty t))
                ((λ t, to_ascii_lowercase (trim t)) <$> split (λ a, Ascii.eqb a ",") v)
  | None => []
  end.

Definition strip_set (h : HeaderMap) : gset string :=
  list_to_set (connection_names h) ∪ list_to_set STATIC_HOP_BY_HOP.

Definition forwarded_headers (h : HeaderMap) : list (string * string) :=
  omap (λ '(name, value), v ← header_to_str value; Some (name, v))
    (List.filter (λ nv, negb (bool_decide (nv.1 ∈ strip_set h))) h).

(** The [scan] over the upstream's chunks with its running total. *)
Fixpoint body_frames (max acc : Z) (chunks : list (option (list Z)))
  : list (result LlmError StreamFrame) :=
  match chunks with
  | [] => []
  | Some c :: chunks =>
      let acc := saturating_add acc (Z.of_nat (length c)) in
      (if max <? acc then Err (Transport "upstream body too large") else Ok (Body c))
        :: body_frames max acc chunks
  | None :: chunks =>
      Err (Transport "upstream body read failed") :: body_frames max acc chunks
  end.

Definition upstream_url (upstream path : string) (query : option string) : string :=
  let url := trim_end_matches "/" upstream +:+ path in
  match query with Some q => url +:+ "?" +:+ q | None => url end.

(** The response to an upstream that answered. *)
Definition relay (s : psession) (max : Z) (r : UpstreamResponse) : SealedResponse :=
  let headers := forwarded_headers (up_headers r) in
  match up_content_length r with
  | Some len =>
      if max <? len then seal_error s PAYLOAD_TOO_LARGE "upstream body too large"
      else mkSealedResponse s (Ok (Head (up_status r) headers) :: body_frames max 0 (up_chunks r))
  | None => mkSealedResponse s (Ok (Head (up_status r) headers) :: body_frames max 0 (up_chunks r))
  end.

(** [proxy_handler] up to its upstream call: an error answer, or the method
    and the URL of the call. *)
Definition route_request (max : Z) (table : RouteTable) (req : DecryptedRequest)
  : result SealedResponse (string * string) :=
  let s := dr_session req in
  if max <? Z.of_nat (length (dr_body req))
  then Err (seal_error s PAYLOAD_TOO_LARGE "request body too large")
  else
    match select table (dr_host req) (dr_path req) with
    | None => Err (seal_error s NOT_FOUND "no route matched")
    | Some route =>
        let url := upstream_url (route_upstream route) (dr_path req) (dr_query req) in
        match method_from_bytes (as_bytes (dr_method req)) with
        | None => Err (seal_error s BAD_REQUEST "invalid method")
        | Some method => Ok (method, url)
        end
    end.

(** The answer to a call that failed. *)
Definition upstream_failed (s : psession) (is_timeout : bool) : SealedResponse :=
  seal_error s (if is_timeout then GATEWAY_TIMEOUT else BAD_GATEWAY) "upstream request failed".

(** [proxy_handler], run without interruption; [http] is the client and
    [elapsed] the measured latency.  The last component is the upstream call
    made, if any. *)
Definition proxy_handler (max : Z) (table : RouteTable) (metrics : Metrics)
    (http : string → string → list Z → UpstreamResult) (elapsed : f64) (req : DecryptedRequest)
  : SealedResponse * Metrics * option (string * string * list Z) :=
  match route_request max table req with
  | Err resp => (resp, metrics, None)
  | Ok (method, url) =>
      let metrics := inc_upstream_requests metrics in
      let resp := http method url (dr_body req) in
      let metrics := observe_upstream_latency metrics elapsed in
      match resp with
      | Upstream_Err is_timeout =>
          (upstream_failed (dr_session req) is_timeout, inc_upstream_errors metrics,
           Some (method, url, dr_body req))
      | Upstream_Ok r => (relay (dr_session req) max r, metrics, Some (method, url, dr_body req))
      end
  end.

(** ** Endpoints and dispatch *)

Definition healthz : StatusCode * string := (OK_200, "ok").
Definition readyz : StatusCode * string := (OK_200, "ready").

Definition metrics_handler (metrics : Metrics) (active : Z)
  : StatusCode * list (string * string) * string :=
  (OK_200, [("content-type", "text/plain; version=0.0.4; charset=utf-8")],
   render_prometheus metrics active).

(** The layer around the handshake router: a successful [POST /attest] is
    counted; [status] is the inner router's answer. *)
Definition count_handshake (parts : Parts) (status : Z) (metrics : Metrics) : Metrics :=
  if bool_decide (p_method parts = "POST") && bool_decide (uri_path (p_uri parts) = "/attest") &&
     ((200 <=? status) && (status <? 300))
  then inc_handshakes metrics else metrics.

Definition ws_meta (parts : Parts) : WsRequestMeta :=
  mkWsRequestMeta
    (default EmptyString
       (option_or (uri_authority (p_uri parts))
          (hdr_get (p_headers parts) "host" ≫= header_to_str)))
    (uri_path (p_uri parts)) (uri_query (p_uri parts))
    (hdr_get (p_headers parts) HDR_ATTEST_BASE_ID ≫= header_to_str).

(** [ws_dispatch_middleware]: [None] passes the request on; [extractable] is
    whether the [WebSocketUpgrade] extractor accepts it. *)
Definition ws_dispatch (extractable : Parts → bool) (registry : atb_id → option session)
    (table : RouteTable) (parts : Parts) : option UpgradeOutcome :=
  if negb (is_attested_ws_upgrade parts) then None
  else if extractable parts then Some (ws_upgrade_handler registry table (ws_meta parts))
  else None.

End proxy.
Arguments Extracted_Ok {CR PSDK A}.
Arguments Extracted_Reject {CR PSDK A}.
Arguments Extracted_Panic {CR PSDK A}.
