(* ===== verification/ProxySpec.v ===== *)
(** * Correctness of the reverse proxy

    Authenticity of what the handler acts on, the size caps of both
    directions, header stripping, and the handler's decision table with its
    metrics. *)

From S2P Require Import Prelude RustStr SocketAddr Routing Float Metrics Http Ws WsSpec Proxy.

Local Open Scope Z_scope.

Section spec.
Context `{CR : !Crypto, HTTP : !HttpLib, WSDK : !WsSdk, PSDK : !ProxySdk}.

(** ** Opening a request *)

(** [with_keys_for_trr] answers with what the closure returns on the keys of
    the session. *)
Definition keys_law (keys_of : psession → Z → SessionKeys → Prop) : Prop :=
  ∀ A s nonce (f : SessionKeys → Z → A) r,
    with_keys_for_trr s nonce f = Ok r → ∃ keys ctr, keys_of s nonce keys ∧ r = f keys ctr.

(** The header MAC over a nonce and the authenticated header list. *)
Definition ticket_mac (keys : SessionKeys) (nonce : Z) (method path : string)
    (query : option string) (authority : string) (h : HeaderMap) : option hmac_state :=
  st ← hmac_new (client_mac_key keys);
  chunks ← result_ok (ahl_chunks method path query authority h);
  Some (foldl hmac_update (hmac_update st (be_encode 8 nonce)) chunks).

Lemma open_trusted_Ok s nonce mac parts path query authority ct keys p :
  open_trusted s nonce mac parts path query authority ct keys = Extracted_Ok p ↔
  ∃ st n key, ticket_mac keys nonce (p_method parts) path query authority (p_headers parts) = Some st ∧
    hmac_verify st mac = true ∧ length (client_write_iv keys) = 12%nat ∧
    nonce_from_slice (tls13_nonce (client_write_iv keys) nonce) = Ok n ∧
    BoundAeadKey_new Aes256Gcm (client_write_key keys) (client_write_iv keys) = Ok key ∧
    bound_open key n (ps_aad s) ct = Ok p.
Proof.
  unfold open_trusted, ticket_mac.
  destruct (hmac_new _) as [h|]; simpl; [|absurd_iff].
  destruct (ahl_chunks _ _ _ _ _) as [chunks|]; simpl; [|absurd_iff].
  destruct (hmac_verify _ mac) eqn:Hv; simpl; [|absurd_iff].
  case_bool_decide as Hl; simpl; [|absurd_iff].
  destruct (nonce_from_slice _) as [n|]; [|absurd_iff].
  destruct (BoundAeadKey_new _ _ _) as [key|]; [|absurd_iff].
  destruct (bound_open _ _ _ _) as [q|] eqn:Ho.
  - split; [intros [= <-]; by eauto 10|].
    intros (st&n'&key'&_&_&_&[= <-]&[= <-]&Hq). congruence.
  - split; [done|]. intros (st&n'&key'&_&_&_&[= <-]&[= <-]&Hq). congruence.
Qed.

Lemma from_request_Ok max m parts body d m' :
  from_request max m parts body = (Extracted_Ok d, m') ↔
  m' = m ∧ ∃ nonce mac bytes hex ct,
    session_from_parts parts = Ok (dr_session d) ∧
    decode_attest_ticket (p_headers parts) = Ok (nonce, mac) ∧
    to_bytes body (pre_decrypt_cap max) = Some bytes ∧
    parse_envelope bytes = Some hex ∧ hex_decode_body hex = Some ct ∧
    dr_host d ≠ EmptyString ∧ dr_host d = request_authority parts ∧
    dr_path d = client_path parts ∧ dr_query d = client_query parts ∧
    dr_method d = real_method parts ∧
    with_keys_for_trr (dr_session d) nonce (λ keys _,
      open_trusted (dr_session d) nonce mac parts (dr_path d) (dr_query d) (dr_host d) ct keys) =
    Ok (Extracted_Ok (dr_body d)).
Proof.
  unfold from_request. cbv zeta.
  destruct (session_from_parts parts) as [s|]; [|absurd_iff].
  destruct (decode_attest_ticket _) as [[nonce mac]|]; [|absurd_iff].
  destruct (to_bytes _ _) as [bytes|]; [|absurd_iff].
  destruct (parse_envelope bytes) as [hex|] eqn:He; [|absurd_iff].
  destruct (hex_decode_body hex) as [ct|] eqn:Hh; [|absurd_iff].
  destruct (is_empty (request_authority parts)) eqn:Ha.
  { split; [done|]. intros (_&?&?&?&?&?&_&_&_&_&_&Hne&Hho&_).
    rewrite Hho in Hne. by destruct (request_authority parts). }
  split.
  - destruct (with_keys_for_trr _ _ _) as [[p|r|]|e] eqn:Hk; try done. intros [= <- <-].
    split; [done|]. eexists nonce, mac, bytes, hex, ct. simpl. split_and!; try done.
    intros Hn. by rewrite Hn in Ha.
  - intros (->&nonce1&mac1&bytes1&hex1&ct1&[= ->]&[= <- <-]&[= <-]&He1&Hh1&Hne&Hho&Hp&Hq&Hm&Hk).
    rewrite He in He1. injection He1 as <-. rewrite Hh in Hh1. injection Hh1 as <-.
    destruct d as [ds dm dp dq dh db]. simpl in *. subst. by rewrite Hk.
Qed.

(** C2: authenticity: a request reaches the handler only if its ticket's MAC
    verifies, under the session's key, over the nonce and exactly the path,
    query, authority and headers the handler routes by, which are those of the
    request, and its body is the opening, under that nonce and the session's
    data, of the ciphertext in the hex envelope that the request's body holds. *)
Theorem from_request_authentic keys_of max m parts body d m'
    (Hlaw : keys_law keys_of)
    (Hreq : from_request max m parts body = (Extracted_Ok d, m')) :
  ∃ nonce mac keys st bytes hex ct n key,
    session_from_parts parts = Ok (dr_session d) ∧
    decode_attest_ticket (p_headers parts) = Ok (nonce, mac) ∧
    keys_of (dr_session d) nonce keys ∧
    dr_host d = request_authority parts ∧ dr_path d = client_path parts ∧
    dr_query d = client_query parts ∧
    ticket_mac keys nonce (p_method parts) (dr_path d) (dr_query d) (dr_host d) (p_headers parts)
      = Some st ∧ hmac_verify st mac = true ∧
    to_bytes body (pre_decrypt_cap max) = Some bytes ∧ parse_envelope bytes = Some hex ∧
    hex_decode_body hex = Some ct ∧
    nonce_from_slice (tls13_nonce (client_write_iv keys) nonce) = Ok n ∧
    BoundAeadKey_new Aes256Gcm (client_write_key keys) (client_write_iv keys) = Ok key ∧
    bound_open key n (ps_aad (dr_session d)) ct = Ok (dr_body d) ∧
    dr_host d ≠ EmptyString ∧ dr_method d = real_method parts.
Proof.
  apply from_request_Ok in Hreq
    as (_&nonce&mac&bytes&hex&ct&Hs&Ht&Hb&He&Hh&Hne&Hho&Hp&Hq&Hm&Hk).
  destruct (Hlaw _ _ _ _ _ Hk) as (keys&ctr&Hkeys&Ho).
  symmetry in Ho. apply open_trusted_Ok in Ho as (st&n&key&Hst&Hv&_&Hn&Hkey&Hopen).
  exists nonce, mac, keys, st, bytes, hex, ct, n, key. done.
Qed.

(** The failure counter is exact: it grows by one when the keys are
    refused, the MAC does not verify or the body does not open, and no other
    outcome and no other counter changes. *)
Theorem from_request_metrics max m parts body r m'
    (Hreq : from_request max m parts body = (r, m')) :
  m' = m ∨
  m' = inc_decrypt_failures m ∧ ∃ rej s nonce mac bytes hex ct,
    r = Extracted_Reject rej ∧ session_from_parts parts = Ok s ∧
    decode_attest_ticket (p_headers parts) = Ok (nonce, mac) ∧
    to_bytes body (pre_decrypt_cap max) = Some bytes ∧
    parse_envelope bytes = Some hex ∧ hex_decode_body hex = Some ct ∧
    match with_keys_for_trr s nonce (λ keys _,
            open_trusted s nonce mac parts (client_path parts) (client_query parts)
              (request_authority parts) ct keys) with
    | Err _ => True
    | Ok o => o = Extracted_Reject rej
    end.
Proof.
  unfold from_request in Hreq. cbv zeta in Hreq.
  destruct (session_from_parts parts) as [s|]; [|injection Hreq as <- <-; by left].
  destruct (decode_attest_ticket _) as [[nonce mac]|]; [|injection Hreq as <- <-; by left].
  destruct (to_bytes _ _) as [bytes|]; [|injection Hreq as <- <-; by left].
  destruct (parse_envelope bytes) as [hex|] eqn:He; [|injection Hreq as <- <-; by left].
  destruct (hex_decode_body hex) as [ct|] eqn:Hh; [|injection Hreq as <- <-; by left].
  destruct (is_empty (request_authority parts)) eqn:Ha; [injection Hreq as <- <-; by left|].
  destruct (with_keys_for_trr _ _ _) as [[p|rej|]|e] eqn:Hk; injection Hreq as <- <-; [by left| |by left|].
  - right. split; [done|]. exists rej, s, nonce, mac, bytes, hex, ct. by rewrite Hk.
  - right. split; [done|]. eexists _, s, nonce, mac, bytes, hex, ct. by rewrite Hk.
Qed.

(** ** The envelope cap *)

(** The JSON envelope of a ciphertext in hexadecimal. *)
Definition envelope (hex : string) : string :=
  "{" +:+ dq +:+ "ciphertext" +:+ dq +:+ ":" +:+ dq +:+ hex +:+ dq +:+ "}".

Lemma envelope_length hex : String.length (envelope hex) = (17 + String.length hex)%nat.
Proof. unfold envelope. rewrite !str_length_app. simpl. lia. Qed.

(** The cap before decryption admits the envelope of every plaintext
    within the body limit (hexadecimal doubles plaintext and tag), buffers no
    more than twice the limit plus 96 bytes, and does not overflow. *)
Theorem pre_decrypt_cap_correct max n hex
    (Hmax : 0 ≤ max ≤ usize_max)
    (Hhex : Z.of_nat (String.length hex) = 2 * (n + 16)) :
  (n ≤ max → Z.of_nat (String.length (envelope hex)) ≤ usize_max →
   Z.of_nat (String.length (envelope hex)) ≤ pre_decrypt_cap max) ∧
  pre_decrypt_cap max ≤ 2 * max + 96 ∧ 0 ≤ pre_decrypt_cap max ≤ usize_max.
Proof.
  rewrite envelope_length, Nat2Z.inj_add, Hhex.
  unfold pre_decrypt_cap, saturating_add, saturating_mul, JSON_OVERHEAD, usize_max in *.
  split_and!; try lia.
Qed.

(** ** The response stream *)

Definition frame_data (f : result LlmError StreamFrame) : list Z :=
  match f with Ok (Body d) => d | _ => [] end.

Definition sum_len (l : list (list Z)) : Z := foldr (λ c n, Z.of_nat (length c) + n) 0 l.

Lemma sum_len_nonneg l : 0 ≤ sum_len l.
Proof. induction l; simpl; lia. Qed.

Lemma body_frames_total max acc chunks :
  max < usize_max → 0 ≤ acc →
  acc + sum_len (frame_data <$> body_frames max acc chunks) ≤ Z.max acc max.
Proof.
  intros Hmax.
  revert acc. induction chunks as [|[c|] chunks IH]; intros acc Hacc; [simpl; lia| |];
    cbn [body_frames]; rewrite fmap_cons; cbn [sum_len foldr].
  - set (acc' := saturating_add acc (Z.of_nat (length c))).
    assert (0 ≤ acc') as Hacc' by (unfold acc', saturating_add, usize_max; lia).
    specialize (IH acc' Hacc').
    pose proof (sum_len_nonneg (frame_data <$> body_frames max acc' chunks)) as Hnn.
    fold (sum_len (frame_data <$> body_frames max acc' chunks)).
    destruct (Z.ltb_spec max acc') as [Hgt|Hle]; cbn [frame_data length].
    + lia.
    + unfold acc', saturating_add in *. lia.
  - apply (IH acc Hacc).
Qed.

Lemma body_frames_complete max acc chunks :
  0 ≤ acc → max ≤ usize_max → acc + sum_len chunks ≤ max →
  body_frames max acc (Some <$> chunks) = (λ c, Ok (Body c)) <$> chunks.
Proof.
  revert acc. induction chunks as [|c chunks IH]; intros acc Hacc Hmax Hsum; [done|].
  pose proof (sum_len_nonneg chunks). rewrite !fmap_cons. cbn [body_frames]. simpl in Hsum.
  assert (saturating_add acc (Z.of_nat (length c)) = acc + Z.of_nat (length c)) as ->
    by (unfold saturating_add; lia).
  destruct (Z.ltb_spec max (acc + Z.of_nat (length c))); [lia|]. by rewrite IH by lia.
Qed.

(** The frames before the first error are the upstream's chunks. *)
Lemma body_frames_prefix max acc chunks pre post :
  body_frames max acc chunks = pre ++ post → Forall (λ f, is_ok f = true) pre →
  (λ f, Some (frame_data f)) <$> pre `prefix_of` chunks.
Proof.
  revert acc pre. induction chunks as [|[c|] chunks IH]; intros acc pre Heq Hok; simpl in Heq.
  - by destruct pre.
  - destruct pre as [|f pre]; [apply prefix_nil|]. injection Heq as <- Heq.
    apply Forall_cons in Hok as [Hf Hok]. destruct (max <? _); [done|]. simpl.
    apply prefix_cons. by eapply IH.
  - destruct pre as [|f pre]; [apply prefix_nil|]. injection Heq as <- Heq.
    apply Forall_cons in Hok as [Hf Hok]. done.
Qed.

(** An upstream body over the cap cannot look complete. *)
Lemma body_frames_over max acc chunks :
  0 ≤ acc ≤ max → 0 ≤ max < usize_max → max < acc + sum_len chunks →
  Exists (λ f, is_ok f = false) (body_frames max acc (Some <$> chunks)).
Proof.
  revert acc. induction chunks as [|c chunks IH]; intros acc Hacc Hmax Hsum; simpl in *; [lia|].
  destruct (Z.ltb_spec max (saturating_add acc (Z.of_nat (length c)))) as [Hgt|Hle].
  - by apply Exists_cons_hd.
  - apply Exists_cons_tl, IH; unfold saturating_add in *; lia.
Qed.

(** C11: streaming under the cap, on both branches.  An upstream answer whose
    declared length is over the cap is not relayed: the client gets a sealed
    413 with a message and nothing of the answer.  Otherwise (no declared
    length, or one within the cap) the sealed stream starts with the upstream's
    status and headers; its body frames hold at most [max] bytes; up to the
    first error they are the upstream's chunks in order; a readable body within
    the cap is relayed whole, and one over the cap contains an error frame
    instead of looking complete. *)
Theorem relay_stream s max r (Hmax : 0 ≤ max < usize_max) :
  (∀ len, up_content_length r = Some len → max < len →
     sr_frames (relay s max r) =
       [Ok (Head 413 [("content-type", "text/plain")]);
        Ok (Body (as_bytes "upstream body too large"))]) ∧
  ((∀ len, up_content_length r = Some len → len ≤ max) →
   ∃ frames, sr_frames (relay s max r) =
       Ok (Head (up_status r) (forwarded_headers (up_headers r))) :: frames ∧
     sum_len (frame_data <$> frames) ≤ max ∧
     (∀ pre post, frames = pre ++ post → Forall (λ f, is_ok f = true) pre →
        (λ f, Some (frame_data f)) <$> pre `prefix_of` up_chunks r) ∧
     (∀ chunks, up_chunks r = Some <$> chunks →
        (sum_len chunks ≤ max → frames = (λ c, Ok (Body c)) <$> chunks) ∧
        (max < sum_len chunks → Exists (λ f, is_ok f = false) frames))).
Proof.
  split.
  { intros len Hl Hgt. unfold relay. rewrite Hl. by destruct (Z.ltb_spec max len); [|lia]. }
  intros Hlen. exists (body_frames max 0 (up_chunks r)). split.
  { unfold relay. destruct (up_content_length r) as [len|]; [|done].
    destruct (Z.ltb_spec max len); [|done]. specialize (Hlen len eq_refl). lia. }
  split_and!.
  - pose proof (body_frames_total max 0 (up_chunks r) ltac:(lia) ltac:(lia)). lia.
  - intros pre post. apply body_frames_prefix.
  - intros chunks ->. split; intros Hs.
    + apply body_frames_complete; lia.
    + apply body_frames_over; lia.
Qed.

(** ** Response headers *)

(** A name the [Connection] header lists, up to letter case and white space. *)
Definition nominated (h : HeaderMap) (name : string) : Prop :=
  name ≠ EmptyString ∧ ∃ value v token,
    hdr_get h "connection" = Some value ∧ header_to_str value = Some v ∧
    token ∈ split (λ a, Ascii.eqb a ",") v ∧ name = to_ascii_lowercase (trim token).

Lemma elem_of_connection_names h name : name ∈ connection_names h ↔ nominated h name.
Proof.
  unfold connection_names, nominated. destruct (hdr_get h "connection") as [value|]; simpl.
  2: { split; [by intros ?%elem_of_nil|]. by intros (_&?&?&?&?&_). }
  destruct (header_to_str value) as [v|] eqn:Hv; simpl.
  2: { split; [by intros ?%elem_of_nil|]. intros (_&?&?&?&[= <-]&?&_). congruence. }
  rewrite list_elem_of_In, filter_In, <-list_elem_of_In, list_elem_of_fmap. split.
  - intros [(token&->&Hin) Hne]. split; [by destruct (to_ascii_lowercase (trim token))|].
    by exists value, v, token.
  - intros (Hne&value'&v'&token&[= <-]&Hv'&Hin&->). rewrite Hv in Hv'. injection Hv' as <-.
    split; [eauto|]. by destruct (to_ascii_lowercase (trim token)).
Qed.

Lemma elem_of_strip_set h name :
  name ∈ strip_set h ↔ nominated h name ∨ name ∈ STATIC_HOP_BY_HOP.
Proof.
  unfold strip_set. by rewrite elem_of_union, !elem_of_list_to_set, elem_of_connection_names.
Qed.

(** C35: header stripping: the head of a relayed response carries exactly the
    textual headers of the upstream that are neither hop-by-hop nor listed in
    its (first) [Connection] header. *)
Theorem forwarded_headers_spec h name v :
  (name, v) ∈ forwarded_headers h ↔
  (name ∉ STATIC_HOP_BY_HOP) ∧ ¬ nominated h name ∧
  ∃ value, (name, value) ∈ h ∧ header_to_str value = Some v.
Proof.
  unfold forwarded_headers. rewrite list_elem_of_omap. split.
  - intros ([n value]&Hin&Hv). apply list_elem_of_In, filter_In in Hin as [Hin Hs].
    apply list_elem_of_In in Hin. apply bind_Some in Hv as (w&Hw&[= -> ->]).
    apply negb_true_iff, bool_decide_eq_false in Hs. simpl in Hs. rewrite elem_of_strip_set in Hs.
    split_and!; [tauto|tauto|eauto].
  - intros (Hst&Hn&value&Hin&Hv). exists (name, value). rewrite Hv. split; [|done].
    apply list_elem_of_In, filter_In. split; [by apply list_elem_of_In|].
    apply negb_true_iff, bool_decide_eq_false. simpl. rewrite elem_of_strip_set. tauto.
Qed.

(** ** The handler *)

(** C12: the handler calls an upstream exactly when the body is within the
    limit, a route matches and the method is valid; the call carries the
    selected upstream's URL, the method and the decrypted body unchanged.
    Every answer is sealed for the request's session, and the metrics record
    one request and one latency a call, and one error a failed call. *)
Theorem proxy_handler_correct max table m http elapsed req resp m' call
    (Hrun : proxy_handler max table m http elapsed req = (resp, m', call)) :
  sr_session resp = dr_session req ∧
  (∀ meth url body, call = Some (meth, url, body) ↔
     Z.of_nat (length (dr_body req)) ≤ max ∧ body = dr_body req ∧
     method_from_bytes (as_bytes (dr_method req)) = Some meth ∧
     ∃ route, select table (dr_host req) (dr_path req) = Some route ∧
       url = upstream_url (route_upstream route) (dr_path req) (dr_query req)) ∧
  match call with
  | None => m' = m ∧ ∃ status msg, resp = seal_error (dr_session req) status msg ∧
      status ∈ [PAYLOAD_TOO_LARGE; NOT_FOUND; BAD_REQUEST]
  | Some (meth, url, body) =>
      let m1 := observe_upstream_latency (inc_upstream_requests m) elapsed in
      match http meth url body with
      | Upstream_Ok r => resp = relay (dr_session req) max r ∧ m' = m1
      | Upstream_Err timeout =>
          resp = seal_error (dr_session req) (if timeout then GATEWAY_TIMEOUT else BAD_GATEWAY)
                   "upstream request failed" ∧ m' = inc_upstream_errors m1
      end
  end.
Proof.
  unfold proxy_handler, route_request in Hrun.
  destruct (Z.ltb_spec max (Z.of_nat (length (dr_body req)))) as [Hgt|Hle].
  { injection Hrun as <- <- <-. split; [done|split].
    - intros. split; [done|]. intros (?&_). lia.
    - split; [done|]. eexists _, _. split; [done|]. set_solver. }
  destruct (select table _ _) as [route|] eqn:Hsel.
  2: { injection Hrun as <- <- <-. split; [done|split].
       - intros. split; [done|]. by intros (_&_&_&?&?&_).
       - split; [done|]. eexists _, _. split; [done|]. set_solver. }
  destruct (method_from_bytes _) as [meth|] eqn:Hm.
  2: { injection Hrun as <- <- <-. split; [done|split].
       - intros. split; [done|]. by intros (_&_&?&_).
       - split; [done|]. eexists _, _. split; [done|]. set_solver. }
  set (url := upstream_url _ _ _) in *.
  assert (∀ meth' url' body', Some (meth, url, dr_body req) = Some (meth', url', body') ↔
    Z.of_nat (length (dr_body req)) ≤ max ∧ body' = dr_body req ∧ Some meth = Some meth' ∧
    ∃ route', Some route = Some route' ∧
      url' = upstream_url (route_upstream route') (dr_path req) (dr_query req)) as Hcall.
  { intros. split; [intros [= <- <- <-]; by eauto 10|].
    intros (_&->&[= <-]&route'&[= <-]&->). done. }
  destruct (http meth url (dr_body req)) as [r|timeout] eqn:Hh; injection Hrun as <- <- <-.
  - split; [|split; [exact Hcall|by rewrite Hh]].
    unfold relay. destruct (up_content_length r) as [len|]; [|done]. by destruct (max <? len).
  - split; [done|split; [exact Hcall|by rewrite Hh]].
Qed.

End spec.

(** ** Concrete runs *)

(** Printable headers, a MAC that sums bytes and the transparent cipher. *)
Module ProxyToy.

Definition http : HttpLib := {|
  header_to_str bs := if forallb (in_range 32 126) bs then Some (string_of_bytes bs) else None;
  method_from_bytes bs := match bs with [] => None | _ => Some (string_of_bytes bs) end |}.

Definition keys : SessionKeys := mkSessionKeys [1] (replicate 12 0) [2] (replicate 12 0) [].

Definition sdk : @ProxySdk Toy.toy := {|
  psession := string; sdk_response := unit; ps_aad _ := [];
  session_from_parts _ := Ok "s";
  decode_attest_ticket h := match hdr_get h "attest-ticket" with
                            | Some v => Ok (1, v) | None => Err Ticket_Missing end;
  http_body := list Z;
  to_bytes b cap := if Z.of_nat (length b) <=? cap then Some b else None;
  parse_envelope bs := Some (string_of_bytes bs);
  hex_decode_body s := Some (as_bytes s);
  trr_error := unit;
  with_keys_for_trr _ _ _ f := Ok (f keys 1);
  hmac_state := list Z; hmac_new k := Some k; hmac_update st c := st ++ c;
  hmac_verify st mac := bool_decide (mac = [foldr Z.add 0 st mod 256]);
  ahl_error := unit;
  ahl_chunks m p q a _ := Ok [as_bytes m; as_bytes p; as_bytes a];
  Aes256Gcm := (tt : @aead_algorithm Toy.toy) |}.

Definition parts : Parts :=
  mkParts "POST" (mkUri (Some "h") "/x" None)
    [("attest-ticket", [86]); ("attest-real-method", as_bytes "GET")] None.

(** The same request with a wrong MAC. *)
Definition forged : Parts := mkParts "POST" (mkUri (Some "h") "/x" None) [("attest-ticket", [1])] None.

Definition body : list Z := [104; 105] ++ Toy.tag.

Definition request : @DecryptedRequest Toy.toy sdk :=
  mkDecryptedRequest (PSDK := sdk) "s" "GET" "/x" None "h" [104; 105].

Definition table : RouteTable :=
  RouteTable_new [mkRoute "r" "h" EmptyString "http://up/" None Source_File].

Definition response : UpstreamResponse :=
  mkUpstreamResponse 200 [("x-a", as_bytes "1"); ("te", as_bytes "2")] None [Some [1; 2]; Some [3]].
End ProxyToy.

Lemma from_request_authentic_witness :
  from_request (CR := Toy.toy) (HTTP := ProxyToy.http) (PSDK := ProxyToy.sdk) 100 Metrics_new
    ProxyToy.parts ProxyToy.body = (Extracted_Ok ProxyToy.request, Metrics_new) ∧
  ∃ nonce mac, decode_attest_ticket (ProxySdk := ProxyToy.sdk) (p_headers ProxyToy.parts) =
    Ok (nonce, mac).
Proof.
  split; [reflexivity|].
  destruct (from_request_authentic (CR := Toy.toy) (HTTP := ProxyToy.http) (PSDK := ProxyToy.sdk)
              (λ _ _ keys, keys = ProxyToy.keys) 100 Metrics_new ProxyToy.parts ProxyToy.body
              ProxyToy.request Metrics_new) as (nonce&mac&keys&st&bytes&hex&ct&n&key&_&Ht&_).
  - intros A s nonce f r [= <-]. exists ProxyToy.keys, 1. split; reflexivity.
  - reflexivity.
  - exists nonce, mac. exact Ht.
Defined.

Lemma from_request_metrics_witness :
  decrypt_failures_total (from_request (CR := Toy.toy) (HTTP := ProxyToy.http)
    (PSDK := ProxyToy.sdk) 100 Metrics_new ProxyToy.forged ProxyToy.body).2 = 1 ∧
  ∃ r m', from_request (CR := Toy.toy) (HTTP := ProxyToy.http) (PSDK := ProxyToy.sdk) 100
    Metrics_new ProxyToy.forged ProxyToy.body = (r, m') ∧
    (m' = Metrics_new ∨ m' = inc_decrypt_failures Metrics_new).
Proof.
  split; [reflexivity|]. eexists _, _. split; [reflexivity|].
  destruct (from_request_metrics (CR := Toy.toy) (HTTP := ProxyToy.http) (PSDK := ProxyToy.sdk)
              100 Metrics_new ProxyToy.forged ProxyToy.body _ _ eq_refl) as [H|[H _]];
    [left; exact H|right; exact H].
Defined.

Lemma pre_decrypt_cap_correct_witness :
  Z.of_nat (String.length (envelope (string_of_bytes (replicate 40 48)))) ≤ pre_decrypt_cap 4.
Proof.
  destruct (pre_decrypt_cap_correct 4 4 (string_of_bytes (replicate 40 48))) as [Hfit _].
  - vm_compute. split; discriminate.
  - reflexivity.
  - apply Hfit; vm_compute; discriminate.
Defined.

Lemma relay_stream_witness :
  ∃ frames, sr_frames (relay (CR := Toy.toy) (HTTP := ProxyToy.http) (PSDK := ProxyToy.sdk) "s" 10
                         ProxyToy.response) =
    Ok (Head 200 [("x-a", "1")]) :: frames ∧ sum_len (frame_data <$> frames) ≤ 10.
Proof.
  destruct (relay_stream (CR := Toy.toy) (HTTP := ProxyToy.http) (PSDK := ProxyToy.sdk) "s" 10
              ProxyToy.response) as [_ Hstream].
  - vm_compute. split; [discriminate|reflexivity].
  - destruct Hstream as (frames&Hf&Hs&_); [discriminate|]. exists frames. split; [exact Hf|exact Hs].
Defined.

Lemma proxy_handler_correct_witness :
  ∃ resp m', proxy_handler (CR := Toy.toy) (HTTP := ProxyToy.http) (PSDK := ProxyToy.sdk) 10
    ProxyToy.table Metrics_new (λ _ _ _, Upstream_Ok ProxyToy.response) (f64_of_Z 1)
    ProxyToy.request = (resp, m', Some ("GET", "http://up/x", [104; 105])) ∧
  sr_session resp = "s".
Proof.
  eexists _, _. split; [reflexivity|].
  apply (proxy_handler_correct (CR := Toy.toy) (HTTP := ProxyToy.http) (PSDK := ProxyToy.sdk) 10
    ProxyToy.table Metrics_new (λ _ _ _, Upstream_Ok ProxyToy.response) (f64_of_Z 1)
    ProxyToy.request _ _ _ eq_refl).
Defined.

(** A second [Connection] header is not read: what it lists is forwarded. *)
Example second_connection_header_ignored :
  forwarded_headers (HTTP := ProxyToy.http)
    [("connection", as_bytes "x-a"); ("connection", as_bytes "x-secret");
     ("x-a", as_bytes "1"); ("x-secret", as_bytes "2")] = [("x-secret", "2")].
Proof. reflexivity. Qed.

(** A streamed body over the cap ends in a transport error after the head, not
    in a sealed status. *)
Example over_cap_stream :
  sr_frames (relay (CR := Toy.toy) (HTTP := ProxyToy.http) (PSDK := ProxyToy.sdk) "s" 2
               ProxyToy.response) =
  [Ok (Head 200 [("x-a", "1")]); Ok (Body [1; 2]); Err (Transport "upstream body too large")].
Proof. reflexivity. Qed.
