(* ===== verification/Router.v ===== *)
(** * The router ([build_router] of [src/proxy.rs])

    The route tree with its layers, and what it answers to a request: the
    dispatch of WebSocket upgrades outermost, then the handshake router with
    its counting layer, the open observability endpoints, and the proxy routes
    behind the attestation layer.  A request finds the process at a [Moment]:
    the live route table, the registry, the upstream, and what the SDK's
    layers decide. *)

From S2P Require Import Prelude RustStr SocketAddr Routing Float Metrics Http Ws WsSpec Proxy ProxySpec.

Local Open Scope Z_scope.

(** ** The tree *)

(** The methods of a route: [get(..)], [any(..)], or those of a route of the
    handshake router. *)
Inductive MethodFilter :=
| Filter_Get
| Filter_Any
| Filter_Methods (ms : list string).

Definition admits (f : MethodFilter) (method : string) : bool :=
  match f with
  | Filter_Get => bool_decide (method = "GET") || bool_decide (method = "HEAD")
  | Filter_Any => true
  | Filter_Methods ms => bool_decide (method ∈ ms)
  end.

Inductive Endpoint := E_Base | E_Healthz | E_Readyz | E_Metrics | E_Proxy.

Record RouteEntry := mkRouteEntry {
  re_path : string;
  re_filter : MethodFilter;
  re_endpoint : Endpoint;
}.

Definition observability : list RouteEntry :=
  [mkRouteEntry "/healthz" Filter_Get E_Healthz;
   mkRouteEntry "/readyz" Filter_Get E_Readyz;
   mkRouteEntry "/metrics" Filter_Get E_Metrics].

Definition proxy_routes : list RouteEntry :=
  [mkRouteEntry "/" Filter_Any E_Proxy; mkRouteEntry "/{*path}" Filter_Any E_Proxy].

(** [base_router.merge(observability).merge(proxy_routes)]. *)
Definition merged (base : list (string * MethodFilter)) : list RouteEntry :=
  ((λ '(path, f), mkRouteEntry path f E_Base) <$> base) ++ observability ++ proxy_routes.

(** What axum finds for a method and a path. *)
Inductive Dispatch :=
| D_Endpoint (e : Endpoint)
| D_MethodNotAllowed
| D_NotFound.

(** Axum's matching, the handshake router and the layers of the SDK. *)
Class RouterSdk `{CR : !Crypto, PSDK : !ProxySdk} := {
  dispatch : list RouteEntry → string → string → Dispatch;
  base_routes : list (string * MethodFilter);
  base_response : Type;
  base_status : base_response → Z;
  gate_response : Type;
  extractable : Parts → bool;
}.

Section router.
Context `{CR : !Crypto, HTTP : !HttpLib, WSDK : !WsSdk, PSDK : !ProxySdk, RSDK : !RouterSdk}.

(** What a request finds. *)
Record Moment := mkMoment {
  mo_table : RouteTable;
  mo_registry : atb_id → option session;
  mo_active : Z;
  mo_base : Parts → http_body → base_response;
  mo_gate : Parts → http_body → result gate_response (Parts * http_body);
  mo_http : string → string → list Z → UpstreamResult;
  mo_elapsed : f64;
  mo_admitted : Z * Z → Parts → bool;
}.

Inductive Response :=
| R_Base (r : base_response)
| R_Plain (status : StatusCode) (headers : list (string * string)) (body : string)
| R_Sealed (r : SealedResponse)
| R_Rejection (r : Rejection)
| R_Gate (r : gate_response)
| R_Upgrade (u : UpgradeOutcome)
| R_MethodNotAllowed
| R_NotFound
| R_TooManyRequests
| R_Panic.

(** The answer, the metrics after it, and the upstream call made for it. *)
Record Answer := mkAnswer {
  an_response : Response;
  an_metrics : Metrics;
  an_call : option (string * string * list Z);
}.

(** The proxy routes: the attestation layer, the extractor, the handler. *)
Definition serve_proxy (max : Z) (mo : Moment) (m : Metrics) (parts : Parts) (body : http_body)
  : Answer :=
  match mo_gate mo parts body with
  | Err g => mkAnswer (R_Gate g) m None
  | Ok (parts, body) =>
      match from_request max m parts body with
      | (Extracted_Ok req, m) =>
          let '(resp, m, call) := proxy_handler max (mo_table mo) m (mo_http mo) (mo_elapsed mo) req in
          mkAnswer (R_Sealed resp) m call
      | (Extracted_Reject r, m) => mkAnswer (R_Rejection r) m None
      | (Extracted_Panic, m) => mkAnswer R_Panic m None
      end
  end.

(** The handshake router under its counting layer. *)
Definition serve_base (mo : Moment) (m : Metrics) (parts : Parts) (body : http_body) : Answer :=
  let r := mo_base mo parts body in
  mkAnswer (R_Base r) (count_handshake parts (base_status r) m) None.

Definition serve_endpoint (e : Endpoint) (max : Z) (mo : Moment) (m : Metrics) (parts : Parts)
    (body : http_body) : Answer :=
  match e with
  | E_Base => serve_base mo m parts body
  | E_Healthz => mkAnswer (R_Plain healthz.1 [] healthz.2) m None
  | E_Readyz => mkAnswer (R_Plain readyz.1 [] readyz.2) m None
  | E_Metrics =>
      let '(status, headers, text) := metrics_handler m (mo_active mo) in
      mkAnswer (R_Plain status headers text) m None
  | E_Proxy => serve_proxy max mo m parts body
  end.

(** [build_router], as what the tree does with a request. *)
Definition serve (max : Z) (mo : Moment) (m : Metrics) (parts : Parts) (body : http_body) : Answer :=
  match ws_dispatch extractable (mo_registry mo) (mo_table mo) parts with
  | Some u => mkAnswer (R_Upgrade u) m None
  | None =>
      match dispatch (merged base_routes) (p_method parts) (uri_path (p_uri parts)) with
      | D_Endpoint e => serve_endpoint e max mo m parts body
      | D_MethodNotAllowed => mkAnswer R_MethodNotAllowed m None
      | D_NotFound => mkAnswer R_NotFound m None
      end
  end.

(** The rate limit around it, when one is configured. *)
Definition serve_app (limit : option (Z * Z)) (max : Z) (mo : Moment) (m : Metrics) (parts : Parts)
    (body : http_body) : Answer :=
  match limit with
  | Some lim =>
      if mo_admitted mo lim parts then serve max mo m parts body
      else mkAnswer R_TooManyRequests m None
  | None => serve max mo m parts body
  end.

(** A run: the requests in the order in which their effects on the metrics
    happen. *)
Fixpoint serve_all (limit : option (Z * Z)) (max : Z) (m : Metrics)
    (reqs : list (Moment * Parts * http_body)) : list Answer * Metrics :=
  match reqs with
  | [] => ([], m)
  | (mo, parts, body) :: reqs =>
      let a := serve_app limit max mo m parts body in
      let '(rest, m') := serve_all limit max (an_metrics a) reqs in (a :: rest, m')
  end.

(** ** Lemmas *)

(** An upstream is called only by the proxy routes. *)
Lemma serve_app_call limit max mo m parts body c :
  an_call (serve_app limit max mo m parts body) = Some c →
  an_call (serve_proxy max mo m parts body) = Some c.
Proof.
  assert (an_call (serve max mo m parts body) = Some c →
          an_call (serve_proxy max mo m parts body) = Some c) as Hs.
  { unfold serve. destruct (ws_dispatch _ _ _ _); [done|].
    by destruct (dispatch _ _ _) as [[]| |]. }
  unfold serve_app. destruct limit as [lim|]; [|done]. by destruct (mo_admitted mo lim parts).
Qed.

Lemma serve_proxy_call max mo m parts body c :
  an_call (serve_proxy max mo m parts body) = Some c →
  ∃ parts' body' req m',
    mo_gate mo parts body = Ok (parts', body') ∧
    from_request max m parts' body' = (Extracted_Ok req, m') ∧
    (proxy_handler max (mo_table mo) m' (mo_http mo) (mo_elapsed mo) req).2 = Some c.
Proof.
  unfold serve_proxy. destruct (mo_gate mo parts body) as [[parts' body']|]; [|done].
  destruct (from_request max m parts' body') as [[req| |] m'] eqn:Hf; [|done..].
  destruct (proxy_handler _ _ _ _ _ _) as [[resp m''] call] eqn:Hh. simpl. intros ->.
  exists parts', body', req, m'. by rewrite Hh.
Qed.

Lemma proxy_handler_call max table m http elapsed req meth url body :
  (proxy_handler max table m http elapsed req).2 = Some (meth, url, body) →
  body = dr_body req ∧ Z.of_nat (length body) ≤ max ∧
  ∃ route, select table (dr_host req) (dr_path req) = Some route ∧
    url = upstream_url (route_upstream route) (dr_path req) (dr_query req).
Proof.
  unfold proxy_handler, route_request. destruct (Z.ltb_spec max (Z.of_nat (length (dr_body req)))); [done|].
  destruct (select _ _ _) as [route|]; [|done]. destruct (method_from_bytes _); [|done].
  destruct (http _ _ _); intros [= -> <- <-]; eauto.
Qed.

(** ** What a request counts *)

(** A successful answer to [POST /attest]. *)
Definition handshake_answer (req : Moment * Parts * http_body) (a : Answer) : bool :=
  match an_response a with
  | R_Base r =>
      bool_decide (p_method req.1.2 = "POST") && bool_decide (uri_path (p_uri req.1.2) = "/attest") &&
      ((200 <=? base_status r) && (base_status r <? 300))
  | _ => false
  end.

(** An upstream call, and one that failed. *)
Definition called_answer (req : Moment * Parts * http_body) (a : Answer) : bool :=
  match an_call a with Some _ => true | None => false end.

Definition failed_answer (req : Moment * Parts * http_body) (a : Answer) : bool :=
  match an_call a with
  | Some (meth, url, data) =>
      match mo_http req.1.1 meth url data with Upstream_Err _ => true | Upstream_Ok _ => false end
  | None => false
  end.

Definition rejected_answer (req : Moment * Parts * http_body) (a : Answer) : bool :=
  match an_response a with R_Rejection _ => true | _ => false end.

(** The calls on the metrics for one answered request. *)
Definition answer_ops (req : Moment * Parts * http_body) (a : Answer) (ops : list MetricOp) : Prop :=
  ops = (if handshake_answer req a then [Op_handshake] else []) ++
        (if called_answer req a then [Op_upstream_request; Op_latency (mo_elapsed req.1.1)] else []) ++
        (if failed_answer req a then [Op_upstream_error] else []) ∨
  ops = [Op_decrypt_failure] ∧ rejected_answer req a = true ∧ an_call a = None.

Lemma from_request_ops max m parts body r m' :
  from_request max m parts body = (r, m') →
  m' = m ∨ m' = inc_decrypt_failures m ∧ ∃ rej, r = Extracted_Reject rej.
Proof.
  unfold from_request. cbv zeta. repeat (case_match; try by intros [= <- <-]; left);
    intros [= <- <-]; right; eauto.
Qed.

Lemma serve_proxy_ops max mo m parts body :
  let a := serve_proxy max mo m parts body in
  ∃ ops, answer_ops (mo, parts, body) a ops ∧ an_metrics a = foldl metric_step m ops.
Proof.
  cbv zeta. unfold serve_proxy. destruct (mo_gate mo parts body) as [[parts' body']|g].
  2: { exists []. split; [by left|done]. }
  destruct (from_request max m parts' body') as [r m'] eqn:Hf.
  pose proof (from_request_ops _ _ _ _ _ _ Hf) as Hm.
  destruct r as [req|rej|].
  - destruct Hm as [->|[_ [? ?]]]; [|done]. unfold proxy_handler, route_request.
    destruct (max <? _); [exists []; split; [by left|done]|].
    destruct (select _ _ _) as [route|]; [|exists []; split; [by left|done]].
    destruct (method_from_bytes _) as [meth|]; [|exists []; split; [by left|done]].
    set (url := upstream_url _ _ _). cbv zeta.
    destruct (mo_http mo meth url (dr_body req)) as [r|t] eqn:Hh.
    + exists [Op_upstream_request; Op_latency (mo_elapsed mo)]. split; [|done]. left.
      unfold failed_answer. simpl. by rewrite Hh.
    + exists [Op_upstream_request; Op_latency (mo_elapsed mo); Op_upstream_error]. split; [|done].
      left. unfold failed_answer. simpl. by rewrite Hh.
  - destruct Hm as [->|[-> _]]; [exists []; split; [by left|done]|].
    exists [Op_decrypt_failure]. split; [by right|done].
  - destruct Hm as [->|[_ [? ?]]]; [|done]. exists []. split; [by left|done].
Qed.

Lemma serve_app_ops limit max mo m parts body :
  let a := serve_app limit max mo m parts body in
  ∃ ops, answer_ops (mo, parts, body) a ops ∧ an_metrics a = foldl metric_step m ops.
Proof.
  cbv zeta. assert (∃ ops, answer_ops (mo, parts, body) (serve max mo m parts body) ops ∧
    an_metrics (serve max mo m parts body) = foldl metric_step m ops) as Hs.
  { unfold serve. destruct (ws_dispatch _ _ _ _); [exists []; split; [by left|done]|].
    destruct (dispatch _ _ _) as [e| |]; [|exists []; split; [by left|done]..].
    destruct e; simpl; try (exists []; split; [by left|done]); [|apply serve_proxy_ops].
    unfold serve_base, count_handshake. cbn [an_metrics].
    set (b := bool_decide _ && bool_decide _ && _).
    exists (if b then [Op_handshake] else []). split; [left|by destruct b].
    unfold handshake_answer. simpl. fold b. by destruct b. }
  unfold serve_app. destruct limit as [lim|]; [|done].
  destruct (mo_admitted mo lim parts); [done|]. exists []. split; [by left|done].
Qed.

(** How many requests of a run were answered in a given way. *)
Definition count_answers (f : Moment * Parts * http_body → Answer → bool)
    (l : list (Moment * Parts * http_body * Answer)) : Z :=
  Z.of_nat (length (List.filter (λ '(r, a), f r a) l)).

Lemma count_answers_cons f r a l :
  count_answers f ((r, a) :: l) = (if f r a then 1 else 0) + count_answers f l.
Proof. unfold count_answers. simpl. destruct (f r a); simpl; lia. Qed.

Lemma count_ops_app f ops ops' : count_ops f (ops ++ ops') = count_ops f ops + count_ops f ops'.
Proof. unfold count_ops. rewrite List.filter_app, length_app. lia. Qed.

Lemma serve_all_ops limit max m reqs answers m' :
  serve_all limit max m reqs = (answers, m') →
  ∃ opss, Forall2 (λ '(r, a) ops, answer_ops r a ops) (zip reqs answers) opss ∧
    m' = foldl metric_step m (concat opss).
Proof.
  revert m answers m'. induction reqs as [|[[mo parts] body] reqs IH]; intros m answers m' Hs.
  { injection Hs as <- <-. exists []. by split. }
  simpl in Hs. destruct (serve_app_ops limit max mo m parts body) as (ops&Ho&Hm).
  destruct (serve_all limit max _ reqs) as [rest m''] eqn:Hr. injection Hs as <- <-.
  apply IH in Hr as (opss&Hf&->). exists (ops :: opss). split; [by constructor|].
  simpl. by rewrite foldl_app, Hm.
Qed.

(** A counter that each answer's calls change by whether [f] holds of it. *)
Lemma count_concat (c : list MetricOp → Z) f l opss :
  c [] = 0 → (∀ o o', c (o ++ o') = c o + c o') →
  (∀ r a ops, answer_ops r a ops → c ops = if f r a : bool then 1 else 0) →
  Forall2 (λ '(r, a) ops, answer_ops r a ops) l opss →
  c (concat opss) = count_answers f l.
Proof.
  intros H0 Happ Hf. induction 1 as [|[r a] ops l opss Ha _ IH]; [done|].
  simpl concat. rewrite Happ, count_answers_cons, IH. by rewrite (Hf r a ops).
Qed.

(** Split an answer's calls into their possible parts. *)
Local Ltac ops_cases :=
  let H := fresh in
  intros [? ?] ? ? [->|(->&H&?)];
  unfold handshake_answer, called_answer, failed_answer, rejected_answer in *;
  repeat (case_match; simplify_eq/=; try done).

(** ** Properties *)

(** C14: no request reaches an upstream unauthenticated: whatever the router
    is sent, an upstream call is made only for a request that the attestation
    layer passed on and whose ticket's MAC verifies under a key of its session
    over its path, query, authority and headers; the call goes to the route of
    the live table that these select, with the decrypted body, which is within
    the limit. *)
Theorem upstream_call_authentic keys_of limit max mo m parts body meth url data
    (Hlaw : keys_law keys_of)
    (Hcall : an_call (serve_app limit max mo m parts body) = Some (meth, url, data)) :
  ∃ parts' body' session nonce mac keys st route,
    mo_gate mo parts body = Ok (parts', body') ∧
    session_from_parts parts' = Ok session ∧
    decode_attest_ticket (p_headers parts') = Ok (nonce, mac) ∧ keys_of session nonce keys ∧
    ticket_mac keys nonce (p_method parts') (client_path parts') (client_query parts')
      (request_authority parts') (p_headers parts') = Some st ∧ hmac_verify st mac = true ∧
    select (mo_table mo) (request_authority parts') (client_path parts') = Some route ∧
    url = upstream_url (route_upstream route) (client_path parts') (client_query parts') ∧
    Z.of_nat (length data) ≤ max.
Proof.
  apply serve_app_call, serve_proxy_call in Hcall as (parts'&body'&req&m'&Hg&Hf&Hc).
  apply proxy_handler_call in Hc as (->&Hlen&route&Hsel&->).
  apply from_request_Ok in Hf as (_&nonce&mac&bytes&hex&ct&Hs&Ht&_&_&_&_&Hh&Hp&Hq&_&Hk).
  destruct (Hlaw _ _ _ _ _ Hk) as (keys&ctr&Hkeys&Ho).
  symmetry in Ho. apply open_trusted_Ok in Ho as (st&n&key&Hst&Hv&_).
  rewrite Hh, Hp, Hq in *. exists parts', body', (dr_session req), nonce, mac, keys, st, route.
  done.
Qed.

(** The counters tell what the router did: over any sequence of requests
    that are served one after the other from the start, the handshake counter is the number of successful answers
    to [POST /attest], the upstream counters are the numbers of upstream calls
    and of failed ones, one latency is recorded a call, and the decryption
    counter is at most the number of rejected requests, all modulo 2^64. *)
Theorem router_counters limit max reqs answers m'
    (Hrun : serve_all limit max Metrics_new reqs = (answers, m')) :
  let l := zip reqs answers in
  handshakes_total m' = wrap64 (count_answers handshake_answer l) ∧
  upstream_requests_total m' = wrap64 (count_answers called_answer l) ∧
  upstream_errors_total m' = wrap64 (count_answers failed_answer l) ∧
  latency_count m' = wrap64 (count_answers called_answer l) ∧
  ∃ n, decrypt_failures_total m' = wrap64 n ∧ 0 ≤ n ≤ count_answers rejected_answer l.
Proof.
  cbv zeta. apply serve_all_ops in Hrun as (opss&Hf&->).
  fold (metrics_after (concat opss)). rewrite metrics_after_spec.
  cbn [metrics_spec handshakes_total upstream_requests_total upstream_errors_total latency_count
       decrypt_failures_total].
  split_and!; [f_equal..|].
  - revert Hf. apply count_concat; [done|apply count_ops_app|ops_cases].
  - revert Hf. apply count_concat; [done|apply count_ops_app|ops_cases].
  - revert Hf. apply count_concat; [done|apply count_ops_app|ops_cases].
  - revert Hf. apply (count_concat (λ ops, Z.of_nat (length (latencies ops)))); [done| |ops_cases].
    intros o o'. unfold latencies. rewrite omap_app, length_app. lia.
  - eexists. split; [done|].
    induction Hf as [|[r a] ops l opss Ha _ IH]; [done|]. simpl concat.
    rewrite count_ops_app, count_answers_cons. revert Ha.
    assert (answer_ops r a ops → 0 ≤ count_ops (λ op, match op with Op_decrypt_failure => true
      | _ => false end) ops ≤ if rejected_answer r a then 1 else 0) as H.
    { revert r a ops. ops_cases. }
    intros Ha. specialize (H Ha). lia.
Qed.

(** What the code relies on of axum's matching: a path that is a route's own
    pattern goes to that route, before any wildcard, when no other route has
    the same pattern and the method is admitted. *)
Class AxumLaws := {
  dispatch_literal entries re method :
    re ∈ entries → str_mem "{" (re_path re) = false → admits (re_filter re) method = true →
    (∀ re', re' ∈ entries → re_path re' = re_path re → re' = re) →
    dispatch entries method (re_path re) = D_Endpoint (re_endpoint re);
}.

Lemma merged_observability e path base re :
  mkRouteEntry path Filter_Get e ∈ observability → path ∉ base.*1 →
  re ∈ merged base → re_path re = path → re = mkRouteEntry path Filter_Get e.
Proof.
  intros Ho Hb Hin Hp. unfold merged in Hin. rewrite !elem_of_app in Hin.
  destruct Hin as [Hin|Hin].
  - exfalso. apply list_elem_of_fmap in Hin as ([q f]&->&Hin). simpl in Hp. subst q.
    apply Hb, list_elem_of_fmap. by exists (path, f).
  - unfold observability, proxy_routes in *. rewrite !elem_of_cons, !elem_of_nil in *.
    destruct Ho as [Ho|[Ho|[Ho|[]]]]; injection Ho as -> ->;
      destruct Hin as [[->|[->|[->|[]]]]|[->|[->|[]]]]; done.
Qed.

(** C23: the observability endpoints are outside the attestation gate: in the
    router, inside the rate limit if there is one, unless the handshake router claims the path or the request is an attested
    WebSocket upgrade, a [GET] of [/healthz], [/readyz] or [/metrics] is
    answered with 200 whatever the attestation layer decides, counts nothing
    and calls no upstream. *)
Theorem observability_open `{AX : !AxumLaws} max mo m parts body
    (Hget : p_method parts = "GET") (Hws : is_attested_ws_upgrade parts = false) :
  let path := uri_path (p_uri parts) in
  path ∉ base_routes.*1 →
  (path = "/healthz" → serve max mo m parts body = mkAnswer (R_Plain OK_200 [] "ok") m None) ∧
  (path = "/readyz" → serve max mo m parts body = mkAnswer (R_Plain OK_200 [] "ready") m None) ∧
  (path = "/metrics" → serve max mo m parts body =
     mkAnswer (R_Plain OK_200 [("content-type", "text/plain; version=0.0.4; charset=utf-8")]
                 (render_prometheus m (mo_active mo))) m None).
Proof.
  cbv zeta. intros Hb.
  assert (∀ e, mkRouteEntry (uri_path (p_uri parts)) Filter_Get e ∈ observability →
    serve max mo m parts body = serve_endpoint e max mo m parts body) as Hs.
  { intros e He. unfold serve, ws_dispatch. rewrite Hws. simpl.
    assert (str_mem "{" (uri_path (p_uri parts)) = false) as Hlit.
    { unfold observability in He. rewrite !elem_of_cons, elem_of_nil in He.
      destruct He as [He|[He|[He|[]]]]; injection He as -> _; reflexivity. }
    rewrite (dispatch_literal _ (mkRouteEntry (uri_path (p_uri parts)) Filter_Get e)); [done| |done|..].
    - unfold merged. rewrite !elem_of_app. right. by left.
    - by rewrite Hget.
    - intros re Hre Hp. by apply (merged_observability e _ base_routes). }
  split_and!; intros Hp; rewrite Hp in Hs; [rewrite (Hs E_Healthz)|rewrite (Hs E_Readyz)|
    rewrite (Hs E_Metrics)]; try done; unfold observability; repeat constructor.
Qed.

End router.

(** ** A concrete router

    Literal patterns first, then the wildcard; the handshake router serves
    [POST /attest]; the gate lets everything through. *)
Module RouterToy.

Definition toy_dispatch (entries : list RouteEntry) (method path : string) : Dispatch :=
  match List.filter (λ re, bool_decide (re_path re = path)) entries with
  | [] => match List.filter (λ re, str_mem "{" (re_path re)) entries with
          | [] => D_NotFound
          | re :: _ => if admits (re_filter re) method then D_Endpoint (re_endpoint re)
                       else D_MethodNotAllowed
          end
  | l => match List.find (λ re, admits (re_filter re) method) l with
         | Some re => D_Endpoint (re_endpoint re)
         | None => D_MethodNotAllowed
         end
  end.

Definition sdk : @RouterSdk Toy.toy ProxyToy.sdk := {|
  dispatch := toy_dispatch;
  base_routes := [("/attest", Filter_Methods ["POST"])];
  base_response := Z; base_status z := z; gate_response := unit; extractable _ := true |}.

Lemma laws : AxumLaws (RSDK := sdk).
Proof.
  split. intros entries re method Hin Hlit Ha Hu. simpl. unfold toy_dispatch.
  assert (re ∈ List.filter (λ re', bool_decide (re_path re' = re_path re)) entries) as Hf.
  { apply list_elem_of_In, filter_In. split; [by apply list_elem_of_In|by apply bool_decide_eq_true]. }
  assert (∀ re', re' ∈ List.filter (λ re', bool_decide (re_path re' = re_path re)) entries → re' = re) as Hall.
  { intros re' Hr. apply list_elem_of_In, filter_In in Hr as [Hr Hp%bool_decide_eq_true].
    apply Hu; [by apply list_elem_of_In|done]. }
  destruct (List.filter _ entries) as [|r l]; [by apply elem_of_nil in Hf|].
  rewrite (Hall r) by (by left). simpl. by rewrite Ha.
Qed.

Definition moment : @Moment Toy.toy Toy.toy_sdk ProxyToy.sdk sdk :=
  mkMoment (RSDK := sdk) (WSDK := Toy.toy_sdk) ProxyToy.table (λ _, None) 3 (λ _ _, 200)
    (λ parts body, Ok (parts, body)) (λ _ _ _, Upstream_Ok ProxyToy.response) (f64_of_Z 1) (λ _ _, true).

Definition attest : Parts := mkParts "POST" (mkUri None "/attest" None) [] None.
Definition health : Parts := mkParts "GET" (mkUri None "/healthz" None) [] None.

Definition run : list (@Moment Toy.toy Toy.toy_sdk ProxyToy.sdk sdk * Parts * list Z) :=
  [(moment, attest, []); (moment, health, []); (moment, ProxyToy.parts, ProxyToy.body);
   (moment, ProxyToy.forged, ProxyToy.body)].
End RouterToy.

Lemma upstream_call_authentic_witness :
  an_call (serve_app (HTTP := ProxyToy.http) None 100 RouterToy.moment Metrics_new ProxyToy.parts
    ProxyToy.body) = Some ("GET", "http://up/x", [104; 105]) ∧
  ∃ route, select ProxyToy.table "h" "/x" = Some route ∧
    "http://up/x" = upstream_url (route_upstream route) "/x" None.
Proof.
  split; [reflexivity|].
  destruct (upstream_call_authentic (CR := Toy.toy) (HTTP := ProxyToy.http) (WSDK := Toy.toy_sdk)
    (PSDK := ProxyToy.sdk) (RSDK := RouterToy.sdk) (λ _ _ keys, keys = ProxyToy.keys) None 100
    RouterToy.moment Metrics_new ProxyToy.parts ProxyToy.body "GET" "http://up/x" [104; 105])
    as (parts'&body'&session&nonce&mac&keys&st&route&Hg&_&_&_&_&_&Hsel&Hurl&_).
  - intros A s nonce f r [= <-]. exists ProxyToy.keys, 1. split; reflexivity.
  - reflexivity.
  - injection Hg as <- _. exists route. split; [exact Hsel|exact Hurl].
Defined.

Lemma router_counters_witness :
  ∃ answers m', serve_all (HTTP := ProxyToy.http) None 100 Metrics_new RouterToy.run = (answers, m') ∧
    handshakes_total m' = 1 ∧ upstream_requests_total m' = 1 ∧ decrypt_failures_total m' = 1.
Proof.
  eexists _, _. split; [reflexivity|].
  destruct (router_counters (CR := Toy.toy) (HTTP := ProxyToy.http) (WSDK := Toy.toy_sdk)
    (PSDK := ProxyToy.sdk) (RSDK := RouterToy.sdk) None 100 RouterToy.run _ _ eq_refl)
    as (Hh&Hu&_).
  split; [rewrite Hh; reflexivity|]. split; [rewrite Hu; reflexivity|reflexivity].
Defined.

Lemma observability_open_witness :
  serve (HTTP := ProxyToy.http) 100 RouterToy.moment Metrics_new RouterToy.health [] =
    mkAnswer (R_Plain OK_200 [] "ok") Metrics_new None.
Proof.
  destruct (observability_open (CR := Toy.toy) (HTTP := ProxyToy.http) (WSDK := Toy.toy_sdk)
    (PSDK := ProxyToy.sdk) (RSDK := RouterToy.sdk) (AX := RouterToy.laws) 100
    RouterToy.moment Metrics_new RouterToy.health []) as [Hh _].
  - reflexivity.
  - reflexivity.
  - by apply (bool_decide_eq_true_1 _).
  - apply Hh. reflexivity.
Defined.
