(* ===== verification/Wire.v ===== *)
(** * The wire frames of a response ([src/envelope.rs])

    The JSON shape of [StreamFrame], whose bytes travel as hexadecimal, and
    the layout of the sealed stream.  The JSON text and the hexadecimal digits
    are those of [serde_json] and [hex]: they are the fields of [WireLib], and
    [WireLaws] says that decoding inverts encoding. *)

From S2P Require Import Prelude RustStr SocketAddr Routing Config Layers TpmEnv Float Metrics Http Ws Proxy.

Local Open Scope Z_scope.

(** The value that [serde] sees of a [StreamFrame]: its byte field is a
    string, after [serde_bytes_hex]. *)
Inductive WireFrame :=
| Wire_Head (status : Z) (headers : list (string * string))
| Wire_Body (data : string).

Class WireLib := {
  (** [hex::encode]; [hex::decode] is [hex_decode_body]. *)
  hex_of : list Z → string;
  (** [serde_json::to_vec] and [serde_json::from_slice]. *)
  json_of : WireFrame → list Z;
  json_parse : list Z → option WireFrame;
}.

Section wire.
Context `{CR : !Crypto, PSDK : !ProxySdk, WIRE : !WireLib}.

(** [serde_bytes_hex]. *)
Definition serialize (bytes : list Z) : string := hex_of bytes.

Definition deserialize (s : string) : option (list Z) := hex_decode_body s.

(** The derived [Serialize] and [Deserialize] of [StreamFrame]. *)
Definition StreamFrame_serialize (f : StreamFrame) : WireFrame :=
  match f with
  | Head status headers => Wire_Head status headers
  | Body data => Wire_Body (serialize data)
  end.

Definition StreamFrame_deserialize (w : WireFrame) : option StreamFrame :=
  match w with
  | Wire_Head status headers => Some (Head status headers)
  | Wire_Body s => Body <$> deserialize s
  end.

Definition frame_to_vec (f : StreamFrame) : list Z := json_of (StreamFrame_serialize f).

Definition frame_from_slice (bs : list Z) : option StreamFrame :=
  json_parse bs ≫= StreamFrame_deserialize.

(** ** Well-formed frames *)

(** What a Rust [String] can hold. *)
Definition is_str (s : string) : Prop := utf8_valid (as_bytes s) = true.

(** What a value of the Rust type [StreamFrame] can hold: a [u16], strings,
    bytes. *)
Definition frame_ok (f : StreamFrame) : Prop :=
  match f with
  | Head status headers =>
      0 ≤ status ≤ u16_max ∧ Forall (λ '(k, v), is_str k ∧ is_str v) headers
  | Body data => is_bytes data
  end.

(** The bytes that the text of a head and of a body take at most; a character
    of a JSON string takes at most six. *)
Definition headers_size (headers : list (string * string)) : Z :=
  foldr (λ '(k, v) n, 6 * Z.of_nat (String.length k) + 6 * Z.of_nat (String.length v) + 8 + n) 0 headers.

Definition frame_size (f : StreamFrame) : Z :=
  match f with
  | Head _ headers => 64 + headers_size headers
  | Body data => 32 + 2 * Z.of_nat (length data)
  end.

(** What is relied on of [hex] and [serde_json]. *)
Class WireLaws := {
  hex_decodes bs : is_bytes bs → hex_decode_body (hex_of bs) = Some bs;
  hex_length bs : String.length (hex_of bs) = (2 * length bs)%nat;
  json_decodes f : frame_ok f →
    json_parse (json_of (StreamFrame_serialize f)) = Some (StreamFrame_serialize f);
  json_length f : frame_ok f → Z.of_nat (length (frame_to_vec f)) ≤ frame_size f;
}.

Lemma frame_json_roundtrip `{LAWS : !WireLaws} f :
  frame_ok f → frame_from_slice (frame_to_vec f) = Some f.
Proof.
  intros Hf. unfold frame_from_slice, frame_to_vec. rewrite json_decodes by done. simpl.
  destruct f as [status headers|data]; [done|]. simpl. unfold deserialize, serialize.
  by rewrite hex_decodes.
Qed.

(** ** The layout of the stream *)

(** [[len: u32 BE][counter: u64 BE][ciphertext]]. *)
Definition wire_record (r : Z * list Z) : list Z :=
  be_encode 4 (Z.of_nat (length r.2)) ++ be_encode 8 r.1 ++ r.2.

Definition wire_stream (rs : list (Z * list Z)) : list Z := concat (wire_record <$> rs).

Lemma wire_record_length r : length (wire_record r) = (12 + length r.2)%nat.
Proof. unfold wire_record. rewrite !length_app, !be_encode_length. lia. Qed.

Lemma wire_stream_cons r rs : wire_stream (r :: rs) = wire_record r ++ wire_stream rs.
Proof. done. Qed.

End wire.
