(* ===== verification/Client.v ===== *)
(** * The client of the repository ([tests/frame_helper/mod.rs])

    The client half of the protocol, as the integration tests drive it:
    [framed_trusted_request] seals a request for an attested session and
    [decode_frames] reads the sealed response back.  The SDK's client session
    is the [session] of [WsSdk]; what else the client calls of the SDK and of
    its HTTP libraries are the fields of [ClientSdk].  The section
    [integrity] is about what a network between the two can make the client
    accept. *)

From S2P Require Import Prelude RustStr SocketAddr Routing Config Layers TpmEnv Float Metrics Http Ws WsSpec Proxy ProxySpec Wire.

Local Open Scope Z_scope.

Definition WIRE_METHOD : string := "POST".

(** [http::Uri] with its scheme. *)
Record ClientUri := mkClientUri {
  cu_scheme : option string;
  cu_uri : Uri;
}.

(** [HeaderMap::insert]: the value replaces every value of the name. *)
Definition hdr_insert (h : HeaderMap) (name : string) (value : list Z) : HeaderMap :=
  List.filter (λ p, negb (bool_decide (p.1 = name))) h ++ [(name, value)].

Class ClientSdk `{CR : !Crypto, WSDK : !WsSdk, PSDK : !ProxySdk} := {
  HDR_ATTEST_TICKET : string;
  (** [AttestSession::with_keys_for_trr] and [with_keys_for_trs]. *)
  session_trr : ∀ {A : Type}, session → Z → (SessionKeys → Z → A) → result trr_error A;
  session_trs : ∀ {A : Type}, session → (SessionKeys → Z → A) → result trr_error A;
  (** [encode_attest_ticket], the end of an HMAC, and SHA-384. *)
  encode_attest_ticket : Z → list Z → list Z;
  hmac_finalize : hmac_state → list Z;
  sha384 : list Z → list Z;
  (** [Uri::to_string], [Uri::from_str] and [HeaderValue::from_str]. *)
  uri_to_string : ClientUri → string;
  uri_parse : string → option ClientUri;
  header_from_str : string → option (list Z);
}.

Section client.
Context `{CR : !Crypto, HTTP : !HttpLib, WSDK : !WsSdk, PSDK : !ProxySdk}.
Context `{WIRE : !WireLib, CSDK : !ClientSdk}.

(** The errors of the client, one for each message, and its panics. *)
Inductive ClientError :=
| InvalidUri (s : string)
| RngFailure
| KeySetup (e : crypto_error)
| EncryptionFailed (e : crypto_error)
| InvalidBaseIdHeader
| InvalidRealMethodHeader
| HmacKeySetup
| AhlFailed (e : ahl_error)
| SessionFailed (e : trr_error)
| SendFailed
| ServerReturnedError (status : Z)
| BodyCollectFailed
| TruncatedFrameHeader
| TruncatedFrameBody
| NonceLength (e : crypto_error)
| StreamDecryptFailed (e : crypto_error)
| MalformedFrame
| SecondHead
| BodyBeforeHead
| EmptyStream
| ClientPanic.

Record FramedResponse := mkFramedResponse {
  fr_status : Z;
  fr_headers : list (string * string);
  fr_body : list Z;
}.

Definition default_port (scheme : option string) : option string :=
  s ← scheme;
  if bool_decide (s = "https") then Some "443"
  else if bool_decide (s = "http") then Some "80" else None.

Definition ahl_authority (uri : ClientUri) : string :=
  match uri_authority (cu_uri uri) with
  | None => EmptyString
  | Some auth =>
      match default_port (cu_scheme uri) with
      | None => auth
      | Some port =>
          match rsplit_once ":" auth with
          | Some (host, p) => if bool_decide (p = port) then host else auth
          | None => auth
          end
      end
  end.

(** ** The request *)

(** The closure of [seal_request]: seal the body, then sign the counter and
    the headers.  A wrong length of the initialisation vector panics. *)
Definition seal_with_keys (method path : string) (query : option string) (authority : string)
    (body aad : list Z) (base_id : string) (keys : SessionKeys) (counter : Z)
  : result ClientError (HeaderMap * list Z) :=
  if negb (bool_decide (length (client_write_iv keys) = 12%nat)) then Err ClientPanic
  else
    bound_key ← map_err KeySetup
                  (BoundAeadKey_new Aes256Gcm (client_write_key keys) (client_write_iv keys));
    '(_, data) ← map_err EncryptionFailed (bound_seal bound_key aad body).1;
    id_value ← ok_or InvalidBaseIdHeader (header_from_str base_id);
    let hdrs := hdr_insert [] HDR_ATTEST_BASE_ID id_value in
    method_value ← ok_or InvalidRealMethodHeader (header_from_str (to_ascii_uppercase method));
    let hdrs := hdr_insert hdrs HDR_ATTEST_REAL_METHOD method_value in
    hmac ← ok_or HmacKeySetup (hmac_new (client_mac_key keys));
    let hmac := hmac_update hmac (be_encode 8 counter) in
    chunks ← map_err AhlFailed (ahl_chunks WIRE_METHOD path query authority hdrs);
    let mac := hmac_finalize (foldl hmac_update hmac chunks) in
    Ok (hdr_insert hdrs HDR_ATTEST_TICKET (encode_attest_ticket counter mac), data).

(** [rng] is what filling eight bytes gives. *)
Definition seal_request (s : session) (rng : option (list Z)) (method path : string)
    (query : option string) (authority : string) (body aad : list Z) (base_id : string)
  : result ClientError (HeaderMap * list Z) :=
  nonce_bytes ← ok_or RngFailure rng;
  match session_trr s (be_decode nonce_bytes)
          (seal_with_keys method path query authority body aad base_id) with
  | Err e => Err (SessionFailed e)
  | Ok r => r
  end.

Record TransportRequest := mkTransportRequest {
  tq_method : string;
  tq_uri : ClientUri;
  tq_headers : HeaderMap;
  tq_body : list Z;
}.

(** A response: its status, and its body unless collecting it fails. *)
Record TransportResponse := mkTransportResponse {
  ts_status : Z;
  ts_body : option (list Z);
}.

Definition is_success (status : Z) : bool := (200 <=? status) && (status <? 300).

(** ** The response *)

(** The variables of the loop of [decode_frames]. *)
Record Decoding := mkDecoding {
  de_prev_hash : list Z;
  de_status : option Z;
  de_headers : list (string * string);
  de_body : list Z;
}.

(** The closure that opens one frame: the frame and the next hash. *)
Definition open_frame (aad prev_hash : list Z) (counter : Z) (ciphertext : list Z)
    (keys : SessionKeys) (_ : Z) : result ClientError (StreamFrame * list Z) :=
  if negb (bool_decide (length (server_write_iv keys) = 12%nat)) then Err ClientPanic
  else
    nonce ← map_err NonceLength (nonce_from_slice (tls13_nonce (server_write_iv keys) counter));
    key ← map_err KeySetup (AeadKey_new Aes256Gcm (server_write_key keys));
    let next_hash := sha384 (prev_hash ++ ciphertext) in
    plaintext ← map_err StreamDecryptFailed
                  (open_in_place key nonce (aad ++ prev_hash) ciphertext);
    frame ← ok_or MalformedFrame (frame_from_slice plaintext);
    Ok (frame, next_hash).

Definition accept_frame (d : Decoding) (frame : StreamFrame) (next_hash : list Z)
  : result ClientError Decoding :=
  match frame, de_status d with
  | Head _ _, Some _ => Err SecondHead
  | Head status headers, None => Ok (mkDecoding next_hash (Some status) headers (de_body d))
  | Body _, None => Err BodyBeforeHead
  | Body data, Some status =>
      Ok (mkDecoding next_hash (Some status) (de_headers d) (de_body d ++ data))
  end.

(** One iteration, on the bytes from the offset on: the variables and the
    bytes after it. *)
Definition decode_step (s : session) (aad : list Z) (d : Decoding) (rest : list Z)
  : result ClientError (Decoding * list Z) :=
  if bool_decide (length rest < 12)%nat then Err TruncatedFrameHeader
  else
    let len := Z.to_nat (be_decode (take 4 rest)) in
    let counter := be_decode (take 8 (drop 4 rest)) in
    let rest := drop 12 rest in
    if bool_decide (length rest < len)%nat then Err TruncatedFrameBody
    else
      match session_trs s (open_frame aad (de_prev_hash d) counter (take len rest)) with
      | Err e => Err (SessionFailed e)
      | Ok r => '(frame, next_hash) ← r;
                d ← accept_frame d frame next_hash;
                Ok (d, drop len rest)
      end.

(** The loop; an iteration consumes at least the twelve bytes of a frame
    header, so the number of bytes is enough fuel ([decode_loop_fuel]). *)
Fixpoint decode_loop (fuel : nat) (s : session) (aad : list Z) (d : Decoding) (rest : list Z)
  : result ClientError Decoding :=
  match rest, fuel with
  | [], _ => Ok d
  | _, O => Err TruncatedFrameHeader
  | _, S fuel => '(d, rest) ← decode_step s aad d rest; decode_loop fuel s aad d rest
  end.

Definition decoding_start : Decoding := mkDecoding (replicate 48 0) None [] [].

Definition decode_frames (s : session) (aad raw : list Z) : result ClientError FramedResponse :=
  d ← decode_loop (length raw) s aad decoding_start raw;
  status ← ok_or EmptyStream (de_status d);
  Ok (mkFramedResponse status (de_headers d) (de_body d)).

(** ** The whole exchange *)

Definition full_uri_str (server_base : ClientUri) (path : string) : string :=
  let base := uri_to_string server_base in
  (if ends_with "/" base && starts_with "/" path then pop base else base) +:+ path.

(** [framed_trusted_request]; [send] is the transport. *)
Definition framed_trusted_request (send : TransportRequest → option TransportResponse)
    (s : session) (rng : option (list Z)) (server_base : ClientUri) (method path : string)
    (body : list Z) : result ClientError FramedResponse :=
  let aad := session_aad s in
  uri ← ok_or (InvalidUri (full_uri_str server_base path)) (uri_parse (full_uri_str server_base path));
  '(headers, encrypted_body) ←
    seal_request s rng method (uri_path (cu_uri uri)) (uri_query (cu_uri uri)) (ahl_authority uri)
      body aad (session_id s);
  let headers := hdr_insert headers "content-type" (as_bytes "application/json") in
  resp ← ok_or SendFailed
           (send (mkTransportRequest WIRE_METHOD uri headers
                    (as_bytes (envelope (hex_of encrypted_body)))));
  if negb (is_success (ts_status resp)) then Err (ServerReturnedError (ts_status resp))
  else
    raw ← ok_or BodyCollectFailed (ts_body resp);
    decode_frames s aad raw.

(** ** The loop *)

Lemma decode_step_shrinks s aad d rest d' rest' :
  decode_step s aad d rest = Ok (d', rest') → (length rest' + 12 ≤ length rest)%nat.
Proof.
  unfold decode_step. case_bool_decide as Hl; [done|]. cbv zeta. case_bool_decide; [done|].
  destruct (session_trs s _) as [r|]; [|done]. intros ([f h]&_&Hr)%result_bind_Ok.
  apply result_bind_Ok in Hr as (d1&_&[= _ <-]). rewrite !length_drop. lia.
Qed.

(** Fuel beyond the number of bytes changes nothing. *)
Lemma decode_loop_fuel s aad fuel fuel' d rest :
  (length rest ≤ fuel)%nat → (length rest ≤ fuel')%nat →
  decode_loop fuel s aad d rest = decode_loop fuel' s aad d rest.
Proof.
  revert fuel' d rest. induction fuel as [|fuel IH]; intros [|fuel'] d [|b rest] H1 H2;
    simpl in H1, H2; try lia; try done.
  cbn [decode_loop]. destruct (decode_step s aad d (b :: rest)) as [[d' rest']|] eqn:Hs; [|done].
  apply decode_step_shrinks in Hs. simpl in *. apply IH; lia.
Qed.

(** The loop without its fuel. *)
Definition decode_from (s : session) (aad : list Z) (d : Decoding) (rest : list Z)
  : result ClientError Decoding := decode_loop (length rest) s aad d rest.

Lemma decode_from_step s aad d rest :
  rest ≠ [] →
  decode_from s aad d rest = '(d, rest) ← decode_step s aad d rest; decode_from s aad d rest.
Proof.
  intros Hne. unfold decode_from at 1. destruct rest as [|b rest]; [done|]. cbn [length decode_loop].
  destruct (decode_step s aad d (b :: rest)) as [[d' rest']|] eqn:Hs; [|done]. simpl.
  apply decode_step_shrinks in Hs. simpl in Hs. apply decode_loop_fuel; lia.
Qed.

(** A well-formed record at the front of the bytes is read back. *)
Lemma decode_step_record s aad d c ct rest :
  0 ≤ c ≤ u64_max → Z.of_nat (length ct) ≤ u32_max →
  decode_step s aad d (wire_record (c, ct) ++ rest) =
    match session_trs s (open_frame aad (de_prev_hash d) c ct) with
    | Err e => Err (SessionFailed e)
    | Ok r => '(frame, next_hash) ← r; d ← accept_frame d frame next_hash; Ok (d, rest)
    end.
Proof.
  intros Hc Hl. unfold u64_max, u32_max in *. unfold decode_step.
  rewrite bool_decide_eq_false_2 by (rewrite length_app, wire_record_length; lia).
  unfold wire_record. simpl fst. simpl snd. rewrite <-!(assoc_L (++)).
  set (l4 := be_encode 4 _). set (c8 := be_encode 8 c).
  assert (length l4 = 4%nat) as H4 by apply be_encode_length.
  assert (length c8 = 8%nat) as H8 by apply be_encode_length.
  assert (drop 12 (l4 ++ c8 ++ ct ++ rest) = ct ++ rest) as ->.
  { rewrite (assoc_L (++) l4 c8). apply drop_app_length'. rewrite length_app. lia. }
  rewrite (take_app_length' l4), (drop_app_length' l4), (take_app_length' c8) by done.
  unfold l4, c8. rewrite !be_decode_encode by (simpl; lia). rewrite Nat2Z.id.
  rewrite bool_decide_eq_false_2 by (rewrite length_app; lia).
  by rewrite take_app_length, drop_app_length.
Qed.

(** ** Frames and the response they make *)

(** The running hash after some ciphertexts, and the hashes before each of
    them and after the last. *)
Definition chain_hash (h : list Z) (cts : list (list Z)) : list Z :=
  foldl (λ h ct, sha384 (h ++ ct)) h cts.

Fixpoint running_hashes (h : list Z) (cts : list (list Z)) : list (list Z) :=
  match cts with
  | [] => [h]
  | ct :: cts => h :: running_hashes (sha384 (h ++ ct)) cts
  end.

Lemma running_hashes_lookup h cts cts' :
  running_hashes h (cts ++ cts') !! length cts = Some (chain_hash h cts).
Proof. revert h. induction cts as [|ct cts IH]; intros h; [by destruct cts'|]. apply IH. Qed.

(** Accepting the frames in turn; the hashes are those of the ciphertexts. *)
Definition accept_all (d : Decoding) (l : list (list Z * StreamFrame)) : result ClientError Decoding :=
  try_fold (λ d '(ct, f), accept_frame d f (sha384 (de_prev_hash d ++ ct))) d l.

Lemma accept_frame_hash d f h d' : accept_frame d f h = Ok d' → de_prev_hash d' = h.
Proof. unfold accept_frame. repeat case_match; intros [= <-]; done. Qed.

Lemma accept_all_body st l d d' :
  de_status d = Some st → accept_all d l = Ok d' →
  ∃ chunks, l.*2 = Body <$> chunks ∧ de_status d' = Some st ∧ de_headers d' = de_headers d ∧
    de_body d' = de_body d ++ concat chunks.
Proof.
  revert d. induction l as [|[ct f] l IH]; intros d Hst Ha.
  { injection Ha as <-. exists []. simpl. by rewrite app_nil_r. }
  unfold accept_all in Ha. cbn [try_fold] in Ha. unfold accept_frame in Ha. rewrite Hst in Ha.
  destruct f as [|data]; [done|].
  apply IH in Ha as (chunks&Hl&Hs&Hh&Hb); [|done]. exists (data :: chunks).
  rewrite fmap_cons, Hl. split_and!; try done. rewrite Hb. simpl. by rewrite (assoc_L (++)).
Qed.

(** The response is the head, then bodies. *)
Lemma accept_all_start l d :
  accept_all decoding_start l = Ok d → l ≠ [] →
  ∃ status headers chunks, l.*2 = Head status headers :: (Body <$> chunks) ∧
    de_status d = Some status ∧ de_headers d = headers ∧ de_body d = concat chunks.
Proof.
  destruct l as [|[ct [status headers|data]] l]; [done| |done]. intros Ha _.
  unfold accept_all in Ha. cbn [try_fold] in Ha. simpl in Ha.
  apply (accept_all_body status) in Ha as (chunks&Hl&Hs&Hh&Hb); [|done].
  exists status, headers, chunks. by rewrite fmap_cons, Hl.
Qed.

(** ** Reading what the proxy sealed *)

(** The stream of the SDK's [seal_stream] from a running hash on: the frames
    and their records of counter and ciphertext.  The nonce is that of the
    counter, and the bound data end in the running hash. *)
Inductive sealed (key : aead_key) (iv aad : list Z) :
  list Z → list StreamFrame → list (Z * list Z) → Prop :=
| sealed_nil h : sealed key iv aad h [] []
| sealed_cons h f fs c ct rs n :
    0 ≤ c ≤ u64_max → Z.of_nat (length ct) ≤ u32_max →
    nonce_from_slice (tls13_nonce iv c) = Ok n →
    open_in_place key n (aad ++ h) ct = Ok (frame_to_vec f) →
    sealed key iv aad (sha384 (h ++ ct)) fs rs →
    sealed key iv aad h (f :: fs) ((c, ct) :: rs).

(** The client's side of a session whose server keys are [keys]. *)
Record reads (s : session) (keys : SessionKeys) (key : aead_key) : Prop := {
  rd_keys A (f : SessionKeys → Z → A) : ∃ ctr, session_trs s f = Ok (f keys ctr);
  rd_iv : length (server_write_iv keys) = 12%nat;
  rd_key : AeadKey_new Aes256Gcm (server_write_key keys) = Ok key;
}.

Lemma open_frame_sealed `{LAWS : !WireLaws} s keys key aad h c ct n f :
  reads s keys key → nonce_from_slice (tls13_nonce (server_write_iv keys) c) = Ok n →
  open_in_place key n (aad ++ h) ct = Ok (frame_to_vec f) → frame_ok f →
  session_trs s (open_frame aad h c ct) = Ok (Ok (f, sha384 (h ++ ct))).
Proof.
  intros [Hk Hiv Hkey] Hn Ho Hf. destruct (Hk _ (open_frame aad h c ct)) as [ctr ->]. f_equal.
  unfold open_frame. rewrite bool_decide_eq_true_2 by done. cbn [negb].
  rewrite Hn, Hkey. cbn [map_err mbind result_bind]. rewrite Ho. cbn [map_err mbind result_bind].
  by rewrite frame_json_roundtrip.
Qed.

Lemma decode_from_sealed `{LAWS : !WireLaws} s keys key aad d fs rs :
  reads s keys key → sealed key (server_write_iv keys) aad (de_prev_hash d) fs rs →
  Forall frame_ok fs →
  decode_from s aad d (wire_stream rs) = accept_all d (zip rs.*2 fs).
Proof.
  intros Hr. generalize (eq_refl (de_prev_hash d)). generalize (de_prev_hash d) at 2 3. intros h Hh Hs.
  revert d Hh. induction Hs as [h|h f fs c ct rs n Hc Hl Hn Ho Hs IH]; intros d Hh Hok; [done|].
  apply Forall_cons in Hok as [Hf Hok].
  rewrite decode_from_step.
  2: { rewrite wire_stream_cons. intros [Hnil _]%app_nil. apply (f_equal length) in Hnil.
       rewrite wire_record_length in Hnil. simpl in Hnil. lia. }
  rewrite wire_stream_cons, decode_step_record by done. rewrite Hh.
  rewrite (open_frame_sealed s keys key aad h c ct n f) by done. cbn [mbind result_bind].
  rewrite fmap_cons. cbn [zip zip_with snd]. unfold accept_all. cbn [try_fold]. rewrite Hh.
  destruct (accept_frame d f _) as [d'|] eqn:Ha; [|done]. simpl.
  apply IH; [by apply (accept_frame_hash _ _ _ _ Ha)|done].
Qed.

(** A head and bodies are accepted. *)
Lemma accept_all_bodies d status cts chunks :
  de_status d = Some status → length cts = length chunks →
  ∃ h, accept_all d (zip cts (Body <$> chunks)) =
    Ok (mkDecoding h (Some status) (de_headers d) (de_body d ++ concat chunks)).
Proof.
  revert d cts. induction chunks as [|c chunks IH]; intros [h st hs b] cts Hst Hl; simpl in Hst; subst st.
  { exists h. destruct cts; [|done]. simpl. by rewrite app_nil_r. }
  destruct cts as [|ct cts]; [done|]. injection Hl as Hl. rewrite fmap_cons. cbn [zip zip_with].
  unfold accept_all. cbn [try_fold]. simpl.
  destruct (IH (mkDecoding (sha384 (h ++ ct)) (Some status) hs (b ++ c)) cts eq_refl Hl) as [h' Ha].
  exists h'. unfold accept_all in Ha. rewrite Ha. simpl. by rewrite (assoc_L (++)).
Qed.

Lemma sealed_length key iv aad h fs rs : sealed key iv aad h fs rs → length rs = length fs.
Proof. induction 1; simpl; congruence. Qed.

(** The client reads back a sealed head and bodies. *)
Lemma decode_frames_sealed `{LAWS : !WireLaws} s keys key aad status headers chunks rs :
  reads s keys key →
  sealed key (server_write_iv keys) aad (replicate 48 0) (Head status headers :: (Body <$> chunks)) rs →
  Forall frame_ok (Head status headers :: (Body <$> chunks)) →
  decode_frames s aad (wire_stream rs) = Ok (mkFramedResponse status headers (concat chunks)).
Proof.
  intros Hr Hs Hok. pose proof (sealed_length _ _ _ _ _ _ Hs) as Hlen.
  unfold decode_frames. fold (decode_from s aad decoding_start (wire_stream rs)).
  rewrite (decode_from_sealed s keys key aad _ (Head status headers :: (Body <$> chunks))) by done.
  destruct rs as [|[c ct] rs]; [done|]. rewrite fmap_cons. cbn [zip zip_with snd].
  simpl in Hlen. rewrite length_fmap in Hlen. injection Hlen as Hlen.
  destruct (accept_all_bodies (mkDecoding (sha384 (replicate 48 0 ++ ct)) (Some status) headers [])
              status rs.*2 chunks) as [h Ha]; [done|by rewrite length_fmap|].
  change (accept_all _ _) with (accept_all (mkDecoding (sha384 (replicate 48 0 ++ ct)) (Some status)
    headers []) (zip rs.*2 (Body <$> chunks))). by rewrite Ha.
Qed.

(** ** What the client can be made to accept *)

(** The frames that opened, each under the running hash before it. *)
Fixpoint opened_under (key : aead_key) (aad h : list Z) (l : list (list Z * StreamFrame)) : Prop :=
  match l with
  | [] => True
  | (ct, f) :: l =>
      (∃ n p, open_in_place key n (aad ++ h) ct = Ok p ∧ frame_from_slice p = Some f) ∧
      opened_under key aad (sha384 (h ++ ct)) l
  end.

Section integrity.
Context (s : session) (keys : SessionKeys) (key : aead_key) (aad : list Z).
(** The session's closure runs on its keys. *)
Hypothesis Hkeys : ∀ A (f : SessionKeys → Z → A) r, session_trs s f = Ok r → ∃ ctr, r = f keys ctr.
Hypothesis Hkey : AeadKey_new Aes256Gcm (server_write_key keys) = Ok key.

Lemma decode_step_opened d rest d' rest' :
  decode_step s aad d rest = Ok (d', rest') →
  ∃ ct f n p, open_in_place key n (aad ++ de_prev_hash d) ct = Ok p ∧ frame_from_slice p = Some f ∧
    accept_frame d f (sha384 (de_prev_hash d ++ ct)) = Ok d'.
Proof.
  unfold decode_step. case_bool_decide; [done|]. cbv zeta. case_bool_decide; [done|].
  destruct (session_trs s _) as [r|] eqn:Ht; [|done]. apply Hkeys in Ht as [ctr ->].
  intros ([f h]&Ho&Hr)%result_bind_Ok. apply result_bind_Ok in Hr as (d1&Ha&[= <- _]).
  unfold open_frame in Ho. case_bool_decide; [|done]. cbn [negb] in Ho.
  apply result_bind_Ok in Ho as (n&_&Ho). rewrite Hkey in Ho.
  apply result_bind_Ok in Ho as (k&[= <-]&Ho). apply result_bind_Ok in Ho as (p&Hp%map_err_Ok&Ho).
  apply result_bind_Ok in Ho as (g&Hg%ok_or_Ok&[= -> <-]). eauto 10.
Qed.

Lemma decode_from_opened d rest d' :
  decode_from s aad d rest = Ok d' →
  ∃ l, accept_all d l = Ok d' ∧ opened_under key aad (de_prev_hash d) l.
Proof.
  remember (length rest) as n eqn:Hn. revert rest Hn d.
  induction (Nat.lt_wf_0 n) as [n _ IH]. intros rest -> d Hd.
  destruct rest as [|b rest]; [injection Hd as <-; by exists []|].
  rewrite decode_from_step in Hd by done. apply result_bind_Ok in Hd as ([d1 rest1]&Hs&Hd).
  pose proof (decode_step_shrinks _ _ _ _ _ _ Hs) as Hl.
  apply decode_step_opened in Hs as (ct&f&m&p&Ho&Hp&Ha).
  apply (IH (length rest1)) in Hd as (l&Hacc&Hop); [|lia|done].
  exists ((ct, f) :: l). split.
  - unfold accept_all. cbn [try_fold]. by rewrite Ha.
  - rewrite (accept_frame_hash _ _ _ _ Ha) in Hop. simpl. eauto.
Qed.

(** The proxy's log of the stream: its ciphertexts and their frames. *)
Context (log : list (list Z * StreamFrame)).

Definition log_hashes : list (list Z) := running_hashes (replicate 48 0) log.*1.

(** Ciphertext integrity: what opens under the key is a ciphertext of the log,
    with the bound data and the plaintext it was sealed with. *)
Hypothesis Hauth : ∀ n a ct p, open_in_place key n a ct = Ok p →
  ∃ i h f, log !! i = Some (ct, f) ∧ log_hashes !! i = Some h ∧ a = aad ++ h ∧ p = frame_to_vec f.
(** The running hashes of the stream do not collide. *)
Hypothesis Hfresh : NoDup log_hashes.
Hypothesis Hok : Forall frame_ok log.*2.

Lemma opened_prefix `{LAWS : !WireLaws} pre post l :
  log = pre ++ post → opened_under key aad (chain_hash (replicate 48 0) pre.*1) l → l `prefix_of` post.
Proof.
  revert pre post. induction l as [|[ct f] l IH]; intros pre post Hlog Hop; [apply prefix_nil|].
  destruct Hop as [(n&p&Ho&Hp) Hop].
  destruct (Hauth _ _ _ _ Ho) as (i&h&g&Hi&Hh&Ha&->). apply app_inv_head in Ha. subst h.
  assert (log_hashes !! length pre = Some (chain_hash (replicate 48 0) pre.*1)) as Hpre.
  { unfold log_hashes. rewrite Hlog, fmap_app. rewrite <-(length_fmap fst pre) at 1.
    apply running_hashes_lookup. }
  pose proof (NoDup_lookup _ _ _ _ Hfresh Hh Hpre) as ->.
  assert (f = g) as ->.
  { rewrite frame_json_roundtrip in Hp by (rewrite Forall_forall in Hok; apply Hok;
      apply list_elem_of_fmap; exists (ct, g); eauto using list_elem_of_lookup_2). by injection Hp. }
  rewrite Hlog, lookup_app_r, Nat.sub_diag in Hi by done.
  destruct post as [|x post]; [done|]. injection Hi as ->. apply prefix_cons.
  apply (IH (pre ++ [(ct, g)])); [by rewrite <-(assoc_L (++))|].
  rewrite fmap_app. unfold chain_hash. by rewrite foldl_app.
Qed.

End integrity.

(** What a network can make the client accept: when everything that opens
    under the session's server key was sealed by the proxy for this one
    response, and the running hashes of the response do not collide, any bytes
    that [decode_frames] accepts yield the status and the headers of the head
    that the proxy sealed and a prefix of the body frames it sealed, in order. *)
Lemma decode_frames_integrity `{LAWS : !WireLaws} s keys key aad log raw resp
    (Hkeys : ∀ A (f : SessionKeys → Z → A) r, session_trs s f = Ok r → ∃ ctr, r = f keys ctr)
    (Hkey : AeadKey_new Aes256Gcm (server_write_key keys) = Ok key)
    (Hauth : ∀ n a ct p, open_in_place key n a ct = Ok p →
       ∃ i h f, log !! i = Some (ct, f) ∧ log_hashes log !! i = Some h ∧ a = aad ++ h ∧
         p = frame_to_vec f)
    (Hfresh : NoDup (log_hashes log)) (Hok : Forall frame_ok log.*2)
    (Hdec : decode_frames s aad raw = Ok resp) :
  ∃ status headers chunks rest,
    log.*2 = Head status headers :: (Body <$> chunks) ++ rest ∧
    resp = mkFramedResponse status headers (concat chunks).
Proof.
  unfold decode_frames in Hdec. apply result_bind_Ok in Hdec as (d&Hd&Hdec).
  apply result_bind_Ok in Hdec as (status&Hst%ok_or_Ok&[= <-]).
  apply (decode_from_opened s keys key aad Hkeys Hkey) in Hd as (l&Ha&Hop).
  destruct (opened_prefix key aad log Hauth Hfresh Hok [] log l eq_refl Hop) as [rest Hlog].
  assert (l ≠ []) as Hne by (intros ->; injection Ha as <-; done).
  destruct (accept_all_start _ _ Ha Hne) as (st&hs&chunks&Hl&Hs&<-&->).
  rewrite Hs in Hst. injection Hst as ->. exists status, (de_headers d), chunks, rest.*2.
  by rewrite Hlog, fmap_app, Hl.
Qed.

End client.

(** ** A concrete client

    A SDK over any cipher: sessions are their identifiers, the ticket is the
    counter before the MAC, the MAC sums the bytes, the header list is the
    request line and the attestation headers; frames are numbers. *)
Module ClientToy.

Definition quote : ascii := ascii_of_nat 34.

Definition parse (bs : list Z) : option string :=
  r ← strip_prefix ("{" +:+ dq +:+ "ciphertext" +:+ dq +:+ ":" +:+ dq) (string_of_bytes bs);
  match rsplit_once quote r with
  | Some (hex, rest) => if bool_decide (rest = "}") then Some hex else None
  | None => None
  end.

Lemma parse_envelope_hex hex : parse (as_bytes (envelope hex)) = Some hex.
Proof.
  unfold parse. rewrite string_of_as_bytes. unfold envelope. rewrite !str_app_assoc.
  rewrite <-(str_app_assoc _ hex), <-(str_app_assoc _ (hex +:+ dq)), strip_prefix_app. simpl.
  rewrite (proj2 (rsplit_once_Some quote ((hex +:+ dq) +:+ "}") hex "}")); [done|].
  split; [by rewrite <-str_app_assoc|done].
Qed.

Lemma encode_length bs : String.length (Concrete.encode bs) = (2 * length bs)%nat.
Proof. induction bs as [|b bs IH]; [done|]. simpl. rewrite IH. lia. Qed.

Lemma toy_open_sealed p : Toy.toy_open (p ++ Toy.tag) = Ok p.
Proof.
  unfold Toy.toy_open. rewrite length_app. change (length Toy.tag) with 16%nat.
  replace (length p + 16 - 16)%nat with (length p) by lia.
  rewrite drop_app_length, take_app_length. by rewrite bool_decide_eq_true_2.
Qed.

Definition signed_headers (h : HeaderMap) : HeaderMap :=
  List.filter (λ p, starts_with "attest-" p.1 && negb (bool_decide (p.1 = "attest-ticket"))) h.

Definition sdk (c : Crypto) (alg : @aead_algorithm c) : @ProxySdk c := {|
  psession := string; sdk_response := unit;
  ps_aad s := as_bytes "openhttpa:" ++ as_bytes s;
  session_from_parts parts :=
    match hdr_get (p_headers parts) "attest-base-id" ≫= header_to_str (HttpLib := ProxyToy.http) with
    | Some id => Ok id | None => Err tt end;
  decode_attest_ticket h := match hdr_get h "attest-ticket" with
                            | Some (n :: mac) => Ok (n, mac)
                            | Some [] => Err Ticket_Malformed
                            | None => Err Ticket_Missing end;
  http_body := list Z;
  to_bytes b cap := if Z.of_nat (length b) <=? cap then Some b else None;
  parse_envelope := parse;
  hex_decode_body s := result_ok (Concrete.decode s);
  trr_error := unit;
  with_keys_for_trr _ _ _ f := Ok (f ProxyToy.keys 1);
  hmac_state := list Z; hmac_new k := Some k; hmac_update st c := st ++ c;
  hmac_verify st mac := bool_decide (mac = [foldr Z.add 0 st mod 256]);
  ahl_error := unit;
  ahl_chunks m p q a h :=
    Ok ([as_bytes m; as_bytes p; as_bytes (default EmptyString q); as_bytes a] ++ (signed_headers h).*2);
  Aes256Gcm := alg |}.

(** URIs of the form [http://authority/path?query]. *)
Definition parse_uri (s : string) : option ClientUri :=
  r ← strip_prefix "http://" s;
  let '(auth, tail) := default (r, EmptyString) (split_once "/" r) in
  let '(path, query) := match split_once "?" tail with
                        | Some (p, q) => (p, Some q) | None => (tail, None) end in
  Some (mkClientUri (Some "http") (mkUri (Some auth) (String "/" path) query)).

Definition finalize (st : list Z) : list Z := [foldr Z.add 0 st mod 256].

Definition client_sdk (c : Crypto) (alg : @aead_algorithm c)
  : @ClientSdk c (Toy.sdk c alg) (sdk c alg) := {|
  HDR_ATTEST_TICKET := "attest-ticket";
  session_trr _ _ _ f := Ok (f ProxyToy.keys 1);
  session_trs _ _ f := Ok (f ProxyToy.keys 1);
  encode_attest_ticket n mac := n :: mac;
  hmac_finalize := finalize : @hmac_state c (sdk c alg) → list Z;
  sha384 l := replicate 47 0 ++ [foldl (λ a b, a * 257 + b + 1) 1 l mod 2 ^ 64];
  uri_to_string u := "http://" +:+ default EmptyString (uri_authority (cu_uri u)) +:+ uri_path (cu_uri u);
  uri_parse := parse_uri;
  header_from_str s := if str_forallb (λ a, in_range 32 126 (byte_of_ascii a)) s
                       then Some (as_bytes s) else None |}.

(** A frame is its tag, then its fields; a string is written after its
    length. *)
Definition write_str (s : string) : list Z := Z.of_nat (String.length s) :: as_bytes s.

Definition read_str (l : list Z) : option (string * list Z) :=
  match l with
  | [] => None
  | n :: l => Some (string_of_bytes (take (Z.to_nat n) l), drop (Z.to_nat n) l)
  end.

Definition write_headers (h : list (string * string)) : list Z :=
  concat ((λ '(k, v), write_str k ++ write_str v) <$> h).

Fixpoint read_headers (fuel : nat) (l : list Z) : option (list (string * string)) :=
  match l, fuel with
  | [], _ => Some []
  | _, O => None
  | _, S fuel =>
      '(k, l) ← read_str l; '(v, l) ← read_str l;
      h ← read_headers fuel l; Some ((k, v) :: h)
  end.

Definition wire : WireLib := {|
  hex_of := Concrete.encode;
  json_of w := match w with
               | Wire_Head status h => 0 :: status :: write_headers h
               | Wire_Body d => 1 :: as_bytes d
               end;
  json_parse l := match l with
                  | 0 :: status :: l => Wire_Head status <$> read_headers (length l) l
                  | 1 :: l => Some (Wire_Body (string_of_bytes l))
                  | _ => None
                  end |}.

Lemma read_write_str s l : read_str (write_str s ++ l) = Some (s, l).
Proof.
  simpl. rewrite Nat2Z.id, <-length_as_bytes, take_app_length, drop_app_length.
  by rewrite string_of_as_bytes.
Qed.

Lemma read_write_headers h fuel : (length h ≤ fuel)%nat → read_headers fuel (write_headers h) = Some h.
Proof.
  revert fuel. induction h as [|[k v] h IH]; intros [|fuel] Hf; simpl in Hf; try lia; try done.
  change (write_headers ((k, v) :: h)) with ((write_str k ++ write_str v) ++ write_headers h).
  rewrite <-(assoc_L (++)).
  change (read_headers (S fuel) _) with ('(k, l) ← read_str (write_str k ++ write_str v ++ write_headers h);
    '(v, l) ← read_str l; h ← read_headers fuel l; Some ((k, v) :: h)).
  rewrite read_write_str. cbn [mbind option_bind]. rewrite read_write_str. cbn [mbind option_bind].
  by rewrite IH by lia.
Qed.

Lemma write_headers_length h :
  Z.of_nat (length h) ≤ Z.of_nat (length (write_headers h)) ≤ headers_size h.
Proof.
  induction h as [|[k v] h IH]; [done|].
  change (write_headers ((k, v) :: h)) with ((write_str k ++ write_str v) ++ write_headers h).
  rewrite !length_app. simpl. rewrite !length_as_bytes. lia.
Qed.

Lemma wire_laws c alg : WireLaws (CR := c) (PSDK := sdk c alg) (WIRE := wire).
Proof.
  split.
  - intros bs Hb. simpl. by rewrite Concrete.decode_encode.
  - intros bs. apply encode_length.
  - intros [status h|data] _; simpl; [|by rewrite string_of_as_bytes].
    pose proof (write_headers_length h). by rewrite read_write_headers by lia.
  - intros [status h|data] _; simpl.
    + pose proof (write_headers_length h). lia.
    + unfold serialize. simpl. rewrite length_as_bytes, encode_length. lia.
Qed.

(** A cipher whose key is the log of what was sealed: bound data, ciphertext
    and plaintext. *)
Definition recording (log : list (list Z * list Z * list Z)) : Crypto := {|
  aead_algorithm := unit; aead_key := list (list Z * list Z * list Z); bound_key := unit;
  aead_nonce := list Z; crypto_error := unit;
  AeadKey_new _ _ := Ok log;
  BoundAeadKey_new _ _ _ := Err tt;
  nonce_from_slice bs := Ok bs;
  nonce_bytes n := n;
  open_in_place log n a c :=
    match List.find (λ e, bool_decide (e.1 = (a, c))) log with Some e => Ok e.2 | None => Err tt end;
  bound_open _ _ _ _ := Err tt;
  bound_seal bk _ _ := (Err tt, bk) |}.

Definition text (f : StreamFrame) : list Z :=
  @frame_to_vec wire f.

(** The proxy's stream: a head and two bodies; its ciphertexts are tagged
    plaintexts. *)
Definition frames : list StreamFrame := [Head 200 [("x-a", "1")]; Body [1; 2]; Body [3]].
Definition log : list (list Z * StreamFrame) := (λ f, (text f ++ Toy.tag, f)) <$> frames.
Definition hashes : list (list Z) :=
  log_hashes (CSDK := client_sdk (recording []) tt) log.
Definition entries : list (list Z * list Z * list Z) :=
  zip_with (λ h '(ct, f), (session_aad (CR := recording []) (SDK := Toy.sdk (recording []) tt) "s" ++ h,
                           ct, text f)) hashes log.

#[export] Instance cipher : Crypto := recording entries.
Definition client : ClientSdk := client_sdk cipher tt.

Lemma recorded n a ct p :
  open_in_place (Crypto := cipher) entries n a ct = Ok p →
  ∃ i h f, log !! i = Some (ct, f) ∧ hashes !! i = Some h ∧
    a = session_aad (SDK := Toy.sdk cipher tt) "s" ++ h ∧ p = text f.
Proof.
  cbn [open_in_place cipher recording]. destruct (List.find _ entries) as [e|] eqn:He; [|done].
  intros [= <-]. apply find_some in He as [Hin He%bool_decide_eq_true].
  apply list_elem_of_In, list_elem_of_lookup in Hin as [i Hi]. unfold entries in Hi.
  apply lookup_zip_with_Some in Hi as (h&[ct' f]&->&Hh&Hf). simpl in He. injection He as <- <-.
  exists i, h, f. done.
Qed.

(** The stream cut after its second frame, and with its bodies swapped. *)
Definition records : list (Z * list Z) := zip [1; 2; 3] log.*1.
Definition cut : list Z := wire_stream (take 2 records).
Definition swapped : list Z :=
  match records with [a; b; c] => wire_stream [a; c; b] | _ => [] end.
End ClientToy.
