(* ===== verification/EndToEnd.v ===== *)
(** * From client to upstream and back

    The client of [Client] against the router of [Router]: the request it
    seals is delivered, opened, routed and forwarded, and what it decodes of
    the sealed stream is what the upstream answered.  [EndToEndLaws] states
    what the two halves rely on of the SDK, of HTTP and of the header codecs;
    [established] is what a handshake leaves on both sides. *)

From S2P Require Import Prelude RustStr SocketAddr Routing Config Layers TpmEnv Float Metrics Http Ws WsSpec Proxy ProxySpec Router Wire Client.

Local Open Scope Z_scope.

(** The transport: what the router is given of a request, and what the client
    is given of an answer. *)
Class Network `{CR : !Crypto, PSDK : !ProxySdk, RSDK : !RouterSdk} := {
  arrive : TransportRequest → Parts * http_body;
  respond : Response → TransportResponse;
  (** The keys with which [seal_stream] seals for a session. *)
  stream_keys : psession → SessionKeys → Prop;
}.

Section end_to_end.
Context `{CR : !Crypto, HTTP : !HttpLib, WSDK : !WsSdk, PSDK : !ProxySdk, RSDK : !RouterSdk}.
Context `{WIRE : !WireLib, CSDK : !ClientSdk, NET : !Network}.

(** The server as the client's transport sees it. *)
Definition send_to (limit : option (Z * Z)) (max : Z) (mo : Moment) (m : Metrics)
    (tq : TransportRequest) : option TransportResponse :=
  let '(parts, body) := arrive tq in
  Some (respond (an_response (serve_app limit max mo m parts body))).

(** The headers that the ticket's MAC covers. *)
Definition signed (h : HeaderMap) : HeaderMap :=
  List.filter (λ p, starts_with "attest-" p.1 && negb (bool_decide (p.1 = HDR_ATTEST_TICKET))) h.

Definition is_visible (a : ascii) : bool := in_range 32 126 (byte_of_ascii a).

(** Delivery over HTTP: the method, the path and query, the authority without
    the default port, the attestation headers and the body arrive. *)
Record delivered (tq : TransportRequest) (parts : Parts) (body : http_body) : Prop := {
  dl_method : p_method parts = tq_method tq;
  dl_uri_path : uri_path (p_uri parts) = uri_path (cu_uri (tq_uri tq));
  dl_path : client_path parts = uri_path (cu_uri (tq_uri tq));
  dl_query : client_query parts = uri_query (cu_uri (tq_uri tq));
  dl_authority : request_authority parts = ahl_authority (tq_uri tq);
  dl_header name : starts_with "attest-" name = true →
    hdr_get (p_headers parts) name = hdr_get (tq_headers tq) name;
  dl_signed : signed (p_headers parts) = signed (tq_headers tq);
  dl_body cap : Z.of_nat (length (tq_body tq)) ≤ cap → to_bytes body cap = Some (tq_body tq);
}.

(** A frame whose ciphertext fits the length field. *)
Definition frame_fits (f : StreamFrame) : Prop := frame_ok f ∧ frame_size f + 16 ≤ u32_max.

Class EndToEndLaws `{LAWS : !CryptoLaws} := {
  (** The names of the attestation headers. *)
  base_id_name : starts_with "attest-" HDR_ATTEST_BASE_ID = true ∧
    HDR_ATTEST_BASE_ID ≠ HDR_ATTEST_TICKET ∧ HDR_ATTEST_BASE_ID ≠ HDR_ATTEST_REAL_METHOD;
  ticket_name : starts_with "attest-" HDR_ATTEST_TICKET = true ∧
    HDR_ATTEST_TICKET ≠ HDR_ATTEST_REAL_METHOD;
  (** [HeaderValue]: visible text is kept; a textual value is a string. *)
  header_visible s : str_forallb is_visible s = true →
    ∃ v, header_from_str s = Some v ∧ header_to_str v = Some s;
  header_str v s : header_to_str v = Some s → is_str s;
  (** The ticket codec, the header list and the MAC. *)
  ticket_decodes h c mac : 0 ≤ c ≤ u64_max →
    hdr_get h HDR_ATTEST_TICKET = Some (encode_attest_ticket c mac) →
    decode_attest_ticket h = Ok (c, mac);
  ahl_signed method path query authority h h' : signed h = signed h' →
    ahl_chunks method path query authority h = ahl_chunks method path query authority h';
  mac_verifies st : hmac_verify st (hmac_finalize st) = true;
  (** A bound key opens what its bytes open; sealed bytes are bytes. *)
  bound_opens bk k iv c n aad ct : bound_to bk k iv c → bound_open bk n aad ct = open_in_place k n aad ct;
  seal_bytes bk aad p n ct bk' : bound_seal bk aad p = (Ok (n, ct), bk') → is_bytes p → is_bytes ct;
  (** [serde_json] of the request's envelope. *)
  envelope_parses bs : parse_envelope (as_bytes (envelope (hex_of bs))) = Some (hex_of bs);
  (** HTTP. *)
  arrives tq : delivered tq (arrive tq).1 (arrive tq).2;
  (** [seal_stream]: a response with the sealed frames; a frame that is an
      error ends the stream with a transport error. *)
  seal_stream_Ok s keys key fs :
    stream_keys s keys → AeadKey_new Aes256Gcm (server_write_key keys) = Ok key →
    Forall frame_fits fs →
    ∃ status rs, respond (R_Sealed (mkSealedResponse s (Ok <$> fs))) =
        mkTransportResponse status (Some (wire_stream rs)) ∧ is_success status = true ∧
      sealed key (server_write_iv keys) (ps_aad s) (replicate 48 0) fs rs;
  seal_stream_Err s frames : Exists (λ f, is_ok f = false) frames →
    ∃ status, respond (R_Sealed (mkSealedResponse s frames)) = mkTransportResponse status None ∧
      is_success status = true;
}.

(** What a fresh handshake leaves: the client's session [cs] and the server's
    [ps] share keys and bound data, the client's first request has counter 1,
    and the attestation layer and the extractor know the session by its
    identifier. *)
Record established (mo : Moment) (cs : session) (nonce : Z) (ps : psession) (keys : SessionKeys)
    (in_key out_key : aead_key) : Prop := {
  es_client A (f : SessionKeys → Z → A) : session_trr cs nonce f = Ok (f keys 1);
  es_server A (f : SessionKeys → Z → A) : ∃ ctr, with_keys_for_trr ps 1 f = Ok (f keys ctr);
  es_reads : reads cs keys out_key;
  es_stream_keys : stream_keys ps keys;
  es_aad : ps_aad ps = session_aad cs;
  es_id : str_forallb is_visible (session_id cs) = true;
  es_iv : length (client_write_iv keys) = 12%nat;
  es_in_key : AeadKey_new Aes256Gcm (client_write_key keys) = Ok in_key;
  es_bound : ∃ bk, BoundAeadKey_new Aes256Gcm (client_write_key keys) (client_write_iv keys) = Ok bk;
  es_hmac : ∃ st, hmac_new (client_mac_key keys) = Some st;
  es_gate parts body v :
    hdr_get (p_headers parts) HDR_ATTEST_BASE_ID = Some v → header_to_str v = Some (session_id cs) →
    mo_gate mo parts body = Ok (parts, body) ∧ session_from_parts parts = Ok ps;
}.
(** ** What the client is to get *)

Definition error_response (status : StatusCode) (message : string) : FramedResponse :=
  mkFramedResponse (as_u16 status) [("content-type", "text/plain")] (as_bytes message).

(** The upstream's body, when it can be read to its end within the limit. *)
Definition readable (max : Z) (chunks : list (option (list Z))) : option (list Z) :=
  cs ← mapM id chunks;
  if sum_len cs <=? max then Some (concat cs) else None.

(** The upstream's answer; [None] is a response that breaks off. *)
Definition upstream_outcome (max : Z) (r : UpstreamResult) : option FramedResponse :=
  match r with
  | Upstream_Err is_timeout =>
      Some (error_response (if is_timeout then GATEWAY_TIMEOUT else BAD_GATEWAY)
              "upstream request failed")
  | Upstream_Ok r =>
      if match up_content_length r with Some len => max <? len | None => false end
      then Some (error_response PAYLOAD_TOO_LARGE "upstream body too large")
      else mkFramedResponse (up_status r) (forwarded_headers (up_headers r)) <$>
             readable max (up_chunks r)
  end.

Definition outcome (max : Z) (mo : Moment) (host path : string) (query : option string)
    (method : string) (body : list Z) : option FramedResponse :=
  match select (mo_table mo) host path with
  | None => Some (error_response NOT_FOUND "no route matched")
  | Some route =>
      upstream_outcome max (mo_http mo method (upstream_url (route_upstream route) path query) body)
  end.

(** What HTTP guarantees of an upstream's response, and headers that are not
    larger than two gigabytes. *)
Record response_wf (r : UpstreamResponse) : Prop := {
  rw_status : 0 ≤ up_status r ≤ u16_max;
  rw_names : Forall (λ p, is_str p.1) (up_headers r);
  rw_chunks : Forall (λ c, ∀ bs, c = Some bs → is_bytes bs) (up_chunks r);
  rw_size : headers_size (forwarded_headers (up_headers r)) ≤ 2 ^ 31;
}.

(** The frames of an answer whose outcome is [o]. *)
Definition makes (o : option FramedResponse) (frames : list (result LlmError StreamFrame)) : Prop :=
  match o with
  | Some r => ∃ chunks, frames = Ok <$> (Head (fr_status r) (fr_headers r) :: (Body <$> chunks)) ∧
      fr_body r = concat chunks ∧
      Forall frame_fits (Head (fr_status r) (fr_headers r) :: (Body <$> chunks))
  | None => Exists (λ f, is_ok f = false) frames
  end.

Lemma as_bytes_is_bytes s : is_bytes (as_bytes s).
Proof. induction s as [|a s IH]; simpl; constructor; [apply byte_of_ascii_range|done]. Qed.

(** The proxy's own errors. *)
Lemma error_makes s status message :
  Z.of_nat (String.length message) ≤ 2 ^ 30 →
  makes (Some (error_response status message)) (sr_frames (seal_error s status message)).
Proof.
  intros Hl. exists [as_bytes message]. split_and!; [done|simpl; by rewrite app_nil_r|].
  repeat constructor; simpl; unfold is_str, u16_max; rewrite ?length_as_bytes; try done.
  - by destruct status.
  - by destruct status.
  - apply as_bytes_is_bytes.
  - unfold u32_max. lia.
Qed.

Lemma mapM_id_Some {A} (l : list (option A)) k : mapM id l = Some k ↔ l = Some <$> k.
Proof.
  rewrite mapM_Some. split.
  - induction 1 as [|x y l k Hx _ IH]; [done|]. rewrite fmap_cons. unfold id in Hx. congruence.
  - intros ->. induction k; constructor; done.
Qed.

(** A chunk that cannot be read is an error in the stream. *)
Lemma body_frames_unreadable max acc chunks :
  None ∈ chunks → Exists (λ f, is_ok f = false) (body_frames max acc chunks).
Proof.
  revert acc. induction chunks as [|[c|] chunks IH]; intros acc Hin; [by apply elem_of_nil in Hin| |].
  - apply elem_of_cons in Hin as [|Hin]; [done|]. simpl. apply Exists_cons_tl, IH, Hin.
  - by apply Exists_cons_hd.
Qed.

Lemma sum_len_elem c cs : c ∈ cs → Z.of_nat (length c) ≤ sum_len cs.
Proof.
  induction 1 as [c cs|c d cs _ IH]; simpl; pose proof (sum_len_nonneg cs); lia.
Qed.

Lemma forwarded_is_str h :
  (∀ v s, header_to_str v = Some s → is_str s) → Forall (λ p, is_str p.1) h → Forall (λ '(k, v), is_str k ∧ is_str v) (forwarded_headers h).
Proof.
  intros Hstr Hh. apply Forall_forall. intros [k v] Hin. unfold forwarded_headers in Hin.
  apply list_elem_of_omap in Hin as ([n val]&Hin&Hv). apply list_elem_of_In, filter_In in Hin as [Hin _].
  apply bind_Some in Hv as (w&Hw&[= -> ->]). rewrite Forall_forall in Hh.
  split; [apply (Hh (k, val)); by apply list_elem_of_In|by eapply Hstr].
Qed.

(** What is relayed of an upstream's response. *)
Lemma relay_makes `{LAWS : !CryptoLaws} `{E2E : !EndToEndLaws} s max r :
  0 ≤ max ≤ 2 ^ 30 → response_wf r →
  makes (upstream_outcome max (Upstream_Ok r)) (sr_frames (relay s max r)).
Proof.
  intros Hmax [Hst Hn Hc Hsz]. unfold upstream_outcome, relay.
  assert (makes (mkFramedResponse (up_status r) (forwarded_headers (up_headers r)) <$>
    readable max (up_chunks r)) (Ok (Head (up_status r) (forwarded_headers (up_headers r)))
      :: body_frames max 0 (up_chunks r))) as Hmain.
  { unfold readable. destruct (mapM id (up_chunks r)) as [cs|] eqn:Hm; simpl.
    2: { apply Exists_cons_tl, body_frames_unreadable. apply mapM_None in Hm.
         apply Exists_exists in Hm as (x&Hin&Hx). by destruct x. }
    apply mapM_id_Some in Hm. rewrite Hm in *.
    destruct (Z.leb_spec (sum_len cs) max) as [Hle|Hgt]; simpl.
    2: { apply Exists_cons_tl, body_frames_over; unfold usize_max; lia. }
    exists cs. rewrite body_frames_complete by (unfold usize_max; lia). split_and!; [|done|].
    { simpl. by rewrite <-list_fmap_compose. }
    constructor.
    - split; [split; [done|apply forwarded_is_str; [apply header_str|done]]|]. simpl. unfold u32_max. lia.
    - apply Forall_fmap, Forall_forall. intros c Hin. split; simpl.
      + rewrite Forall_forall in Hc. apply (Hc (Some c)); [|done]. apply list_elem_of_fmap. eauto.
      + pose proof (sum_len_elem _ _ Hin). unfold u32_max. lia. }
  destruct (up_content_length r) as [len|]; [|done]. destruct (max <? len); [|done].
  by apply error_makes.
Qed.
(** ** The request *)

Lemma hdr_insert_fresh h name v :
  Forall (λ p, p.1 ≠ name) h → hdr_insert h name v = h ++ [(name, v)].
Proof.
  intros Hh. unfold hdr_insert. f_equal. induction Hh as [|p h Hp _ IH]; [done|]. simpl.
  rewrite bool_decide_eq_false_2 by done. simpl. by rewrite IH.
Qed.

Lemma hdr_get_cons n v h name :
  hdr_get ((n, v) :: h) name = if bool_decide (n = name) then Some v else hdr_get h name.
Proof. unfold hdr_get. simpl. by case_bool_decide. Qed.

Section request.
Context `{LAWS : !CryptoLaws, E2E : !EndToEndLaws}.
Context (mo : Moment) (cs : session) (nonce : Z) (ps : psession) (keys : SessionKeys).
Context (in_key out_key : aead_key).
Hypothesis Hest : established mo cs nonce ps keys in_key out_key.
Context (method path : string) (query : option string) (authority : string) (body : list Z).
Hypothesis Hmethod : str_forallb is_visible (to_ascii_uppercase method) = true.
Hypothesis Hahl : ∀ h, ∃ chunks, ahl_chunks WIRE_METHOD path query authority h = Ok chunks.

(** The headers that the client signs, and those it sends. *)
Definition own_headers (id_value method_value : list Z) : HeaderMap :=
  [(HDR_ATTEST_BASE_ID, id_value); (HDR_ATTEST_REAL_METHOD, method_value)].

Definition sent_headers (id_value method_value ticket : list Z) : HeaderMap :=
  own_headers id_value method_value ++
  [(HDR_ATTEST_TICKET, ticket); ("content-type", as_bytes "application/json")].

Lemma attest_not_content_type name : starts_with "attest-" name = true → name ≠ "content-type".
Proof. by intros H ->. Qed.

Lemma own_headers_insert v w :
  hdr_insert (hdr_insert [] HDR_ATTEST_BASE_ID v) HDR_ATTEST_REAL_METHOD w = own_headers v w.
Proof.
  destruct base_id_name as (_&_&H). change (hdr_insert [] _ v) with [(HDR_ATTEST_BASE_ID, v)].
  rewrite hdr_insert_fresh; [done|]. by constructor.
Qed.

Lemma ticket_insert v w t :
  hdr_insert (own_headers v w) HDR_ATTEST_TICKET t = own_headers v w ++ [(HDR_ATTEST_TICKET, t)].
Proof.
  destruct base_id_name as (_&H1&_), ticket_name as (_&H2).
  apply hdr_insert_fresh. repeat constructor; simpl; congruence.
Qed.

Lemma sent_headers_insert v w t :
  hdr_insert (own_headers v w ++ [(HDR_ATTEST_TICKET, t)]) "content-type" (as_bytes "application/json") =
  sent_headers v w t.
Proof.
  destruct base_id_name as (H1&_), ticket_name as (H2&_).
  rewrite hdr_insert_fresh; [by rewrite <-(assoc_L (++))|].
  repeat constructor; simpl; by try apply attest_not_content_type.
Qed.

Lemma signed_sent v w t : signed (sent_headers v w t) = own_headers v w.
Proof.
  destruct base_id_name as (H1&H2&_), ticket_name as (H3&H4).
  unfold signed, sent_headers, own_headers. cbn [app List.filter fst].
  rewrite H1, H3, !bool_decide_eq_false_2, bool_decide_eq_true_2 by done. done.
Qed.

Lemma signed_own v w : signed (own_headers v w) = own_headers v w.
Proof.
  destruct base_id_name as (H1&H2&_), ticket_name as (H3&H4).
  unfold signed, own_headers. cbn [List.filter fst].
  rewrite H1, !bool_decide_eq_false_2 by done. done.
Qed.

(** What the client seals opens under the session's keys. *)
Lemma seal_request_Ok rng :
  be_decode rng = nonce → is_bytes body →
  ∃ v w st n data,
    seal_request cs (Some rng) method path query authority body (session_aad cs) (session_id cs) =
      Ok (own_headers v w ++ [(HDR_ATTEST_TICKET, encode_attest_ticket 1 (hmac_finalize st))], data) ∧
    header_to_str v = Some (session_id cs) ∧ header_to_str w = Some (to_ascii_uppercase method) ∧
    ticket_mac keys 1 WIRE_METHOD path query authority (own_headers v w) = Some st ∧
    nonce_from_slice (tls13_nonce (client_write_iv keys) 1) = Ok n ∧
    (∀ bk, BoundAeadKey_new Aes256Gcm (client_write_key keys) (client_write_iv keys) = Ok bk →
       bound_open bk n (session_aad cs) data = Ok body) ∧
    length data = (length body + 16)%nat ∧ is_bytes data.
Proof.
  intros Hrng Hb. destruct Hest as [Hc _ _ _ _ Hid Hiv Hk [bk Hbk] [st0 Hst] _].
  destruct (header_visible _ Hid) as (v&Hv&Hv'). destruct (header_visible _ Hmethod) as (w&Hw&Hw').
  pose proof (bound_to_new _ _ _ _ _ Hiv Hbk Hk) as Hto.
  destruct (bound_to_seal bk in_key (client_write_iv keys) 0 (session_aad cs) body Hto ltac:(lia))
    as (n&data&bk'&Hseal&_&Hn&Hlen&Hopen).
  destruct (Hahl (own_headers v w)) as [chunks Hchunks].
  exists v, w, (foldl hmac_update (hmac_update st0 (be_encode 8 1)) chunks), n, data. split_and!; try done.
  - unfold seal_request. cbn [ok_or mbind result_bind]. rewrite Hrng, Hc. unfold seal_with_keys.
    rewrite bool_decide_eq_true_2 by done. cbn [negb].
    rewrite Hbk. cbn [map_err mbind result_bind]. rewrite Hseal. cbn [fst map_err mbind result_bind].
    rewrite Hv. cbn [ok_or mbind result_bind]. rewrite Hw. cbn [ok_or mbind result_bind].
    rewrite Hst. cbn [ok_or mbind result_bind]. rewrite own_headers_insert, Hchunks.
    cbn [map_err mbind result_bind]. by rewrite ticket_insert.
  - unfold ticket_mac. by rewrite Hst, Hchunks.
  - by rewrite <-(nonce_slice n), Hn.
  - intros bk0 Hbk0. rewrite Hbk in Hbk0. injection Hbk0 as <-. by rewrite (bound_opens _ _ _ _ _ _ _ Hto).
  - by eapply seal_bytes.
Qed.

End request.

(** The request is opened to what the client sealed. *)
Lemma request_extracted `{LAWS : !CryptoLaws, E2E : !EndToEndLaws, WL : !WireLaws}
    mo cs ps keys nonce in_key out_key uri method body v w st n data max m parts b :
  established mo cs nonce ps keys in_key out_key →
  let path := uri_path (cu_uri uri) in
  let query := uri_query (cu_uri uri) in
  let real := to_ascii_uppercase method in
  header_to_str v = Some (session_id cs) → header_to_str w = Some real →
  method_from_bytes (as_bytes real) = Some real →
  ticket_mac keys 1 WIRE_METHOD path query (ahl_authority uri) (own_headers v w) = Some st →
  nonce_from_slice (tls13_nonce (client_write_iv keys) 1) = Ok n →
  (∀ bk, BoundAeadKey_new Aes256Gcm (client_write_key keys) (client_write_iv keys) = Ok bk →
     bound_open bk n (session_aad cs) data = Ok body) →
  length data = (length body + 16)%nat → is_bytes data →
  Z.of_nat (length body) ≤ max → 2 * max + 96 ≤ usize_max → ahl_authority uri ≠ EmptyString →
  delivered (mkTransportRequest WIRE_METHOD uri
    (sent_headers v w (encode_attest_ticket 1 (hmac_finalize st)))
    (as_bytes (envelope (hex_of data)))) parts b →
  mo_gate mo parts b = Ok (parts, b) ∧
  from_request max m parts b =
    (Extracted_Ok (mkDecryptedRequest ps real path query (ahl_authority uri) body), m).
Proof.
  cbv zeta. intros [_ Hserver _ _ Haad _ Hiv _ [bk Hbk] _ Hgate] Hv Hw Hmeth Hst Hn Hopen Hlen Hbytes
    Hmax Husize Hauth [Hdm _ Hdp Hdq Hda Hdh Hds Hdb]. cbn [tq_method tq_uri tq_headers tq_body] in *.
  destruct base_id_name as (Hb1&Hb2&Hb3), ticket_name as (Ht1&Ht2).
  destruct (Hgate parts b v) as [Hg Hs]; [|done|].
  { rewrite (Hdh _ Hb1). unfold sent_headers, own_headers. cbn [app].
    by rewrite hdr_get_cons, bool_decide_eq_true_2. }
  split; [done|]. apply from_request_Ok. split; [done|].
  exists 1, (hmac_finalize st), (as_bytes (envelope (hex_of data))), (hex_of data), data.
  cbn [dr_session dr_host dr_path dr_query dr_method dr_body]. split_and!; try done.
  - apply ticket_decodes; [unfold u64_max; lia|]. rewrite (Hdh _ Ht1).
    unfold sent_headers, own_headers. cbn [app]. rewrite !hdr_get_cons.
    rewrite (bool_decide_eq_false_2 (HDR_ATTEST_BASE_ID = _)), bool_decide_eq_false_2,
      bool_decide_eq_true_2 by congruence. done.
  - apply Hdb. rewrite length_as_bytes, envelope_length, hex_length, Hlen.
    unfold pre_decrypt_cap, saturating_add, saturating_mul, JSON_OVERHEAD. lia.
  - apply envelope_parses.
  - by apply hex_decodes.
  - unfold real_method. rewrite (Hdh HDR_ATTEST_REAL_METHOD eq_refl).
    unfold sent_headers, own_headers. cbn [app]. rewrite !hdr_get_cons.
    rewrite (bool_decide_eq_false_2 (HDR_ATTEST_BASE_ID = _)), bool_decide_eq_true_2 by congruence.
    cbn [mbind option_bind]. rewrite Hw. cbn [mbind option_bind]. by rewrite Hmeth.
  - destruct (Hserver _ (λ keys _, open_trusted ps 1 (hmac_finalize st) parts (uri_path (cu_uri uri))
      (uri_query (cu_uri uri)) (ahl_authority uri) data keys)) as [ctr ->]. f_equal.
    apply open_trusted_Ok. exists st, n, bk. split_and!; try done.
    + rewrite <-Hst. unfold ticket_mac. rewrite Hdm.
      rewrite (ahl_signed _ _ _ _ _ (own_headers v w)); [done|]. by rewrite Hds, signed_sent, signed_own.
    + apply mac_verifies.
    + rewrite Haad. by apply Hopen.
Qed.

(** The frames of the handler's answer. *)
Lemma handler_makes `{LAWS : !CryptoLaws, E2E : !EndToEndLaws} mo max m ps real path query host body :
  0 ≤ max ≤ 2 ^ 30 → Z.of_nat (length body) ≤ max →
  method_from_bytes (as_bytes real) = Some real →
  (∀ method url data r, mo_http mo method url data = Upstream_Ok r → response_wf r) →
  ∃ frames m' call,
    proxy_handler max (mo_table mo) m (mo_http mo) (mo_elapsed mo)
      (mkDecryptedRequest ps real path query host body) = (mkSealedResponse ps frames, m', call) ∧
    makes (outcome max mo host path query real body) frames.
Proof.
  intros Hmax Hlen Hmeth Hwf. unfold proxy_handler, route_request, outcome.
  cbn [dr_session dr_host dr_path dr_query dr_method dr_body].
  destruct (Z.ltb_spec max (Z.of_nat (length body))); [lia|].
  destruct (select _ host path) as [route|].
  2: { eexists _, _, _. split; [reflexivity|]. by apply (error_makes ps). }
  rewrite Hmeth. cbv zeta. set (url := upstream_url _ _ _).
  destruct (mo_http mo real url body) as [r|t] eqn:Hr.
  2: { eexists _, _, _. split; [reflexivity|]. by apply (error_makes ps). }
  exists (sr_frames (relay ps max r)). eexists _, _. split.
  - f_equal. f_equal. unfold relay, seal_error. by repeat case_match.
  - apply relay_makes; [done|by eapply Hwf].
Qed.

(** The client reads an answer as its outcome. *)
Lemma outcome_decoded `{LAWS : !CryptoLaws, E2E : !EndToEndLaws, WL : !WireLaws} cs ps keys key o frames :
  reads cs keys key → stream_keys ps keys → ps_aad ps = session_aad cs → makes o frames →
  (let resp := respond (R_Sealed (mkSealedResponse ps frames)) in
   if negb (is_success (ts_status resp)) then Err (ServerReturnedError (ts_status resp))
   else raw ← ok_or BodyCollectFailed (ts_body resp); decode_frames cs (session_aad cs) raw) =
  ok_or BodyCollectFailed o.
Proof.
  intros Hr Hk Haad Ho. cbv zeta. destruct o as [[status headers body]|];
    cbn [makes fr_status fr_headers fr_body] in Ho.
  - destruct Ho as (chunks&->&->&Hf).
    destruct (seal_stream_Ok ps keys key _ Hk (rd_key _ _ _ Hr) Hf) as (st&rs&Hresp&Hst&Hs).
    rewrite Hresp. cbn [ts_status ts_body]. rewrite Hst.
    cbn [negb ok_or mbind result_bind]. rewrite Haad in Hs.
    apply (decode_frames_sealed cs keys key); [done..|].
    eapply Forall_impl; [exact Hf|]. by intros f [Hok _].
  - destruct (seal_stream_Err ps frames Ho) as (st&->&Hst). cbn [ts_status ts_body]. by rewrite Hst.
Qed.

(** C3: end to end: after a fresh handshake, a client that sends a body within
    the limit (of at most 2^30 bytes) with a valid method over a path that the
    proxy routes serve, and that the rate limiter admits, gets exactly what the
    live table's upstream answers to that method, path, query and body: its
    status, its end-to-end headers and its whole body; a sealed 404 when no
    route matches, a sealed 502 or 504 when the upstream fails, a sealed 413
    when it announces too much; and an error, never a shortened body, when the
    upstream's body breaks off or exceeds the limit while it streams. *)
Theorem client_gets_upstream_answer `{LAWS : !CryptoLaws, E2E : !EndToEndLaws, WL : !WireLaws}
    limit max mo m cs ps keys in_key out_key rng server_base uri method path body
    (Hest : established mo cs (be_decode rng) ps keys in_key out_key)
    (Huri : uri_parse (full_uri_str server_base path) = Some uri)
    (Hmethod : str_forallb is_visible (to_ascii_uppercase method) = true ∧
               method_from_bytes (as_bytes (to_ascii_uppercase method)) =
               Some (to_ascii_uppercase method))
    (Hahl : ∀ h, ∃ chunks, ahl_chunks WIRE_METHOD (uri_path (cu_uri uri)) (uri_query (cu_uri uri))
                             (ahl_authority uri) h = Ok chunks)
    (Hauth : ahl_authority uri ≠ EmptyString)
    (Hdisp : dispatch (merged base_routes) WIRE_METHOD (uri_path (cu_uri uri)) = D_Endpoint E_Proxy)
    (Hadmit : ∀ lim parts, limit = Some lim → mo_admitted mo lim parts = true)
    (Hbody : is_bytes body ∧ Z.of_nat (length body) ≤ max) (Hmax : 0 ≤ max ≤ 2 ^ 30)
    (Hwf : ∀ method url data r, mo_http mo method url data = Upstream_Ok r → response_wf r) :
  framed_trusted_request (send_to limit max mo m) cs (Some rng) server_base method path body =
    ok_or BodyCollectFailed
      (outcome max mo (ahl_authority uri) (uri_path (cu_uri uri)) (uri_query (cu_uri uri))
         (to_ascii_uppercase method) body).
Proof.
  destruct Hmethod as [Hvis Hmeth], Hbody as [Hbytes Hlen].
  destruct (seal_request_Ok mo cs (be_decode rng) ps keys in_key out_key Hest method _ _ _ body Hvis
              Hahl rng eq_refl Hbytes) as (v&w&st&n&data&Hseal&Hv&Hw&Hst&Hn&Hopen&Hdl&Hdb).
  unfold framed_trusted_request. cbv zeta. rewrite Huri. cbn [ok_or mbind result_bind].
  rewrite Hseal. cbn [mbind result_bind]. rewrite sent_headers_insert. unfold send_to.
  set (tq := mkTransportRequest _ _ _ _). pose proof (arrives tq) as Hdel.
  destruct (arrive tq) as [parts b] eqn:Harr. cbn [fst snd] in Hdel. cbn [ok_or mbind result_bind].
  destruct (request_extracted mo cs ps keys (be_decode rng) in_key out_key uri method body v w st n data
    max m parts b) as [Hg Hf]; try done; [unfold usize_max; lia|].
  destruct (handler_makes mo max m ps (to_ascii_uppercase method) (uri_path (cu_uri uri))
    (uri_query (cu_uri uri)) (ahl_authority uri) body Hmax Hlen Hmeth Hwf) as (frames&m'&call&Hh&Ho).
  assert (serve_app limit max mo m parts b = serve max mo m parts b) as ->.
  { unfold serve_app. destruct limit as [lim|]; [|done]. by rewrite Hadmit. }
  assert (serve max mo m parts b = serve_proxy max mo m parts b) as ->.
  { unfold serve, ws_dispatch, is_attested_ws_upgrade.
    rewrite (dl_method _ _ _ Hdel), (dl_uri_path _ _ _ Hdel). cbn [tq_method tq_uri tq].
    rewrite Hdisp. done. }
  unfold serve_proxy. rewrite Hg, Hf, Hh. cbn [an_response].
  destruct Hest as [_ _ Hr Hk Haad _ _ _ _ _ _]. by apply (outcome_decoded cs ps keys out_key).
Qed.
(** ** Against the network *)

Lemma sum_len_app l k : sum_len (l ++ k) = sum_len l + sum_len k.
Proof. induction l as [|c l IH]; simpl; [done|]. fold (sum_len (l ++ k)) (sum_len l). lia. Qed.

(** What the frames relayed of a response hold. *)
Lemma relayed_ok s max r frames :
  0 ≤ max < usize_max → (∀ v s, header_to_str v = Some s → is_str s) → response_wf r →
  (∀ len, up_content_length r = Some len → len ≤ max) →
  Ok <$> frames `prefix_of` sr_frames (relay s max r) →
  frames = [] ∨ ∃ cs, frames = Head (up_status r) (forwarded_headers (up_headers r)) :: (Body <$> cs) ∧
    Some <$> cs `prefix_of` up_chunks r ∧ Forall frame_ok frames ∧ sum_len cs ≤ max.
Proof.
  intros Hmax Hstr [Hst Hn Hc _] Hlen Hp.
  assert (sr_frames (relay s max r) = Ok (Head (up_status r) (forwarded_headers (up_headers r)))
    :: body_frames max 0 (up_chunks r)) as Hrel.
  { unfold relay. destruct (up_content_length r) as [len|]; [|done].
    destruct (Z.ltb_spec max len); [|done]. specialize (Hlen len eq_refl). lia. }
  rewrite Hrel in Hp. destruct frames as [|f frames]; [by left|]. right.
  rewrite fmap_cons in Hp. apply prefix_cons_inv_1 in Hp as Hf. injection Hf as ->.
  apply prefix_cons_inv_2 in Hp. pose proof Hp as [post Hpost].
  assert (Forall (λ f, ∃ c, f = Body c) frames) as Hbody.
  { clear -Hpost. revert frames Hpost. generalize 0 as acc.
    induction (up_chunks r) as [|[c|] chunks IH]; intros acc [|f frames] Hpost; try by constructor.
    simpl in Hpost. destruct (max <? _); [done|]. injection Hpost as <- Hpost.
    constructor; [eauto|by eapply IH]. }
  assert (∃ cs, frames = Body <$> cs) as [cs ->].
  { clear -Hbody. induction Hbody as [|f frames [c ->] _ [cs ->]]; [by exists []|]. by exists (c :: cs). }
  pose proof (body_frames_prefix max 0 (up_chunks r) (Ok <$> (Body <$> cs)) post Hpost) as Hpre.
  pose proof (body_frames_total max 0 (up_chunks r) ltac:(lia) ltac:(lia)) as Ht.
  rewrite Hpost, fmap_app, sum_len_app in Ht.
  assert (frame_data <$> (Ok <$> (Body <$> cs)) = cs) as Hdata
    by (clear; induction cs as [|c cs IH]; [done|]; by rewrite !fmap_cons, IH).
  rewrite Hdata in Ht. pose proof (sum_len_nonneg (frame_data <$> post)).
  rewrite <-!list_fmap_compose in Hpre. specialize (Hpre ltac:(by apply Forall_fmap, Forall_true)).
  exists cs. split_and!; [done|exact Hpre| |lia]. constructor.
  - split; [done|by apply forwarded_is_str].
  - apply Forall_fmap, Forall_forall. intros c Hin. rewrite Forall_forall in Hc.
    apply (Hc (Some c)); [|done]. destruct Hpre as [k ->]. apply elem_of_app. left.
    apply list_elem_of_fmap. by exists c.
Qed.

Lemma bodies_prefix cs cs' rest : Body <$> cs = (Body <$> cs') ++ rest → cs' `prefix_of` cs.
Proof.
  revert cs. induction cs' as [|c cs' IH]; intros [|c0 cs] Hl; try apply prefix_nil; [done|].
  injection Hl as -> Hl. apply prefix_cons. by apply IH.
Qed.

(** C4: what a network can make the client accept: when everything that opens
    under the session's server key was sealed for one relayed response, and
    the running hashes of its frames do not collide, then whatever bytes
    [decode_frames] accepts, the client has the upstream's status, exactly its
    end-to-end headers, and a prefix of its body within the limit: nothing
    forged, reordered, repeated or left out in between. *)
Theorem client_accepts_upstream_prefix `{WL : !WireLaws} s keys key aad log raw resp ps max r
    (Hkeys : ∀ A (f : SessionKeys → Z → A) x, session_trs s f = Ok x → ∃ ctr, x = f keys ctr)
    (Hkey : AeadKey_new Aes256Gcm (server_write_key keys) = Ok key)
    (Hauth : ∀ n a ct p, open_in_place key n a ct = Ok p →
       ∃ i h f, log !! i = Some (ct, f) ∧ log_hashes log !! i = Some h ∧ a = aad ++ h ∧
         p = frame_to_vec f)
    (Hfresh : NoDup (log_hashes log))
    (Hlog : Ok <$> log.*2 `prefix_of` sr_frames (relay ps max r))
    (Hmax : 0 ≤ max < usize_max) (Hlen : ∀ len, up_content_length r = Some len → len ≤ max)
    (Hstr : ∀ v s, header_to_str v = Some s → is_str s) (Hwf : response_wf r)
    (Hdec : decode_frames s aad raw = Ok resp) :
  fr_status resp = up_status r ∧ fr_headers resp = forwarded_headers (up_headers r) ∧
  ∃ cs, Some <$> cs `prefix_of` up_chunks r ∧ fr_body resp = concat cs ∧ sum_len cs ≤ max.
Proof.
  destruct (relayed_ok ps max r log.*2 Hmax Hstr Hwf Hlen Hlog) as [Hnil|(cs&Hcs&Hpre&Hok&Hsum)].
  - destruct (decode_frames_integrity s keys key aad log raw resp Hkeys Hkey Hauth Hfresh)
      as (st&hs&cs&rest&Hl&_); [by rewrite Hnil|done|]. by rewrite Hnil in Hl.
  - destruct (decode_frames_integrity s keys key aad log raw resp Hkeys Hkey Hauth Hfresh Hok Hdec)
      as (st&hs&cs'&rest&Hl&->). rewrite Hcs in Hl. injection Hl as <- <- Hl.
    apply bodies_prefix in Hl as [k ->]. rewrite sum_len_app in Hsum. rewrite fmap_app in Hpre.
    pose proof (sum_len_nonneg k).
    split_and!; [done..|]. exists cs'. split_and!; [|done|lia].
    etrans; [|exact Hpre]. by apply prefix_app_r.
Qed.
End end_to_end.

(** ** A concrete network

    The SDK of [ClientToy] over the transparent cipher; a request arrives as
    it was sent; a sealed stream numbers its frames. *)
Module EndToEndToy.

Definition sdk : ProxySdk := ClientToy.sdk Toy.toy tt.
Definition client : ClientSdk := ClientToy.client_sdk Toy.toy tt.

Definition router : @RouterSdk Toy.toy sdk := {|
  dispatch := RouterToy.toy_dispatch;
  base_routes := [("/attest", Filter_Methods ["POST"])];
  base_response := Z; base_status z := z; gate_response := unit; extractable _ := true |}.

Fixpoint seal_records (i : Z) (frames : list (result LlmError StreamFrame))
  : option (list (Z * list Z)) :=
  match frames with
  | [] => Some []
  | Ok f :: frames =>
      cons (wrap64 i, frame_to_vec (WIRE := ClientToy.wire) f ++ Toy.tag) <$> seal_records (i + 1) frames
  | Err _ :: _ => None
  end.

Definition respond (r : @Response Toy.toy sdk router) : TransportResponse :=
  match r with
  | R_Sealed sr => mkTransportResponse 200 (wire_stream <$> seal_records 1 (sr_frames sr))
  | R_Plain status _ body => mkTransportResponse (as_u16 status) (Some (as_bytes body))
  | _ => mkTransportResponse 500 (Some [])
  end.

Definition arrive (tq : TransportRequest) : Parts * @http_body Toy.toy sdk :=
  (mkParts (tq_method tq)
     (mkUri (Some (ahl_authority (tq_uri tq))) (uri_path (cu_uri (tq_uri tq)))
        (uri_query (cu_uri (tq_uri tq)))) (tq_headers tq) None,
   tq_body tq).

Definition network : Network (RSDK := router) := {|
  EndToEnd.arrive := arrive; EndToEnd.respond := respond;
  stream_keys _ keys := keys = ProxyToy.keys |}.

Lemma seal_records_Ok i iv aad h fs :
  Forall frame_fits fs →
  ∃ rs, seal_records i (Ok <$> fs) = Some rs ∧
    sealed (WIRE := ClientToy.wire) (CSDK := client) ([1] : @aead_key Toy.toy) iv aad h fs rs.
Proof.
  intros Hf. revert i h. induction Hf as [|f fs [Hok Hsz] _ IH]; intros i h.
  { exists []. split; [done|constructor]. }
  pose proof (json_length (WireLaws := ClientToy.wire_laws Toy.toy tt) f Hok) as Hlen.
  destruct (IH (i + 1) (sha384 (ClientSdk := client) (h ++ frame_to_vec (WIRE := ClientToy.wire) f ++ Toy.tag)))
    as (rs&Hr&Hs).
  exists ((wrap64 i, frame_to_vec (WIRE := ClientToy.wire) f ++ Toy.tag) :: rs).
  split; [rewrite fmap_cons; cbn [seal_records]; by rewrite Hr|]. econstructor; [..|exact Hs].
  - unfold wrap64, u64_max. pose proof (Z.mod_pos_bound i (2 ^ 64) ltac:(lia)). lia.
  - rewrite length_app. change (length Toy.tag) with 16%nat. lia.
  - reflexivity.
  - apply ClientToy.toy_open_sealed.
Qed.

Lemma visible_bytes s : forallb (in_range 32 126) (as_bytes s) = str_forallb is_visible s.
Proof. induction s as [|a s IH]; [done|]. simpl. by rewrite IH. Qed.

Lemma visible_is_str bs : forallb (in_range 32 126) bs = true → is_str (string_of_bytes bs).
Proof.
  intros Hb. unfold is_str. rewrite as_bytes_of_bytes.
  - induction bs as [|b bs IH]; [done|]. simpl in *. apply andb_prop in Hb as [Hb Hbs].
    unfold in_range in *. replace ((0 <=? b) && (b <=? 127)) with true by lia. by apply IH.
  - apply Forall_forall. intros b Hin. rewrite forallb_forall in Hb.
    apply list_elem_of_In, Hb in Hin. unfold in_range in Hin. lia.
Qed.

Lemma e2e_laws : EndToEndLaws (HTTP := ProxyToy.http) (WIRE := ClientToy.wire) (CSDK := client)
  (NET := network) (LAWS := Toy.toy_laws).
Proof.
  split.
  - done.
  - done.
  - intros s Hs. exists (as_bytes s). simpl. unfold is_visible in Hs. rewrite Hs. split; [done|].
    rewrite visible_bytes. unfold is_visible. by rewrite Hs, string_of_as_bytes.
  - intros v s. simpl. destruct (forallb _ v) eqn:Hv; [|done]. intros [= <-]. by apply visible_is_str.
  - intros h c mac _ Hh. simpl in *. by rewrite Hh.
  - intros method path query authority h h' Hs. change (ClientToy.signed_headers h = ClientToy.signed_headers h') in Hs. simpl.
    by rewrite Hs.
  - intros st. simpl. by apply bool_decide_eq_true.
  - done.
  - intros bk aad p n ct bk' [= _ <- _] Hp. apply Forall_app. split; [done|]. by apply Forall_replicate.
  - intros bs. apply ClientToy.parse_envelope_hex.
  - intros tq. split; try done. intros cap Hc. simpl. by rewrite (proj2 (Z.leb_le _ _)).
  - intros s keys key fs Hk Hkey Hf. exists 200. change (keys = ProxyToy.keys) in Hk. subst keys.
    injection Hkey as <-.
    destruct (seal_records_Ok 1 (server_write_iv ProxyToy.keys) (ps_aad s) (replicate 48 0) fs Hf)
      as (rs&Hr&Hs). exists rs. split; [simpl; by rewrite Hr|]. split; [done|exact Hs].
  - intros s frames Hf. exists 200. split; [|done]. simpl. f_equal.
    assert (∀ i, seal_records i frames = None) as ->; [|done].
    induction Hf as [f frames Hf|f frames Hf IH]; intros i; [by destruct f|].
    simpl. destruct f; [by rewrite IH|done].
Qed.

(** The process at a moment: a route table and an upstream. *)
Definition moment (table : RouteTable) (http : string → string → list Z → UpstreamResult)
  : @Moment Toy.toy Toy.toy_sdk sdk router :=
  mkMoment (RSDK := router) (WSDK := Toy.toy_sdk) table (λ _, None) 0 (λ _ _, 200)
    (λ parts body, Ok (parts, body)) http (f64_of_Z 1) (λ _ _, true).

Lemma handshaken table http nonce :
  established (HTTP := ProxyToy.http) (CSDK := client) (NET := network)
    (moment table http) "s" nonce "s" ProxyToy.keys [2] [1].
Proof.
  split; try done.
  - by exists 1.
  - split; [by exists 1|done..].
  - by eexists.
  - by eexists.
  - intros parts body v Hh Hv. split; [done|]. simpl in *. by rewrite Hh; simpl; rewrite Hv.
Qed.

Definition table : RouteTable :=
  RouteTable_new [mkRoute "r" "127.0.0.1" EmptyString "http://up/" None Source_File].

Lemma response_ok : response_wf (HTTP := ProxyToy.http) ProxyToy.response.
Proof.
  split.
  - vm_compute. split; discriminate.
  - repeat constructor.
  - repeat constructor; intros bs [= <-]; repeat constructor; lia.
  - vm_compute. discriminate.
Qed.

Definition base : ClientUri := mkClientUri (Some "http") (mkUri (Some "127.0.0.1:80") "/" None).
End EndToEndToy.

Lemma client_gets_upstream_answer_witness :
  framed_trusted_request (WIRE := ClientToy.wire) (CSDK := EndToEndToy.client)
    (send_to (HTTP := ProxyToy.http) (NET := EndToEndToy.network) None 100
       (EndToEndToy.moment EndToEndToy.table (λ _ _ _, Upstream_Ok ProxyToy.response)) Metrics_new)
    "s" (Some [0; 0; 0; 0; 0; 0; 0; 9]) EndToEndToy.base "get" "/x?q" [104; 105] =
  Ok (mkFramedResponse 200 [("x-a", "1")] [1; 2; 3]).
Proof.
  refine (eq_trans (client_gets_upstream_answer (HTTP := ProxyToy.http) (WIRE := ClientToy.wire)
    (CSDK := EndToEndToy.client) (NET := EndToEndToy.network) (LAWS := Toy.toy_laws)
    (E2E := EndToEndToy.e2e_laws) (WL := ClientToy.wire_laws Toy.toy tt) None 100 _ Metrics_new "s" "s"
    ProxyToy.keys [2] [1] _ EndToEndToy.base
    (mkClientUri (Some "http") (mkUri (Some "127.0.0.1:80") "/x" (Some "q"))) "get" "/x?q" [104; 105]
    _ _ _ _ _ _ _ _ _ _) _).
  - apply EndToEndToy.handshaken.
  - reflexivity.
  - split; reflexivity.
  - intros h. eexists. reflexivity.
  - discriminate.
  - reflexivity.
  - discriminate.
  - split; [repeat constructor; lia|simpl; lia].
  - lia.
  - intros method url data r [= <-]. exact EndToEndToy.response_ok.
  - reflexivity.
Defined.

(** A cut stream is read as a response with a shorter body; reordered frames
    are refused. *)
Lemma client_accepts_upstream_prefix_witness :
  let dec := decode_frames (CR := ClientToy.cipher) (CSDK := ClientToy.client)
               (WIRE := ClientToy.wire) "s"
               (session_aad (SDK := Toy.sdk ClientToy.cipher tt) "s") in
  is_ok (dec ClientToy.swapped) = false ∧
  result_ok (dec ClientToy.cut) = Some (mkFramedResponse 200 [("x-a", "1")] [1; 2]) ∧
  ∃ cs, Some <$> cs `prefix_of` up_chunks ProxyToy.response ∧ [1; 2] = concat cs.
Proof.
  split; [vm_compute; reflexivity|]. split; [vm_compute; reflexivity|].
  destruct (client_accepts_upstream_prefix (CR := ClientToy.cipher) (HTTP := ProxyToy.http)
    (CSDK := ClientToy.client) (WIRE := ClientToy.wire)
    (WL := ClientToy.wire_laws ClientToy.cipher tt) "s" ProxyToy.keys
    ClientToy.entries (session_aad (SDK := Toy.sdk ClientToy.cipher tt) "s") ClientToy.log ClientToy.cut
    (mkFramedResponse 200 [("x-a", "1")] [1; 2]) "s" 100 ProxyToy.response)
    as (_&_&cs&Hpre&Hcs&_).
  - intros A f r [= <-]. exists 1. reflexivity.
  - reflexivity.
  - exact ClientToy.recorded.
  - apply (bool_decide_unpack _). vm_compute. constructor.
  - exists []. reflexivity.
  - unfold usize_max. lia.
  - discriminate.
  - intros v s. simpl. destruct (forallb _ v) eqn:Hv; [|done]. intros [= <-].
    by apply EndToEndToy.visible_is_str.
  - exact EndToEndToy.response_ok.
  - apply result_ok_Some. vm_compute. reflexivity.
  - exists cs. split; [exact Hpre|exact Hcs].
Defined.
