(* ===== verification/Attestation.v ===== *)
(** * Attestation selection ([src/attestation.rs])

    The startup guard against mock attestation in release builds and the
    construction of the provider and the verifier.  Cargo features are the
    record [Features]; what the SDK constructors are called with is the data
    of the constructed values. *)

From S2P Require Import Prelude RustStr SocketAddr Routing Config Layers TpmEnv.

Inductive AttestationMode :=
| Secure
| Insecure (release : bool).

Definition INSECURE_DEV_ENV : string := "ARCHETYPE_PROXY_INSECURE_DEV".

Definition uses_mock (cfg : AttestationConfig) : bool :=
  att_allow_mock cfg || TeeProviderKind_is_mock (att_tee_provider cfg) ||
  VerifierKind_is_mock (att_verifier cfg).

(** The cargo features of the build. *)
Record Features := mkFeatures {
  f_tdx : bool; f_sev_snp : bool; f_sgx : bool; f_trustzone : bool; f_aws_nitro : bool;
  f_maa : bool; f_ita : bool; f_amd_snp : bool; f_tpm : bool;
}.

(** The calls of the [TpmReferencePolicy] builder. *)
Record TpmPolicy := mkTpmPolicy {
  pol_pcrs : gmap Z (list Z);
  pol_pinned_ak : option (list Z);
  pol_ek_roots : option (list (list Z));
  pol_allow_unpinned : bool;
}.

Inductive Verifier :=
| MockVerifier
| MaaVerifier (endpoint : string)
| ItaVerifier (api_key endpoint : string)
| SevSnpVerifier
| TpmVerifier (policy : TpmPolicy).

Section attestation.
Context `{CE : !ConfigExt}.

(** The reasons of [FatalError]. *)
Inductive FatalError :=
| RefuseMock (allow_mock : bool) (tee_provider : TeeProviderKind) (verifier : VerifierKind)
| FeatureMissing (kind value feature : string)
| EndpointMissing (verifier : string)
| ApiKeyMissing (verifier : string)
| Unsupported (verifier : VerifierKind)
| TpmSectionMissing
| TpmPcrsEmpty
| TpmRoots (e : ConfigError).

Definition startup_attestation_decision (is_release : bool) (cfg : AttestationConfig)
    (insecure_dev_env : bool) : result FatalError AttestationMode :=
  if negb (uses_mock cfg) then Ok Secure
  else if negb is_release then Ok (Insecure false)
  else if insecure_dev_env then Ok (Insecure true)
  else Err (RefuseMock (att_allow_mock cfg) (att_tee_provider cfg) (att_verifier cfg)).

Definition insecure_dev_env_set (w : World io_error) : bool :=
  match env_var w INSECURE_DEV_ENV with Some v => bool_decide (v = "1") | None => false end.

Definition feature_error (kind value feature : string) : FatalError :=
  FeatureMissing kind value feature.

(** The provider is identified by its kind. *)
Definition build_tee_provider (f : Features) (cfg : AttestationConfig)
  : result FatalError TeeProviderKind :=
  let gated (b : bool) name :=
    if b then Ok (att_tee_provider cfg) else Err (feature_error "tee_provider" name name) in
  match att_tee_provider cfg with
  | Tee_Mock => Ok Tee_Mock
  | Tee_Tdx => gated (f_tdx f) "tdx"
  | Tee_SevSnp => gated (f_sev_snp f) "sev_snp"
  | Tee_Sgx => gated (f_sgx f) "sgx"
  | Tee_TrustZone => gated (f_trustzone f) "trustzone"
  | Tee_AwsNitro => gated (f_aws_nitro f) "aws_nitro"
  | Tee_Tpm => gated (f_tpm f) "tpm"
  end.

Definition build_tpm_verifier (w : World io_error) (cfg : AttestationConfig)
  : result FatalError Verifier :=
  tpm ← ok_or TpmSectionMissing (att_tpm cfg);
  if bool_decide (tpm_expected_pcrs tpm = ∅) then Err TpmPcrsEmpty
  else
    roots ← map_err TpmRoots (trusted_ek_roots_der w tpm);
    Ok (TpmVerifier (mkTpmPolicy (tpm_expected_pcrs tpm) (tpm_pinned_ak_sec1 tpm)
                       (if bool_decide (roots = []) then None else Some roots)
                       (tpm_allow_unpinned_ak tpm))).

Definition build_verifier (f : Features) (w : World io_error) (cfg : AttestationConfig)
  : result FatalError Verifier :=
  match att_verifier cfg with
  | Ver_Mock => Ok MockVerifier
  | Ver_Maa =>
      if f_maa f then
        endpoint ← ok_or (EndpointMissing "maa") (att_verifier_endpoint cfg);
        Ok (MaaVerifier endpoint)
      else Err (feature_error "verifier" "maa" "maa")
  | Ver_Ita =>
      if f_ita f then
        endpoint ← ok_or (EndpointMissing "ita") (att_verifier_endpoint cfg);
        api_key ← ok_or (ApiKeyMissing "ita") (att_verifier_api_key cfg);
        Ok (ItaVerifier api_key endpoint)
      else Err (feature_error "verifier" "ita" "ita")
  | Ver_AmdSnp =>
      if f_amd_snp f then Ok SevSnpVerifier else Err (feature_error "verifier" "amd_snp" "amd_snp")
  | Ver_Tpm =>
      if f_tpm f then build_tpm_verifier w cfg else Err (feature_error "verifier" "tpm" "tpm")
  | Ver_Nvidia | Ver_Dcap => Err (Unsupported (att_verifier cfg))
  end.

(** ** Lemmas *)

Lemma uses_mock_false cfg :
  uses_mock cfg = false ↔
  att_allow_mock cfg = false ∧ att_tee_provider cfg ≠ Tee_Mock ∧ att_verifier cfg ≠ Ver_Mock.
Proof.
  unfold uses_mock. destruct (att_allow_mock cfg), (att_tee_provider cfg), (att_verifier cfg);
    simpl; (split; [intros; split_and!; congruence|intros (?&?&?); congruence]).
Qed.

Lemma decision_Ok rel cfg dev mode :
  startup_attestation_decision rel cfg dev = Ok mode ↔
  (uses_mock cfg = false ∧ mode = Secure) ∨
  (uses_mock cfg = true ∧ rel = false ∧ mode = Insecure false) ∨
  (uses_mock cfg = true ∧ rel = true ∧ dev = true ∧ mode = Insecure true).
Proof.
  unfold startup_attestation_decision. destruct (uses_mock cfg), rel, dev; simpl;
    (split; [intros [= <-]; tauto|]); intros [[? ?]|[(?&?&?)|(?&?&?&?)]]; congruence.
Qed.

Lemma build_tpm_verifier_Ok w cfg v :
  build_tpm_verifier w cfg = Ok v →
  ∃ tpm roots, att_tpm cfg = Some tpm ∧ tpm_expected_pcrs tpm ≠ ∅ ∧
    trusted_ek_roots_der w tpm = Ok roots ∧
    v = TpmVerifier (mkTpmPolicy (tpm_expected_pcrs tpm) (tpm_pinned_ak_sec1 tpm)
          (if bool_decide (roots = []) then None else Some roots) (tpm_allow_unpinned_ak tpm)).
Proof.
  unfold build_tpm_verifier. intros (tpm&Ht%ok_or_Ok&Hv)%result_bind_Ok.
  case_bool_decide; [done|]. apply result_bind_Ok in Hv as (roots&Hr%map_err_Ok&[= <-]). eauto 10.
Qed.

Lemma build_verifier_mock f w cfg v :
  build_verifier f w cfg = Ok v → (v = MockVerifier ↔ att_verifier cfg = Ver_Mock).
Proof.
  unfold build_verifier. destruct (att_verifier cfg); try done.
  - intros [= <-]. done.
  - destruct (f_maa f); [|done]. by intros (e&_&[= <-])%result_bind_Ok.
  - destruct (f_ita f); [|done]. intros (e&_&Hv)%result_bind_Ok.
    by apply result_bind_Ok in Hv as (k&_&[= <-]).
  - destruct (f_amd_snp f); [|done]. by intros [= <-].
  - destruct (f_tpm f); [|done]. by intros (tpm&roots&_&_&_&->)%build_tpm_verifier_Ok.
Qed.

Lemma build_verifier_tpm f w cfg p :
  build_verifier f w cfg = Ok (TpmVerifier p) →
  att_verifier cfg = Ver_Tpm ∧
  ∃ tpm, att_tpm cfg = Some tpm ∧ pol_allow_unpinned p = tpm_allow_unpinned_ak tpm.
Proof.
  unfold build_verifier. destruct (att_verifier cfg); try done.
  - destruct (f_maa f); [|done]. by intros (e&_&?)%result_bind_Ok.
  - destruct (f_ita f); [|done]. intros (e&_&Hv)%result_bind_Ok.
    by apply result_bind_Ok in Hv as (k&_&?).
  - by destruct (f_amd_snp f).
  - destruct (f_tpm f); [|done]. intros (tpm&roots&Ht&_&_&[= ->])%build_tpm_verifier_Ok. eauto.
Qed.

(** ** Properties *)

(** No mock attestation in release: a release build starts with mock
    attestation in any of its three forms only under the explicit escape
    hatch; without mock the mode is secure, and the guard never refuses a
    configuration with a real provider, a real verifier and [allow_mock]
    off. *)
Theorem release_guard cfg dev mode :
  startup_attestation_decision true cfg dev = Ok mode ↔
  (mode = Secure ∧ att_allow_mock cfg = false ∧ att_tee_provider cfg ≠ Tee_Mock ∧
   att_verifier cfg ≠ Ver_Mock) ∨
  (mode = Insecure true ∧ dev = true ∧
   (att_allow_mock cfg = true ∨ att_tee_provider cfg = Tee_Mock ∨ att_verifier cfg = Ver_Mock)).
Proof.
  rewrite decision_Ok, uses_mock_false.
  assert (uses_mock cfg = true ↔ att_allow_mock cfg = true ∨ att_tee_provider cfg = Tee_Mock ∨
                                  att_verifier cfg = Ver_Mock) as ->.
  { unfold uses_mock. destruct (att_allow_mock cfg), (att_tee_provider cfg), (att_verifier cfg);
      simpl; (split; [intros; first [congruence|auto]|intros [?|[?|?]]; congruence]). }
  naive_solver.
Qed.

(** The verifier is the configured one or none: a mock verifier is built
    only for the mock kind, and a TPM verifier carries the configured
    non-empty reference policy, pin and roots; every other kind needs its
    feature, and the kinds without an implementation always fail. *)
Theorem build_verifier_faithful f w cfg v
    (Hv : build_verifier f w cfg = Ok v) :
  (v = MockVerifier ↔ att_verifier cfg = Ver_Mock) ∧
  (∀ p, v = TpmVerifier p → f_tpm f = true ∧ ∃ tpm roots, att_tpm cfg = Some tpm ∧
     pol_pcrs p = tpm_expected_pcrs tpm ∧ pol_pcrs p ≠ ∅ ∧
     pol_pinned_ak p = tpm_pinned_ak_sec1 tpm ∧
     trusted_ek_roots_der w tpm = Ok roots ∧ default [] (pol_ek_roots p) = roots ∧
     pol_allow_unpinned p = tpm_allow_unpinned_ak tpm) ∧
  att_verifier cfg ≠ Ver_Nvidia ∧ att_verifier cfg ≠ Ver_Dcap.
Proof.
  split; [by eapply build_verifier_mock|].
  unfold build_verifier in Hv. destruct (att_verifier cfg) eqn:Hk; try done.
  - by injection Hv as <-.
  - destruct (f_maa f); [|done]. by apply result_bind_Ok in Hv as (e&_&[= <-]).
  - destruct (f_ita f); [|done]. apply result_bind_Ok in Hv as (e&_&Hv).
    by apply result_bind_Ok in Hv as (k&_&[= <-]).
  - destruct (f_amd_snp f); [|done]. by injection Hv as <-.
  - destruct (f_tpm f); [|done]. apply build_tpm_verifier_Ok in Hv as (tpm&roots&Ht&Hne&Hr&->).
    split; [|done]. intros p [= <-]. split; [done|]. exists tpm, roots. simpl.
    split_and!; try done. by case_bool_decide.
Qed.
End attestation.

Lemma build_verifier_faithful_witness :
  ∃ v, build_verifier (CE := Concrete.ext)
         (mkFeatures false false false false false false false false true) Concrete.world
         (mkAttestationConfig false false 300 60 10000 Tee_Tpm Ver_Tpm None None
            (Some Concrete.policy)) = Ok v ∧ v ≠ MockVerifier.
Proof.
  eexists. split; [reflexivity|]. intros Hm.
  edestruct (build_verifier_faithful (CE := Concrete.ext)
    (mkFeatures false false false false false false false false true) Concrete.world
    (mkAttestationConfig false false 300 60 10000 Tee_Tpm Ver_Tpm None None
       (Some Concrete.policy))) as [[Hmock _] _]; [reflexivity|].
  specialize (Hmock Hm). discriminate Hmock.
Defined.
