(* ===== verification/Tls.v ===== *)
(** * TLS termination ([src/tls.rs])

    Loading a certificate from files, the two certificate resolvers, and the
    protocols a listener offers.  PEM and key parsing are the operations of
    the class [TlsLib]. *)

From S2P Require Import Prelude RustStr SocketAddr Routing Config.

Definition ACME_TLS_ALPN_NAME : list Z := as_bytes "acme-tls/1".

(** What [CertifiedKey::keys_match] answers. *)
Inductive KeysMatch (rustls_error : Type) :=
| Keys_Match
| Keys_Unknown
| Keys_Mismatch (e : rustls_error).
Arguments Keys_Match {rustls_error}.
Arguments Keys_Unknown {rustls_error}.
Arguments Keys_Mismatch {rustls_error}.

(** [rustls_pemfile], the signing keys of aws-lc-rs, and the comparison of a
    key with a certificate. *)
Class TlsLib := {
  tls_io_error : Type;
  rustls_error : Type;
  cert_der : Type;
  key_der : Type;
  signing_key : Type;
  pemfile_certs : list Z → result tls_io_error (list cert_der);
  pemfile_private_key : list Z → result tls_io_error (option key_der);
  any_supported_type : key_der → result rustls_error signing_key;
  keys_match : list cert_der → signing_key → KeysMatch rustls_error;
}.

Section tls.
Context `{TL : !TlsLib}.

Inductive TlsError :=
| TlsError_Read (kind path : string) (source : tls_io_error)
| TlsError_NoCerts (path : string)
| TlsError_NoKey (path : string)
| TlsError_Pem (kind path : string) (source : tls_io_error)
| TlsError_Key (path : string) (source : rustls_error)
| TlsError_KeyMismatch (cert_path key_path : string) (source : rustls_error)
| TlsError_Config (source : rustls_error).

(** [rustls::sign::CertifiedKey]. *)
Record CertifiedKey := mkCertifiedKey {
  ck_certs : list cert_der;
  ck_key : signing_key;
}.

Definition load_certified_key (w : World tls_io_error) (cert_path key_path : string)
  : result TlsError CertifiedKey :=
  cert_pem ← map_err (TlsError_Read "certificate" cert_path) (w_read w cert_path);
  key_pem ← map_err (TlsError_Read "private key" key_path) (w_read w key_path);
  certs ← map_err (TlsError_Pem "certificate" cert_path) (pemfile_certs cert_pem);
  match certs with
  | [] => Err (TlsError_NoCerts cert_path)
  | _ =>
      okey ← map_err (TlsError_Pem "private key" key_path) (pemfile_private_key key_pem);
      key ← ok_or (TlsError_NoKey key_path) okey;
      skey ← map_err (TlsError_Key key_path) (any_supported_type key);
      match keys_match certs skey with
      | Keys_Match | Keys_Unknown => Ok (mkCertifiedKey certs skey)
      | Keys_Mismatch source => Err (TlsError_KeyMismatch cert_path key_path source)
      end
  end.

(** ** Resolvers *)

(** The parts of a ClientHello the resolvers read. *)
Record ClientHello := mkClientHello {
  ch_alpn : option (list (list Z));
  ch_server_name : option string;
}.

Record AcmeResolver := mkAcmeResolver {
  current : option CertifiedKey;
  challenges : gmap string CertifiedKey;
}.

Definition resolver_empty : AcmeResolver := mkAcmeResolver None ∅.

Definition resolver_store (r : AcmeResolver) (ck : CertifiedKey) : AcmeResolver :=
  mkAcmeResolver (Some ck) (challenges r).

Definition set_challenge (r : AcmeResolver) (domain : string) (ck : CertifiedKey) : AcmeResolver :=
  mkAcmeResolver (current r) (<[domain := ck]> (challenges r)).

Definition clear_challenge (r : AcmeResolver) (domain : string) : AcmeResolver :=
  mkAcmeResolver (current r) (delete domain (challenges r)).

Definition is_acme_alpn (hello : ClientHello) : bool :=
  match ch_alpn hello with
  | Some ps => existsb (λ proto, bool_decide (proto = ACME_TLS_ALPN_NAME)) ps
  | None => false
  end.

Definition acme_resolve (r : AcmeResolver) (hello : ClientHello) : option CertifiedKey :=
  if is_acme_alpn hello then
    match ch_server_name hello with
    | Some name => challenges r !! name
    | None => None
    end
  else current r.

Definition static_resolve (ck : CertifiedKey) (hello : ClientHello) : option CertifiedKey :=
  Some ck.

(** ** Listener configuration *)

Inductive Resolver :=
| Resolver_Static (ck : CertifiedKey)
| Resolver_Acme.

Inductive CertSource :=
| StaticFiles (cert_path key_path : string)
| Dynamic (r : Resolver).

(** The resolver and the protocols of a rustls configuration. *)
Record TlsServerConfig := mkTlsServerConfig {
  tsc_resolver : Resolver;
  tsc_alpn : list (list Z);
}.

Definition into_resolver (w : World tls_io_error) (s : CertSource) : result TlsError Resolver :=
  match s with
  | StaticFiles cert_path key_path => Resolver_Static <$> load_certified_key w cert_path key_path
  | Dynamic r => Ok r
  end.

Definition config_with_resolver (r : Resolver) (acme_tls_alpn : bool) : TlsServerConfig :=
  mkTlsServerConfig r
    ([as_bytes "h2"; as_bytes "http/1.1"] ++
     (if acme_tls_alpn then [ACME_TLS_ALPN_NAME] else [])).

Definition server_config (w : World tls_io_error) (s : CertSource)
  : result TlsError TlsServerConfig :=
  r ← into_resolver w s; Ok (config_with_resolver r false).

(** ** Lemmas *)

Lemma load_certified_key_Ok w cert_path key_path ck :
  load_certified_key w cert_path key_path = Ok ck →
  ck_certs ck ≠ [] ∧ (∀ e, keys_match (ck_certs ck) (ck_key ck) ≠ Keys_Mismatch e).
Proof.
  unfold load_certified_key. intros (cp&_&Hk)%result_bind_Ok.
  apply result_bind_Ok in Hk as (kp&_&Hk). apply result_bind_Ok in Hk as (certs&_&Hk).
  destruct certs as [|c certs]; [done|].
  apply result_bind_Ok in Hk as (ok&_&Hk). apply result_bind_Ok in Hk as (key&_&Hk).
  apply result_bind_Ok in Hk as (sk&_&Hk).
  destruct (keys_match (c :: certs) sk) eqn:Hm; [| |done]; injection Hk as <-; simpl;
    rewrite Hm; done.
Qed.

(** The operations on a resolver while a process runs. *)
Inductive ResolverOp :=
| R_Store (ck : CertifiedKey)
| R_SetChallenge (domain : string) (ck : CertifiedKey)
| R_ClearChallenge (domain : string).

Definition resolver_step (r : AcmeResolver) (op : ResolverOp) : AcmeResolver :=
  match op with
  | R_Store ck => resolver_store r ck
  | R_SetChallenge d ck => set_challenge r d ck
  | R_ClearChallenge d => clear_challenge r d
  end.

(** The certificate last installed, and the validation certificate in force
    for a name. *)
Definition last_stored (ops : list ResolverOp) : option CertifiedKey :=
  last (omap (λ op, match op with R_Store ck => Some ck | _ => None end) ops).

Definition last_challenge (ops : list ResolverOp) (name : string) : option CertifiedKey :=
  default None (last (omap (λ op,
    match op with
    | R_SetChallenge d ck => if bool_decide (d = name) then Some (Some ck) else None
    | R_ClearChallenge d => if bool_decide (d = name) then Some None else None
    | R_Store _ => None
    end) ops)).

Lemma resolver_run_current ops :
  current (foldl resolver_step resolver_empty ops) = last_stored ops.
Proof.
  induction ops as [|op ops IH] using rev_ind; [done|]. rewrite foldl_snoc.
  unfold last_stored in *. rewrite omap_app. destruct op; simpl; rewrite ?app_nil_r; [|done..].
  by rewrite last_snoc.
Qed.

Lemma resolver_run_challenges ops name :
  challenges (foldl resolver_step resolver_empty ops) !! name = last_challenge ops name.
Proof.
  induction ops as [|op ops IH] using rev_ind; [done|]. rewrite foldl_snoc.
  unfold last_challenge in *. rewrite omap_app.
  destruct op as [ck|d ck|d]; simpl; [by rewrite app_nil_r|..]; case_bool_decide as Hd;
    rewrite ?last_snoc, ?app_nil_r; simpl.
  - subst. by rewrite lookup_insert_eq.
  - by rewrite lookup_insert_ne.
  - subst. by rewrite lookup_delete_eq.
  - by rewrite lookup_delete_ne.
Qed.

(** ** Properties *)

(** C37: the two kinds of handshake never mix: after any sequence of
    installations and challenges, an ordinary handshake gets the certificate
    last installed (none before the first) and a TLS-ALPN-01 handshake gets
    only the validation certificate in force for its name. *)
Theorem acme_resolver_isolation ops hello :
  let r := foldl resolver_step resolver_empty ops in
  acme_resolve r hello =
  if is_acme_alpn hello
  then name ← ch_server_name hello; last_challenge ops name
  else last_stored ops.
Proof.
  cbv zeta. unfold acme_resolve. destruct (is_acme_alpn hello); [|apply resolver_run_current].
  destruct (ch_server_name hello) as [name|]; [apply resolver_run_challenges|done].
Qed.
End tls.
