(* ===== verification/Acme.v ===== *)
(** * Automatic certificates ([src/acme.rs], [setup_acme] of [src/main.rs])

    Challenge responses, the HTTP-01 token store, the two DNS-01 providers,
    the certificate cache, issuance, renewal and the start of a listener with
    automatic certificates.  The code runs in a state and error monad whose
    state holds what the process shares (the resolver, the tokens, the maps of
    the Cloudflare provider) and the outside world; an early return keeps the
    state reached.  The outside world and the libraries are the class
    [AcmeLib]. *)

From S2P Require Import Prelude RustStr SocketAddr Routing Config Tls.

(** ** Effects *)

(** An action on the state [S] that may fail. *)
Definition eff (S E A : Type) : Type := S → result E A * S.

#[export] Instance eff_ret {S E} : MRet (eff S E) := λ A a s, (Ok a, s).
#[export] Instance eff_bind {S E} : MBind (eff S E) := λ A B f m s,
  match m s with (Ok a, s') => f a s' | (Err e, s') => (Err e, s') end.

Definition lift {S E A} (r : result E A) : eff S E A := λ s, (r, s).
Definition gets {S E A} (f : S → A) : eff S E A := λ s, (Ok (f s), s).
Definition modify {S E} (f : S → S) : eff S E unit := λ s, (Ok tt, f s).

(** Keep an error as a value. *)
Definition attempt {S E F A} (m : eff S E A) : eff S F (result E A) := λ s,
  let '(r, s') := m s in (Ok r, s').

(** [for x in l { f(x)? }]. *)
Fixpoint for_each {S E A} (f : A → eff S E unit) (l : list A) : eff S E unit :=
  match l with
  | [] => mret tt
  | x :: l => f x ≫= λ _, for_each f l
  end.

Lemma eff_bind_Ok {S E A B} (m : eff S E A) (f : A → eff S E B) s b s' :
  (m ≫= f) s = (Ok b, s') ↔ ∃ a s1, m s = (Ok a, s1) ∧ f a s1 = (Ok b, s').
Proof. cbv [mbind eff_bind]. destruct (m s) as [[a|e] s1]; naive_solver. Qed.

Lemma eff_bind_Err {S E A B} (m : eff S E A) (f : A → eff S E B) s e s' :
  (m ≫= f) s = (Err e, s') ↔ m s = (Err e, s') ∨ ∃ a s1, m s = (Ok a, s1) ∧ f a s1 = (Err e, s').
Proof. cbv [mbind eff_bind]. destruct (m s) as [[a|e'] s1]; naive_solver. Qed.

Lemma eff_bind_step {S E A B} (m : eff S E A) (f : A → eff S E B) s a s1 :
  m s = (Ok a, s1) → (m ≫= f) s = f a s1.
Proof. cbv [mbind eff_bind]. by intros ->. Qed.

Lemma eff_bind_fail {S E A B} (m : eff S E A) (f : A → eff S E B) s e s1 :
  m s = (Err e, s1) → (m ≫= f) s = (Err e, s1).
Proof. cbv [mbind eff_bind]. by intros ->. Qed.

(** ** Data of the ACME protocol *)

Inductive AuthorizationStatus :=
| Authz_Pending | Authz_Valid | Authz_Invalid | Authz_Revoked | Authz_Expired | Authz_Deactivated.

Inductive OrderStatus :=
| Order_Pending | Order_Ready | Order_Processing | Order_Valid | Order_Invalid.

#[export] Instance OrderStatus_eq_dec : EqDecision OrderStatus.
Proof. solve_decision. Defined.

(** [instant_acme::ChallengeType], the three the code names. *)
Inductive ChallengeType := Type_Http01 | Type_Dns01 | Type_TlsAlpn01.

(** [KeyAuthorization]: the string, its SHA-256 and the base64url of that. *)
Record KeyAuthorization := mkKeyAuthorization {
  ka_as_str : string;
  ka_digest : list Z;
  ka_dns_value : string;
}.

(** A challenge of an authorization; [R] is the handle the client acts on. *)
Record Challenge (R : Type) := mkChallenge {
  chal_ref : R;
  chal_token : string;
  chal_key_authorization : KeyAuthorization;
}.
Arguments mkChallenge {R}.
Arguments chal_ref {R}.
Arguments chal_token {R}.
Arguments chal_key_authorization {R}.

Record Authorization (R : Type) := mkAuthorization {
  authz_status : AuthorizationStatus;
  authz_identifier : string;
  authz_challenge : ChallengeType → option (Challenge R);
}.
Arguments mkAuthorization {R}.
Arguments authz_status {R}.
Arguments authz_identifier {R}.
Arguments authz_challenge {R}.

Record NewAccount := mkNewAccount {
  na_contact : list string;
  na_terms_of_service_agreed : bool;
  na_only_return_existing : bool;
}.

(** ** Challenge responses *)

Inductive ChallengeResponse :=
| Resp_Http01 (token key_authorization : string)
| Resp_TlsAlpn01 (domain : string) (digest : list Z)
| Resp_Dns01 (domain record_name value : string).

Definition dns_record_name (domain : string) : string :=
  "_acme-challenge." +:+ default domain (strip_prefix "*." domain).

Definition build_challenge_response (challenge : AcmeChallenge)
    (domain token key_auth : string) (digest : list Z) (dns_value : string)
  : ChallengeResponse :=
  match challenge with
  | Http01 => Resp_Http01 token key_auth
  | TlsAlpn01 => Resp_TlsAlpn01 domain digest
  | Dns01 => Resp_Dns01 domain (dns_record_name domain) dns_value
  end.

Definition challenge_response (challenge : AcmeChallenge) (domain token : string)
    (key_auth : KeyAuthorization) : ChallengeResponse :=
  build_challenge_response challenge domain token
    (ka_as_str key_auth) (ka_digest key_auth) (ka_dns_value key_auth).

(** ** Cloudflare's API *)

Record CfError := mkCfError {
  cf_code : Z;
  cf_message : string;
}.

Record CfEnvelope (T : Type) := mkCfEnvelope {
  cf_success : bool;
  cf_errors : list CfError;
  cf_result : option T;
}.
Arguments mkCfEnvelope {T}.
Arguments cf_success {T}.
Arguments cf_errors {T}.
Arguments cf_result {T}.

Record CfRecord := mkCfRecord { cf_record_id : string }.
Record CfZone := mkCfZone { cf_zone_id : string }.

Definition cf_errors_to_string (errors : list CfError) : string :=
  match errors with
  | [] => "no error detail"
  | _ => join "; " ((λ e, cf_message e +:+ " (" +:+ pretty (cf_code e) +:+ ")") <$> errors)
  end.

(** The requests the provider sends; every one carries the bearer token. *)
Inductive CfRequest :=
| Cf_Get (url : string) (query : list (string * string))
| Cf_Post (url : string) (type name content : string) (ttl : Z)
| Cf_Delete (url : string).

Definition CLOUDFLARE_API_BASE : string := "https://api.cloudflare.com".

(** [CloudflareDnsProvider] without its two mutable maps. *)
Record Cloudflare := mkCloudflare {
  cf_token : string;
  cf_zone : option string;
  cf_base_url : string;
  cf_propagation : Z;
}.

Definition cf_with_base_url (token : string) (zone_id : option string)
    (propagation_secs : Z) (base_url : string) : Cloudflare :=
  mkCloudflare token zone_id (trim_end_matches "/" base_url) propagation_secs.

Definition cf_new (token : string) (zone_id : option string) (propagation_secs : Z)
  : Cloudflare :=
  cf_with_base_url token zone_id propagation_secs CLOUDFLARE_API_BASE.

Fixpoint suffixes {A} (l : list A) : list (list A) :=
  match l with [] => [] | _ :: l' => l :: suffixes l' end.

Definition zone_candidates (record_name : string) : list string :=
  let base := default record_name (strip_prefix "_acme-challenge." record_name) in
  let labels := List.filter (λ l, negb (is_empty l))
                  (split (λ a, bool_decide (a = "."%char)) base) in
  join "." <$> suffixes labels.

(** [ManualDnsProvider]. *)
Record ManualDns := mkManualDns {
  manual_hook_command : option string;
  manual_cleanup_command : option string;
  manual_propagation : Z;
}.

(** [dyn DnsProvider]. *)
Inductive DnsProvider :=
| Provider_Manual (p : ManualDns)
| Provider_Cloudflare (p : Cloudflare).

(** ** Constants and pure helpers *)

Definition RENEW_BEFORE : Z := 30 * 24 * 60 * 60.
Definition RENEW_CHECK_INTERVAL : Z := 12 * 60 * 60.
Definition ACCOUNT_FILE : string := "account.json".
Definition CERT_FILE : string := "cert.pem".
Definition KEY_FILE : string := "key.pem".

Record IssuedCert := mkIssuedCert {
  cert_pem : string;
  key_pem : string;
}.

(** [Path::join] with a relative name. *)
Definition path_join (dir name : string) : string :=
  if is_empty dir then name
  else if bool_decide (trim_end_matches "/" dir = dir) then dir +:+ "/" +:+ name
  else dir +:+ name.

Definition acme_challenge_type (challenge : AcmeChallenge) : ChallengeType :=
  match challenge with
  | TlsAlpn01 => Type_TlsAlpn01
  | Http01 => Type_Http01
  | Dns01 => Type_Dns01
  end.

(** The contact of a new account, as a [mailto:] URL. *)
Definition account_contact (contact : option string) : list string :=
  match contact with
  | Some c => [if starts_with "mailto:" c then c else "mailto:" +:+ c]
  | None => []
  end.

(** ** The outside world and the libraries

    [acme_env] is everything outside the process: the certificate authority,
    Cloudflare, the file system, the clock and child processes.  A call reads
    and changes it.  The authority may connect back while it handles a call,
    so [set_ready] and [poll_ready] also get what the listeners serve at that
    moment. *)
Class AcmeLib `{TL : !TlsLib} := {
  acme_env : Type;
  (* instant-acme *)
  acme_error : Type;
  account_builder : Type;
  account_handle : Type;
  credentials : Type;
  order_handle : Type;
  authz_handle : Type;
  challenge_handle : Type;
  LetsEncrypt_production : string;
  LetsEncrypt_staging : string;
  Account_builder : acme_env → result acme_error account_builder * acme_env;
  from_credentials : account_builder → credentials → acme_env →
    result acme_error account_handle * acme_env;
  create_account : account_builder → NewAccount → string → acme_env →
    result acme_error (account_handle * credentials) * acme_env;
  new_order : account_handle → list string → acme_env →
    result acme_error order_handle * acme_env;
  order_authorizations : order_handle → list authz_handle;
  fetch_authorization : authz_handle → acme_env →
    result acme_error (Authorization challenge_handle) * acme_env;
  set_ready : challenge_handle → AcmeResolver * gmap string string → acme_env →
    result acme_error unit * acme_env;
  poll_ready : order_handle → AcmeResolver * gmap string string → acme_env →
    result acme_error OrderStatus * acme_env;
  order_finalize : order_handle → acme_env → result acme_error string * acme_env;
  poll_certificate : order_handle → acme_env → result acme_error string * acme_env;
  (* serde_json *)
  json_error : Type;
  credentials_from_str : string → option credentials;
  credentials_to_string : credentials → result json_error string;
  (* rcgen, rustls-pki-types, x509-parser, rustls *)
  rcgen_error : Type;
  key_pair : Type;
  cert_params : Type;
  pki_pem_error : Type;
  x509_cert : Type;
  KeyPair_generate : acme_env → result rcgen_error key_pair * acme_env;
  CertificateParams_new : list string → result rcgen_error cert_params;
  push_acme_identifier : list Z → cert_params → cert_params;
  self_signed : cert_params → key_pair → acme_env → result rcgen_error cert_der * acme_env;
  serialize_der : key_pair → list Z;
  PrivateKeyDer_try_from : list Z → result string key_der;
  load_private_key : key_der → result rustls_error signing_key;
  pem_cert_iter : list Z → list (result pki_pem_error cert_der);
  pem_private_key : list Z → result pki_pem_error key_der;
  certified_from_der : list cert_der → key_der → result rustls_error CertifiedKey;
  parse_x509 : cert_der → option x509_cert;
  time_to_expiration : x509_cert → acme_env → option Z;
  (* reqwest *)
  reqwest_error : Type;
  http_response : Type;
  cf_send : string → CfRequest → acme_env → result reqwest_error http_response * acme_env;
  zones_json : http_response → acme_env →
    result reqwest_error (CfEnvelope (list CfZone)) * acme_env;
  record_json : http_response → acme_env →
    result reqwest_error (CfEnvelope CfRecord) * acme_env;
  (* tokio and std *)
  exit_status : Type;
  exit_success : exit_status → bool;
  sh : string → list (string * string) → acme_env → result tls_io_error exit_status * acme_env;
  sleep : Z → acme_env → acme_env;
  create_dir_all : string → acme_env → result tls_io_error unit * acme_env;
  fs_read_to_string : string → acme_env → option string;
  fs_write : string → string → acme_env → result tls_io_error unit * acme_env;
  listen_http01 : SocketAddr → acme_env → acme_env;
}.

Section acme.
Context `{TL : !TlsLib} `{AL : !AcmeLib}.

(** The texts of [AcmeError::Cert], [AcmeError::DnsHook] and
    [AcmeError::Dns], by what they report. *)
Inductive CertFault :=
| Cert_CertPem (e : pki_pem_error)
| Cert_Empty
| Cert_KeyPem (e : pki_pem_error)
| Cert_NoChallenge (challenge : AcmeChallenge) (domain : string)
| Cert_Serialize (e : json_error)
| Cert_RcgenKey (e : string).

Inductive HookFault :=
| Hook_Spawn (command : string) (e : tls_io_error)
| Hook_Exit (command : string) (status : exit_status).

Inductive DnsFault :=
| Dns_ZoneRequest (e : reqwest_error)
| Dns_ZoneDecode (e : reqwest_error)
| Dns_ZoneFailed (candidate detail : string)
| Dns_NoZone (record_name : string)
| Dns_CreateRequest (e : reqwest_error)
| Dns_CreateDecode (e : reqwest_error)
| Dns_CreateFailed (record_name detail : string)
| Dns_CreateEmpty
| Dns_NoToken.

Inductive AcmeError :=
| AcmeError_Acme (e : acme_error)
| AcmeError_Cache (path : string) (source : tls_io_error)
| AcmeError_Rcgen (e : rcgen_error)
| AcmeError_Cert (e : CertFault)
| AcmeError_Authorization (domain : string) (status : AuthorizationStatus)
| AcmeError_Order (status : OrderStatus)
| AcmeError_DnsHook (e : HookFault)
| AcmeError_Dns (e : DnsFault)
| AcmeError_Rustls (e : rustls_error).

(** What the process shares between the manager and the listeners, the maps
    of the Cloudflare provider, and the world. *)
Record AcmeState := mkAcmeState {
  st_resolver : AcmeResolver;
  st_tokens : gmap string string;
  st_records : gmap (string * string) string;
  st_zone_cache : gmap string string;
  st_env : acme_env;
}.

Definition with_resolver (f : AcmeResolver → AcmeResolver) (s : AcmeState) : AcmeState :=
  mkAcmeState (f (st_resolver s)) (st_tokens s) (st_records s) (st_zone_cache s) (st_env s).

Definition with_tokens (f : gmap string string → gmap string string) (s : AcmeState)
  : AcmeState :=
  mkAcmeState (st_resolver s) (f (st_tokens s)) (st_records s) (st_zone_cache s) (st_env s).

Definition with_records (f : gmap (string * string) string → gmap (string * string) string)
    (s : AcmeState) : AcmeState :=
  mkAcmeState (st_resolver s) (st_tokens s) (f (st_records s)) (st_zone_cache s) (st_env s).

Definition with_zone_cache (f : gmap string string → gmap string string) (s : AcmeState)
  : AcmeState :=
  mkAcmeState (st_resolver s) (st_tokens s) (st_records s) (f (st_zone_cache s)) (st_env s).

Definition with_env (e : acme_env) (s : AcmeState) : AcmeState :=
  mkAcmeState (st_resolver s) (st_tokens s) (st_records s) (st_zone_cache s) e.

Abbreviation acme := (eff AcmeState AcmeError).

(** A call to the outside: with an error that [?] converts, with its result
    as a value, or without a result. *)
Definition call {E A} (err : E → AcmeError) (op : acme_env → result E A * acme_env) : acme A :=
  λ s, let '(r, e) := op (st_env s) in (map_err err r, with_env e s).

Definition call_try {E A} (op : acme_env → result E A * acme_env) : acme (result E A) :=
  λ s, let '(r, e) := op (st_env s) in (Ok r, with_env e s).

Definition call_ (op : acme_env → acme_env) : acme unit := λ s,
  (Ok tt, with_env (op (st_env s)) s).

Definition served (s : AcmeState) : AcmeResolver * gmap string string :=
  (st_resolver s, st_tokens s).

(** ** The HTTP-01 token store *)

Definition tokens_insert (token key_authorization : string) : acme unit :=
  modify (with_tokens (<[token := key_authorization]>)).

Definition tokens_remove (token : string) : acme unit :=
  modify (with_tokens (delete token)).

Definition tokens_get (token : string) (tokens : gmap string string) : option string :=
  tokens !! token.

(** ** DNS-01 providers *)

Definition run_hook (command domain record_name value : string) : acme unit :=
  status ← call (λ e, AcmeError_DnsHook (Hook_Spawn command e))
             (sh command [("ACME_DNS_DOMAIN", domain); ("ACME_DNS_NAME", record_name);
                          ("ACME_DNS_VALUE", value)]);
  if exit_success status then mret tt
  else lift (Err (AcmeError_DnsHook (Hook_Exit command status))).

Definition manual_publish (p : ManualDns) (domain record_name value : string) : acme unit :=
  _ ← match manual_hook_command p with
      | Some cmd => run_hook cmd domain record_name value
      | None => mret tt
      end;
  call_ (sleep (manual_propagation p)).

(** A failing hook is logged. *)
Definition manual_cleanup (p : ManualDns) (domain record_name value : string) : acme unit :=
  match manual_cleanup_command p with
  | Some cmd => _ ← attempt (run_hook cmd domain record_name value); mret tt
  | None => mret tt
  end.

(** The body of the loop over the zone candidates: [Some] is an early
    return. *)
Definition zone_lookup (p : Cloudflare) (candidate : string) : acme (option string) :=
  cached ← gets (λ s, st_zone_cache s !! candidate);
  match cached with
  | Some id => mret (Some id)
  | None =>
      resp ← call (λ e, AcmeError_Dns (Dns_ZoneRequest e))
               (cf_send (cf_token p)
                  (Cf_Get (cf_base_url p +:+ "/client/v4/zones") [("name", candidate)]));
      env ← call (λ e, AcmeError_Dns (Dns_ZoneDecode e)) (zones_json resp);
      if cf_success env then
        match cf_result env with
        | Some (zone :: _) =>
            _ ← modify (with_zone_cache (<[candidate := cf_zone_id zone]>));
            mret (Some (cf_zone_id zone))
        | _ => mret None
        end
      else lift (Err (AcmeError_Dns (Dns_ZoneFailed candidate
                        (cf_errors_to_string (cf_errors env)))))
  end.

Fixpoint zone_search (p : Cloudflare) (record_name : string) (candidates : list string)
  : acme string :=
  match candidates with
  | [] => lift (Err (AcmeError_Dns (Dns_NoZone record_name)))
  | candidate :: candidates =>
      found ← zone_lookup p candidate;
      match found with
      | Some id => mret id
      | None => zone_search p record_name candidates
      end
  end.

Definition resolve_zone_id (p : Cloudflare) (record_name : string) : acme string :=
  match cf_zone p with
  | Some id => mret id
  | None => zone_search p record_name (zone_candidates record_name)
  end.

Definition dns_records_url (p : Cloudflare) (zone_id : string) : string :=
  cf_base_url p +:+ "/client/v4/zones/" +:+ zone_id +:+ "/dns_records".

Definition cloudflare_publish (p : Cloudflare) (record_name value : string) : acme unit :=
  zone_id ← resolve_zone_id p record_name;
  resp ← call (λ e, AcmeError_Dns (Dns_CreateRequest e))
           (cf_send (cf_token p) (Cf_Post (dns_records_url p zone_id) "TXT" record_name value 60));
  env ← call (λ e, AcmeError_Dns (Dns_CreateDecode e)) (record_json resp);
  if cf_success env then
    record ← lift (ok_or (AcmeError_Dns Dns_CreateEmpty) (cf_result env));
    _ ← modify (with_records (<[(record_name, value) := cf_record_id record]>));
    call_ (sleep (cf_propagation p))
  else lift (Err (AcmeError_Dns (Dns_CreateFailed record_name
                    (cf_errors_to_string (cf_errors env))))).

(** The record is forgotten first; what fails after that is logged. *)
Definition cloudflare_cleanup (p : Cloudflare) (record_name value : string) : acme unit :=
  found ← gets (λ s, st_records s !! (record_name, value));
  _ ← modify (with_records (delete (record_name, value)));
  match found with
  | None => mret tt
  | Some record_id =>
      zone ← attempt (resolve_zone_id p record_name);
      match zone with
      | Err _ => mret tt
      | Ok zone_id =>
          _ ← call_try (cf_send (cf_token p)
                          (Cf_Delete (dns_records_url p zone_id +:+ "/" +:+ record_id)));
          mret tt
      end
  end.

Definition dns_publish (p : DnsProvider) (domain record_name value : string) : acme unit :=
  match p with
  | Provider_Manual m => manual_publish m domain record_name value
  | Provider_Cloudflare c => cloudflare_publish c record_name value
  end.

Definition dns_cleanup (p : DnsProvider) (domain record_name value : string) : acme unit :=
  match p with
  | Provider_Manual m => manual_cleanup m domain record_name value
  | Provider_Cloudflare c => cloudflare_cleanup c record_name value
  end.

(** ** Certificates *)

(** [collect::<Result<Vec<_>, _>>]. *)
Fixpoint collect_results {E A} (l : list (result E A)) : result E (list A) :=
  match l with
  | [] => Ok []
  | r :: l => a ← r; as_ ← collect_results l; Ok (a :: as_)
  end.

Definition into_certified_key (c : IssuedCert) : result AcmeError CertifiedKey :=
  certs ← map_err (λ e, AcmeError_Cert (Cert_CertPem e))
            (collect_results (pem_cert_iter (as_bytes (cert_pem c))));
  match certs with
  | [] => Err (AcmeError_Cert Cert_Empty)
  | _ =>
      key ← map_err (λ e, AcmeError_Cert (Cert_KeyPem e))
              (pem_private_key (as_bytes (key_pem c)));
      map_err AcmeError_Rustls (certified_from_der certs key)
  end.

Definition time_to_expiry (c : IssuedCert) (env : acme_env) : option Z :=
  match pem_cert_iter (as_bytes (cert_pem c)) with
  | Ok der :: _ =>
      parsed ← parse_x509 der;
      secs ← time_to_expiration parsed env;
      if (0 <=? secs)%Z then Some secs else None
  | _ => None
  end.

Definition needs_renewal (c : IssuedCert) (env : acme_env) : bool :=
  match time_to_expiry c env with
  | Some remaining => (remaining <=? RENEW_BEFORE)%Z
  | None => true
  end.

Definition tls_alpn_cert (domain : string) (digest : list Z) : acme CertifiedKey :=
  kp ← call AcmeError_Rcgen KeyPair_generate;
  params ← lift (map_err AcmeError_Rcgen (CertificateParams_new [domain]));
  cert ← call AcmeError_Rcgen (self_signed (push_acme_identifier digest params) kp);
  key ← lift (map_err (λ e, AcmeError_Cert (Cert_RcgenKey e))
                (PrivateKeyDer_try_from (serialize_der kp)));
  skey ← lift (map_err AcmeError_Rustls (load_private_key key));
  mret (mkCertifiedKey [cert] skey).

(** ** The cache *)

Definition cache_ensure_dir (dir : string) : acme unit :=
  call (AcmeError_Cache dir) (create_dir_all dir).

Definition cache_read (dir name : string) (env : acme_env) : option string :=
  fs_read_to_string (path_join dir name) env.

Definition cache_write (dir name contents : string) : acme unit :=
  let path := path_join dir name in
  call (AcmeError_Cache path) (fs_write path contents).

Definition cache_load_cert (dir : string) (env : acme_env) : option IssuedCert :=
  cert_pem ← cache_read dir CERT_FILE env;
  key_pem ← cache_read dir KEY_FILE env;
  Some (mkIssuedCert cert_pem key_pem).

Definition cache_store_cert (dir : string) (c : IssuedCert) : acme unit :=
  _ ← cache_write dir CERT_FILE (cert_pem c);
  cache_write dir KEY_FILE (key_pem c).

(** ** The manager *)

(** [AcmeManager]; what it shares is in the state.  Its lock serialises
    issuance: startup ends before the renewal task starts, and that task is
    the only other caller. *)
Record AcmeManager := mkAcmeManager {
  mgr_cfg : AcmeConfig;
  mgr_dns : DnsProvider;
  mgr_cache : option string;
}.

Definition directory_url (cfg : AcmeConfig) : string :=
  match acme_directory_url cfg with
  | Some url => url
  | None => if acme_staging cfg then LetsEncrypt_staging else LetsEncrypt_production
  end.

Definition AcmeManager_new {E} (w : World E) (cfg : AcmeConfig) : result AcmeError AcmeManager :=
  let dns := acme_dns cfg in
  p ← match dns_provider dns with
      | Dns_Manual =>
          Ok (Provider_Manual (mkManualDns (dns_hook_command dns) (dns_cleanup_command dns)
                                 (dns_propagation_secs dns)))
      | Dns_Cloudflare =>
          token ← ok_or (AcmeError_Dns Dns_NoToken) (resolve_cf_token w dns);
          Ok (Provider_Cloudflare (cf_new token (dns_zone_id dns) (dns_propagation_secs dns)))
      end;
  Ok (mkAcmeManager cfg p (acme_cache_dir cfg)).

Definition load_cached (m : AcmeManager) : acme bool :=
  match mgr_cache m with
  | None => mret false
  | Some dir =>
      env ← gets st_env;
      match cache_load_cert dir env with
      | None => mret false
      | Some cert =>
          if needs_renewal cert env then mret false
          else match into_certified_key cert with
               | Ok ck => _ ← modify (with_resolver (λ r, resolver_store r ck)); mret true
               | Err _ => mret false
               end
      end
  end.

Definition account (m : AcmeManager) : acme account_handle :=
  raw ← gets (λ s, dir ← mgr_cache m; cache_read dir ACCOUNT_FILE (st_env s));
  match raw ≫= credentials_from_str with
  | Some creds =>
      b ← call AcmeError_Acme Account_builder;
      call AcmeError_Acme (from_credentials b creds)
  | None =>
      b ← call AcmeError_Acme Account_builder;
      '(acct, creds) ← call AcmeError_Acme
        (create_account b (mkNewAccount (account_contact (acme_contact (mgr_cfg m))) true false)
           (directory_url (mgr_cfg m)));
      _ ← match mgr_cache m with
          | Some dir =>
              _ ← cache_ensure_dir dir;
              json ← lift (map_err (λ e, AcmeError_Cert (Cert_Serialize e))
                             (credentials_to_string creds));
              cache_write dir ACCOUNT_FILE json
          | None => mret tt
          end;
      mret acct
  end.

(** The responses that are in place: [active_http], [active_alpn] and
    [active_dns]. *)
Record Active := mkActive {
  active_http : list string;
  active_alpn : list string;
  active_dns : list (string * string * string);
}.

Definition no_active : Active := mkActive [] [] [].

(** Put one response in place. *)
Definition install_response (m : AcmeManager) (a : Active) (r : ChallengeResponse)
  : acme Active :=
  match r with
  | Resp_Http01 token key_authorization =>
      _ ← tokens_insert token key_authorization;
      mret (mkActive (active_http a ++ [token]) (active_alpn a) (active_dns a))
  | Resp_TlsAlpn01 domain digest =>
      ck ← tls_alpn_cert domain digest;
      _ ← modify (with_resolver (λ r, set_challenge r domain ck));
      mret (mkActive (active_http a) (active_alpn a ++ [domain]) (active_dns a))
  | Resp_Dns01 domain record_name value =>
      _ ← dns_publish (mgr_dns m) domain record_name value;
      mret (mkActive (active_http a) (active_alpn a)
              (active_dns a ++ [(domain, record_name, value)]))
  end.

(** One iteration of the loop over the authorizations. *)
Definition prepare_authorization (m : AcmeManager) (a : Active) (h : authz_handle)
  : acme Active :=
  authz ← call AcmeError_Acme (fetch_authorization h);
  match authz_status authz with
  | Authz_Pending =>
      let domain := authz_identifier authz in
      challenge ← lift (ok_or (AcmeError_Cert
                                 (Cert_NoChallenge (acme_challenge (mgr_cfg m)) domain))
                          (authz_challenge authz (acme_challenge_type (acme_challenge (mgr_cfg m)))));
      a' ← install_response m a
             (challenge_response (acme_challenge (mgr_cfg m)) domain (chal_token challenge)
                (chal_key_authorization challenge));
      now ← gets served;
      _ ← call AcmeError_Acme (set_ready (chal_ref challenge) now);
      mret a'
  | Authz_Valid => mret a
  | status => lift (Err (AcmeError_Authorization (authz_identifier authz) status))
  end.

Fixpoint prepare_all (m : AcmeManager) (a : Active) (hs : list authz_handle) : acme Active :=
  match hs with
  | [] => mret a
  | h :: hs => a' ← prepare_authorization m a h; prepare_all m a' hs
  end.

(** The part of [issue] up to the end of that loop. *)
Definition issue_setup (m : AcmeManager) : acme (order_handle * Active) :=
  acct ← account m;
  order ← call AcmeError_Acme (new_order acct (acme_domains (mgr_cfg m)));
  a ← prepare_all m no_active (order_authorizations order);
  mret (order, a).

Definition finalize_and_fetch (order : order_handle) : acme IssuedCert :=
  now ← gets served;
  status ← call AcmeError_Acme (poll_ready order now);
  if decide (status = Order_Ready) then
    key_pem ← call AcmeError_Acme (order_finalize order);
    cert_pem ← call AcmeError_Acme (poll_certificate order);
    mret (mkIssuedCert cert_pem key_pem)
  else lift (Err (AcmeError_Order status)).

Definition alpn_remove (domain : string) : acme unit :=
  modify (with_resolver (λ r, clear_challenge r domain)).

Definition teardown (m : AcmeManager) (a : Active) : acme unit :=
  _ ← for_each tokens_remove (active_http a);
  _ ← for_each alpn_remove (active_alpn a);
  for_each (λ '(d, n, v), dns_cleanup (mgr_dns m) d n v) (active_dns a).

(** Persist the certificate, then install it. *)
Definition persist_issued (m : AcmeManager) (issued : IssuedCert) : acme unit :=
  match mgr_cache m with
  | Some dir => _ ← cache_ensure_dir dir; cache_store_cert dir issued
  | None => mret tt
  end.

Definition install_issued (m : AcmeManager) (issued : IssuedCert) : acme unit :=
  _ ← persist_issued m issued;
  ck ← lift (into_certified_key issued);
  modify (with_resolver (λ r, resolver_store r ck)).

Definition issue (m : AcmeManager) : acme IssuedCert :=
  '(order, a) ← issue_setup m;
  result ← attempt (finalize_and_fetch order);
  _ ← teardown m a;
  issued ← lift result;
  _ ← install_issued m issued;
  mret issued.

(** ** Renewal *)

Definition cert_needs_renewal (m : AcmeManager) (env : acme_env) : bool :=
  match dir ← mgr_cache m; cache_load_cert dir env with
  | Some cert => needs_renewal cert env
  | None => true
  end.

Definition renewal_due (m : AcmeManager) (s : AcmeState) : bool :=
  match current (st_resolver s) with
  | None => true
  | Some _ => cert_needs_renewal m (st_env s)
  end.

(** One turn of [renewal_loop], which never ends. *)
Definition renewal_tick (m : AcmeManager) (s : AcmeState) : AcmeState :=
  let s1 := with_env (sleep RENEW_CHECK_INTERVAL (st_env s)) s in
  if renewal_due m s1 then (issue m s1).2 else s1.

(** ** Startup with automatic certificates *)

(** [serve_token] of the HTTP-01 responder: status and body. *)
Definition serve_token (tokens : gmap string string) (token : string) : Z * string :=
  match tokens_get token tokens with
  | Some key_authorization => (200%Z, key_authorization)
  | None => (404%Z, "unknown ACME challenge token
")
  end.

Definition http01_listen_addr (cfg : AcmeConfig) (addr : SocketAddr) : SocketAddr :=
  match acme_http01_listen cfg with
  | Some a => a
  | None => match addr with
            | SocketAddrV4 ip _ => SocketAddrV4 ip 80
            | SocketAddrV6 ip _ _ => SocketAddrV6 ip 0 80
            end
  end.

Definition acme_init (env : acme_env) : AcmeState :=
  mkAcmeState resolver_empty ∅ ∅ ∅ env.

(** [setup_acme]: [Err] is an exit of the process. *)
Definition setup_acme {E} (w : World E) (cfg : AcmeConfig) (addr : SocketAddr) (env : acme_env)
  : result AcmeError (AcmeManager * TlsServerConfig) * AcmeState :=
  (m ← lift (AcmeManager_new w cfg);
   _ ← match acme_challenge cfg with
       | Http01 => call_ (listen_http01 (http01_listen_addr cfg addr))
       | _ => mret tt
       end;
   cached ← load_cached m;
   _ ← (if cached : bool then mret tt else issue m ≫= λ _, mret tt);
   mret (m, config_with_resolver Resolver_Acme
              (match acme_challenge cfg with TlsAlpn01 => true | _ => false end)))
  (acme_init env).

End acme.
