(* ===== verification/AcmeSpec.v ===== *)
(** * Theorems about automatic certificates

    Which parts of the state an action leaves alone, the life of a challenge
    response, the outcome of issuance, renewal, and startup. *)

From S2P Require Import Prelude RustStr SocketAddr Routing Config Tls Acme.

Create HintDb keeps.

Section spec.
Context `{TL : !TlsLib} `{AL : !AcmeLib}.

(** ** Frames *)

(** The action leaves [f] of the state as it was, whether it fails or not. *)
Definition keeps {X A} (f : AcmeState → X) (m : eff AcmeState AcmeError A) : Prop :=
  ∀ s, f (m s).2 = f s.

(** Parts of the state that do not depend on the world. *)
Class EnvFree {X} (f : AcmeState → X) := env_free : ∀ e s, f (with_env e s) = f s.

#[local] Instance served_env_free : EnvFree served. Proof. done. Qed.
#[local] Instance tokens_env_free : EnvFree st_tokens. Proof. done. Qed.
#[local] Instance resolver_env_free : EnvFree st_resolver. Proof. done. Qed.
#[local] Instance records_env_free : EnvFree st_records. Proof. done. Qed.

Definition st_current (s : AcmeState) : option CertifiedKey := current (st_resolver s).
Definition st_challenges (s : AcmeState) : gmap string CertifiedKey := challenges (st_resolver s).

#[local] Instance current_env_free : EnvFree st_current. Proof. done. Qed.
#[local] Instance challenges_env_free : EnvFree st_challenges. Proof. done. Qed.

Lemma keeps_ret {X A} (f : AcmeState → X) (a : A) : keeps f (mret a).
Proof. done. Qed.
Lemma keeps_lift {X A} (f : AcmeState → X) (r : result AcmeError A) : keeps f (lift r).
Proof. done. Qed.
Lemma keeps_gets {X A} (f : AcmeState → X) (g : AcmeState → A) : keeps f (gets g).
Proof. done. Qed.
Lemma keeps_modify {X} (f : AcmeState → X) g : (∀ s, f (g s) = f s) → keeps f (modify g).
Proof. intros Hg s. apply Hg. Qed.
Lemma keeps_bind {X A B} (f : AcmeState → X) (m : eff AcmeState AcmeError A)
    (k : A → eff AcmeState AcmeError B) :
  keeps f m → (∀ a, keeps f (k a)) → keeps f (m ≫= k).
Proof.
  intros Hm Hk s. specialize (Hm s). cbv [mbind eff_bind].
  destruct (m s) as [[a|e] s1]; simpl in *; [|done]. by rewrite Hk.
Qed.
Lemma keeps_attempt {X A} (f : AcmeState → X) (m : eff AcmeState AcmeError A) :
  keeps f m → keeps f (attempt m).
Proof. intros Hm s. specialize (Hm s). unfold attempt. by destruct (m s). Qed.
Lemma keeps_call {X E A} (f : AcmeState → X) `{!EnvFree f} (err : E → AcmeError)
    (op : acme_env → result E A * acme_env) : keeps f (call err op).
Proof. intros s. unfold call. destruct (op (st_env s)). apply env_free. Qed.
Lemma keeps_call_try {X E A} (f : AcmeState → X) `{!EnvFree f}
    (op : acme_env → result E A * acme_env) : keeps f (call_try op).
Proof. intros s. unfold call_try. destruct (op (st_env s)). apply env_free. Qed.
Lemma keeps_call_ {X} (f : AcmeState → X) `{!EnvFree f} op : keeps f (call_ op).
Proof. intros s. apply env_free. Qed.
Lemma keeps_for_each {X A} (f : AcmeState → X) (g : A → eff AcmeState AcmeError unit) l :
  (∀ x, keeps f (g x)) → keeps f (for_each g l).
Proof.
  intros Hg. induction l as [|x l IH]; simpl; [apply keeps_ret|].
  apply keeps_bind; [apply Hg|done].
Qed.

#[local] Hint Resolve keeps_ret keeps_lift keeps_gets keeps_call keeps_call_try keeps_call_
  keeps_attempt : keeps.
#[local] Hint Extern 1 (EnvFree _) => apply _ : keeps.

(** Walk through an action, case by case. *)
Local Ltac keeps_auto :=
  repeat first
    [ progress eauto with keeps typeclass_instances
    | apply keeps_bind; [|intros ?]
    | apply keeps_attempt
    | apply keeps_for_each; intros ?
    | apply keeps_modify; by intros []
    | match goal with |- keeps _ (match ?x with _ => _ end) => destruct x end ].

Lemma run_hook_keeps {X} (f : AcmeState → X) `{!EnvFree f} c d n v : keeps f (run_hook c d n v).
Proof. unfold run_hook. keeps_auto. Qed.

Lemma account_keeps {X} (f : AcmeState → X) `{!EnvFree f} m : keeps f (account m).
Proof. unfold account, cache_ensure_dir, cache_write. keeps_auto. Qed.

Lemma finalize_keeps {X} (f : AcmeState → X) `{!EnvFree f} o : keeps f (finalize_and_fetch o).
Proof. unfold finalize_and_fetch. keeps_auto. Qed.

Lemma tls_alpn_cert_keeps {X} (f : AcmeState → X) `{!EnvFree f} d g : keeps f (tls_alpn_cert d g).
Proof. unfold tls_alpn_cert. keeps_auto. Qed.

Lemma cache_store_keeps {X} (f : AcmeState → X) `{!EnvFree f} dir c :
  keeps f (cache_store_cert dir c).
Proof. unfold cache_store_cert, cache_write. keeps_auto. Qed.

(** Zone lookups change only the zone cache and the world. *)
Class ZoneFree {X} (f : AcmeState → X) :=
  zone_free : ∀ g s, f (with_zone_cache g s) = f s.

Lemma resolve_zone_id_keeps {X} (f : AcmeState → X) `{!EnvFree f, !ZoneFree f} p n :
  keeps f (resolve_zone_id p n).
Proof.
  unfold resolve_zone_id. destruct (cf_zone p); [keeps_auto|].
  induction (zone_candidates n) as [|c cs IH]; simpl; [keeps_auto|].
  apply keeps_bind; [|intros []; auto with keeps].
  unfold zone_lookup. keeps_auto.
Qed.
#[local] Instance served_zone_free : ZoneFree served. Proof. done. Qed.
#[local] Instance tokens_zone_free : ZoneFree st_tokens. Proof. done. Qed.
#[local] Instance records_zone_free : ZoneFree st_records. Proof. done. Qed.
#[local] Instance current_zone_free : ZoneFree st_current. Proof. done. Qed.
#[local] Instance challenges_zone_free : ZoneFree st_challenges. Proof. done. Qed.

(** The DNS providers touch neither the resolver nor the tokens. *)
Lemma dns_publish_keeps p d n v : keeps served (dns_publish p d n v).
Proof.
  destruct p; simpl; [unfold manual_publish|unfold cloudflare_publish];
    keeps_auto; auto using run_hook_keeps, resolve_zone_id_keeps with typeclass_instances.
Qed.

Lemma dns_cleanup_keeps p d n v : keeps served (dns_cleanup p d n v).
Proof.
  destruct p; simpl; [unfold manual_cleanup|unfold cloudflare_cleanup];
    keeps_auto; auto using run_hook_keeps, resolve_zone_id_keeps with typeclass_instances.
Qed.

Lemma keeps_mono {X Y A} (f : AcmeState → X) (h : X → Y) (m : eff AcmeState AcmeError A) :
  keeps f m → keeps (λ s, h (f s)) m.
Proof. intros Hm s. simpl. by rewrite Hm. Qed.

Lemma keeps_run {X A} (f : AcmeState → X) (m : eff AcmeState AcmeError A) s r s' :
  keeps f m → m s = (r, s') → f s' = f s.
Proof. intros Hm Heq. specialize (Hm s). by rewrite Heq in Hm. Qed.

(** ** Responses in place *)

(** The map holds the keys, and apart from them it is the old one. *)
Definition overlay `{Countable K} {V} (keys : list K) (m0 m : gmap K V) : Prop :=
  ∀ k, (k ∈ keys → is_Some (m !! k)) ∧ (k ∉ keys → m !! k = m0 !! k).

(** The map is the old one without the keys. *)
Definition erased `{Countable K} {V} (keys : list K) (m0 m : gmap K V) : Prop :=
  ∀ k, m !! k = if decide (k ∈ keys) then None else m0 !! k.

Lemma overlay_nil `{Countable K} {V} (m : gmap K V) : overlay [] m m.
Proof. intros k. set_solver. Qed.

Lemma overlay_insert `{Countable K} {V} keys (m0 m : gmap K V) k v :
  overlay keys m0 m → overlay (keys ++ [k]) m0 (<[k := v]> m).
Proof.
  intros Hm k'. destruct (Hm k') as [H1 H2]. destruct (decide (k = k')) as [->|Hne].
  - rewrite lookup_insert_eq. set_solver.
  - rewrite lookup_insert_ne by done. set_solver.
Qed.

Lemma overlay_erased `{Countable K} {V} keys (m0 m1 m2 : gmap K V) :
  overlay keys m0 m1 → erased keys m1 m2 → erased keys m0 m2.
Proof. intros Ho He k. rewrite (He k). case_decide; [done|]. by apply Ho. Qed.

Lemma erased_empty `{Countable K} {V} keys (m : gmap K V) : erased keys ∅ m → m = ∅.
Proof. intros He. apply map_empty. intros k. rewrite (He k). by case_decide. Qed.

(** The keys under which the Cloudflare provider tracks its records. *)
Definition record_keys (m : AcmeManager) (a : Active) : list (string * string) :=
  match mgr_dns m with
  | Provider_Cloudflare _ => (λ '(_, n, v), (n, v)) <$> active_dns a
  | Provider_Manual _ => []
  end.

(** The responses in [a] are in place in [s]; nothing else changed since
    [s0]. *)
Record placed (m : AcmeManager) (s0 : AcmeState) (a : Active) (s : AcmeState) : Prop := {
  placed_current : st_current s = st_current s0;
  placed_tokens : overlay (active_http a) (st_tokens s0) (st_tokens s);
  placed_challenges : overlay (active_alpn a) (st_challenges s0) (st_challenges s);
  placed_records : overlay (record_keys m a) (st_records s0) (st_records s);
}.

Lemma placed_frame m s0 a s s' :
  placed m s0 a s → served s' = served s → st_records s' = st_records s → placed m s0 a s'.
Proof.
  intros [Hc Ht Hch Hr] [= Hres Htok] Hrec.
  split; unfold st_current, st_challenges in *; rewrite ?Hres, ?Htok, ?Hrec; done.
Qed.

Lemma publish_records p d n v s s' :
  dns_publish p d n v s = (Ok tt, s') →
  match p with
  | Provider_Manual _ => st_records s' = st_records s
  | Provider_Cloudflare _ => ∃ id, st_records s' = <[(n, v) := id]> (st_records s)
  end.
Proof.
  destruct p as [p|p]; simpl.
  - intros Hp. eapply (keeps_run st_records); [|exact Hp]. unfold manual_publish.
    keeps_auto.
  - unfold cloudflare_publish. intros (z&s1&Hz&Hp)%eff_bind_Ok.
    apply eff_bind_Ok in Hp as (resp&s2&Hs&Hp). apply eff_bind_Ok in Hp as (env&s3&He&Hp).
    assert (st_records s3 = st_records s) as <-.
    { rewrite (keeps_run st_records _ _ _ _ (keeps_call _ _ _) He).
      rewrite (keeps_run st_records _ _ _ _ (keeps_call _ _ _) Hs).
      eapply (keeps_run st_records); [|exact Hz]. by apply resolve_zone_id_keeps; apply _. }
    destruct (cf_success env); [|done]. apply eff_bind_Ok in Hp as (rec&s4&[= _ <-]&Hp).
    injection Hp as <-. by exists (cf_record_id rec).
Qed.

Lemma install_response_placed m s0 a r s a' s' :
  placed m s0 a s → install_response m a r s = (Ok a', s') → placed m s0 a' s'.
Proof.
  intros [Hc Ht Hch Hr] Hi. destruct r as [tok ka|d g|d n v]; simpl in Hi.
  - injection Hi as <- <-. split; simpl; [done|by apply overlay_insert|done..].
  - apply eff_bind_Ok in Hi as (ck&s1&Hck&Hi). injection Hi as <- <-.
    pose proof (keeps_run _ _ _ _ _ (tls_alpn_cert_keeps st_resolver d g) Hck) as Hres.
    pose proof (keeps_run _ _ _ _ _ (tls_alpn_cert_keeps st_tokens d g) Hck) as Htok.
    pose proof (keeps_run _ _ _ _ _ (tls_alpn_cert_keeps st_records d g) Hck) as Hrec.
    split; unfold st_current, st_challenges in *; simpl; rewrite ?Hres, ?Htok, ?Hrec; [done..| |done].
    by apply overlay_insert.
  - apply eff_bind_Ok in Hi as ([]&s1&Hp&Hi). injection Hi as <- <-.
    pose proof (keeps_run _ _ _ _ _ (dns_publish_keeps _ _ _ _) Hp) as [= Hres Htok].
    apply publish_records in Hp. unfold st_current, st_challenges in *.
    split; unfold st_current, st_challenges; simpl; rewrite ?Hres, ?Htok; [done..|].
    unfold record_keys in *. simpl. destruct (mgr_dns m); [by rewrite Hp|].
    destruct Hp as [id ->]. rewrite fmap_app. by apply overlay_insert.
Qed.

Lemma prepare_authorization_placed m s0 a h s a' s' :
  placed m s0 a s → prepare_authorization m a h s = (Ok a', s') → placed m s0 a' s'.
Proof.
  intros Hpl (authz&s1&Hf&Hp)%eff_bind_Ok.
  assert (placed m s0 a s1) as Hpl1.
  { eapply placed_frame; [done|..]; eapply keeps_run; try exact Hf; by apply keeps_call. }
  destruct (authz_status authz); try done; [|by injection Hp as <- <-].
  apply eff_bind_Ok in Hp as (c&s2&[= _ <-]&Hp). apply eff_bind_Ok in Hp as (a2&s3&Hi&Hp).
  apply install_response_placed with (s0 := s0) in Hi; [|done].
  apply eff_bind_Ok in Hp as (now&s4&[= _ <-]&Hp). apply eff_bind_Ok in Hp as ([]&s5&Hr&Hp).
  injection Hp as <- <-.
  eapply placed_frame; [done|..]; eapply keeps_run; try exact Hr; by apply keeps_call.
Qed.

Lemma prepare_all_placed m s0 hs a s a' s' :
  placed m s0 a s → prepare_all m a hs s = (Ok a', s') → placed m s0 a' s'.
Proof.
  revert a s. induction hs as [|h hs IH]; intros a s Hpl Hp; [by injection Hp as <- <-|].
  apply eff_bind_Ok in Hp as (a1&s1&Ha&Hp). eapply IH; [|exact Hp].
  by eapply prepare_authorization_placed.
Qed.

Lemma placed_none m s : placed m s no_active s.
Proof.
  split; [done|..]; try apply overlay_nil. unfold record_keys. simpl.
  destruct (mgr_dns m); apply overlay_nil.
Qed.

Lemma issue_setup_placed m s o a s1 :
  issue_setup m s = (Ok (o, a), s1) → placed m s a s1.
Proof.
  intros (acct&s2&Ha&Hs)%eff_bind_Ok. apply eff_bind_Ok in Hs as (order&s3&Ho&Hs).
  apply eff_bind_Ok in Hs as (a1&s4&Hp&[= <- <- <-]).
  eapply prepare_all_placed; [|exact Hp].
  eapply placed_frame with s2; [eapply placed_frame; [apply placed_none|..]|..].
  1-2: eapply keeps_run; [|exact Ha]; by apply account_keeps; apply _.
  all: eapply keeps_run; [|exact Ho]; by apply keeps_call; apply _.
Qed.

(** ** Set-up that fails *)

Lemma publish_fail_records p d n v s e s' :
  dns_publish p d n v s = (Err e, s') → st_records s' = st_records s.
Proof.
  destruct p as [p|p]; simpl.
  - intros Hp. eapply (keeps_run st_records); [|exact Hp]. unfold manual_publish. keeps_auto.
  - unfold cloudflare_publish.
    assert (keeps st_records (resolve_zone_id p n)) as Hz by (by apply resolve_zone_id_keeps; apply _).
    intros [Hp|(z&s1&H1&Hp)]%eff_bind_Err; [by eapply keeps_run|].
    rewrite <-(keeps_run _ _ _ _ _ Hz H1).
    apply eff_bind_Err in Hp as [Hp|(resp&s2&H2&Hp)]; [eapply keeps_run; [|exact Hp]; by apply keeps_call|].
    rewrite <-(keeps_run st_records _ _ _ _ (keeps_call _ _ _) H2).
    apply eff_bind_Err in Hp as [Hp|(env&s3&H3&Hp)]; [eapply keeps_run; [|exact Hp]; by apply keeps_call|].
    rewrite <-(keeps_run st_records _ _ _ _ (keeps_call _ _ _) H3).
    destruct (cf_success env); [|by injection Hp as _ <-].
    apply eff_bind_Err in Hp as [Hp|(rec&s4&_&Hp)]; [by injection Hp as _ <-|done].
Qed.

Lemma install_response_fail m a r s e s' :
  install_response m a r s = (Err e, s') → served s' = served s ∧ st_records s' = st_records s.
Proof.
  destruct r as [tok ka|d g|d n v]; simpl; [done|..].
  - intros [Hc|(ck&s1&_&Hi)]%eff_bind_Err; [|done].
    split; (eapply keeps_run; [|exact Hc]); by apply tls_alpn_cert_keeps; apply _.
  - intros [Hp|([]&s1&_&Hi)]%eff_bind_Err; [|done].
    split; [|by eapply publish_fail_records]. eapply keeps_run; [|exact Hp]. apply dns_publish_keeps.
Qed.

Lemma prepare_authorization_fail m s0 a h s e s' :
  placed m s0 a s → prepare_authorization m a h s = (Err e, s') → ∃ a', placed m s0 a' s'.
Proof.
  assert (∀ a s s' E A (r : result AcmeError A) (err : E → AcmeError) op,
    placed m s0 a s → call err op s = (r, s') → placed m s0 a s') as Hcall.
  { intros a1 s1 s2 E A r err op Hpl Hc.
    eapply placed_frame; [done|..]; eapply keeps_run; try exact Hc; by apply keeps_call. }
  intros Hpl [Hf|(authz&s1&Hf&Hp)]%eff_bind_Err; [by exists a; eapply Hcall|].
  assert (placed m s0 a s1) as Hpl1 by by eapply Hcall.
  destruct (authz_status authz); try (injection Hp as _ <-; by exists a).
  apply eff_bind_Err in Hp as [Hp|(c&s2&[= _ <-]&Hp)]; [injection Hp as _ <-; by exists a|].
  apply eff_bind_Err in Hp as [Hp|(a2&s3&Hi&Hp)].
  { apply install_response_fail in Hp as [H1 H2]. exists a. by eapply placed_frame. }
  apply install_response_placed with (s0 := s0) in Hi; [|done].
  apply eff_bind_Err in Hp as [Hp|(now&s4&[= _ <-]&Hp)]; [done|].
  apply eff_bind_Err in Hp as [Hp|([]&s5&_&Hp)]; [|done]. exists a2. by eapply Hcall.
Qed.

Lemma prepare_all_fail m s0 hs a s e s' :
  placed m s0 a s → prepare_all m a hs s = (Err e, s') → ∃ a', placed m s0 a' s'.
Proof.
  revert a s. induction hs as [|h hs IH]; intros a s Hpl Hp; [done|].
  apply eff_bind_Err in Hp as [Hp|(a1&s1&Ha&Hp)]; [by eapply prepare_authorization_fail|].
  eapply IH; [|exact Hp]. by eapply prepare_authorization_placed.
Qed.

(** An error of the set-up leaves in place what had been published before. *)
Lemma issue_setup_fail m s e s1 :
  issue_setup m s = (Err e, s1) → ∃ a, placed m s a s1.
Proof.
  assert (∀ s2 r, account m s = (r, s2) → placed m s no_active s2) as Ha.
  { intros s2 r Hr. eapply placed_frame; [apply placed_none|..];
      (eapply keeps_run; [|exact Hr]); by apply account_keeps; apply _. }
  intros [Hs|(acct&s2&H1&Hs)]%eff_bind_Err; [eexists; by eapply Ha|].
  assert (∀ s3 r, call AcmeError_Acme (new_order acct (acme_domains (mgr_cfg m))) s2 = (r, s3) →
    placed m s no_active s3) as Ho.
  { intros s3 r Hr. eapply placed_frame; [by eapply Ha|..];
      (eapply keeps_run; [|exact Hr]); by apply keeps_call. }
  apply eff_bind_Err in Hs as [Hs|(order&s3&H3&Hs)]; [eexists; by eapply Ho|].
  apply eff_bind_Err in Hs as [Hs|(a1&s4&_&Hs)]; [|done].
  eapply prepare_all_fail; [|exact Hs]. by eapply Ho.
Qed.

(** ** Teardown *)

(** The action cannot fail. *)
Definition succeeds (m : eff AcmeState AcmeError unit) : Prop := ∀ s, (m s).1 = Ok tt.

Lemma succeeds_bind (m : eff AcmeState AcmeError unit) {B} (k : unit → eff AcmeState AcmeError B) s :
  succeeds m → (m ≫= k) s = k tt (m s).2.
Proof. intros Hm. specialize (Hm s). cbv [mbind eff_bind]. destruct (m s) as [r s1]. by simplify_eq/=. Qed.

Lemma for_each_succeeds {A} (g : A → eff AcmeState AcmeError unit) l :
  (∀ x, succeeds (g x)) → succeeds (for_each g l).
Proof.
  intros Hg. induction l as [|x l IH]; [done|]. intros s. simpl. rewrite succeeds_bind by done.
  apply IH.
Qed.

Lemma for_each_erases `{Countable K} {V A} (view : AcmeState → gmap K V) (key : A → K)
    (g : A → eff AcmeState AcmeError unit) l s :
  (∀ x, succeeds (g x)) → (∀ x s, view (g x s).2 = delete (key x) (view s)) →
  erased (key <$> l) (view s) (view (for_each g l s).2).
Proof.
  intros Hs Hv. revert s. induction l as [|x l IH]; intros s k; [done|]. simpl.
  rewrite succeeds_bind by done. rewrite (IH (g x s).2 k), Hv.
  destruct (decide (key x = k)) as [->|Hne].
  - rewrite lookup_delete_eq. repeat case_decide; set_solver.
  - rewrite lookup_delete_ne by done. repeat case_decide; set_solver.
Qed.

Lemma run_hook_attempt c d n v : succeeds (attempt (run_hook c d n v) ≫= λ _, mret tt).
Proof. intros s. cbv [mbind eff_bind attempt]. by destruct (run_hook c d n v s). Qed.

Lemma dns_cleanup_succeeds p d n v : succeeds (dns_cleanup p d n v).
Proof.
  intros s. destruct p as [p|p]; simpl.
  - unfold manual_cleanup. destruct (manual_cleanup_command p); [apply run_hook_attempt|done].
  - unfold cloudflare_cleanup. cbv [mbind eff_bind gets modify attempt call_try].
    destruct (st_records s !! (n, v)); [|done].
    destruct (resolve_zone_id p n _) as [[z|e] s1]; [|done]. by destruct (cf_send _ _ _).
Qed.

(** A cleanup forgets the record, whatever Cloudflare answers. *)
Lemma dns_cleanup_records p d n v s :
  st_records (dns_cleanup p d n v s).2 =
  match p with
  | Provider_Manual _ => st_records s
  | Provider_Cloudflare _ => delete (n, v) (st_records s)
  end.
Proof.
  destruct p as [p|p]; simpl.
  - unfold manual_cleanup. assert (keeps st_records (manual_cleanup p d n v)) as Hk; [|apply Hk].
    unfold manual_cleanup. keeps_auto.
  - unfold cloudflare_cleanup. cbv [mbind eff_bind gets modify attempt call_try].
    destruct (st_records s !! (n, v)); [|done].
    pose proof (resolve_zone_id_keeps st_records p n
      (with_records (delete (n, v)) s)) as Hk.
    destruct (resolve_zone_id p n _) as [[z|e] s1]; [|done]. by destruct (cf_send _ _ _).
Qed.

Lemma teardown_run m a s :
  teardown m a s =
  for_each (E := AcmeError) (λ '(d, n, v), dns_cleanup (mgr_dns m) d n v) (active_dns a)
    (for_each alpn_remove (active_alpn a)
       (for_each tokens_remove (active_http a) s).2).2.
Proof. unfold teardown. rewrite !succeeds_bind; [done|by apply for_each_succeeds..]. Qed.

Lemma teardown_succeeds m a : succeeds (teardown m a).
Proof.
  intros s. rewrite teardown_run. apply for_each_succeeds. intros [[d n] v]. apply dns_cleanup_succeeds.
Qed.

Lemma cleanups_keep m l :
  keeps served (for_each (λ '(d, n, v), dns_cleanup (mgr_dns m) d n v) l).
Proof. apply keeps_for_each. intros [[d n] v]. apply dns_cleanup_keeps. Qed.

Lemma cleanups_keep_tokens m l :
  keeps st_tokens (for_each (λ '(d, n, v), dns_cleanup (mgr_dns m) d n v) l).
Proof. apply (keeps_mono served snd), cleanups_keep. Qed.

Lemma cleanups_keep_challenges m l :
  keeps st_challenges (for_each (λ '(d, n, v), dns_cleanup (mgr_dns m) d n v) l).
Proof. apply (keeps_mono served (λ p, challenges p.1)), cleanups_keep. Qed.

Lemma teardown_current m a : keeps st_current (teardown m a).
Proof.
  unfold teardown. repeat (apply keeps_bind; [apply keeps_for_each; by intros|intros _]).
  apply (keeps_mono served (λ p, current p.1)), cleanups_keep.
Qed.

Lemma teardown_tokens m a s :
  erased (active_http a) (st_tokens s) (st_tokens (teardown m a s).2).
Proof.
  rewrite teardown_run.
  rewrite cleanups_keep_tokens.
  rewrite (keeps_for_each st_tokens _ (active_alpn a)) by done.
  rewrite <-(list_fmap_id (active_http a)) at 1. by apply (for_each_erases st_tokens id).
Qed.

Lemma teardown_challenges m a s :
  erased (active_alpn a) (st_challenges s) (st_challenges (teardown m a s).2).
Proof.
  rewrite teardown_run.
  rewrite cleanups_keep_challenges.
  rewrite <-(keeps_for_each st_challenges tokens_remove (active_http a)) by done.
  rewrite <-(list_fmap_id (active_alpn a)) at 1. by apply (for_each_erases st_challenges id).
Qed.

Lemma teardown_records m a s :
  erased (record_keys m a) (st_records s) (st_records (teardown m a s).2).
Proof.
  rewrite teardown_run.
  set (s1 := (for_each _ (active_alpn a) _).2).
  assert (st_records s1 = st_records s) as <-.
  { unfold s1. rewrite (keeps_for_each st_records _ (active_alpn a)) by done.
    by apply (keeps_for_each st_records). }
  unfold record_keys. destruct (mgr_dns m) as [p|p].
  - intros k. simpl. rewrite (keeps_for_each st_records); [done|].
    intros [[d n] v] s2. apply (dns_cleanup_records (Provider_Manual p)).
  - apply for_each_erases.
    + intros [[d n] v]. apply (dns_cleanup_succeeds (Provider_Cloudflare p)).
    + intros [[d n] v] s2. apply (dns_cleanup_records (Provider_Cloudflare p)).
Qed.

(** ** Issuance *)

Lemma issue_run m s :
  issue m s =
  match issue_setup m s with
  | (Err e, s1) => (Err e, s1)
  | (Ok (order, a), s1) =>
      let '(r, s2) := finalize_and_fetch order s1 in
      match r with
      | Err e => (Err e, (teardown m a s2).2)
      | Ok issued =>
          match install_issued m issued (teardown m a s2).2 with
          | (Ok _, s4) => (Ok issued, s4)
          | (Err e, s4) => (Err e, s4)
          end
      end
  end.
Proof.
  unfold issue. cbv [mbind eff_bind attempt lift mret eff_ret].
  destruct (issue_setup m s) as [[[o a]|e] s1]; [|done].
  destruct (finalize_and_fetch o s1) as [r s2].
  pose proof (teardown_succeeds m a s2) as Ht.
  destruct (teardown m a s2) as [t s3]. simpl in Ht. subst t. simpl.
  destruct r as [issued|e]; [|done]. by destruct (install_issued m issued s3) as [[[]|e] s4].
Qed.

Lemma install_issued_run m issued s :
  install_issued m issued s =
  match persist_issued m issued s with
  | (Err e, s1) => (Err e, s1)
  | (Ok _, s1) =>
      match into_certified_key issued with
      | Ok ck => (Ok tt, with_resolver (λ r, resolver_store r ck) s1)
      | Err e => (Err e, s1)
      end
  end.
Proof.
  unfold install_issued. cbv [mbind eff_bind lift modify].
  destruct (persist_issued m issued s) as [[[]|e] s1]; [|done].
  by destruct (into_certified_key issued).
Qed.

Lemma persist_issued_keeps {X} (f : AcmeState → X) `{!EnvFree f} m issued :
  keeps f (persist_issued m issued).
Proof. unfold persist_issued, cache_ensure_dir, cache_store_cert, cache_write. keeps_auto. Qed.

(** Installing changes only the certificate in force. *)
Lemma install_issued_frame m issued :
  keeps (λ s, (st_tokens s, st_challenges s, st_records s)) (install_issued m issued).
Proof.
  unfold install_issued. apply keeps_bind; [|intros _; keeps_auto].
  apply persist_issued_keeps. done.
Qed.

Lemma install_issued_current m issued s r s' :
  install_issued m issued s = (r, s') →
  match r with
  | Ok _ => ∃ ck, into_certified_key issued = Ok ck ∧ st_current s' = Some ck
  | Err _ => st_current s' = st_current s
  end.
Proof.
  rewrite install_issued_run. pose proof (persist_issued_keeps st_current m issued s) as Hk.
  destruct (persist_issued m issued s) as [[[]|e] s1]; simpl in Hk.
  - destruct (into_certified_key issued) as [ck|e]; intros [= <- <-]; [by exists ck|done].
  - by intros [= <- <-].
Qed.

Lemma issue_setup_current m : keeps st_current (issue_setup m).
Proof.
  unfold issue_setup. apply keeps_bind; [by apply account_keeps; apply _|intros acct].
  apply keeps_bind; [keeps_auto|intros order]. apply keeps_bind; [|keeps_auto].
  generalize no_active as a. induction (order_authorizations order) as [|h hs IH];
    intros a; simpl; [keeps_auto|]. apply keeps_bind; [|auto].
  unfold prepare_authorization. keeps_auto. destruct (challenge_response _ _ _ _) as [| |d n v]; simpl.
  - unfold tokens_insert. keeps_auto.
  - unfold tls_alpn_cert. keeps_auto.
  - apply keeps_bind; [|keeps_auto]. apply (keeps_mono served (λ p, current p.1)), dns_publish_keeps.
Qed.

Lemma issue_current m s r s' :
  issue m s = (r, s') →
  match r with
  | Ok issued => ∃ ck, into_certified_key issued = Ok ck ∧ st_current s' = Some ck
  | Err _ => st_current s' = st_current s
  end.
Proof.
  rewrite issue_run. pose proof (issue_setup_current m s) as H1.
  destruct (issue_setup m s) as [[[o a]|e] s1]; simpl in H1; [|by intros [= <- <-]].
  pose proof (finalize_keeps st_current o s1) as H2.
  destruct (finalize_and_fetch o s1) as [r2 s2]; simpl in H2.
  pose proof (teardown_current m a s2) as H3. destruct r2 as [issued|e]; [|intros [= <- <-]; congruence].
  destruct (install_issued m issued (teardown m a s2).2) as [r4 s4] eqn:Hi. apply install_issued_current in Hi.
  destruct r4; intros [= <- <-]; [done|congruence].
Qed.

Lemma issue_erases m s o a s1 :
  issue_setup m s = (Ok (o, a), s1) →
  let s' := (issue m s).2 in
  erased (active_http a) (st_tokens s) (st_tokens s') ∧
  erased (active_alpn a) (st_challenges s) (st_challenges s') ∧
  erased (record_keys m a) (st_records s) (st_records s').
Proof.
  intros Hs. cbv zeta. rewrite issue_run, Hs.
  pose proof (finalize_keeps served o s1) as Hf1.
  pose proof (finalize_keeps st_records o s1) as Hf2.
  destruct (finalize_and_fetch o s1) as [r2 s2]; simpl in Hf1, Hf2.
  apply issue_setup_placed in Hs.
  destruct (placed_frame _ _ _ _ _ Hs Hf1 Hf2) as [_ Ht Hc Hr].
  assert (erased (active_http a) (st_tokens s) (st_tokens (teardown m a s2).2) ∧
          erased (active_alpn a) (st_challenges s) (st_challenges (teardown m a s2).2) ∧
          erased (record_keys m a) (st_records s) (st_records (teardown m a s2).2)) as He.
  { split_and!; eapply overlay_erased; eauto using teardown_tokens, teardown_challenges,
      teardown_records. }
  destruct r2 as [issued|e]; [|done].
  pose proof (install_issued_frame m issued (teardown m a s2).2) as [= H1 H2 H3].
  destruct (install_issued m issued _) as [[[]|e] s4]; simpl in *; by rewrite H1, H2, H3.
Qed.

(** What the cache holds, given that a file holds what was written to it last
    and that writing one file of a directory leaves the others alone. *)
Class FsLaws := {
  fs_write_read path contents e e' :
    fs_write path contents e = (Ok tt, e') → fs_read_to_string path e' = Some contents;
  fs_write_sibling dir name name' contents e r e' :
    name ≠ name' → fs_write (path_join dir name) contents e = (r, e') →
    fs_read_to_string (path_join dir name') e' = fs_read_to_string (path_join dir name') e;
}.

Lemma call_Ok {E A} (err : E → AcmeError) (op : acme_env → result E A * acme_env) s a s' :
  call err op s = (Ok a, s') → op (st_env s) = (Ok a, st_env s').
Proof. unfold call. destruct (op (st_env s)) as [[b|e] e']; intros [= <- <-]; done. Qed.

Lemma cache_store_load `{!FsLaws} dir c s s' :
  cache_store_cert dir c s = (Ok tt, s') → cache_load_cert dir (st_env s') = Some c.
Proof.
  intros ([]&s1&H1%call_Ok&H2%call_Ok)%eff_bind_Ok. unfold cache_load_cert, cache_read.
  rewrite (fs_write_sibling dir KEY_FILE CERT_FILE _ _ _ _ ltac:(done) H2).
  apply fs_write_read in H1, H2. rewrite H1. simpl. rewrite H2. by destruct c.
Qed.

Lemma issue_cached `{!FsLaws} m s issued s' dir :
  issue m s = (Ok issued, s') → mgr_cache m = Some dir →
  cache_load_cert dir (st_env s') = Some issued.
Proof.
  rewrite issue_run. destruct (issue_setup m s) as [[[o a]|e] s1]; [|done].
  destruct (finalize_and_fetch o s1) as [[i|e] s2]; [|done].
  destruct (install_issued m i _) as [[[]|e] s4] eqn:Hi; [|done].
  intros [= -> ->] Hdir. rewrite install_issued_run in Hi. unfold persist_issued in Hi.
  rewrite Hdir in Hi.
  destruct ((_ ← cache_ensure_dir dir; cache_store_cert dir issued) _) as [[[]|e] s5] eqn:Hp; [|done].
  destruct (into_certified_key issued); [|done]. injection Hi as <-.
  apply eff_bind_Ok in Hp as ([]&s6&_&Hp). by apply cache_store_load in Hp.
Qed.

(** ** Cached certificates *)

Lemma load_cached_true m s s' :
  load_cached m s = (Ok true, s') ↔
  ∃ dir c ck, mgr_cache m = Some dir ∧ cache_load_cert dir (st_env s) = Some c ∧
    needs_renewal c (st_env s) = false ∧ into_certified_key c = Ok ck ∧
    s' = with_resolver (λ r, resolver_store r ck) s.
Proof.
  unfold load_cached. destruct (mgr_cache m) as [dir|]; [|absurd_iff].
  cbv [mbind eff_bind gets modify mret eff_ret].
  destruct (cache_load_cert dir (st_env s)) as [c|] eqn:Hc; [|absurd_iff].
  destruct (needs_renewal c (st_env s)) eqn:Hn; [absurd_iff|].
  destruct (into_certified_key c) as [ck|e] eqn:Hk; [|absurd_iff].
  split; [intros [= <-]; eauto 10|]. intros (?&c'&ck'&[= <-]&?&?&?&->).
  assert (c' = c) as -> by congruence. by assert (ck' = ck) as -> by congruence.
Qed.

Lemma load_cached_false m s s' : load_cached m s = (Ok false, s') → s' = s.
Proof.
  unfold load_cached. destruct (mgr_cache m) as [dir|]; [|by intros [= <-]].
  cbv [mbind eff_bind gets modify mret eff_ret].
  destruct (cache_load_cert dir (st_env s)); [|by intros [= <-]].
  destruct (needs_renewal _ _); [by intros [= <-]|].
  by destruct (into_certified_key _); intros [= <-].
Qed.

Lemma needs_renewal_false c env :
  needs_renewal c env = false ↔ ∃ secs, time_to_expiry c env = Some secs ∧ (RENEW_BEFORE < secs)%Z.
Proof.
  unfold needs_renewal. destruct (time_to_expiry c env) as [t|]; [|naive_solver].
  rewrite Z.leb_gt. naive_solver.
Qed.

(** A successful issuance leaves no response behind when none was there. *)
Lemma issue_clean m s issued s' :
  issue m s = (Ok issued, s') →
  st_tokens s = ∅ → st_challenges s = ∅ → st_records s = ∅ →
  st_tokens s' = ∅ ∧ st_challenges s' = ∅ ∧ st_records s' = ∅.
Proof.
  intros Hi Ht Hc Hr. pose proof Hi as Hi2. rewrite issue_run in Hi2.
  destruct (issue_setup m s) as [[[o a]|e] s1] eqn:Hs; [|done].
  apply issue_erases in Hs. rewrite Hi, Ht, Hc, Hr in Hs. simpl in Hs.
  destruct Hs as (?%erased_empty&?%erased_empty&?%erased_empty). done.
Qed.

(** ** Renewal *)

Lemma renewal_tick_current m s :
  st_current (renewal_tick m s) = st_current s ∨
  ∃ issued ck, into_certified_key issued = Ok ck ∧ st_current (renewal_tick m s) = Some ck.
Proof.
  unfold renewal_tick. set (s1 := with_env _ s). destruct (renewal_due m s1); [|by left].
  destruct (issue m s1) as [r s'] eqn:Hi. apply issue_current in Hi. simpl.
  destruct r as [issued|e]; [right; naive_solver|by left].
Qed.

(** The cache holds a certificate with more than 30 days left. *)
Definition cache_fresh (m : AcmeManager) (env : acme_env) : Prop :=
  ∃ dir c secs, mgr_cache m = Some dir ∧ cache_load_cert dir env = Some c ∧
    time_to_expiry c env = Some secs ∧ (RENEW_BEFORE < secs)%Z.

Lemma renewal_due_false m s :
  is_Some (st_current s) →
  renewal_due m s = false ↔ cache_fresh m (st_env s).
Proof.
  intros [ck Hck]. unfold renewal_due. unfold st_current in Hck. rewrite Hck.
  unfold cert_needs_renewal, cache_fresh. destruct (mgr_cache m) as [dir|]; simpl; [|absurd_iff].
  destruct (cache_load_cert dir (st_env s)) as [c|] eqn:Hc; [|absurd_iff].
  rewrite needs_renewal_false. split; [intros (t&?&?); eauto 10|].
  intros (?&?&t&?&?&?&?). simplify_eq. eauto.
Qed.

(** ** Startup *)

Lemma setup_acme_clean {E} (w : World E) cfg addr env m tc s :
  setup_acme w cfg addr env = (Ok (m, tc), s) →
  is_Some (st_current s) ∧ st_tokens s = ∅ ∧ st_challenges s = ∅ ∧ st_records s = ∅ ∧
  tc = config_with_resolver Resolver_Acme
         (match acme_challenge cfg with TlsAlpn01 => true | _ => false end).
Proof.
  intros (m0&s0&[= _ <-]&Hs)%eff_bind_Ok. apply eff_bind_Ok in Hs as ([]&s1&H1&Hs).
  assert (∃ e, s1 = acme_init e) as [e ->].
  { destruct (acme_challenge cfg); injection H1 as <-; by eexists. }
  apply eff_bind_Ok in Hs as (cached&s2&Hl&Hs). apply eff_bind_Ok in Hs as ([]&s3&Hi&[= _ <- <-]).
  destruct cached.
  - injection Hi as <-. apply load_cached_true in Hl as (?&?&ck&_&_&_&_&->). by eauto.
  - apply load_cached_false in Hl as ->. apply eff_bind_Ok in Hi as (issued&s4&Hi&[= <-]).
    pose proof (issue_current _ _ _ _ Hi) as (ck&_&->).
    apply issue_clean in Hi as (?&?&?); [|done..]. by eauto.
Qed.

(** ** Properties *)

(** What a hook is told. *)
Definition hook_env (domain record_name value : string) : list (string * string) :=
  [("ACME_DNS_DOMAIN", domain); ("ACME_DNS_NAME", record_name); ("ACME_DNS_VALUE", value)].

(** The world of [s1] is the one after the TXT record was published from [s0]
    and the propagation time has passed.  The manual provider: the hook, if one
    is configured, was run with the record and reported success.  Cloudflare:
    a POST of the record to the zone of its name was answered with success, and
    the id in that answer is remembered. *)
Definition published (p : DnsProvider) (domain record_name value : string) (s0 s1 : AcmeState) : Prop :=
  match p with
  | Provider_Manual q =>
      ∃ e, st_env s1 = sleep (manual_propagation q) e ∧
        match manual_hook_command q with
        | Some cmd => ∃ status, sh cmd (hook_env domain record_name value) (st_env s0) = (Ok status, e) ∧
                        exit_success status = true
        | None => e = st_env s0
        end
  | Provider_Cloudflare c =>
      ∃ zone s2 resp e1 envelope e2 record,
        resolve_zone_id c record_name s0 = (Ok zone, s2) ∧
        cf_send (cf_token c) (Cf_Post (dns_records_url c zone) "TXT" record_name value 60) (st_env s2) =
          (Ok resp, e1) ∧
        record_json resp e1 = (Ok envelope, e2) ∧ cf_success envelope = true ∧
        cf_result envelope = Some record ∧
        st_records s1 = <[(record_name, value) := cf_record_id record]> (st_records s0) ∧
        st_env s1 = sleep (cf_propagation c) e2
  end.

(** In [s1], which the set-up of the response reached from [s0], the response
    is in place: the responder serves the key authorization; the resolver gives
    a validation handshake a certificate over the digest; the DNS record was
    published. *)
Definition answers (m : AcmeManager) (r : ChallengeResponse) (s0 s1 : AcmeState) : Prop :=
  match r with
  | Resp_Http01 token key_authorization =>
      serve_token (st_tokens s1) token = (200%Z, key_authorization)
  | Resp_TlsAlpn01 domain digest =>
      ∃ ck params kp cert e e',
        acme_resolve (st_resolver s1)
          (mkClientHello (Some [ACME_TLS_ALPN_NAME]) (Some domain)) = Some ck ∧
        CertificateParams_new [domain] = Ok params ∧
        self_signed (push_acme_identifier digest params) kp e = (Ok cert, e') ∧
        ck_certs ck = [cert]
  | Resp_Dns01 domain record_name value => published (mgr_dns m) domain record_name value s0 s1
  end.

Lemma run_hook_Ok c d n v s s' :
  run_hook c d n v s = (Ok tt, s') →
  ∃ status, sh c (hook_env d n v) (st_env s) = (Ok status, st_env s') ∧ exit_success status = true.
Proof.
  intros (status&s1&Hs%call_Ok&Hx)%eff_bind_Ok. exists status.
  destruct (exit_success status); [by injection Hx as <-|done].
Qed.

Lemma dns_publish_Ok p d n v s s' :
  dns_publish p d n v s = (Ok tt, s') → published p d n v s s'.
Proof.
  destruct p as [p|p]; simpl.
  - intros ([]&s1&Hh&[= <-])%eff_bind_Ok. exists (st_env s1). split; [done|].
    destruct (manual_hook_command p); [by apply run_hook_Ok in Hh|by injection Hh as <-].
  - intros (z&s1&Hz&Hp)%eff_bind_Ok. apply eff_bind_Ok in Hp as (resp&s2&Hs&Hp).
    apply eff_bind_Ok in Hp as (env&s3&He&Hp).
    assert (st_records s3 = st_records s) as Hrec.
    { rewrite (keeps_run st_records _ _ _ _ (keeps_call _ _ _) He).
      rewrite (keeps_run st_records _ _ _ _ (keeps_call _ _ _) Hs).
      eapply (keeps_run st_records); [|exact Hz]. by apply resolve_zone_id_keeps; apply _. }
    destruct (cf_success env) eqn:Hok; [|done].
    apply eff_bind_Ok in Hp as (rec&s4&[= Hr%ok_or_Ok <-]&[= <-]).
    apply call_Ok in Hs, He. exists z, s1, resp, (st_env s2), env, (st_env s3), rec.
    simpl. rewrite Hrec. done.
Qed.

Lemma tls_alpn_cert_Ok domain digest s ck s' :
  tls_alpn_cert domain digest s = (Ok ck, s') →
  ∃ params kp cert e e',
    CertificateParams_new [domain] = Ok params ∧
    self_signed (push_acme_identifier digest params) kp e = (Ok cert, e') ∧
    ck_certs ck = [cert].
Proof.
  intros (kp&s1&_&Hk)%eff_bind_Ok. apply eff_bind_Ok in Hk as (ps&s2&[= Hp <-]&Hk).
  apply eff_bind_Ok in Hk as (cert&s3&Hc%call_Ok&Hk). apply eff_bind_Ok in Hk as (key&s4&_&Hk).
  apply eff_bind_Ok in Hk as (sk&s5&_&[= <- _]).
  apply map_err_Ok in Hp. naive_solver.
Qed.

Lemma install_response_answers m a r s a' s' :
  install_response m a r s = (Ok a', s') → answers m r s s'.
Proof.
  destruct r as [tok ka|d g|d n v]; simpl.
  - intros [= <- <-]. unfold serve_token, tokens_get. simpl. by rewrite lookup_insert_eq.
  - intros (ck&s1&Hck&Hi)%eff_bind_Ok. injection Hi as <- <-.
    apply tls_alpn_cert_Ok in Hck as (ps&kp&cert&e&e'&?&?&?). exists ck, ps, kp, cert, e, e'.
    split_and!; [|done..]. unfold acme_resolve. simpl. by rewrite lookup_insert_eq.
  - intros ([]&s1&Hp&Hi)%eff_bind_Ok. injection Hi as <- <-. by apply dns_publish_Ok in Hp.
Qed.

(** What a successful iteration did. *)
Lemma prepare_authorization_Ok m a h s a' s' :
  prepare_authorization m a h s = (Ok a', s') →
  ∃ authz e1, fetch_authorization h (st_env s) = (Ok authz, e1) ∧
  (authz_status authz = Authz_Valid ∧ a' = a ∧ s' = with_env e1 s ∨
   authz_status authz = Authz_Pending ∧
   ∃ c s1, authz_challenge authz (acme_challenge_type (acme_challenge (mgr_cfg m))) = Some c ∧
     answers m (challenge_response (acme_challenge (mgr_cfg m)) (authz_identifier authz)
                  (chal_token c) (chal_key_authorization c)) (with_env e1 s) s1 ∧
     set_ready (chal_ref c) (served s1) (st_env s1) = (Ok tt, st_env s')).
Proof.
  intros Hprep. apply eff_bind_Ok in Hprep as (authz&s1&Hf&Hp).
  assert (s1 = with_env (st_env s1) s) as Hs1.
  { unfold call in Hf. destruct (fetch_authorization h (st_env s)). by injection Hf as _ <-. }
  apply call_Ok in Hf. exists authz, (st_env s1). split; [done|]. rewrite Hs1 in Hp.
  destruct (authz_status authz); try done; [right|left; by injection Hp as <- <-].
  split; [done|]. apply eff_bind_Ok in Hp as (c&s2&[= Hc%ok_or_Ok <-]&Hp).
  apply eff_bind_Ok in Hp as (a2&s3&Hi%install_response_answers&Hp).
  apply eff_bind_Ok in Hp as (now&s4&[= <- <-]&Hp).
  apply eff_bind_Ok in Hp as ([]&s5&Hr%call_Ok&Hp). injection Hp as _ <-.
  exists c, s3. done.
Qed.

(** C28: the authority is told that a challenge is ready only when its
    response is in place: an iteration that succeeds either finds the
    authorization already valid and does nothing, or calls [set_ready] for the
    challenge of the configured type in a state that answers it.  For HTTP-01
    the responder serves the key authorization; for DNS-01 the record was
    published through the provider (the configured hook was run with it and
    reported success, or Cloudflare confirmed its creation) and the propagation
    time has passed; for TLS-ALPN-01 the resolver holds the validation
    certificate over the digest, which a listener that uses the resolver
    presents (during the first issuance none is bound yet). *)
Theorem ready_after_response m a h s a' s'
    (Hprep : prepare_authorization m a h s = (Ok a', s')) :
  ∃ authz e1, fetch_authorization h (st_env s) = (Ok authz, e1) ∧
  (authz_status authz = Authz_Valid ∧ a' = a ∧ s' = with_env e1 s ∨
   authz_status authz = Authz_Pending ∧
   ∃ c s1, authz_challenge authz (acme_challenge_type (acme_challenge (mgr_cfg m))) = Some c ∧
     answers m (challenge_response (acme_challenge (mgr_cfg m)) (authz_identifier authz)
                  (chal_token c) (chal_key_authorization c)) (with_env e1 s) s1 ∧
     set_ready (chal_ref c) (served s1) (st_env s1) = (Ok tt, st_env s')).
Proof. by apply prepare_authorization_Ok. Qed.

(** The cleanup of one DNS record, from [s] to [s1]: the manual provider runs
    its cleanup hook, if one is configured, with the record; Cloudflare sends
    the DELETE of the remembered id, if the zone can be resolved. *)
Definition cleaned_one (p : DnsProvider) (domain record_name value : string) (s s1 : AcmeState) : Prop :=
  match p with
  | Provider_Manual q =>
      match manual_cleanup_command q with
      | Some cmd => ∃ r, sh cmd (hook_env domain record_name value) (st_env s) = (r, st_env s1)
      | None => st_env s1 = st_env s
      end
  | Provider_Cloudflare c =>
      match st_records s !! (record_name, value) with
      | Some id =>
          ∃ zone s2, resolve_zone_id c record_name (with_records (delete (record_name, value)) s) =
            (zone, s2) ∧
          match zone with
          | Ok z => ∃ r, cf_send (cf_token c) (Cf_Delete (dns_records_url c z +:+ "/" +:+ id)) (st_env s2) =
                      (r, st_env s1)
          | Err _ => st_env s1 = st_env s2
          end
      | None => st_env s1 = st_env s
      end
  end.

(** The cleanups of several, in their order. *)
Inductive cleaned (p : DnsProvider) : list (string * string * string) → AcmeState → AcmeState → Prop :=
| cleaned_nil s : cleaned p [] s s
| cleaned_cons d n v l s s1 s2 :
    cleaned_one p d n v s s1 → cleaned p l s1 s2 → cleaned p ((d, n, v) :: l) s s2.

Lemma dns_cleanup_cleaned p d n v s : cleaned_one p d n v s (dns_cleanup p d n v s).2.
Proof.
  destruct p as [p|p]; simpl.
  - unfold manual_cleanup. destruct (manual_cleanup_command p) as [cmd|]; [|done].
    cbv [mbind eff_bind attempt run_hook call]. unfold hook_env.
    destruct (sh cmd _ _) as [[status|e] e']; simpl; [|by eexists].
    destruct (exit_success status); by eexists.
  - unfold cloudflare_cleanup. cbv [mbind eff_bind gets modify attempt call_try mret eff_ret].
    destruct (st_records s !! (n, v)) as [id|]; [|done].
    destruct (resolve_zone_id p n _) as [[z|e] s2] eqn:Hz; simpl; [|by exists (Err e), s2].
    destruct (cf_send _ _ _) as [r e'] eqn:Hc. exists (Ok z), s2. split; [done|]. by exists r.
Qed.

Lemma cleanups_cleaned p l s :
  cleaned p l s (for_each (λ '(d, n, v), dns_cleanup p d n v) l s).2.
Proof.
  revert s. induction l as [|[[d n] v] l IH]; intros s; [constructor|]. simpl.
  rewrite succeeds_bind by apply dns_cleanup_succeeds.
  econstructor; [apply dns_cleanup_cleaned|apply IH].
Qed.


(** C26: the outcome of [issue]: an error leaves the certificate in force
    untouched; success puts the issued certificate in force and, with a cache
    directory, in the cache, from which a process that restarts at that moment
    serves the same certificate if it has more than 30 days left. *)
Theorem issue_outcome `{!FsLaws} m s :
  let '(r, s') := issue m s in
  match r with
  | Err _ => st_current s' = st_current s
  | Ok issued =>
      ∃ ck, into_certified_key issued = Ok ck ∧ st_current s' = Some ck ∧
      ∀ dir secs, mgr_cache m = Some dir →
        time_to_expiry issued (st_env s') = Some secs → (RENEW_BEFORE < secs)%Z →
        load_cached m (acme_init (st_env s')) =
        (Ok true, mkAcmeState (mkAcmeResolver (Some ck) ∅) ∅ ∅ ∅ (st_env s'))
  end.
Proof.
  destruct (issue m s) as [r s'] eqn:Hi. pose proof (issue_current _ _ _ _ Hi) as Hc.
  destruct r as [issued|e]; [|done]. destruct Hc as (ck&Hk&Hc). exists ck.
  split_and!; [done..|]. intros dir secs Hdir Ht Hb. apply load_cached_true.
  exists dir, issued, ck. split_and!; try done.
  - by eapply issue_cached in Hi.
  - apply needs_renewal_false. eauto.
Qed.

(** C30: the renewal loop: once a certificate is in force there is one after
    any number of turns, the first or one that was issued since; a turn
    contacts the authority exactly when the cached certificate is missing,
    unreadable or within 30 days of its expiry. *)
Theorem renewal_keeps_serving m s n (Hcur : is_Some (st_current s)) :
  let s' := Nat.iter n (renewal_tick m) s in
  let s1 := with_env (sleep RENEW_CHECK_INTERVAL (st_env s')) s' in
  is_Some (st_current s') ∧
  (st_current s' = st_current s ∨
   ∃ issued ck, into_certified_key issued = Ok ck ∧ st_current s' = Some ck) ∧
  (cache_fresh m (st_env s1) → renewal_tick m s' = s1) ∧
  (¬ cache_fresh m (st_env s1) → renewal_tick m s' = (issue m s1).2).
Proof.
  cbv zeta. set (s' := Nat.iter n (renewal_tick m) s).
  assert (is_Some (st_current s') ∧
    (st_current s' = st_current s ∨
     ∃ issued ck, into_certified_key issued = Ok ck ∧ st_current s' = Some ck)) as [Hs' Hor].
  { subst s'. induction n as [|n IH]; [by auto|]. destruct IH as [IH1 IH2]. simpl.
    pose proof (renewal_tick_current m (Nat.iter n (renewal_tick m) s)) as [->|Hi]; [done|].
    split; [|by right]. destruct Hi as (?&ck&_&->). eauto. }
  split_and!; [done..| |]; intros Hf; unfold renewal_tick; cbv zeta;
    set (s1 := with_env _ s') in *; pose proof (renewal_due_false m s1 Hs') as Hd;
    destruct (renewal_due m s1); tauto || naive_solver.
Qed.

(** A process that starts with automatic certificates has one: when
    [setup_acme] returns, every ordinary handshake gets a certificate and no
    validation handshake does, no challenge response is left, and the
    listener offers [acme-tls/1] exactly for TLS-ALPN-01. *)
Theorem setup_acme_certified {E} (w : World E) cfg addr env m tc s
    (Hsetup : setup_acme w cfg addr env = (Ok (m, tc), s)) :
  (∀ hello, is_Some (acme_resolve (st_resolver s) hello) ↔ is_acme_alpn hello = false) ∧
  st_tokens s = ∅ ∧ st_records s = ∅ ∧
  (ACME_TLS_ALPN_NAME ∈ tsc_alpn tc ↔ acme_challenge cfg = TlsAlpn01).
Proof.
  apply setup_acme_clean in Hsetup as (Hc&Ht&Hch&Hr&->). split_and!; [|done..|].
  - intros hello. unfold acme_resolve. unfold st_current, st_challenges in Hc, Hch.
    destruct (is_acme_alpn hello); [|tauto]. destruct (ch_server_name hello);
      rewrite ?Hch, ?lookup_empty; split; (done || by intros []).
  - simpl. destruct (acme_challenge cfg); simpl; rewrite !elem_of_cons, ?elem_of_nil; naive_solver.
Qed.

End spec.

Lemma path_join_inj dir n n' : path_join dir n = path_join dir n' → n = n'.
Proof.
  unfold path_join. destruct (is_empty dir); [done|].
  case_bool_decide; [rewrite !str_app_assoc|]; apply (inj (String.app _)).
Qed.

(** ** A concrete authority

    The authority below offers the authorizations of its list, checks at
    [set_ready] that the response is served over HTTP or in the resolver, and
    issues when every check succeeded.  A certificate lives for 90 days from
    the start of the clock. *)
Module AcmeToy.

Record Env := mkEnv {
  e_files : gmap string string;
  e_now : Z;
  e_authz : list (Authorization (string * string * string));
  e_valid : bool;
  e_key : string;
}.

Definition tls : TlsLib := {|
  tls_io_error := unit; rustls_error := unit;
  cert_der := list Z; key_der := list Z; signing_key := list Z;
  pemfile_certs l := Ok [l]; pemfile_private_key l := Ok (Some l);
  any_supported_type k := Ok k; keys_match _ _ := Keys_Match;
|}.
#[local] Existing Instance tls.

Definition checks (c : string * string * string) (now : AcmeResolver * gmap string string) : bool :=
  let '(domain, token, ka) := c in
  bool_decide (now.2 !! token = Some ka) ||
  match challenges now.1 !! domain with Some _ => true | None => false end.

Definition lib : AcmeLib := {|
  acme_env := Env; acme_error := unit; account_builder := unit; account_handle := unit;
  credentials := string; order_handle := list (Authorization (string * string * string));
  authz_handle := Authorization (string * string * string);
  challenge_handle := string * string * string;
  LetsEncrypt_production := "https://acme-v02.api.letsencrypt.org/directory";
  LetsEncrypt_staging := "https://acme-staging-v02.api.letsencrypt.org/directory";
  Account_builder e := (Ok tt, e);
  from_credentials _ _ e := (Ok tt, e);
  create_account _ _ url e := (Ok (tt, url), e);
  new_order _ _ e := (Ok (e_authz e), e);
  order_authorizations o := o;
  fetch_authorization h e := (Ok h, e);
  set_ready c now e :=
    (Ok tt, mkEnv (e_files e) (e_now e) (e_authz e) (e_valid e && checks c now) (e_key e));
  poll_ready _ _ e := (Ok (if e_valid e then Order_Ready else Order_Invalid), e);
  order_finalize _ e := (Ok (e_key e), e);
  poll_certificate _ e := (Ok "cert", e);
  json_error := unit; credentials_from_str s := Some s; credentials_to_string c := Ok c;
  rcgen_error := unit; key_pair := list Z; cert_params := list string * list Z;
  pki_pem_error := unit; x509_cert := list Z;
  KeyPair_generate e := (Ok [1%Z], e);
  CertificateParams_new names := Ok (names, []);
  push_acme_identifier digest p := (p.1, digest);
  self_signed p _ e := (Ok p.2, e);
  serialize_der kp := kp;
  PrivateKeyDer_try_from k := Ok k;
  load_private_key k := Ok k;
  pem_cert_iter l := [Ok l];
  pem_private_key l := Ok l;
  certified_from_der certs k :=
    if bool_decide (k = as_bytes "bad") then Err tt else Ok (mkCertifiedKey certs k);
  parse_x509 c := Some c;
  time_to_expiration _ e := Some (90 * 86400 - e_now e)%Z;
  reqwest_error := unit; http_response := unit;
  cf_send _ _ e := (Ok tt, e);
  zones_json _ e := (Ok (mkCfEnvelope true [] (Some [mkCfZone "zone"])), e);
  record_json _ e := (Ok (mkCfEnvelope true [] (Some (mkCfRecord "record"))), e);
  exit_status := bool; exit_success b := b;
  sh _ _ e := (Ok true, e);
  sleep d e := mkEnv (e_files e) (e_now e + d) (e_authz e) (e_valid e) (e_key e);
  create_dir_all _ e := (Ok tt, e);
  fs_read_to_string p e := e_files e !! p;
  fs_write p c e :=
    (Ok tt, mkEnv (<[p := c]> (e_files e)) (e_now e) (e_authz e) (e_valid e) (e_key e));
  listen_http01 _ e := e;
|}.
#[local] Existing Instance lib.

#[local] Instance laws : FsLaws.
Proof.
  split.
  - intros p c e e' [= <-]. apply lookup_insert_eq.
  - intros dir n n' c e r e' Hn [= _ <-]. apply lookup_insert_ne. by intros ?%path_join_inj.
Qed.

Definition authz (status : AuthorizationStatus) (domain token : string)
  : Authorization (string * string * string) :=
  mkAuthorization status domain
    (λ _, Some (mkChallenge (domain, token, token +:+ ".key") token
                  (mkKeyAuthorization (token +:+ ".key") [7%Z] "dns"))).

Definition cfg (challenge : AcmeChallenge) (cache : option string) : AcmeConfig :=
  mkAcmeConfig true ["a.example"] None challenge None false cache None AcmeDnsConfig_default.

Definition manager (challenge : AcmeChallenge) (cache : option string) : AcmeManager :=
  mkAcmeManager (cfg challenge cache)
    (Provider_Cloudflare (cf_new "token" None 60)) cache.

Definition start (key : string) (l : list (Authorization (string * string * string))) : AcmeState :=
  acme_init (mkEnv ∅ 0 l true key).

Definition offered : list (Authorization (string * string * string)) :=
  [authz Authz_Pending "a.example" "t1"; authz Authz_Valid "b.example" "t2";
   authz Authz_Pending "c.example" "t3"].

Definition issued_key : CertifiedKey := mkCertifiedKey [as_bytes "cert"] (as_bytes "key").

(** An early return leaves the responses published so far in place: the second
    authorization is invalid, the token of the first stays. *)
Example early_return_keeps_token :
  let '(r, s) := issue (manager Http01 None)
    (start "key" [authz Authz_Pending "a.example" "t1"; authz Authz_Invalid "b.example" "t2"]) in
  r = Err (AcmeError_Authorization "b.example" Authz_Invalid) ∧ st_tokens s !! "t1" = Some "t1.key".
Proof. split; reflexivity. Qed.

(** A certificate is cached before it is known to be usable: here the key is
    refused, nothing is installed, and the cache keeps renewal from trying
    again. *)
Example unusable_cache_blocks_renewal :
  let m := manager Http01 (Some "/var/acme") in
  let s0 := start "bad" [] in
  let s := (issue m s0).2 in
  is_ok (issue m s0).1 = false ∧ current (st_resolver s) = None ∧
  cert_needs_renewal m (st_env s) = false.
Proof. split_and!; reflexivity. Qed.

Lemma run_Ok {E A S} (p : result E A * S) a : p.1 = Ok a → p = (Ok a, p.2).
Proof. by destruct p; simpl; intros ->. Qed.

(** DNS-01 through hooks. *)
Definition hooked : AcmeManager :=
  mkAcmeManager (cfg Dns01 None) (Provider_Manual (mkManualDns (Some "publish") (Some "remove") 30)) None.

Lemma ready_after_response_witness :
  let h := authz Authz_Pending "a.example" "t1" in
  let r := ("a.example", "_acme-challenge.a.example", "dns") in
  ∃ s', prepare_authorization hooked no_active h (start "key" offered) = (Ok (mkActive [] [] [r]), s') ∧
    ∃ s1, answers hooked (Resp_Dns01 r.1.1 r.1.2 r.2) (start "key" offered) s1 ∧
      set_ready ("a.example", "t1", "t1.key") (served s1) (st_env s1) = (Ok tt, st_env s').
Proof.
  cbv zeta.
  assert (∃ s', prepare_authorization hooked no_active
            (authz Authz_Pending "a.example" "t1") (start "key" offered) =
          (Ok (mkActive [] [] [("a.example", "_acme-challenge.a.example", "dns")]), s')) as [s' Hp]
    by (eexists; apply run_Ok; reflexivity).
  exists s'. split; [exact Hp|]. destruct (ready_after_response _ _ _ _ _ _ Hp) as (az&e1&[= <- <-]&[[? _]|(_&c&s1&[= <-]&Ha&Hr)]); [done|].
  exists s1. split; [exact Ha|exact Hr].
Defined.


Lemma issue_outcome_witness :
  let m := manager Http01 (Some "/var/acme") in
  let s' := (issue m (start "key" offered)).2 in
  st_current s' = Some issued_key ∧
  load_cached m (acme_init (st_env s')) =
    (Ok true, mkAcmeState (mkAcmeResolver (Some issued_key) ∅) ∅ ∅ ∅ (st_env s')).
Proof.
  cbv zeta. pose proof (issue_outcome (manager Http01 (Some "/var/acme")) (start "key" offered)) as H.
  assert ((issue (manager Http01 (Some "/var/acme")) (start "key" offered)).1 =
          Ok (mkIssuedCert "cert" "key")) as Hr by reflexivity.
  destruct (issue (manager Http01 (Some "/var/acme")) (start "key" offered)) as [r s'] eqn:Hi.
  simpl in Hr. subst r. destruct H as (ck&[= <-]&Hc&Hl). split; [exact Hc|].
  assert (e_now (st_env s') = 0%Z) as Hn.
  { assert (s' = (issue (manager Http01 (Some "/var/acme")) (start "key" offered)).2) as ->
      by (rewrite Hi; reflexivity).
    reflexivity. }
  apply (Hl "/var/acme" (90 * 86400)%Z); [reflexivity| |reflexivity].
  unfold time_to_expiry. simpl. rewrite Hn. reflexivity.
Defined.

Lemma renewal_keeps_serving_witness :
  let m := manager Http01 None in
  ∃ s, s = (issue m (start "key" offered)).2 ∧
    is_Some (st_current (Nat.iter 3 (renewal_tick m) s)) ∧
    renewal_tick m s = (issue m (with_env (sleep RENEW_CHECK_INTERVAL (st_env s)) s)).2.
Proof.
  intros m. assert (∃ s, s = (issue m (start "key" offered)).2 ∧ is_Some (st_current s))
    as (s&Heq&Hs) by (eexists; split; [reflexivity|exists issued_key; reflexivity]).
  exists s. destruct (renewal_keeps_serving m s 3 Hs) as (H3&_).
  destruct (renewal_keeps_serving m s 0 Hs) as (_&_&_&H0).
  split_and!; [exact Heq|exact H3|]. apply H0. by intros (?&?&?&?&_).
Defined.

Lemma setup_acme_certified_witness :
  let w := mkWorld (io_error := unit) ∅ (λ _, false) (λ _, Err tt) in
  let addr := SocketAddrV4 [0; 0; 0; 0]%Z 443 in
  ∃ m tc s, setup_acme w (cfg TlsAlpn01 None) addr (mkEnv ∅ 0 offered true "key") =
              (Ok (m, tc), s) ∧
    is_Some (acme_resolve (st_resolver s) (mkClientHello None (Some "a.example"))) ∧
    ACME_TLS_ALPN_NAME ∈ tsc_alpn tc.
Proof.
  cbv zeta. set (w := mkWorld _ _ _). set (addr := SocketAddrV4 _ _).
  assert (∃ mt s, setup_acme w (cfg TlsAlpn01 None) addr (mkEnv ∅ 0 offered true "key") =
            (Ok mt, s)) as ([m tc]&s&Hs) by (eexists _, _; apply run_Ok; reflexivity).
  exists m, tc, s. split; [exact Hs|]. destruct (setup_acme_certified _ _ _ _ _ _ _ Hs) as (Hc&_&_&Ha).
  split; [by apply Hc|by apply Ha].
Defined.

End AcmeToy.
