(* ===== verification/Responder.v ===== *)
(** * The HTTP-01 responder ([spawn_http01_responder] of [src/main.rs])

    The plaintext server that the certificate authority fetches key
    authorizations from: one route with a parameter, and the task that serves
    it or ends the process. *)

From S2P Require Import Prelude RustStr SocketAddr Routing Config Float Metrics Http Ws Proxy Router Tls Acme AcmeSpec.

Definition CHALLENGE_PREFIX : string := "/.well-known/acme-challenge/".
Definition CHALLENGE_ROUTE : string := CHALLENGE_PREFIX +:+ "{token}".

(** Axum's matching of one route: the value of the pattern's parameter, as
    [Path] extracts it. *)
Class PathMatch := path_param : string → string → option string.

(** The characters of a token (RFC 8555: base64url). *)
Definition is_base64url (a : ascii) : bool :=
  let b := byte_of_ascii a in
  in_range 65 90 b || in_range 97 122 b || in_range 48 57 b || Z.eqb b 45 || Z.eqb b 95.

Definition token_ok (token : string) : bool :=
  negb (is_empty token) && str_forallb is_base64url token.

(** What the code relies on of it: a parameter at the end of a pattern takes
    one segment; a token needs no decoding. *)
Class PathLaws `{PM : !PathMatch} := {
  path_param_token prefix name token :
    str_mem "{" prefix = false → token_ok token = true →
    path_param (prefix +:+ "{" +:+ name +:+ "}") (prefix +:+ token) = Some token;
}.

Section responder.
Context `{PM : !PathMatch}.

(** What the responder answers: status and body; a [HEAD] gets no body, a
    path or method without a route gets axum's empty answers. *)
Definition http01_respond (tokens : gmap string string) (method path : string) : Z * string :=
  match path_param CHALLENGE_ROUTE path with
  | None => (404%Z, EmptyString)
  | Some token =>
      if admits Filter_Get method then
        let '(status, body) := serve_token tokens token in
        (status, if bool_decide (method = "HEAD") then EmptyString else body)
      else (405%Z, EmptyString)
  end.

(** The spawned task: it serves the tokens, stops when the server fails, and
    ends the process when the address cannot be bound. *)
Inductive ResponderState :=
| Responder_Serving
| Responder_Stopped
| Responder_Exit (code : Z).

Definition responder_task {E1 E2} (bind : result E1 unit) (served : option E2) : ResponderState :=
  match bind with
  | Ok _ => match served with None => Responder_Serving | Some _ => Responder_Stopped end
  | Err _ => Responder_Exit 1
  end.

Lemma respond_token `{PL : !PathLaws} tokens token :
  token_ok token = true →
  http01_respond tokens "GET" (CHALLENGE_PREFIX +:+ token) = serve_token tokens token.
Proof.
  intros Ht. unfold http01_respond, CHALLENGE_ROUTE.
  change "{token}" with ("{" +:+ "token" +:+ "}"). rewrite path_param_token by done. simpl.
  by destruct (serve_token tokens token).
Qed.

Lemma respond_quiet tokens method path :
  tokens = ∅ → (http01_respond tokens method path).1 ≠ 200%Z.
Proof.
  intros ->. unfold http01_respond. destruct (path_param _ _) as [token|]; [|done].
  destruct (admits _ _); [|done]. unfold serve_token, tokens_get. by rewrite lookup_empty.
Qed.

Section acme.
Context `{TL : !TlsLib} `{AL : !AcmeLib}.

(** C29: the authority finds the key authorization: with HTTP-01 challenges,
    when it is told that a challenge is ready, a [GET] of the challenge's URL
    at the responder answers 200 with exactly the key authorization of that
    challenge's token, for every token in RFC 8555's alphabet. *)
Theorem http01_fetch `{PL : !PathLaws} m a h s a' s'
    (Hhttp : acme_challenge (mgr_cfg m) = Http01)
    (Hprep : prepare_authorization m a h s = (Ok a', s')) :
  ∃ authz e1, fetch_authorization h (st_env s) = (Ok authz, e1) ∧
  (authz_status authz = Authz_Valid ∧ a' = a ∨
   authz_status authz = Authz_Pending ∧
   ∃ c s1, authz_challenge authz Type_Http01 = Some c ∧
     set_ready (chal_ref c) (served s1) (st_env s1) = (Ok tt, st_env s') ∧
     (token_ok (chal_token c) = true →
      http01_respond (st_tokens s1) "GET" (CHALLENGE_PREFIX +:+ chal_token c) =
        (200%Z, ka_as_str (chal_key_authorization c)))).
Proof.
  apply prepare_authorization_Ok in Hprep as (authz&e1&Hf&Hc). exists authz, e1. split; [done|].
  rewrite Hhttp in Hc. destruct Hc as [(Hv&Ha&_)|(Hp&c&s1&Hc&Hans&Hr)]; [by left|right].
  split; [done|]. exists c, s1. split_and!; [done..|]. intros Ht. by rewrite respond_token.
Qed.

(** Once a process with automatic certificates has started, its responder
    serves nothing. *)
Theorem responder_quiet_after_setup {E} (w : World E) cfg addr env m tc s method path
    (Hsetup : setup_acme w cfg addr env = (Ok (m, tc), s)) :
  (http01_respond (st_tokens s) method path).1 ≠ 200%Z.
Proof. apply setup_acme_clean in Hsetup as (_&Ht&_). by apply respond_quiet. Qed.

End acme.
End responder.

(** ** A concrete matcher *)

Module ResponderToy.

(** The pattern up to its parameter, then one segment. *)
#[export] Instance matcher : PathMatch := λ pattern path,
  '(prefix, _) ← split_once "{" pattern;
  token ← strip_prefix prefix path;
  if is_empty token || str_mem "/" token then None else Some token.

#[export] Instance laws : PathLaws.
Proof.
  split. intros prefix name token Hp Ht. unfold path_param, matcher.
  change (prefix +:+ "{" +:+ name +:+ "}") with (prefix +:+ String "{" (name +:+ "}")).
  rewrite (proj2 (split_once_Some _ _ prefix (name +:+ "}")) (conj eq_refl Hp)). simpl.
  rewrite strip_prefix_app. simpl.
  apply andb_prop in Ht as [He%negb_true_iff Ht]. rewrite He. simpl.
  assert (str_mem "/" token = false) as ->; [|done]. clear He.
  induction token as [|c token IH]; [done|]. cbn [str_forallb str_mem] in *.
  apply andb_prop in Ht as [Hc Ht]. rewrite IH by done.
  destruct (Ascii.eqb_spec c "/") as [->|]; [discriminate Hc|done].
Qed.
End ResponderToy.

#[local] Existing Instances AcmeToy.tls AcmeToy.lib ResponderToy.matcher ResponderToy.laws.

Lemma http01_fetch_witness :
  ∃ s' s1, prepare_authorization (AcmeToy.manager Http01 None) no_active
             (AcmeToy.authz Authz_Pending "a.example" "t1") (AcmeToy.start "key" AcmeToy.offered) =
           (Ok (mkActive ["t1"] [] []), s') ∧
    http01_respond (st_tokens s1) "GET" "/.well-known/acme-challenge/t1" = (200%Z, "t1.key").
Proof.
  assert (∃ s', prepare_authorization (AcmeToy.manager Http01 None) no_active
            (AcmeToy.authz Authz_Pending "a.example" "t1") (AcmeToy.start "key" AcmeToy.offered) =
          (Ok (mkActive ["t1"] [] []), s')) as [s' Hp]
    by (eexists; apply AcmeToy.run_Ok; reflexivity).
  destruct (http01_fetch (AcmeToy.manager Http01 None) _ _ _ _ _ eq_refl Hp) as (az&e1&[= <- <-]&[[? _]|(_&c&s1&[= <-]&_&Ha)]);
    [done|].
  exists s', s1. split; [exact Hp|]. apply Ha. reflexivity.
Defined.
