(* ===== verification/Messages.v ===== *)
(** * The texts of errors and warnings

    What an operator reads: the [Display] implementations of the error types
    and the [format!] calls that build their reasons.  The texts of errors
    that other crates raise are parameters. *)

From S2P Require Import Prelude RustStr SocketAddr Format Routing Config Layers Labels Attestation Tls Acme.

(** [str::contains]. *)
Fixpoint contains (needle s : string) : bool :=
  starts_with needle s || match s with EmptyString => false | String _ s' => contains needle s' end.

Lemma contains_spec needle s : contains needle s = true ↔ ∃ l r, s = l +:+ needle +:+ r.
Proof.
  induction s as [|a s IH]; cbn [contains]; rewrite orb_true_iff, starts_with_spec.
  - split; [intros [[r Hr]|]; [by exists EmptyString, r|done]|].
    intros (l&r&Hr). left. exists r. by destruct l.
  - split.
    + intros [[r Hr]|(l&r&->)%IH]; [by exists EmptyString, r|by exists (String a l), r].
    + intros (l&r&Hr). destruct l as [|b l]; [left; by exists r|right].
      apply IH. exists l, r. rewrite str_app_cons in Hr. by injection Hr.
Qed.

(** ** Discovery *)

Definition LabelWarning_to_string (w : LabelWarning) : string :=
  match w with
  | MalformedLabel k => "ignoring malformed route label `" +:+ k +:+ "`"
  | MissingUpstream name => "route `" +:+ name +:+ "` missing `upstream`; skipped"
  | NoRoutes short_id => "container " +:+ short_id +:+ " enabled but declares no routes"
  end.

(** ** Configuration *)

(** [ParseIntError]. *)
Definition IntErrorKind_to_string (k : IntErrorKind) : string :=
  match k with
  | IntEmpty => "cannot parse integer from empty string"
  | IntInvalidDigit => "invalid digit found in string"
  | IntPosOverflow => "number too large to fit in target type"
  end.

Section config.
Context `{CE : !ConfigExt, UT : !UnicodeTables}.

Definition KindError_to_string (e : KindError) : string :=
  match e with
  | UnknownTeeProvider other =>
      "unknown tee_provider " +:+ fmt_debug_str other +:+
      " (expected mock|tdx|sev_snp|sgx|trustzone|aws_nitro|tpm)"
  | UnknownVerifier other =>
      "unknown verifier " +:+ fmt_debug_str other +:+
      " (expected mock|maa|ita|amd_snp|tpm|nvidia|dcap)"
  | UnknownAcmeChallenge other =>
      "unknown acme challenge " +:+ fmt_debug_str other +:+ " (expected tls-alpn-01|http-01|dns-01)"
  | UnknownDnsProvider other =>
      "unknown dns provider " +:+ fmt_debug_str other +:+ " (expected manual|cloudflare)"
  end.

(** [Display] of the errors of the file system and of the parsers. *)
Class ConfigTexts := {
  io_text : io_error → string;
  toml_text : toml_error → string;
  hex_text : hex_error → string;
  pem_text : pem_error → string;
  x509_text : x509_error → string;
}.
Context `{CT : !ConfigTexts}.

Definition EnvReason_to_string (r : EnvReason) : string :=
  match r with
  | Reason_Int k => IntErrorKind_to_string k
  | Reason_PcrIndex k => "invalid PCR index: " +:+ IntErrorKind_to_string k
  | Reason_Addr => "invalid socket address syntax"
  | Reason_Kind k => KindError_to_string k
  | Reason_Bool => "expected a boolean"
  | Reason_Hex e => "expected hex: " +:+ hex_text e
  | Reason_Pairs => "expected `index:hex` pairs separated by commas"
  end.

Definition empty_policy_text (verifier : VerifierKind) (tee_provider : TeeProviderKind) : string :=
  "attestation.verifier=" +:+ VerifierKind_as_str verifier +:+ " / tee_provider=" +:+
  TeeProviderKind_as_str tee_provider +:+ " requires a non-empty " +:+
  "[attestation.tpm].expected_pcrs reference policy (map of PCR index -> hex " +:+
  "digest); an empty policy would fail closed at runtime. Set expected PCRs, " +:+
  "e.g." +:+ nl +:+ nl +:+ "    [attestation.tpm.expected_pcrs]" +:+ nl +:+
  "    0 = " +:+ dq +:+ "<64-hex-sha256>" +:+ dq +:+ nl +:+ "    ..." +:+ nl +:+ nl +:+
  "or via ARCHETYPE_PROXY_TPM_EXPECTED_PCRS=0:<hex>,7:<hex>.".

Definition no_trust_text (verifier : VerifierKind) (tee_provider : TeeProviderKind) : string :=
  "attestation.verifier=" +:+ VerifierKind_as_str verifier +:+ " / tee_provider=" +:+
  TeeProviderKind_as_str tee_provider +:+ " requires the TPM attestation key " +:+
  "(AK) to be trusted by exactly one of three modes; none is configured, so " +:+
  "the verifier would reject every AK at request time. Choose one:" +:+ nl +:+
  nl +:+ "  1. Pin the AK public key (uncompressed SEC1, hex):" +:+ nl +:+
  nl +:+ "       [attestation.tpm]" +:+ nl +:+
  "       pinned_ak_sec1_hex = " +:+ dq +:+ "04..." +:+ dq +:+ nl +:+
  nl +:+ "     (or ARCHETYPE_PROXY_TPM_PINNED_AK_SEC1_HEX)" +:+ nl +:+
  nl +:+ "  2. Chain the AK to trusted EK/manufacturer root cert(s):" +:+ nl +:+
  nl +:+ "       [attestation.tpm]" +:+ nl +:+
  "       trusted_ek_root_paths = [" +:+ dq +:+ "/path/ek-root.pem" +:+ dq +:+ "]" +:+ nl +:+
  nl +:+ "     (or ARCHETYPE_PROXY_TPM_TRUSTED_EK_ROOT_PATHS)" +:+ nl +:+
  nl +:+ "  3. Accept an unpinned AK (INSECURE, dev/test only):" +:+ nl +:+
  nl +:+ "       [attestation.tpm]" +:+ nl +:+ "       allow_unpinned_ak = true" +:+ nl +:+
  nl +:+ "     (or ARCHETYPE_PROXY_TPM_ALLOW_UNPINNED_AK=true)".

Definition ValidationReason_to_string (r : ValidationReason) : string :=
  match r with
  | EmptyTpmPolicy v t => empty_policy_text v t
  | NoAkTrust v t => no_trust_text v t
  | PemParse path e =>
      "trusted EK root " +:+ path +:+ ": failed to parse PEM certificate(s): " +:+ pem_text e
  | NoPemCertificate path => "trusted EK root " +:+ path +:+ ": no PEM certificate found"
  | NotX509 path e =>
      "trusted EK root " +:+ path +:+ ": not a valid X.509 certificate: " +:+ x509_text e
  end.

Definition ConfigError_to_string (e : ConfigError) : string :=
  match e with
  | ConfigError_Read path source =>
      "failed to read config file " +:+ path +:+ ": " +:+ io_text source
  | ConfigError_Parse path source =>
      "failed to parse config file " +:+ path +:+ ": " +:+ toml_text source
  | ConfigError_Env var value reason =>
      "invalid value for " +:+ var +:+ ": " +:+ value +:+ " (" +:+ EnvReason_to_string reason +:+ ")"
  | ConfigError_Validation reason =>
      "invalid configuration: " +:+ ValidationReason_to_string reason
  end.

(** ** Attestation *)

Definition FatalError_to_string (e : FatalError) : string :=
  match e with
  | RefuseMock allow_mock tee_provider verifier =>
      "refusing to start: release build resolved to mock attestation " +:+
      "(allow_mock=" +:+ fmt_bool allow_mock +:+ ", tee_provider=" +:+
      TeeProviderKind_as_str tee_provider +:+ ", verifier=" +:+ VerifierKind_as_str verifier +:+
      "), which provides no security. " +:+
      "Configure a real hardware tee_provider + verifier (and build with the matching " +:+
      "--features), or set " +:+ INSECURE_DEV_ENV +:+
      "=1 to explicitly run an insecure dev server."
  | FeatureMissing kind value feature =>
      kind +:+ "=" +:+ value +:+ " requires building with --features " +:+ feature +:+
      "; this binary was compiled without it (default build is mock-only)"
  | EndpointMissing verifier =>
      "verifier=" +:+ verifier +:+ " requires attestation.verifier_endpoint" +:+
      (if bool_decide (verifier = "maa")
       then " (e.g. https://sharedeus2.eus2.attest.azure.net)" else EmptyString)
  | ApiKeyMissing verifier => "verifier=" +:+ verifier +:+ " requires attestation.verifier_api_key"
  | Unsupported verifier =>
      "verifier=" +:+ VerifierKind_as_str verifier +:+
      " is not supported by archetype-proxy in the pinned openhttpa revision " +:+
      "(no production-ready verifier type is available); choose mock|maa|ita|amd_snp|tpm"
  | TpmSectionMissing => "verifier=tpm requires an [attestation.tpm] section with expected_pcrs"
  | TpmPcrsEmpty =>
      "verifier=tpm requires a non-empty [attestation.tpm].expected_pcrs reference policy"
  | TpmRoots e => ConfigError_to_string e
  end.
End config.

(** ** TLS and ACME *)

Section tls.
Context `{TL : !TlsLib, UT : !UnicodeTables}.
Context (tls_io_text : tls_io_error → string) (rustls_text : rustls_error → string).

Definition TlsError_to_string (e : TlsError) : string :=
  match e with
  | TlsError_Read kind path source =>
      "failed to read TLS " +:+ kind +:+ " file " +:+ path +:+ ": " +:+ tls_io_text source
  | TlsError_NoCerts path => "no certificates found in PEM file " +:+ path
  | TlsError_NoKey path => "no private key found in PEM file " +:+ path
  | TlsError_Pem kind path source =>
      "invalid PEM in " +:+ kind +:+ " file " +:+ path +:+ ": " +:+ tls_io_text source
  | TlsError_Key path source => "invalid private key in " +:+ path +:+ ": " +:+ rustls_text source
  | TlsError_KeyMismatch cert_path key_path source =>
      "TLS certificate " +:+ cert_path +:+ " and private key " +:+ key_path +:+
      " do not match (key does not correspond to the certificate's public key): " +:+
      rustls_text source
  | TlsError_Config source => "failed to build rustls ServerConfig: " +:+ rustls_text source
  end.
End tls.

Section acme.
Context `{TL : !TlsLib} `{AL : !AcmeLib} `{UT : !UnicodeTables}.
Context (reqwest_text : reqwest_error → string).

(** The text of [AcmeError::Dns]. *)
Definition DnsFault_to_string (e : DnsFault) : string :=
  match e with
  | Dns_ZoneRequest e => "zone lookup request failed: " +:+ reqwest_text e
  | Dns_ZoneDecode e => "zone lookup decode failed: " +:+ reqwest_text e
  | Dns_ZoneFailed candidate detail =>
      "zone lookup for " +:+ fmt_debug_str candidate +:+ " failed: " +:+ detail
  | Dns_NoZone record_name =>
      "no Cloudflare zone found for " +:+ fmt_debug_str record_name +:+
      " (check the token has Zone:Read or set zone_id explicitly)"
  | Dns_CreateRequest e => "create TXT request failed: " +:+ reqwest_text e
  | Dns_CreateDecode e => "create TXT decode failed: " +:+ reqwest_text e
  | Dns_CreateFailed record_name detail =>
      "create TXT " +:+ fmt_debug_str record_name +:+ " failed: " +:+ detail
  | Dns_CreateEmpty => "create TXT returned no record"
  | Dns_NoToken =>
      "dns provider=cloudflare requires a token via api_token or " +:+
      "api_token_env (env var unset or empty)"
  end.
End acme.
