(* ===== verification/Renewal.v ===== *)
(** * Certificates over time ([renewal_loop] of [src/acme.rs])

    The renewal loop against the clock, and the records of the Cloudflare
    provider from publication to removal. *)

From S2P Require Import Prelude RustStr SocketAddr Routing Config Tls Acme AcmeSpec.

(** What the loop relies on of the clock and of [x509-parser]: the time a
    certificate has left shrinks by no more than the time that has passed, and
    sleeping does not change a file. *)
Class ClockLaws `{TL : !TlsLib} `{AL : !AcmeLib} := {
  now : acme_env → Z;
  elapsed x e e' secs d :
    time_to_expiration x e = Some secs → (now e ≤ now e' ≤ now e + d)%Z → (d ≤ secs)%Z →
    ∃ secs', time_to_expiration x e' = Some secs' ∧ (secs - d ≤ secs')%Z;
  sleep_files path d e : fs_read_to_string path (sleep d e) = fs_read_to_string path e;
}.

(** Two worlds with the same cached certificate. *)
Definition same_cache `{TL : !TlsLib} `{AL : !AcmeLib} (dir : string) (e e' : acme_env) : Prop :=
  cache_load_cert dir e' = cache_load_cert dir e.

(** The cached certificate is only written by the cache: the authority,
    Cloudflare, key generation, the hooks and the creation of the directory
    leave it alone. *)
Class CacheLaws `{TL : !TlsLib} `{AL : !AcmeLib} (dir : string) := {
  cache_Account_builder e : same_cache dir e (Account_builder e).2;
  cache_from_credentials b c e : same_cache dir e (from_credentials b c e).2;
  cache_create_account b a u e : same_cache dir e (create_account b a u e).2;
  cache_new_order a d e : same_cache dir e (new_order a d e).2;
  cache_fetch_authorization h e : same_cache dir e (fetch_authorization h e).2;
  cache_set_ready c now e : same_cache dir e (set_ready c now e).2;
  cache_poll_ready o now e : same_cache dir e (poll_ready o now e).2;
  cache_order_finalize o e : same_cache dir e (order_finalize o e).2;
  cache_poll_certificate o e : same_cache dir e (poll_certificate o e).2;
  cache_KeyPair_generate e : same_cache dir e (KeyPair_generate e).2;
  cache_self_signed p k e : same_cache dir e (self_signed p k e).2;
  cache_cf_send t r e : same_cache dir e (cf_send t r e).2;
  cache_zones_json r e : same_cache dir e (zones_json r e).2;
  cache_record_json r e : same_cache dir e (record_json r e).2;
  cache_sh c v e : same_cache dir e (sh c v e).2;
  cache_create_dir_all d e : same_cache dir e (create_dir_all d e).2;
}.

Section renewal.
Context `{TL : !TlsLib} `{AL : !AcmeLib} `{FS : !FsLaws} `{CL : !ClockLaws}.

(** ** What touches the cached certificate *)

Section cache.
Context (dir : string) `{CA : !CacheLaws dir}.

Definition st_cached (s : AcmeState) : option IssuedCert := cache_load_cert dir (st_env s).

Lemma cache_sleep d e : same_cache dir e (sleep d e).
Proof. unfold same_cache, cache_load_cert, cache_read. by rewrite !sleep_files. Qed.

Lemma keeps_cached_call {E A} (err : E → AcmeError) (op : acme_env → result E A * acme_env) :
  (∀ e, same_cache dir e (op e).2) → keeps st_cached (call err op).
Proof. intros Hop s. specialize (Hop (st_env s)). unfold call. by destruct (op (st_env s)). Qed.

Lemma keeps_cached_call_try {E A} (op : acme_env → result E A * acme_env) :
  (∀ e, same_cache dir e (op e).2) → keeps st_cached (call_try op).
Proof. intros Hop s. specialize (Hop (st_env s)). unfold call_try. by destruct (op (st_env s)). Qed.

Lemma keeps_cached_call_ op : (∀ e, same_cache dir e (op e)) → keeps st_cached (call_ op).
Proof. intros Hop s. apply (Hop (st_env s)). Qed.

Lemma keeps_cached_account json : keeps st_cached (cache_write dir ACCOUNT_FILE json).
Proof.
  intros s. unfold cache_write, call. destruct (fs_write _ _ _) as [r e] eqn:Hw.
  unfold st_cached, cache_load_cert, cache_read. simpl.
  rewrite (fs_write_sibling dir ACCOUNT_FILE CERT_FILE _ _ _ _ ltac:(done) Hw).
  by rewrite (fs_write_sibling dir ACCOUNT_FILE KEY_FILE _ _ _ _ ltac:(done) Hw).
Qed.

(** Walk through an action; every call is one that the laws cover. *)
Local Ltac cached_auto :=
  repeat first
    [ apply keeps_ret | apply keeps_lift | apply keeps_gets | apply keeps_cached_account
    | apply keeps_cached_call; intros ?; by apply CA
    | apply keeps_cached_call_try; intros ?; by apply CA
    | apply keeps_cached_call_; intros ?; apply cache_sleep
    | apply keeps_bind; [|intros ?]
    | apply keeps_attempt
    | apply keeps_modify; by intros []
    | match goal with |- keeps _ (match ?x with _ => _ end) => destruct x end ].

Lemma run_hook_cached c d n v : keeps st_cached (run_hook c d n v).
Proof. unfold run_hook. cached_auto. Qed.

Lemma resolve_zone_cached p n : keeps st_cached (resolve_zone_id p n).
Proof.
  unfold resolve_zone_id. destruct (cf_zone p); [cached_auto|].
  induction (zone_candidates n) as [|c cs IH]; cbn [zone_search]; [cached_auto|].
  apply keeps_bind; [|intros []; [cached_auto|done]]. unfold zone_lookup. cached_auto.
Qed.

Lemma dns_publish_cached p d n v : keeps st_cached (dns_publish p d n v).
Proof.
  destruct p; cbn [dns_publish]; [unfold manual_publish|unfold cloudflare_publish];
    cached_auto; auto using run_hook_cached, resolve_zone_cached.
Qed.

Lemma dns_cleanup_cached p d n v : keeps st_cached (dns_cleanup p d n v).
Proof.
  destruct p; cbn [dns_cleanup]; [unfold manual_cleanup|unfold cloudflare_cleanup];
    cached_auto; auto using run_hook_cached, resolve_zone_cached.
Qed.

Lemma prepare_all_cached m hs a : keeps st_cached (prepare_all m a hs).
Proof.
  revert a. induction hs as [|h hs IH]; intros a; cbn [prepare_all]; [cached_auto|].
  apply keeps_bind; [|auto]. unfold prepare_authorization. cached_auto.
  destruct (challenge_response _ _ _ _); cbn [install_response];
    [unfold tokens_insert|unfold tls_alpn_cert|]; cached_auto. apply dns_publish_cached.
Qed.

Lemma issue_setup_cached m : mgr_cache m = Some dir → keeps st_cached (issue_setup m).
Proof.
  intros Hd. unfold issue_setup. apply keeps_bind.
  - unfold account. rewrite Hd. unfold cache_ensure_dir. cached_auto.
  - intros acct. cached_auto. apply prepare_all_cached.
Qed.

Lemma finalize_cached o : keeps st_cached (finalize_and_fetch o).
Proof. unfold finalize_and_fetch. cached_auto. Qed.

Lemma teardown_cached m a : keeps st_cached (teardown m a).
Proof.
  unfold teardown. repeat (apply keeps_bind; [apply keeps_for_each; by intros|intros _]).
  apply keeps_for_each. intros [[d n] v]. apply dns_cleanup_cached.
Qed.

End cache.

(** ** Runs of the loop *)

Definition turns (m : AcmeManager) (i : nat) (s : AcmeState) : AcmeState :=
  Nat.iter i (renewal_tick m) s.

Definition awake (s : AcmeState) : AcmeState :=
  with_env (sleep RENEW_CHECK_INTERVAL (st_env s)) s.

(** A turn that found a renewal due and did not get one. *)
Definition failed_turn (m : AcmeManager) (s : AcmeState) : bool :=
  renewal_due m (awake s) && negb (is_ok (issue m (awake s)).1).

(** The failed turns in a row just before turn [i]. *)
Fixpoint streak (m : AcmeManager) (s : AcmeState) (i : nat) : nat :=
  match i with
  | 0 => 0
  | S i => if failed_turn m (turns m i s) then S (streak m s i) else 0
  end.

(** The certificate in force is the cached one. *)
Definition in_force (m : AcmeManager) (s : AcmeState) (c : IssuedCert) : Prop :=
  ∃ dir ck, mgr_cache m = Some dir ∧ cache_load_cert dir (st_env s) = Some c ∧
    into_certified_key c = Ok ck ∧ st_current s = Some ck.

(** ** Lemmas *)

Lemma time_to_expiry_elapsed c e e' secs d :
  time_to_expiry c e = Some secs → (now e ≤ now e' ≤ now e + d)%Z → (0 ≤ d ≤ secs)%Z →
  ∃ secs', time_to_expiry c e' = Some secs' ∧ (secs - d ≤ secs')%Z.
Proof.
  unfold time_to_expiry. destruct (pem_cert_iter _) as [|[der|] l]; [done| |done].
  destruct (parse_x509 der) as [x|]; [|done]. simpl.
  destruct (time_to_expiration x e) as [t|] eqn:Ht; [|done]. simpl.
  destruct (Z.leb_spec 0 t); [|done]. intros [= ->] Hn Hd.
  destruct (elapsed x e e' secs d Ht Hn) as (t'&->&Hle); [lia|]. exists t'. simpl.
  by rewrite (proj2 (Z.leb_le 0 t')) by lia.
Qed.

Lemma awake_cached m s c : in_force m s c → in_force m (awake s) c.
Proof.
  intros (dir&ck&Hd&Hc&Hk&Hcur). exists dir, ck. split_and!; try done.
  unfold cache_load_cert, cache_read in *. simpl. by rewrite !sleep_files.
Qed.

Lemma in_force_due m s c : in_force m s c → renewal_due m s = needs_renewal c (st_env s).
Proof.
  intros (dir&ck&Hd&Hc&_&Hcur). unfold renewal_due, cert_needs_renewal. unfold st_current in Hcur.
  rewrite Hcur, Hd. simpl. by rewrite Hc.
Qed.

Lemma issue_in_force m s issued s' dir :
  mgr_cache m = Some dir → issue m s = (Ok issued, s') → in_force m s' issued.
Proof.
  intros Hd Hi. pose proof (issue_cached _ _ _ _ _ Hi Hd) as Hc.
  apply issue_current in Hi as (ck&Hk&Hcur). exists dir, ck. done.
Qed.

(** One turn, by its outcome. *)
Lemma turn_outcome m s c :
  in_force m s c →
  (failed_turn m s = false ∧ ∃ c' s', renewal_tick m s = s' ∧ in_force m s' c' ∧
     ((∃ secs, time_to_expiry c' (st_env s') = Some secs ∧ (RENEW_BEFORE < secs)%Z) ∨
      issue m (awake s) = (Ok c', s'))) ∨
  (failed_turn m s = true ∧ st_current (renewal_tick m s) = st_current s).
Proof.
  intros Hf. pose proof (awake_cached m s c Hf) as Ha. unfold failed_turn, renewal_tick.
  fold (awake s). rewrite (in_force_due m (awake s) c Ha).
  destruct (needs_renewal c (st_env (awake s))) eqn:Hn; cbn [andb].
  - destruct (issue m (awake s)) as [r s'] eqn:Hi. destruct r as [issued|e]; simpl.
    + left. split; [done|]. exists issued, s'. split; [done|]. split; [|by right].
      destruct Hf as (dir&_&Hd&_). by eapply issue_in_force.
    + right. split; [done|]. by apply issue_current in Hi.
  - left. split; [done|]. exists c, (awake s). split; [done|]. split; [done|]. left.
    by apply needs_renewal_false.
Qed.

Lemma failed_in_force m s dir c :
  mgr_cache m = Some dir → in_force m s c → st_current (renewal_tick m s) = st_current s →
  st_cached dir (renewal_tick m s) = st_cached dir s → in_force m (renewal_tick m s) c.
Proof.
  intros Hd (dir'&ck&Hd'&Hc&Hk&Hcur) Hr Hca. simplify_eq. exists dir, ck. rewrite Hr.
  split_and!; [done| |done..]. unfold st_cached in Hca. by rewrite Hca.
Qed.

(** An issuance that got no certificate from the authority leaves the cached
    one alone. *)
Lemma refused_cached m s dir `{CA : !CacheLaws dir} e s' :
  mgr_cache m = Some dir → issue m s = (Err e, s') →
  (∀ order a s1 issued s2, issue_setup m s = (Ok (order, a), s1) →
     finalize_and_fetch order s1 = (Ok issued, s2) → is_ok (issue m s).1 = true) →
  st_cached dir s' = st_cached dir s.
Proof.
  intros Hd Hi Hdel. pose proof (issue_setup_cached dir m Hd s) as H1.
  pose proof Hi as Hr. rewrite issue_run in Hr.
  destruct (issue_setup m s) as [[[order a]|e'] s1] eqn:Hs; [|by injection Hr as _ <-]. simpl in H1.
  pose proof (finalize_cached dir order s1) as H2.
  destruct (finalize_and_fetch order s1) as [[issued|e'] s2] eqn:Hf.
  - specialize (Hdel order a s1 issued s2 eq_refl Hf). by rewrite Hi in Hdel.
  - injection Hr as _ <-. rewrite (teardown_cached dir m a s2). simpl in H2. congruence.
Qed.

(** What a run of [n] turns needs: a turn takes at most [D] seconds; at most
    [K] issuances in a row fail, with [K * D] within the 30 days; and a
    certificate that the authority delivers can be stored and installed, and
    has more than 30 days left. *)
Record steady (m : AcmeManager) (s : AcmeState) (n K : nat) (D : Z) : Prop := {
  steady_budget : (0 ≤ D ∧ Z.of_nat K * D ≤ RENEW_BEFORE)%Z;
  steady_turn i : (i < n)%nat →
    let e := st_env (turns m i s) in
    (now e ≤ now (st_env (turns m (S i) s)) ≤ now e + D)%Z;
  steady_streak i : (i ≤ n)%nat → (streak m s i ≤ K)%nat;
  steady_delivered i order a s1 issued s2 : (i < n)%nat →
    issue_setup m (awake (turns m i s)) = (Ok (order, a), s1) →
    finalize_and_fetch order s1 = (Ok issued, s2) →
    ∃ s' secs, issue m (awake (turns m i s)) = (Ok issued, s') ∧
      time_to_expiry issued (st_env s') = Some secs ∧ (RENEW_BEFORE < secs)%Z;
}.

Lemma issue_delivered m s issued s' :
  issue m s = (Ok issued, s') →
  ∃ order a s1 s2, issue_setup m s = (Ok (order, a), s1) ∧
    finalize_and_fetch order s1 = (Ok issued, s2).
Proof.
  rewrite issue_run. destruct (issue_setup m s) as [[[order a]|e] s1]; [|done].
  destruct (finalize_and_fetch order s1) as [[i|e] s2] eqn:Hf; [|done].
  destruct (install_issued m i _) as [[[]|e] s4]; [|done]. intros [= -> _].
  by exists order, a, s1, s2.
Qed.

(** A turn that fails keeps the cached certificate. *)
Lemma failed_turn_cached m s n K D dir `{CA : !CacheLaws dir} i :
  steady m s n K D → mgr_cache m = Some dir → (i < n)%nat → failed_turn m (turns m i s) = true →
  st_cached dir (renewal_tick m (turns m i s)) = st_cached dir (turns m i s).
Proof.
  intros Hst Hd Hi [Hdue Herr]%andb_prop. unfold renewal_tick. fold (awake (turns m i s)).
  rewrite Hdue. destruct (issue m (awake (turns m i s))) as [[issued|e] s'] eqn:Hiss; [done|].
  simpl. rewrite (refused_cached m _ dir e s' Hd Hiss).
  - apply cache_sleep.
  - intros order a s1 issued s2 H1 H2.
    destruct (steady_delivered _ _ _ _ _ Hst i order a s1 issued s2 Hi H1 H2) as (?&?&Hok&_). congruence.
Qed.

Lemma renewal_invariant m s n K D dir `{CA : !CacheLaws dir} c0 secs0 i :
  steady m s n K D → mgr_cache m = Some dir → in_force m s c0 →
  time_to_expiry c0 (st_env s) = Some secs0 → (RENEW_BEFORE < secs0)%Z → (i ≤ n)%nat →
  ∃ c secs, in_force m (turns m i s) c ∧ time_to_expiry c (st_env (turns m i s)) = Some secs ∧
    (RENEW_BEFORE - Z.of_nat (streak m s i) * D < secs)%Z.
Proof.
  intros Hst Hd Hf0 Ht0 Hfresh0. pose proof Hst as [Hb Hturn Hstreak Hdel].
  induction i as [|i IH]; intros Hi.
  { exists c0, secs0. split_and!; [done..|]. simpl. lia. }
  destruct IH as (c&secs&Hf&Ht&Hleft); [lia|].
  change (turns m (S i) s) with (renewal_tick m (turns m i s)) in *. cbn [streak].
  destruct (turn_outcome m _ c Hf) as [(Hno&c'&s'&Heq&Hf'&Hor)|(Hyes&Hcur)].
  - rewrite Hno, Heq. assert (∃ secs', time_to_expiry c' (st_env s') = Some secs' ∧
      (RENEW_BEFORE < secs')%Z) as (secs'&Ht'&Hlt).
    { destruct Hor as [Hor|Hor]; [done|].
      destruct (issue_delivered _ _ _ _ Hor) as (order&a&s1&s2&H1&H2).
      destruct (Hdel i order a s1 c' s2 ltac:(lia) H1 H2) as (s''&secs'&Hok&?&?).
      rewrite Hor in Hok. injection Hok as <-. eauto. }
    exists c', secs'. split_and!; [done..|]. simpl. lia.
  - specialize (Hstreak (S i) Hi). cbn [streak] in Hstreak. rewrite Hyes in *.
    assert (D ≤ secs)%Z as HD by nia.
    destruct (time_to_expiry_elapsed c _ (st_env (renewal_tick m (turns m i s))) secs D Ht)
      as (secs'&Ht'&Hle); [apply Hturn; lia|lia|].
    exists c, secs'. split_and!; [|done|nia].
    eapply failed_in_force; [done..|]. eapply failed_turn_cached; [done..|lia|done].
Qed.

(** ** Properties *)

(** C16: certificates do not run out while the authority delivers.  Let the
    certificate in force at the start be the cached one, with more than 30 days
    left; let issuance fail at most [K] times in a row, with [K] turns fitting
    into 30 days; and let every certificate that the authority delivers be
    storable, installable and good for more than 30 days.  Then after every
    turn the certificate in force is the cached one and has not expired, and
    after every turn that did not fail it has more than 30 days left: an
    issuance that the authority refuses, at whatever point, leaves the cached
    certificate alone, so the loop tries again.  A delivered certificate that
    cannot be installed is outside this: it is cached all the same, and
    [unusable_cache_blocks_renewal] shows that renewal then stops. *)
Theorem renewal_never_expires m s n K D dir `{CA : !CacheLaws dir} c0 secs0 i
    (Hsteady : steady m s n K D) (Hdir : mgr_cache m = Some dir) (Hforce : in_force m s c0)
    (Hfresh : time_to_expiry c0 (st_env s) = Some secs0 ∧ (RENEW_BEFORE < secs0)%Z)
    (Hi : (i ≤ n)%nat) :
  ∃ c secs, in_force m (turns m i s) c ∧ time_to_expiry c (st_env (turns m i s)) = Some secs ∧
    (0 < secs)%Z ∧ (streak m s i = 0%nat → (RENEW_BEFORE < secs)%Z).
Proof.
  destruct Hfresh as [Ht0 Hlt0].
  destruct (renewal_invariant m s n K D dir c0 secs0 i Hsteady Hdir Hforce Ht0 Hlt0 Hi)
    as (c&secs&Hf&Ht&Hleft).
  exists c, secs. split_and!; [done..| |intros H0; rewrite H0 in Hleft; lia].
  destruct Hsteady as [Hb _ Hstreak _]. specialize (Hstreak i Hi). nia.
Qed.

(** What is published is removed: when the Cloudflare provider has
    published a challenge record, it remembers the record's id under the
    record's name and value, and cleaning up deletes exactly that record, in
    the zone that the provider resolves, and forgets it. *)
Theorem cloudflare_publish_cleanup p name value s s'
    (Hpub : cloudflare_publish p name value s = (Ok tt, s')) :
  ∃ id, st_records s' !! (name, value) = Some id ∧
  (∀ key, key ≠ (name, value) → st_records s' !! key = st_records s !! key) ∧
  ∀ s2, st_records s2 !! (name, value) = Some id →
    let s3 := with_records (delete (name, value)) s2 in
    ∀ zone s4, resolve_zone_id p name s3 = (Ok zone, s4) →
      cloudflare_cleanup p name value s2 =
        (Ok tt, with_env (cf_send (cf_token p)
                  (Cf_Delete (dns_records_url p zone +:+ "/" +:+ id)) (st_env s4)).2 s4) ∧
      st_records s4 = delete (name, value) (st_records s2).
Proof.
  destruct (publish_records (Provider_Cloudflare p) name name value s s' Hpub) as [id Hr].
  exists id. rewrite Hr. split; [apply lookup_insert_eq|].
  split; [intros key Hk; by apply lookup_insert_ne|].
  intros s2 H2 s3 zone s4 Hz. split.
  - unfold cloudflare_cleanup. cbv [mbind eff_bind gets modify attempt call_try mret eff_ret].
    rewrite H2. fold s3. rewrite Hz. by destruct (cf_send _ _ _).
  - eapply (keeps_run st_records) in Hz; [by rewrite Hz|].
    apply resolve_zone_id_keeps; [done|intros ??; done].
Qed.

End renewal.

(** ** A concrete run

    The certificate has 30 and a quarter days left; the first turn finds a
    renewal due and the authority refuses the order. *)
Module RenewalToy.
#[local] Existing Instance AcmeToy.tls.
#[local] Existing Instance AcmeToy.lib.
#[local] Existing Instance AcmeToy.laws.

#[local] Program Instance clock : ClockLaws := { now := AcmeToy.e_now }.
Next Obligation. intros x e e' secs d. simpl. intros [= <-] Hn Hd. eexists. split; [done|]. lia. Qed.
Next Obligation. done. Qed.

Definition manager : AcmeManager := AcmeToy.manager Http01 (Some "/var/acme").

Definition refusing : AcmeToy.Env :=
  AcmeToy.mkEnv (<["/var/acme/key.pem" := "key"]> {[ "/var/acme/cert.pem" := "cert" ]})
    (59 * 86400 + 64800) [] false "key".

Definition state : AcmeState :=
  mkAcmeState (mkAcmeResolver (Some AcmeToy.issued_key) ∅) ∅ ∅ ∅ refusing.

#[local] Instance cache : CacheLaws "/var/acme".
Proof. split; done. Qed.

Lemma one_turn :
  failed_turn manager state = true ∧
  AcmeToy.e_now (st_env (turns manager 1 state)) = (60 * 86400 + 21600)%Z.
Proof. split_and!; reflexivity. Qed.

Lemma nothing_delivered :
  match issue_setup manager (awake state) with
  | (Ok (order, _), s1) => is_ok (finalize_and_fetch order s1).1 = false
  | (Err _, _) => True
  end.
Proof. reflexivity. Qed.

Lemma state_steady : steady manager state 1 60 43200.
Proof.
  destruct one_turn as (_&Hn). split.
  - unfold RENEW_BEFORE. lia.
  - intros i Hi. assert (i = 0%nat) as -> by lia. cbv zeta.
    change (now ?e) with (AcmeToy.e_now e). rewrite Hn. simpl. lia.
  - intros [|[|i]] Hi; [simpl; lia| |lia].
    assert (streak manager state 1 = 1%nat) as -> by reflexivity. lia.
  - intros i order a s1 issued s2 Hi H1 H2. assert (i = 0%nat) as -> by lia. exfalso.
    change (turns manager 0 state) with state in H1. pose proof nothing_delivered as Hno.
    rewrite H1, H2 in Hno. discriminate Hno.
Qed.

Lemma renewal_never_expires_witness :
  ∃ c secs, in_force manager (turns manager 1 state) c ∧
    time_to_expiry c (st_env (turns manager 1 state)) = Some secs ∧ (0 < secs)%Z.
Proof.
  destruct (renewal_never_expires manager state 1 60 43200 "/var/acme" (mkIssuedCert "cert" "key")
              (90 * 86400 - (59 * 86400 + 64800)) 1) as (c&secs&Hf&Ht&Hp&_).
  - exact state_steady.
  - reflexivity.
  - exists "/var/acme", AcmeToy.issued_key. split_and!; reflexivity.
  - split; [reflexivity|]. unfold RENEW_BEFORE. lia.
  - lia.
  - exists c, secs. split; [exact Hf|]. split; [exact Ht|exact Hp].
Defined.

Lemma cloudflare_publish_cleanup_witness :
  let p := cf_new "token" None 60 in
  ∃ s', cloudflare_publish p "_acme-challenge.a.example" "v" state = (Ok tt, s') ∧
    st_records s' !! ("_acme-challenge.a.example", "v") = Some "record".
Proof.
  intros p. assert (∃ s', cloudflare_publish p "_acme-challenge.a.example" "v" state = (Ok tt, s') ∧
    st_records s' !! ("_acme-challenge.a.example", "v") = Some "record") as (s'&Hs&Hr)
    by (eexists; split; [apply AcmeToy.run_Ok; reflexivity|reflexivity]).
  exists s'. split; [exact Hs|].
  destruct (cloudflare_publish_cleanup p _ _ _ _ Hs) as (id&Hid&_&_).
  rewrite Hid in Hr. rewrite Hid. exact Hr.
Defined.
End RenewalToy.
