(* ===== verification/Startup.v ===== *)
(** * Command line and startup ([src/cli.rs], [src/main.rs])

    The flags and their override layer, and the start sequence: load, dump,
    guard and warnings, construction of provider and verifier, session store,
    discovery tasks, router and listener.  Each stage either ends the process
    or lets the next one run.  The sequence is written over what the TLS and
    ACME modules answer ([Build]); [program_build] plugs in their models, and
    the last section composes a serving process with the discovery system and
    the router. *)

From stdpp Require Import relations.
From S2P Require Import Prelude RustStr SocketAddr Format Routing Config Labels Layers Dump TpmEnv Discovery LiveTable DiscoverySystem Float Metrics Http Ws WsSpec Proxy ProxySpec Router Attestation Tls Acme AcmeSpec.

(** ** The command line *)

Inductive LogLevel := Log_Off | Log_Error | Log_Warn | Log_Info | Log_Debug | Log_Trace.

Definition LogLevel_as_str (l : LogLevel) : string :=
  match l with
  | Log_Off => "off"
  | Log_Error => "error"
  | Log_Warn => "warn"
  | Log_Info => "info"
  | Log_Debug => "debug"
  | Log_Trace => "trace"
  end.

Inductive Commands := Command_Dump.

Record Args := mkArgs {
  arg_config_path : option string;
  arg_config : option string;
  arg_listen : option SocketAddr;
  arg_max_body_bytes : option Z;
  arg_docker : bool;
  arg_kubernetes : bool;
  arg_log_level : option LogLevel;
  arg_verbose : Z;
  arg_command : option Commands;
}.

Definition args_config_path (a : Args) : option string :=
  option_or (arg_config a) (arg_config_path a).

Definition args_dump (a : Args) : bool :=
  match arg_command a with Some Command_Dump => true | None => false end.

Definition level (a : Args) : LogLevel :=
  match arg_log_level a with
  | Some l => l
  | None => if (arg_verbose a =? 0)%Z then Log_Info
            else if (arg_verbose a =? 1)%Z then Log_Debug else Log_Trace
  end.

Definition log_directive (a : Args) : string :=
  "archetype_proxy_server=" +:+ LogLevel_as_str (level a).

Definition overrides (a : Args) : PartialStatic :=
  mkPartialStatic (arg_listen a) (arg_max_body_bytes a) None None None None None None None None
    None None None None None (if arg_docker a then Some true else None) None None
    (if arg_kubernetes a then Some true else None) None.

(** ** The start sequence *)

(** The build and what the TLS and ACME modules answer. *)
Record Build (tls_config : Type) := mkBuild {
  b_release : bool;
  b_features : Features;
  b_static_tls : string → string → option tls_config;
  b_acme : AcmeConfig → SocketAddr → option tls_config;
}.
Arguments mkBuild {tls_config}.
Arguments b_release {tls_config}.
Arguments b_features {tls_config}.
Arguments b_static_tls {tls_config}.
Arguments b_acme {tls_config}.

(** The security warnings of a start. *)
Inductive Notice :=
| Notice_InsecureMode (profile : string) (allow_mock : bool) (tee : TeeProviderKind) (verifier : VerifierKind)
| Notice_InsecureRelease (profile : string)
| Notice_UnpinnedAk (verifier : VerifierKind).

(** The session store: its capacity and the lifetimes given to it. *)
Record SessionStore := mkSessionStore {
  ss_capacity : Z;
  ss_ttl_secs : Z;
}.

(** What the process spawns besides the listener. *)
Inductive Background :=
| Spawn_Eviction (interval_secs : Z)
| Spawn_Provider (p : Provider)
| Spawn_Manager (capacity : nat).

(** What a process that serves runs. *)
Record Server (tls_config : Type) := mkServer {
  srv_config : Config;
  srv_mode : AttestationMode;
  srv_notices : list Notice;
  srv_provider : TeeProviderKind;
  srv_verifier : Verifier;
  srv_sessions : SessionStore;
  srv_spawned : list Background;
  srv_manager : Manager.RouteManager;
  srv_max_body_bytes : Z;
  srv_metrics : Metrics;
  srv_rate_limit : option (Z * Z);
  srv_listen : SocketAddr;
  srv_tls : option tls_config;
}.
Arguments mkServer {tls_config}.
Arguments srv_config {tls_config}.
Arguments srv_mode {tls_config}.
Arguments srv_notices {tls_config}.
Arguments srv_provider {tls_config}.
Arguments srv_verifier {tls_config}.
Arguments srv_sessions {tls_config}.
Arguments srv_spawned {tls_config}.
Arguments srv_manager {tls_config}.
Arguments srv_max_body_bytes {tls_config}.
Arguments srv_metrics {tls_config}.
Arguments srv_rate_limit {tls_config}.
Arguments srv_listen {tls_config}.
Arguments srv_tls {tls_config}.

(** A process prints its configuration and returns, or serves. *)
Inductive Outcome (tls_config : Type) :=
| Dumped (text : string)
| Serving (s : Server tls_config).
Arguments Dumped {tls_config}.
Arguments Serving {tls_config}.

Section startup.
Context `{CE : !ConfigExt, UT : !UnicodeTables}.

(** Why the process exits with status 1. *)
Inductive Fatal :=
| Fatal_Config (e : ConfigError)
| Fatal_Guard (e : FatalError)
| Fatal_Provider (e : FatalError)
| Fatal_Verifier (e : FatalError)
| Fatal_TlsConfig (e : TlsConfigError)
| Fatal_TlsCert
| Fatal_Acme.

Definition warn_insecure_mode (cfg : AttestationConfig) (release : bool) : list Notice :=
  let profile := if release then "RELEASE" else "debug" in
  Notice_InsecureMode profile (att_allow_mock cfg) (att_tee_provider cfg) (att_verifier cfg) ::
  (if release then [Notice_InsecureRelease profile] else []).

Definition warn_tpm_unpinned_ak (cfg : AttestationConfig) : list Notice :=
  let unpinned := bool_decide (att_verifier cfg = Ver_Tpm) &&
    match att_tpm cfg with Some t => tpm_allow_unpinned_ak t | None => false end in
  if negb unpinned then [] else [Notice_UnpinnedAk (att_verifier cfg)].

(** The providers and the manager are spawned only when there is a provider. *)
Definition spawn_discovery (providers : list Provider) : list Background :=
  if bool_decide (providers = []) then []
  else (Spawn_Provider <$> providers) ++ [Spawn_Manager CHANNEL_CAPACITY].

Definition rate_limit_layer (rl : RateLimitConfig) : option (Z * Z) :=
  if (0 <? rl_max_requests rl)%Z then Some (rl_max_requests rl, rl_window_secs rl) else None.

(** The listener: TLS from one certificate source, or plaintext. *)
Definition listener_tls {T} (b : Build T) (server : ServerConfig) : result Fatal (option T) :=
  match server_tls server with
  | None => Ok None
  | Some tls =>
      mode ← map_err Fatal_TlsConfig (TlsConfig_validate tls);
      match mode with
      | TlsMode_Static cert key => Some <$> ok_or Fatal_TlsCert (b_static_tls b cert key)
      | TlsMode_Acme acme => Some <$> ok_or Fatal_Acme (b_acme b acme (server_listen server))
      end
  end.

Definition main {T} (b : Build T) (w : World io_error) (args : Args)
  : result Fatal (Outcome T) :=
  config ← map_err Fatal_Config (load w (overrides args) (args_config_path args));
  if args_dump args then Ok (Dumped (dump config))
  else
    let att := static_attestation (cfg_static config) in
    mode ← map_err Fatal_Guard
             (startup_attestation_decision (b_release b) att (insecure_dev_env_set w));
    let insecure := match mode with Secure => [] | Insecure release => warn_insecure_mode att release end in
    let unpinned := warn_tpm_unpinned_ak att in
    tee_provider ← map_err Fatal_Provider (build_tee_provider (b_features b) att);
    verifier ← map_err Fatal_Verifier (build_verifier (b_features b) w att);
    let metrics := Metrics_new in
    let registry := mkSessionStore (att_atb_max_sessions att) (att_atb_ttl_secs att) in
    let eviction := Spawn_Eviction (att_atb_eviction_interval_secs att) in
    let manager := Manager.manager_new (cfg_file_routes config) in
    let providers := build_providers (static_discovery (cfg_static config)) in
    let server := static_server (cfg_static config) in
    tls ← listener_tls b server;
    Ok (Serving (mkServer config mode (insecure ++ unpinned) tee_provider verifier registry
                   (eviction :: spawn_discovery providers) manager (server_max_body_bytes server)
                   metrics (rate_limit_layer (static_rate_limit (cfg_static config)))
                   (server_listen server) tls)).

(** ** Lemmas *)

Lemma main_Serving {T} (b : Build T) w args s :
  main b w args = Ok (Serving s) →
  let c := cfg_static (srv_config s) in
  let att := static_attestation c in
  load w (overrides args) (args_config_path args) = Ok (srv_config s) ∧
  startup_attestation_decision (b_release b) att (insecure_dev_env_set w) = Ok (srv_mode s) ∧
  build_tee_provider (b_features b) att = Ok (srv_provider s) ∧
  build_verifier (b_features b) w att = Ok (srv_verifier s) ∧
  listener_tls b (static_server c) = Ok (srv_tls s) ∧
  srv_notices s = match srv_mode s with Secure => [] | Insecure r => warn_insecure_mode att r end ++
                  warn_tpm_unpinned_ak att ∧
  srv_manager s = Manager.manager_new (cfg_file_routes (srv_config s)) ∧
  srv_spawned s = Spawn_Eviction (att_atb_eviction_interval_secs att) ::
                  spawn_discovery (build_providers (static_discovery c)) ∧
  srv_max_body_bytes s = server_max_body_bytes (static_server c).
Proof.
  unfold main. intros (c&Hc%map_err_Ok&Hm)%result_bind_Ok. destruct (args_dump args); [done|].
  apply result_bind_Ok in Hm as (mode&Hmode%map_err_Ok&Hm).
  apply result_bind_Ok in Hm as (p&Hp%map_err_Ok&Hm).
  apply result_bind_Ok in Hm as (v&Hv%map_err_Ok&Hm).
  apply result_bind_Ok in Hm as (tls&Htls&[= <-]). done.
Qed.

Lemma listener_tls_Ok {T} (b : Build T) server o :
  listener_tls b server = Ok o → (is_Some o ↔ is_Some (server_tls server)).
Proof.
  unfold listener_tls. destruct (server_tls server) as [tls|]; [|by intros [= <-]].
  intros (mode&_&Hm)%result_bind_Ok. destruct mode as [cert key|acme].
  - destruct (b_static_tls b cert key); [|done]. by injection Hm as <-.
  - destruct (b_acme b acme _); [|done]. by injection Hm as <-.
Qed.

Lemma decision_insecure release cfg dev r :
  startup_attestation_decision release cfg dev = Ok (Insecure r) → r = release.
Proof.
  unfold startup_attestation_decision. destruct (negb (uses_mock cfg)); [done|].
  destruct release; simpl; [destruct dev; [|done]|]; by intros [= <-].
Qed.

Lemma build_tee_provider_Ok f cfg k : build_tee_provider f cfg = Ok k → k = att_tee_provider cfg.
Proof.
  unfold build_tee_provider. destruct (att_tee_provider cfg); [by intros [= <-]|..];
    case_match; (done || by intros [= <-]).
Qed.

(** ** Properties *)

(** C24: a process that serves is configured safely: a release build runs mock
    attestation only under the escape hatch and otherwise in secure mode; an
    insecure mode and a TPM verifier that accepts unpinned keys are always
    announced; the provider is the configured one; the listener is plaintext
    exactly when no TLS block is configured, so a certificate failure never
    falls back to plaintext. *)
Theorem serving_is_safe {T} (b : Build T) w args s
    (Hmain : main b w args = Ok (Serving s)) :
  let c := cfg_static (srv_config s) in
  (b_release b = true → env_var w INSECURE_DEV_ENV ≠ Some "1" →
   srv_mode s = Secure ∧ uses_mock (static_attestation c) = false) ∧
  (∀ r, srv_mode s = Insecure r →
     r = b_release b ∧ warn_insecure_mode (static_attestation c) r ⊆ srv_notices s) ∧
  (∀ p, srv_verifier s = TpmVerifier p → pol_allow_unpinned p = true →
     Notice_UnpinnedAk Ver_Tpm ∈ srv_notices s) ∧
  srv_provider s = att_tee_provider (static_attestation c) ∧
  (srv_verifier s = MockVerifier → att_verifier (static_attestation c) = Ver_Mock) ∧
  (srv_tls s = None ↔ server_tls (static_server c) = None).
Proof.
  cbv zeta. apply main_Serving in Hmain as (_&Hmode&Hp&Hv&Htls&Hn&_). split_and!.
  - intros Hrel Henv. rewrite Hrel in Hmode. apply decision_Ok in Hmode.
    assert (insecure_dev_env_set w = false) as Hdev.
    { unfold insecure_dev_env_set. destruct (env_var w INSECURE_DEV_ENV) as [v|]; [|done].
      apply bool_decide_eq_false. congruence. }
    rewrite Hdev in Hmode. naive_solver.
  - intros r Hr. rewrite Hr in Hmode, Hn. split; [by apply decision_insecure in Hmode|].
    rewrite Hn. intros n Hin. apply elem_of_app. by left.
  - intros p Hp' Hu. rewrite Hp' in Hv. apply build_verifier_tpm in Hv as (Hk&tpm&Ht&Hpol).
    rewrite Hn. apply elem_of_app. right. unfold warn_tpm_unpinned_ak.
    rewrite bool_decide_eq_true_2, Ht, <-Hpol, Hu, Hk by done. by left.
  - by apply build_tee_provider_Ok in Hp.
  - apply build_verifier_mock in Hv. tauto.
  - apply listener_tls_Ok in Htls. rewrite !eq_None_not_Some. tauto.
Qed.

(** The command line wins: a listen address or body limit given as a flag
    is the one in force, and the discovery flags can only enable a provider,
    never disable one that a lower layer enables. *)
Theorem cli_overrides_win file routes env args :
  let c := cfg_static (resolve_layers (file, routes) env (overrides args)) in
  (∀ addr, arg_listen args = Some addr → server_listen (static_server c) = addr) ∧
  (∀ n, arg_max_body_bytes args = Some n → server_max_body_bytes (static_server c) = n) ∧
  docker_enabled (disc_docker (static_discovery c)) =
    arg_docker args || default (default false (ps_docker_enabled file)) (ps_docker_enabled env) ∧
  kubernetes_enabled (disc_kubernetes (static_discovery c)) =
    arg_kubernetes args ||
    default (default false (ps_kubernetes_enabled file)) (ps_kubernetes_enabled env).
Proof.
  cbv zeta. unfold resolve_layers. rewrite resolve_static_spec.
  cbn [cfg_static static_spec static_server static_discovery server_listen server_max_body_bytes
       disc_docker disc_kubernetes docker_enabled kubernetes_enabled].
  unfold won, winner.
  cbn [overrides ps_listen ps_max_body_bytes ps_docker_enabled ps_kubernetes_enabled].
  split_and!.
  - by intros addr ->.
  - by intros n ->.
  - by destruct (arg_docker args), (ps_docker_enabled env), (ps_docker_enabled file).
  - by destruct (arg_kubernetes args), (ps_kubernetes_enabled env), (ps_kubernetes_enabled file).
Qed.

End startup.

(** ** The sequence with the models of TLS and ACME *)

Section program.
Context `{CE : !ConfigExt, UT : !UnicodeTables, TL : !TlsLib} `{AL : !AcmeLib}.

(** [wt] holds the same variables and files as the configuration's world. *)
Definition program_build (release : bool) (f : Features) (wt : World tls_io_error)
    (env : acme_env) : Build TlsServerConfig :=
  mkBuild release f
    (λ cert_path key_path, result_ok (server_config wt (StaticFiles cert_path key_path)))
    (λ acme addr, option_map snd (result_ok (setup_acme wt acme addr env).1)).

(** C25: a process that serves TLS has a certificate for its clients: the
    static pair that loaded, whose key is not known to belong to another
    certificate, or the automatic certificate that was in force when
    [setup_acme] returned; the source is the one the TLS block selects. *)
Theorem tls_listener_certified release f wt env w args s tc
    (Hmain : main (program_build release f wt env) w args = Ok (Serving s))
    (Htls : srv_tls s = Some tc) :
  let server := static_server (cfg_static (srv_config s)) in
  ∃ t mode, server_tls server = Some t ∧ TlsConfig_validate t = Ok mode ∧
  match tsc_resolver tc, mode with
  | Resolver_Static ck, TlsMode_Static cert key =>
      load_certified_key wt cert key = Ok ck ∧ ck_certs ck ≠ [] ∧
      ∀ e, keys_match (ck_certs ck) (ck_key ck) ≠ Keys_Mismatch e
  | Resolver_Acme, TlsMode_Acme acme =>
      ∃ m st, setup_acme wt acme (server_listen server) env = (Ok (m, tc), st) ∧
        ∀ hello, is_acme_alpn hello = false → is_Some (acme_resolve (st_resolver st) hello)
  | _, _ => False
  end.
Proof.
  cbv zeta. apply main_Serving in Hmain as (_&_&_&_&Hl&_). rewrite Htls in Hl.
  unfold listener_tls in Hl. destruct (server_tls _) as [t|]; [|done].
  apply result_bind_Ok in Hl as (mode&Hmode%map_err_Ok&Hl).
  exists t, mode. split_and!; [done..|]. destruct mode as [cert key|acme]; simpl in Hl.
  - unfold server_config in Hl. simpl in Hl.
    destruct (load_certified_key wt cert key) as [ck|e] eqn:Hk; [|done].
    injection Hl as <-. simpl. split; [done|]. by apply load_certified_key_Ok in Hk.
  - destruct (setup_acme wt acme _ env) as [[[m tc']|e] st] eqn:Hs; [|done].
    injection Hl as ->. pose proof Hs as Hc. apply setup_acme_clean in Hc as (Hc&_&_&_&->).
    simpl. exists m, st. split; [done|]. intros hello Hh. unfold acme_resolve. by rewrite Hh.
Qed.

End program.

(** ** A serving process: discovery and the router *)

Section service.
Context `{CE : !ConfigExt, UT : !UnicodeTables}.
Context `{CR : !Crypto, HTTP : !HttpLib, WSDK : !WsSdk, PSDK : !ProxySdk, RSDK : !RouterSdk}.

(** The application of a started process. *)
Definition server_app {T} (s : Server T) (mo : Moment) (m : Metrics) (parts : Parts)
    (body : http_body) : Answer :=
  serve_app (srv_rate_limit s) (srv_max_body_bytes s) mo m parts body.

(** Only a spawned provider gets answers. *)
Definition only_spawned {T} (s : Server T) (d : discovery_sys) : Prop :=
  (tk_seen (sy_1 d) = [] ∨ ∃ p, Spawn_Provider (Provider_Docker p) ∈ srv_spawned s) ∧
  (tk_seen (sy_2 d) = [] ∨ ∃ n, Spawn_Provider (Provider_Kubernetes n) ∈ srv_spawned s).

(** A state of the discovery tasks that the process spawned. *)
Definition discovery_of {T} (s : Server T) (d : discovery_sys) : Prop :=
  rtc sys_step (sys_init (Manager.file_routes (srv_manager s))) d ∧ only_spawned s d.

(** A route that the process was given: one of the configuration file, of a
    container that the daemon listed while Docker discovery is enabled, or of
    a watched object while Kubernetes discovery is enabled. *)
Definition given {T} (s : Server T) (d : discovery_sys) (route : Route) : Prop :=
  let c := cfg_static (srv_config s) in
  route ∈ cfg_file_routes (srv_config s) ∨
  docker_enabled (disc_docker (static_discovery c)) = true ∧
    (∃ t cs k, t ∈ tk_seen (sy_1 d) ∧ Docker.t_list t = Some cs ∧ k ∈ cs ∧
       route ∈ (routes_from_labels (default EmptyString (Docker.c_id k))
                  (default ∅ (Docker.c_labels k))).1) ∨
  kubernetes_enabled (disc_kubernetes (static_discovery c)) = true ∧
    (∃ kind op, Some (kind, op) ∈ tk_seen (sy_2 d) ∧ op_route op = Some route).

Lemma given_mono {T} (s : Server T) d d' route :
  tk_seen (sy_1 d) `prefix_of` tk_seen (sy_1 d') →
  tk_seen (sy_2 d) `prefix_of` tk_seen (sy_2 d') → given s d route → given s d' route.
Proof.
  intros H1 H2 [Hf|[(Hd&t&cs&k&Ht&H)|(Hk&kind&op&Hi&H)]]; [by left|right; left|right; right].
  - split; [done|]. exists t, cs, k. split; [by eapply elem_of_prefix|done].
  - split; [done|]. exists kind, op. split; [by eapply elem_of_prefix|done].
Qed.

Lemma spawned_provider p i disc :
  Spawn_Provider p ∈ Spawn_Eviction i :: spawn_discovery (build_providers disc) →
  match p with
  | Provider_Docker _ => docker_enabled (disc_docker disc) = true
  | Provider_Kubernetes _ => kubernetes_enabled (disc_kubernetes disc) = true
  end.
Proof.
  intros [?|Hin]%elem_of_cons; [done|]. unfold spawn_discovery in Hin.
  case_bool_decide; [by apply elem_of_nil in Hin|].
  apply elem_of_app in Hin as [Hin|Hin]; [|by apply list_elem_of_singleton in Hin].
  apply list_elem_of_fmap in Hin as (q&[= <-]&Hin). unfold build_providers in Hin.
  destruct (docker_enabled _), (kubernetes_enabled _); simpl in Hin;
    rewrite ?elem_of_cons, ?elem_of_nil in Hin; naive_solver.
Qed.

Lemma select_given {T} (b : Build T) w args s d host path route :
  main b w args = Ok (Serving s) → discovery_of s d →
  select (Manager.handle (sy_manager d)) host path = Some route → given s d route.
Proof.
  intros Hmain [Hr [H1 H2]] Hsel. apply main_Serving in Hmain as (_&_&_&_&_&_&Hmgr&Hsp&_).
  rewrite Hsp in H1, H2. rewrite Hmgr in Hr.
  destruct discovery_names as [Hle Hne].
  destruct (consistent_table Hle Hne _ _ Hr) as (ts&items&Hts&Hitems&Ht).
  rewrite Ht, select_new in Hsel. apply best_route_elem in Hsel as [Hin _].
  rewrite !elem_of_app in Hin. destruct Hin as [Hin|[Hin|Hin]]; [by left|right; left|right; right].
  - apply last_poll_origin in Hin as [Hn|(t&cs&k&Htk&Hl&Hk&Hrt)]; [by apply elem_of_nil in Hn|].
    pose proof (elem_of_prefix _ _ _ Htk Hts) as Hseen.
    split; [|by exists t, cs, k]. destruct H1 as [H1|[p Hp]].
    + rewrite H1 in Hseen. by apply elem_of_nil in Hseen.
    + by apply spawned_provider in Hp.
  - apply stores_origin in Hin as (kind&op&Hi&Hop).
    pose proof (elem_of_prefix _ _ _ Hi Hitems) as Hseen.
    split; [|by exists kind, op]. destruct H2 as [H2|[n Hn]].
    + rewrite H2 in Hseen. by apply elem_of_nil in Hseen.
    + by apply spawned_provider in Hn.
Qed.

(** At every state of the discovery tasks, a call that the router of a serving
    process makes for a request goes to the upstream of a given route and
    carries no more than the configured body limit. *)
Lemma call_given {T} (b : Build T) w args s d mo m parts body meth url data :
  main b w args = Ok (Serving s) → discovery_of s d →
  mo_table mo = Manager.handle (sy_manager d) →
  an_call (server_app s mo m parts body) = Some (meth, url, data) →
  Z.le (Z.of_nat (length data)) (server_max_body_bytes (static_server (cfg_static (srv_config s)))) ∧
  ∃ route path query, url = upstream_url (route_upstream route) path query ∧ given s d route.
Proof.
  intros Hmain Hd Htable Hcall. pose proof Hmain as (_&_&_&_&_&_&_&_&Hmax)%main_Serving.
  unfold server_app in Hcall. rewrite Hmax in Hcall.
  apply serve_app_call, serve_proxy_call in Hcall as (parts'&body'&req&m'&_&_&Hc).
  apply proxy_handler_call in Hc as (->&Hlen&route&Hsel&->). split; [done|].
  exists route, (dr_path req), (dr_query req). split; [done|].
  rewrite Htable in Hsel. by eapply select_given.
Qed.

End service.

(** ** A concrete start *)

#[local] Existing Instance DumpExample.tables.

Definition example_build : Build unit :=
  mkBuild true (mkFeatures false false false false false false false false true)
    (λ _ _, None) (λ _ _, None).

Definition example_world : World (@io_error Concrete.ext) :=
  mkWorld (<["ARCHETYPE_PROXY_TEE_PROVIDER" := "tpm"]>
             (<["ARCHETYPE_PROXY_ALLOW_MOCK" := "false"]> (w_env Concrete.world)))
    (w_exists Concrete.world) (w_read Concrete.world).

Definition example_args : Args := mkArgs None None None None true false None 0 None.

Definition is_serving {E T} (r : result E (Outcome T)) : bool :=
  match r with Ok (Serving _) => true | _ => false end.

Lemma serving_is_safe_witness :
  ∃ s, main (CE := Concrete.ext) example_build example_world example_args = Ok (Serving s) ∧
    srv_mode s = Secure ∧ srv_provider s = Tee_Tpm.
Proof.
  assert (is_serving (main (CE := Concrete.ext) example_build example_world example_args) = true)
    as Hs by (vm_compute; reflexivity).
  destruct (main (CE := Concrete.ext) example_build example_world example_args) as [[c|s]|e] eqn:Hm;
    [discriminate| |discriminate].
  exists s. split; [reflexivity|].
  destruct (serving_is_safe (CE := Concrete.ext) example_build example_world example_args s Hm)
    as (Hmode&_&_&Hp&_).
  destruct Hmode as [Hsec Hmock]; [reflexivity|vm_compute; discriminate|].
  split; [exact Hsec|]. rewrite Hp. apply main_Serving in Hm as (Hl&_).
  assert (option_map (λ c, att_tee_provider (static_attestation (cfg_static c)))
            (result_ok (load (CE := Concrete.ext) example_world (overrides example_args)
                          (args_config_path example_args))) = Some Tee_Tpm) as Ht
    by (vm_compute; reflexivity).
  rewrite Hl in Ht. by injection Ht.
Defined.

(** A file with automatic certificates, the parser that reads it, and the
    start with the concrete authority. *)
Definition acme_file : FileConfig :=
  mkFileConfig
    (mkFileServer None None
       (Some (mkTlsConfig None None (Some (AcmeToy.cfg TlsAlpn01 (Some "/var/acme"))))))
    (fc_attestation Concrete.empty_file) (fc_rate_limit Concrete.empty_file)
    (fc_discovery Concrete.empty_file) None [].

Definition tls_ext : ConfigExt := {|
  io_error := unit; toml_error := unit; hex_error := unit; pem_error := unit;
  x509_error := unit; invalid_utf8 := tt;
  toml_from_str _ := Ok acme_file;
  hex_decode := Concrete.decode;
  pem_certs bs := Ok [bs];
  x509_from_der bs := match bs with [] => Err tt | _ => Ok tt end |}.

Definition tls_world : World (@io_error tls_ext) :=
  mkWorld (w_env example_world) (λ p, bool_decide (p = DEFAULT_CONFIG_PATH))
    (λ p, if bool_decide (p = DEFAULT_CONFIG_PATH) then Ok [] else w_read Concrete.world p).

Definition toy_build : Build (@TlsServerConfig AcmeToy.tls) :=
  program_build (TL := AcmeToy.tls) (AL := AcmeToy.lib) true (b_features example_build)
    (mkWorld ∅ (λ _, false) (λ _, Err tt)) (AcmeToy.mkEnv ∅ 0 AcmeToy.offered true "key").

Lemma tls_listener_certified_witness :
  ∃ s tc, main (CE := tls_ext) toy_build tls_world example_args = Ok (Serving s) ∧
    srv_tls s = Some tc ∧
    ∃ t mode, server_tls (static_server (cfg_static (srv_config s))) = Some t ∧
      TlsConfig_validate t = Ok mode.
Proof.
  assert (match main (CE := tls_ext) toy_build tls_world example_args with
          | Ok (Serving s) => bool_decide (is_Some (srv_tls s)) | _ => false end = true)
    as Hs by (vm_compute; reflexivity).
  destruct (main (CE := tls_ext) toy_build tls_world example_args) as [[c|s]|e] eqn:Hm;
    [discriminate| |discriminate].
  apply bool_decide_eq_true in Hs as [tc Htc]. exists s, tc.
  destruct (tls_listener_certified (CE := tls_ext) (TL := AcmeToy.tls) (AL := AcmeToy.lib)
    _ _ _ _ _ _ _ _ Hm Htc) as (t&mode&Ht&Hv&_).
  split; [reflexivity|]. split; [exact Htc|]. exists t, mode. split; [exact Ht|exact Hv].
Defined.

(** One polled container, delivered, and a request for it. *)
Definition delivered : discovery_sys :=
  mkSys (mkTask (tk_state polled) [] (tk_seen polled)) (mkTask K8s.k8s_init [] []) []
    (Manager.manager_run (Manager.manager_new []) (tk_pending polled)).

Lemma delivered_reachable : rtc sys_step (sys_init []) delivered.
Proof.
  eapply rtc_l; [apply (sys_work1 (mkTask Docker.docker_init [] []) _ _ _
    (Docker.mkTick true (Some [example_container]))); reflexivity|].
  eapply rtc_l; [apply sys_deliver; eapply deliver_push1;
    [reflexivity|apply (bool_decide_unpack _); reflexivity]|].
  apply rtc_once, sys_deliver, deliver_recv.
Qed.
