(* ===== verification/Secrecy.v ===== *)
(** * What a start reveals

    The verifier's API key comes from an environment variable.  Here the whole
    start is compared for two values of that variable: everything the process
    prints, decides and opens is the same, and only the verifier itself gets
    the key. *)

From S2P Require Import Prelude RustStr SocketAddr Format Routing Config Labels Layers Dump TpmEnv Discovery Float Metrics Attestation Startup.

Definition API_KEY_ENV : string := "ARCHETYPE_PROXY_VERIFIER_API_KEY".

(** The world with a given key. *)
Definition with_key {E} (key : string) (w : World E) : World E :=
  mkWorld (<[API_KEY_ENV := key]> (w_env w)) (w_exists w) (w_read w).

(** ** Hiding the key *)

Definition hide_layer (p : PartialStatic) : PartialStatic :=
  {| ps_listen := ps_listen p;
     ps_max_body_bytes := ps_max_body_bytes p;
     ps_tls := ps_tls p;
     ps_allow_mock := ps_allow_mock p;
     ps_strict_attestation := ps_strict_attestation p;
     ps_atb_ttl_secs := ps_atb_ttl_secs p;
     ps_atb_eviction_interval_secs := ps_atb_eviction_interval_secs p;
     ps_atb_max_sessions := ps_atb_max_sessions p;
     ps_tee_provider := ps_tee_provider p;
     ps_verifier := ps_verifier p;
     ps_verifier_endpoint := ps_verifier_endpoint p;
     ps_verifier_api_key := (λ _, EmptyString) <$> ps_verifier_api_key p;
     ps_tpm := ps_tpm p;
     ps_rate_limit_max_requests := ps_rate_limit_max_requests p;
     ps_rate_limit_window_secs := ps_rate_limit_window_secs p;
     ps_docker_enabled := ps_docker_enabled p;
     ps_docker_socket := ps_docker_socket p;
     ps_docker_poll_secs := ps_docker_poll_secs p;
     ps_kubernetes_enabled := ps_kubernetes_enabled p;
     ps_kubernetes_namespace := ps_kubernetes_namespace p |}.

Definition hide_attestation (a : AttestationConfig) : AttestationConfig :=
  mkAttestationConfig (att_allow_mock a) (att_strict_attestation a) (att_atb_ttl_secs a)
    (att_atb_eviction_interval_secs a) (att_atb_max_sessions a) (att_tee_provider a) (att_verifier a)
    (att_verifier_endpoint a) ((λ _, EmptyString) <$> att_verifier_api_key a) (att_tpm a).

Definition hide_config (c : Config) : Config :=
  let s := cfg_static c in
  mkConfig (mkStaticConfig (static_server s) (hide_attestation (static_attestation s))
              (static_discovery s) (static_rate_limit s))
    (cfg_file_routes c) (cfg_provenance c).

Definition hide_verifier (v : Verifier) : Verifier :=
  match v with ItaVerifier _ endpoint => ItaVerifier EmptyString endpoint | v => v end.

(** What can be seen of a start: all but the key. *)
Definition hide_outcome {T} (o : Outcome T) : Outcome T :=
  match o with
  | Dumped text => Dumped text
  | Serving s =>
      Serving (mkServer (hide_config (srv_config s)) (srv_mode s) (srv_notices s) (srv_provider s)
                 (hide_verifier (srv_verifier s)) (srv_sessions s) (srv_spawned s) (srv_manager s)
                 (srv_max_body_bytes s) (srv_metrics s) (srv_rate_limit s) (srv_listen s) (srv_tls s))
  end.

Section secrecy.
Context `{CE : !ConfigExt, UT : !UnicodeTables}.

#[local] Instance Ok_inj {E A} : Inj (=) (=) (@Ok E A).
Proof. intros a b Hab. by injection Hab. Qed.

(** ** The environment layer *)

Section two_keys.
Context (w0 : World io_error) (k k' : string) (Hk : k ≠ EmptyString) (Hk' : k' ≠ EmptyString).
Let w : World io_error := with_key k w0.
Let w' : World io_error := with_key k' w0.

Lemma env_var_low name : name ≠ API_KEY_ENV → env_var w name = env_var w' name.
Proof. intros Hn. unfold env_var, w, w'. simpl. by rewrite !lookup_insert_ne. Qed.

Lemma var_low name : name ≠ API_KEY_ENV → var w name = var w' name.
Proof. intros Hn. unfold var. by rewrite env_var_low. Qed.

Lemma env_parse_low {T} (p : string → result EnvReason T) name :
  name ≠ API_KEY_ENV → env_parse p w name = env_parse p w' name.
Proof. intros Hn. unfold env_parse. by rewrite var_low. Qed.

Lemma env_parse_bool_low name :
  name ≠ API_KEY_ENV → env_parse_bool w name = env_parse_bool w' name.
Proof. intros Hn. unfold env_parse_bool. by rewrite var_low. Qed.

Lemma read_tpm_env_low : read_tpm_env w = read_tpm_env w'.
Proof. unfold read_tpm_env. by rewrite !var_low by done. Qed.

Lemma var_key : var w API_KEY_ENV = Some k ∧ var w' API_KEY_ENV = Some k'.
Proof.
  unfold var, env_var, w, w'. simpl. rewrite !lookup_insert_eq. simpl.
  by rewrite !is_empty_false.
Qed.

Lemma read_env_low : hide_layer <$> read_env w = hide_layer <$> read_env w'.
Proof.
  unfold read_env. rewrite !env_parse_low, !env_parse_bool_low, read_tpm_env_low by done.
  rewrite (var_low "ARCHETYPE_PROXY_VERIFIER_ENDPOINT"),
    (var_low "ARCHETYPE_PROXY_DOCKER_SOCKET"), (env_var_low "ARCHETYPE_PROXY_KUBERNETES_NAMESPACE")
    by done.
  destruct var_key as [H1 H2]. unfold API_KEY_ENV in H1, H2. rewrite H1, H2.
  repeat (match goal with |- context [mbind _ ?r] => destruct r; [simpl|done] end). done.
Qed.

Lemma read_file_low path : read_file w path = read_file w' path.
Proof. done. Qed.

Lemma config_path_low explicit : config_path w explicit = config_path w' explicit.
Proof. unfold config_path. by rewrite env_var_low. Qed.

(** ** The resolved configuration *)

Lemma hide_layer_resolved file routes env env' cli :
  hide_layer env = hide_layer env' →
  hide_config (resolve_layers (file, routes) env cli) =
  hide_config (resolve_layers (file, routes) env' cli).
Proof.
  intros He. unfold resolve_layers. rewrite !resolve_static_spec.
  destruct env as [? ? ? ? ? ? ? ? ? ? ? key ? ? ? ? ? ? ? ?],
    env' as [? ? ? ? ? ? ? ? ? ? ? key' ? ? ? ? ? ? ? ?].
  unfold hide_layer in He. simpl in He. injection He as -> -> -> -> -> -> -> -> -> -> -> Hkey
    -> -> -> -> -> -> -> ->.
  unfold hide_config, hide_attestation, static_spec, provenance_spec, won_opt, won.
  cbn [cfg_static cfg_file_routes cfg_provenance ps_listen ps_max_body_bytes ps_tls ps_allow_mock
    ps_strict_attestation ps_atb_ttl_secs ps_atb_eviction_interval_secs ps_atb_max_sessions
    ps_tee_provider ps_verifier ps_verifier_endpoint ps_verifier_api_key ps_tpm
    ps_rate_limit_max_requests ps_rate_limit_window_secs ps_docker_enabled ps_docker_socket
    ps_docker_poll_secs ps_kubernetes_enabled ps_kubernetes_namespace static_server
    static_attestation static_discovery static_rate_limit att_allow_mock att_strict_attestation
    att_atb_ttl_secs att_atb_eviction_interval_secs att_atb_max_sessions att_tee_provider
    att_verifier att_verifier_endpoint att_verifier_api_key att_tpm].
  destruct key, key'; try done.
  by destruct (ps_verifier_api_key cli).
Qed.

Lemma validate_low c c' : hide_config c = hide_config c' → validate w c = validate w' c'.
Proof.
  intros Hc. unfold validate. assert (static_attestation (cfg_static (hide_config c)) =
    static_attestation (cfg_static (hide_config c'))) as Ha by (by rewrite Hc).
  unfold hide_config, hide_attestation in Ha. simpl in Ha. injection Ha as _ _ _ _ _ Ht Hv _ _ Htpm.
  unfold uses_tpm. by rewrite Ht, Hv, Htpm.
Qed.

Lemma load_low cli explicit :
  hide_config <$> load w cli explicit = hide_config <$> load w' cli explicit.
Proof.
  unfold load. rewrite config_path_low, read_file_low.
  cbv zeta. destruct (read_file w' _) as [[file routes]|]; [|reflexivity]. cbn [mbind result_bind].
  pose proof read_env_low as He. revert He. generalize (read_env w) (read_env w').
  intros [env|e] [env'|e'] He; cbn [fmap result_fmap] in He.
  - apply (inj Ok) in He. cbn [mbind result_bind].
    pose proof (hide_layer_resolved file routes env env' cli He) as Hr.
    rewrite (validate_low _ _ Hr). destruct (validate w' _); cbn [mbind result_bind fmap result_fmap];
      [by rewrite Hr|reflexivity].
  - discriminate He.
  - discriminate He.
  - injection He as ->. reflexivity.
Qed.

(** ** The stages of the start *)

Lemma decision_low release a a' dev :
  hide_attestation a = hide_attestation a' →
  startup_attestation_decision release a dev = startup_attestation_decision release a' dev.
Proof.
  intros Ha. injection Ha as Hm _ _ _ _ Ht Hv _ _ _.
  unfold startup_attestation_decision, uses_mock. by rewrite Hm, Ht, Hv.
Qed.

Lemma build_tee_provider_low f a a' :
  hide_attestation a = hide_attestation a' → build_tee_provider f a = build_tee_provider f a'.
Proof. intros Ha. injection Ha as _ _ _ _ _ Ht _ _ _ _. unfold build_tee_provider. by rewrite Ht. Qed.

Lemma build_verifier_low f a a' :
  hide_attestation a = hide_attestation a' →
  hide_verifier <$> build_verifier f w a = hide_verifier <$> build_verifier f w' a'.
Proof.
  intros Ha. injection Ha as _ _ _ _ _ _ Hv He Hkey Ht.
  unfold build_verifier, build_tpm_verifier. rewrite Hv, He, Ht.
  destruct (att_verifier a'); try reflexivity.
  destruct (f_ita f); [|reflexivity]. destruct (att_verifier_endpoint a'); [|reflexivity].
  destruct (att_verifier_api_key a), (att_verifier_api_key a'); try discriminate; reflexivity.
Qed.

Lemma warnings_low a a' mode :
  hide_attestation a = hide_attestation a' →
  match mode with Secure => [] | Insecure r => warn_insecure_mode a r end ++ warn_tpm_unpinned_ak a =
  match mode with Secure => [] | Insecure r => warn_insecure_mode a' r end ++ warn_tpm_unpinned_ak a'.
Proof.
  intros Ha. injection Ha as Hm _ _ _ _ Ht Hv _ _ Htpm.
  unfold warn_insecure_mode, warn_tpm_unpinned_ak. by rewrite Hm, Ht, Hv, Htpm.
Qed.

Lemma dump_low c c' : hide_config c = hide_config c' → dump c = dump c'.
Proof.
  intros Hc. assert (dump (hide_config c) = dump c) as <-; [|assert (dump (hide_config c') = dump c')
    as <-; [|by rewrite Hc]]; reflexivity.
Qed.

Lemma main_low {T} (b : Build T) args :
  hide_outcome <$> main b w args = hide_outcome <$> main b w' args.
Proof.
  unfold main. pose proof (load_low (overrides args) (args_config_path args)) as Hl. revert Hl.
  generalize (load w (overrides args) (args_config_path args)),
    (load w' (overrides args) (args_config_path args)).
  intros [c|e] [c'|e'] Hl; cbn [fmap result_fmap] in Hl; [|discriminate Hl..|by injection Hl as ->].
  apply (inj Ok) in Hl. cbn [map_err mbind result_bind].
  destruct (args_dump args); [by rewrite (dump_low c c' Hl)|]. cbv zeta.
  pose proof (f_equal (λ c, static_server (cfg_static c)) Hl : static_server (cfg_static c) =
    static_server (cfg_static c')) as ->.
  pose proof (f_equal (λ c, static_discovery (cfg_static c)) Hl : static_discovery (cfg_static c) =
    static_discovery (cfg_static c')) as ->.
  pose proof (f_equal (λ c, static_rate_limit (cfg_static c)) Hl : static_rate_limit (cfg_static c) =
    static_rate_limit (cfg_static c')) as ->.
  pose proof (f_equal cfg_file_routes Hl : cfg_file_routes c = cfg_file_routes c') as ->.
  pose proof (f_equal (λ c, static_attestation (cfg_static c)) Hl :
    hide_attestation (static_attestation (cfg_static c)) =
    hide_attestation (static_attestation (cfg_static c'))) as Ha.
  assert (insecure_dev_env_set w = insecure_dev_env_set w') as ->
    by (unfold insecure_dev_env_set; by rewrite env_var_low).
  rewrite (decision_low _ _ _ _ Ha).
  destruct (startup_attestation_decision _ _ _) as [mode|]; [|reflexivity]. cbn [map_err mbind result_bind].
  rewrite (build_tee_provider_low _ _ _ Ha).
  destruct (build_tee_provider _ _) as [p|]; [|reflexivity]. cbn [map_err mbind result_bind].
  pose proof (build_verifier_low (b_features b) _ _ Ha) as Hv. revert Hv.
  generalize (build_verifier (b_features b) w (static_attestation (cfg_static c))),
    (build_verifier (b_features b) w' (static_attestation (cfg_static c'))).
  intros [v|e] [v'|e'] Hv; cbn [fmap result_fmap] in Hv; [|discriminate Hv..|by injection Hv as ->].
  apply (inj Ok) in Hv. cbn [map_err mbind result_bind].
  destruct (listener_tls b _) as [tls|]; [|reflexivity].
  cbn [mbind result_bind fmap result_fmap hide_outcome srv_config srv_mode srv_notices srv_provider
    srv_verifier srv_sessions srv_spawned srv_manager srv_max_body_bytes srv_metrics srv_rate_limit
    srv_listen srv_tls].
  rewrite (warnings_low _ _ mode Ha), Hl, Hv. injection Ha as _ _ -> -> -> _ _ _ _ _. reflexivity.
Qed.
End two_keys.

(** ** Property *)

(** C18: a start does not reveal the verifier's key: for two non-empty values of the
    key variable (an empty one counts as unset), the process exits with the same error, prints the same dump, or
    serves with the same configuration, warnings, tasks, limits and listener;
    only the key handed to the verifier differs. *)
Theorem start_hides_api_key {T} (b : Build T) w args k k'
    (Hk : k ≠ EmptyString) (Hk' : k' ≠ EmptyString) :
  hide_outcome <$> main b (with_key k w) args = hide_outcome <$> main b (with_key k' w) args.
Proof. by apply main_low. Qed.

End secrecy.

(** ** Two concrete starts *)

#[local] Existing Instance DumpExample.tables.

Lemma start_hides_api_key_witness :
  is_serving (main (CE := Concrete.ext) example_build (with_key "a" example_world) example_args) = true ∧
  hide_outcome <$> main (CE := Concrete.ext) example_build (with_key "a" example_world) example_args =
  hide_outcome <$> main (CE := Concrete.ext) example_build (with_key "b" example_world) example_args.
Proof.
  split; [vm_compute; reflexivity|].
  apply (start_hides_api_key (CE := Concrete.ext) example_build example_world example_args "a" "b");
    discriminate.
Defined.
