(* ===== verification/Process.v ===== *)
(** * The running process

    A serving process as one transition system: the discovery tasks with the
    manager, the requests that the router works on, and the WebSocket bridges
    that it spawns, in any interleaving.  A request begins at the moment at
    which its handler loads the live table, then advances by the steps of
    [Flight], between which everything else may happen, until it is answered
    or, where it waits, dropped.  An answer that upgrades the connection spawns
    a bridge, which goes on by its own events. *)

From stdpp Require Import relations.
From S2P Require Import Prelude RustStr SocketAddr Format Routing Config Labels Layers Dump TpmEnv Discovery LiveTable DiscoverySystem Float Metrics Http Ws WsSpec Proxy ProxySpec Router Flight Attestation Tls Acme AcmeSpec Startup.

Section process.
Context `{CE : !ConfigExt, UT : !UnicodeTables}.
Context `{CR : !Crypto, HTTP : !HttpLib, WSDK : !WsSdk, PSDK : !ProxySdk, RSDK : !RouterSdk}.

(** A spawned [run_bridge]: its arguments, how dialling ended, and the events
    of its two sides so far. *)
Record Connection := mkConnection {
  cn_url : string;
  cn_keys : WsKeys;
  cn_aad : list Z;
  cn_dial : result ws_error unit;
  cn_events : list BridgeEvent;
}.

Definition cn_bridge (c : Connection) : result BridgeError Bridge :=
  run_bridge (cn_dial c) (cn_keys c) (cn_aad c) (cn_events c).

Definition cn_event (c : Connection) (e : BridgeEvent) : Connection :=
  mkConnection (cn_url c) (cn_keys c) (cn_aad c) (cn_dial c) (cn_events c ++ [e]).

Definition Request : Type := Moment * Parts * http_body.

(** A request in flight. *)
Record Flight := mkFlight {
  fl_request : Request;
  fl_local : Local;
}.

(** [pr_started] keeps the requests in the order in which they begin, whatever
    becomes of them; [pr_log] those that were answered, with the answers, in
    the order of the answers. *)
Record Process := mkProcess {
  pr_discovery : discovery_sys;
  pr_metrics : Metrics;
  pr_started : list Request;
  pr_flights : list Flight;
  pr_dropped : list Flight;
  pr_log : list (Request * Answer);
  pr_bridges : list Connection;
}.

Section steps.
Context {T : Type} (s : Server T).

Definition process_init : Process :=
  mkProcess (sys_init (Manager.file_routes (srv_manager s))) Metrics_new [] [] [] [] [].

(** [ws.on_upgrade(..)]: the bridge that an answer spawns. *)
Definition opened (t : Turn) (dial : result ws_error unit) : list Connection :=
  match t with
  | T_Answer (R_Upgrade (Upgraded url keys aad)) _ => [mkConnection url keys aad dial []]
  | _ => []
  end.

(** What a step of a request leaves: a request in flight, or an answer. *)
Definition settle (p : Process) (req : Request) (t : Turn * Metrics) : Process :=
  match t with
  | (T_Local l, m) =>
      mkProcess (pr_discovery p) m (pr_started p) (pr_flights p ++ [mkFlight req l]) (pr_dropped p)
        (pr_log p) (pr_bridges p)
  | (T_Answer r call, m) =>
      mkProcess (pr_discovery p) m (pr_started p) (pr_flights p) (pr_dropped p)
        (pr_log p ++ [(req, mkAnswer r m call)]) (pr_bridges p)
  end.

Definition process_begin (p : Process) (mo : Moment) (parts : Parts) (body : http_body)
    (dial : result ws_error unit) : Process :=
  let t := begin (srv_rate_limit s) (srv_max_body_bytes s) mo (pr_metrics p) parts body in
  settle (mkProcess (pr_discovery p) (pr_metrics p) (pr_started p ++ [(mo, parts, body)])
            (pr_flights p) (pr_dropped p) (pr_log p) (pr_bridges p ++ opened t.1 dial))
    (mo, parts, body) t.

(** The process with other requests in flight, and others dropped. *)
Definition with_flights (p : Process) (flights dropped : list Flight) : Process :=
  mkProcess (pr_discovery p) (pr_metrics p) (pr_started p) flights dropped (pr_log p) (pr_bridges p).

(** The next step of [f], with [rest] the other requests in flight. *)
Definition process_advance (p : Process) (f : Flight) (rest : list Flight) : Process :=
  let '(mo, parts, body) := fl_request f in
  settle (with_flights p rest (pr_dropped p)) (fl_request f)
    (advance (srv_max_body_bytes s) mo (pr_metrics p) parts body (fl_local f)).

Inductive process_step : Process → Process → Prop :=
| step_discovery p d :
    sys_step (pr_discovery p) d → only_spawned s d →
    process_step p (mkProcess d (pr_metrics p) (pr_started p) (pr_flights p) (pr_dropped p) (pr_log p)
                      (pr_bridges p))
| step_begin p mo parts body dial :
    mo_table mo = Manager.handle (sy_manager (pr_discovery p)) →
    process_step p (process_begin p mo parts body dial)
| step_advance p fs f fs' :
    pr_flights p = fs ++ f :: fs' →
    process_step p (process_advance p f (fs ++ fs'))
| step_drop p fs f fs' :
    pr_flights p = fs ++ f :: fs' → suspended (fl_local f) = true →
    process_step p (with_flights p (fs ++ fs') (pr_dropped p ++ [f]))
| step_bridge p cs c cs' e :
    pr_bridges p = cs ++ c :: cs' →
    process_step p (mkProcess (pr_discovery p) (pr_metrics p) (pr_started p) (pr_flights p)
                      (pr_dropped p) (pr_log p) (cs ++ cn_event c e :: cs')).

(** ** Discovery along a run *)

Lemma sys_step_seen (d d' : discovery_sys) :
  sys_step d d' →
  tk_seen (sy_1 d) `prefix_of` tk_seen (sy_1 d') ∧ tk_seen (sy_2 d) `prefix_of` tk_seen (sy_2 d').
Proof.
  intros [t1 t2 ch m i _|t1 t2 ch m i _|? ? []]; split; simpl; try reflexivity; by exists [i].
Qed.

(** Requests leave discovery alone. *)
Lemma settle_discovery p req t : pr_discovery (settle p req t) = pr_discovery p.
Proof. by destruct t as [[] ?]. Qed.

Lemma advance_discovery p f rest : pr_discovery (process_advance p f rest) = pr_discovery p.
Proof. unfold process_advance. destruct (fl_request f) as [[??]?]. by rewrite settle_discovery. Qed.

Lemma process_discovery p :
  rtc process_step process_init p → discovery_of s (pr_discovery p).
Proof.
  revert p. apply rtc_ind_r; [by split; [|split; left]|intros p p' _ Hs IH].
  destruct Hs as [p d Hd Hod|p mo parts body dial _|p fs f fs' _|p fs f fs' _ _|p cs c cs' e _]; [|..|done].
  - destruct IH as [Hr Ho]. split; [|done]. by eapply rtc_r.
  - unfold process_begin. by rewrite settle_discovery.
  - by rewrite advance_discovery.
  - done.
Qed.

(** ** What becomes of the requests *)

(** A request [req] that began in a state of discovery that [d] has come from,
    and whose answer and call are those of the application. *)
Definition served_as (d : discovery_sys) (req : Request) (out : Response * option Call) : Prop :=
  let '(mo, parts, body) := req in
  ∃ m d0, out = (an_response (server_app s mo m parts body), an_call (server_app s mo m parts body)) ∧
    discovery_of s d0 ∧ mo_table mo = Manager.handle (sy_manager d0) ∧
    tk_seen (sy_1 d0) `prefix_of` tk_seen (sy_1 d) ∧
    tk_seen (sy_2 d0) `prefix_of` tk_seen (sy_2 d).

Definition logged (d : discovery_sys) (e : Request * Answer) : Prop :=
  served_as d e.1 (an_response e.2, an_call e.2).

Definition flying (d : discovery_sys) (f : Flight) : Prop :=
  let '(mo, parts, body) := fl_request f in
  served_as d (fl_request f) (outcome_of (srv_max_body_bytes s) mo parts body (fl_local f)) ∧
  local_ok mo (fl_local f).

Definition requests_ok (p : Process) : Prop :=
  Forall (logged (pr_discovery p)) (pr_log p) ∧
  Forall (flying (pr_discovery p)) (pr_flights p) ∧ Forall (flying (pr_discovery p)) (pr_dropped p).

Lemma served_as_mono d d' req out : sys_step d d' → served_as d req out → served_as d' req out.
Proof.
  intros [H1 H2]%sys_step_seen. destruct req as [[mo parts] body].
  intros (m&d0&Ha&Hd&Ht&Hp1&Hp2). exists m, d0. split_and!; [done..|by etrans|by etrans].
Qed.

Lemma requests_ok_discovery p d :
  sys_step (pr_discovery p) d → requests_ok p →
  requests_ok (mkProcess d (pr_metrics p) (pr_started p) (pr_flights p) (pr_dropped p) (pr_log p)
                 (pr_bridges p)).
Proof.
  intros Hd (Hl&Hf&Hx). assert (∀ f, flying (pr_discovery p) f → flying d f) as Hm.
  { intros [[[mo parts] body] l] [Hs Hk]. split; [by eapply served_as_mono|done]. }
  split_and!; simpl; (eapply Forall_impl; [eassumption|]); [|done..].
  intros e. by apply served_as_mono.
Qed.

Lemma settle_ok p mo parts body t :
  requests_ok p →
  served_as (pr_discovery p) (mo, parts, body) (turn_outcome (srv_max_body_bytes s) mo parts body t.1) →
  (∀ l, t.1 = T_Local l → local_ok mo l) →
  requests_ok (settle p (mo, parts, body) t).
Proof.
  intros (Hl&Hf&Hx) Hs Hk. destruct t as [[l|r call] m]; split_and!; try done; simpl;
    apply Forall_app; (split; [done|]); (constructor; [|constructor]); [|done].
  split; [done|by apply Hk].
Qed.

Lemma requests_ok_rest p fs f fs' :
  pr_flights p = fs ++ f :: fs' → requests_ok p →
  flying (pr_discovery p) f ∧ requests_ok (with_flights p (fs ++ fs') (pr_dropped p)).
Proof.
  intros Hfs (Hl&Hf&Hx). rewrite Hfs in Hf. apply Forall_app in Hf as [H1 [Hf H2]%Forall_cons].
  split; [done|]. split_and!; [done|by apply Forall_app|done].
Qed.

Lemma advance_local_ok max mo m parts body l l' :
  local_ok mo l → (advance max mo m parts body l).1 = T_Local l' → local_ok mo l'.
Proof.
  destruct l as [|r|req me url|req me url|req me url [r|t]|req me url t]; simpl;
    intros Hl Heq; try discriminate Heq; injection Heq as <-; done.
Qed.

Lemma process_requests p : rtc process_step process_init p → requests_ok p.
Proof.
  revert p. apply rtc_ind_r; [by split_and!|]. intros p p' Hr Hs IH.
  destruct Hs as [p d Hd _|p mo parts body dial Ht|p fs f fs' Hfs|p fs f fs' Hfs _|p cs c cs' e _]; [..|done].
  - by apply requests_ok_discovery.
  - unfold process_begin. set (t := begin _ _ _ _ _ _). apply settle_ok; [done| |].
    + exists (pr_metrics p), (pr_discovery p). split_and!; try done; [|by apply process_discovery].
      apply begin_outcome.
    + intros l Hl. destruct t as [u m] eqn:Hb. simpl in Hl. subst u.
      by apply begin_fresh in Hb as [_ [->|(?&?&?&->)]].
  - destruct (requests_ok_rest _ _ _ _ Hfs IH) as [Hf Hok]. destruct f as [[[mo parts] body] l].
    destruct Hf as [Hf Hk]. apply settle_ok; [done| |].
    + simpl fl_local. by rewrite advance_outcome.
    + intros l' Hl. by eapply advance_local_ok.
  - destruct (requests_ok_rest _ _ _ _ Hfs IH) as [Hf (Hl&Hok&Hx)]. split_and!; [done..|].
    apply Forall_app. split; [done|]. by constructor.
Qed.

(** Every request that began is answered, in flight or dropped, once. *)
Definition accounted (p : Process) : list Request :=
  (pr_log p).*1 ++ (fl_request <$> pr_flights p) ++ (fl_request <$> pr_dropped p).

Lemma settle_accounted p req t : accounted (settle p req t) ≡ₚ req :: accounted p.
Proof.
  unfold accounted. destruct t as [[l|r call] m]; simpl; rewrite fmap_app; simpl; solve_Permutation.
Qed.

Lemma process_accounted p : rtc process_step process_init p → pr_started p ≡ₚ accounted p.
Proof.
  revert p. apply rtc_ind_r; [done|]. intros p p' _ Hs IH.
  destruct Hs as [p d _ _|p mo parts body dial _|p fs f fs' Hfs|p fs f fs' Hfs _|p cs c cs' e _];
    [done| | | |done].
  - unfold process_begin. rewrite settle_accounted. unfold accounted. destruct (begin _ _ _ _ _ _) as [[] ?];
      simpl; rewrite IH; unfold accounted; solve_Permutation.
  - unfold process_advance. destruct f as [[[mo parts] body] l]. cbn [fl_request fl_local]. rewrite settle_accounted.
    transitivity (pr_started p); [by destruct (advance _ _ _ _ _ _) as [[] ?]|].
    rewrite IH. unfold accounted. rewrite Hfs. simpl. rewrite !fmap_app. simpl. solve_Permutation.
  - simpl. rewrite IH. unfold accounted. rewrite Hfs. simpl. rewrite !fmap_app. simpl. solve_Permutation.
Qed.

(** ** The bridges that were opened *)

(** The answer that opened a bridge is in the log. *)
Definition opened_by (log : list (Request * Answer)) (c : Connection) : Prop :=
  ∃ req a, (req, a) ∈ log ∧
    an_response a = R_Upgrade (Upgraded (cn_url c) (cn_keys c) (cn_aad c)).

Lemma opened_by_app log log' c : opened_by log c → opened_by (log ++ log') c.
Proof. intros (req&a&Hin&Ha). exists req, a. split; [|done]. apply elem_of_app. by left. Qed.

Lemma settle_bridges p req t : pr_bridges (settle p req t) = pr_bridges p.
Proof. by destruct t as [[] ?]. Qed.

Lemma settle_log p req t : ∃ log', pr_log (settle p req t) = pr_log p ++ log'.
Proof. destruct t as [[] ?]; [exists []; by rewrite app_nil_r|by eexists]. Qed.

Lemma settle_opened p req t dial : Forall (opened_by (pr_log (settle p req t))) (opened t.1 dial).
Proof.
  destruct t as [[l|[| | | | |[]| | | |] call] m]; simpl; constructor; [|constructor].
  eexists req, _. split; [apply elem_of_app; right; by left|done].
Qed.

Lemma bridges_opened p :
  rtc process_step process_init p → Forall (opened_by (pr_log p)) (pr_bridges p).
Proof.
  revert p. apply rtc_ind_r; [constructor|]. intros p p' _ Hs IH.
  assert (∀ q req t, pr_log q = pr_log p → Forall (opened_by (pr_log (settle q req t))) (pr_bridges p))
    as Hset.
  { intros q req t Hq. destruct (settle_log q req t) as [log' ->]. rewrite Hq.
    eapply Forall_impl; [exact IH|]. intros c. apply opened_by_app. }
  destruct Hs as [p d _ _|p mo parts body dial _|p fs f fs' _|p fs f fs' _ _|p cs c cs' e Hcs].
  - done.
  - unfold process_begin. rewrite settle_bridges. apply Forall_app.
    split; [by apply Hset|apply settle_opened].
  - unfold process_advance. destruct f as [[[mo parts] body] l]. cbn [fl_request fl_local]. rewrite settle_bridges. by apply Hset.
  - done.
  - rewrite Hcs in IH. simpl. apply Forall_app in IH as [H1 [Hc H2]%Forall_cons].
    apply Forall_app. split; [done|]. by constructor.
Qed.

Lemma serve_app_upgrade limit max mo m parts body u :
  an_response (serve_app limit max mo m parts body) = R_Upgrade u →
  ws_upgrade_handler (mo_registry mo) (mo_table mo) (ws_meta parts) = u.
Proof.
  assert (an_response (serve max mo m parts body) = R_Upgrade u →
          ws_upgrade_handler (mo_registry mo) (mo_table mo) (ws_meta parts) = u) as Hs.
  { unfold serve, ws_dispatch. destruct (negb _); [|destruct (extractable parts); [by intros [= <-]|]];
      (destruct (dispatch _ _ _) as [[]| |]; try done; simpl; unfold serve_proxy;
       repeat (case_match; try done)). }
  unfold serve_app. destruct limit as [lim|]; [|done]. by destruct (mo_admitted mo lim parts).
Qed.

(** ** The views that requests find *)

(** What discovery had seen when a view was announced, and the table of it. *)
Definition View : Type := list Docker.Tick * list K8s.Item.

Definition view_le (v v' : View) : Prop := v.1 `prefix_of` v'.1 ∧ v.2 `prefix_of` v'.2.

#[global] Instance view_le_preorder : PreOrder view_le.
Proof.
  split; [by intros [? ?]|]. intros [a1 a2] [b1 b2] [c1 c2] [? ?] [? ?]. by split; simpl in *; etrans.
Qed.

Definition view_table (v : View) : RouteTable :=
  RouteTable_new (Manager.file_routes (srv_manager s) ++ DockerSpec.last_poll false [] v.1 ++
                  K8sSpec.store_pair_routes (K8sSpec.stores v.2)).

Definition request_table (req : Request) : RouteTable := mo_table req.1.1.

Lemma settle_started p req t : pr_started (settle p req t) = pr_started p.
Proof. by destruct t as [[] ?]. Qed.

Lemma process_views p :
  rtc process_step process_init p →
  ∃ views cur, held (pr_discovery p) cur.1 cur.2 ∧ request_table <$> pr_started p = view_table <$> views ∧
    StronglySorted view_le views ∧ Forall (λ v, view_le v cur) views.
Proof.
  revert p. apply rtc_ind_r.
  { exists [], ([], []). split_and!; [apply sys_init_held|done|constructor|constructor]. }
  intros p p' Hr Hs IH.
  destruct IH as (views&cur&Hh&Ht&Hss&Hle). apply process_discovery in Hr as [Hr _].
  destruct discovery_names as [Hn Hne]. pose proof (reachable_ok Hne _ _ Hr) as Hok.
  destruct Hs as [p d Hd _|p mo parts body dial Hm|p fs f fs' _|p fs f fs' _ _|p cs c cs' e _].
  - destruct (sys_step_held Hne _ _ _ _ _ Hok Hh Hd) as (p1&p2&H1&H2&Hh').
    exists views, (p1, p2). split_and!; [done..|]. eapply Forall_impl; [exact Hle|].
    intros v Hv. etrans; [exact Hv|done].
  - unfold process_begin. rewrite settle_discovery, settle_started.
    exists (views ++ [cur]), cur. split_and!; [done| |by apply StronglySorted_snoc|].
    + simpl. rewrite !fmap_app, Ht. do 2 f_equal. unfold request_table. simpl. rewrite Hm.
      by rewrite (held_view_table Hn Hne _ _ _ _ Hok Hh).
    + apply Forall_app. split; [done|]. by repeat constructor.
  - rewrite advance_discovery. unfold process_advance. destruct (fl_request f) as [[mo parts] body].
    rewrite settle_started. by exists views, cur.
  - by exists views, cur.
  - by exists views, cur.
Qed.

(** ** What the metrics count *)

(** A call in flight, and one whose latency is recorded before its error is. *)
Definition called_flight (l : Local) : bool :=
  match flight_call l with Some _ => true | None => false end.

Definition recorded_flight (l : Local) : bool :=
  match l with L_Failed _ _ _ _ => true | _ => false end.

Definition count_flights (f : Local → bool) (l : list Flight) : Z :=
  Z.of_nat (length (List.filter (λ x, f (fl_local x)) l)).

Lemma count_flights_snoc f l x :
  count_flights f (l ++ [x]) = (count_flights f l + if f (fl_local x) then 1 else 0)%Z.
Proof.
  unfold count_flights. rewrite List.filter_app, length_app. simpl. destruct (f _); simpl; lia.
Qed.

Lemma count_flights_middle f l x l' :
  count_flights f (l ++ x :: l') = (count_flights f (l ++ l') + if f (fl_local x) then 1 else 0)%Z.
Proof.
  unfold count_flights. rewrite !List.filter_app, !length_app. simpl. destruct (f _); simpl; lia.
Qed.

Lemma count_answers_snoc f l r a :
  count_answers f (l ++ [(r, a)]) = (count_answers f l + if f r a then 1 else 0)%Z.
Proof.
  unfold count_answers. rewrite List.filter_app, length_app. simpl. destruct (f r a); simpl; lia.
Qed.

(** The calls on the metrics so far, against what became of the requests. *)
Record counted (m : Metrics) (flights dropped : list Flight) (log : list (Request * Answer))
    (ops : list MetricOp) : Prop := mkCounted {
  ct_metrics : m = metrics_after ops;
  ct_handshakes : count_ops (λ op, match op with Op_handshake => true | _ => false end) ops =
    count_answers handshake_answer log;
  ct_requests : count_ops (λ op, match op with Op_upstream_request => true | _ => false end) ops =
    (count_answers called_answer log + count_flights called_flight flights +
     count_flights called_flight dropped)%Z;
  ct_errors : count_ops (λ op, match op with Op_upstream_error => true | _ => false end) ops =
    count_answers failed_answer log;
  ct_latencies : Z.of_nat (length (latencies ops)) =
    (count_answers called_answer log + count_flights recorded_flight flights)%Z;
  ct_failures : (0 ≤ count_ops (λ op, match op with Op_decrypt_failure => true | _ => false end) ops ≤
    count_answers rejected_answer log)%Z;
}.

Lemma latencies_snoc ops op :
  Z.of_nat (length (latencies (ops ++ [op]))) =
  (Z.of_nat (length (latencies ops)) + match op with Op_latency _ => 1 | _ => 0 end)%Z.
Proof. unfold latencies. rewrite omap_app, length_app. destruct op; simpl; lia. Qed.

Lemma metrics_after_snoc ops op : metrics_after (ops ++ [op]) = metric_step (metrics_after ops) op.
Proof. unfold metrics_after. by rewrite foldl_snoc. Qed.

(** One more call, answer or request in flight changes the counts by what it
    is. *)
Ltac count_step :=
  intros []; constructor; subst;
  rewrite ?metrics_after_snoc, ?count_ops_snoc, ?latencies_snoc, ?count_answers_snoc,
    ?count_flights_snoc, ?count_flights_middle in *;
  unfold called_answer, failed_answer, handshake_answer, rejected_answer in *; simpl in *;
  try done; try lia.

Lemma begin_counted max limit mo m parts body flights dropped log ops t m' :
  begin limit max mo m parts body = (t, m') → counted m flights dropped log ops →
  ∃ ops', match t with
          | T_Local l => counted m' (flights ++ [mkFlight (mo, parts, body) l]) dropped log ops'
          | T_Answer r call => counted m' flights dropped
                                 (log ++ [((mo, parts, body), mkAnswer r m' call)]) ops'
          end.
Proof.
  intros Hb Hc. destruct t as [l|r call].
  - apply begin_fresh in Hb as [-> Hl]. exists ops. revert Hc.
    destruct Hl as [->|(req&me&url&->)]; count_step.
  - apply begin_answer in Hb as (->&Hb&[->|[-> [rej ->]]]).
    + exists ops. revert Hc. destruct r as [r| | | | | | | | |]; [by destruct (Hb r)|count_step..].
    + exists (ops ++ [Op_decrypt_failure]). revert Hc. count_step.
Qed.

Lemma advance_counted max mo m parts body l fs fs' dropped log ops t m' :
  local_ok mo l → advance max mo m parts body l = (t, m') →
  counted m (fs ++ mkFlight (mo, parts, body) l :: fs') dropped log ops →
  ∃ ops', match t with
          | T_Local l' => counted m' ((fs ++ fs') ++ [mkFlight (mo, parts, body) l']) dropped log ops'
          | T_Answer r call => counted m' (fs ++ fs') dropped
                                 (log ++ [((mo, parts, body), mkAnswer r m' call)]) ops'
          end.
Proof.
  intros Hl Hs Hc. destruct l as [|r|req me url|req me url|req me url [r|tmo]|req me url tmo];
    injection Hs as <- <-; simpl in Hl.
  - exists ops. revert Hc. count_step.
  - unfold count_handshake.
    destruct (bool_decide _ && bool_decide _ && _) eqn:Hb.
    + exists (ops ++ [Op_handshake]). revert Hc. count_step. rewrite Hb. lia.
    + exists ops. revert Hc. count_step. rewrite Hb. lia.
  - exists (ops ++ [Op_upstream_request]). revert Hc. count_step.
  - exists ops. revert Hc. count_step.
  - exists (ops ++ [Op_latency (mo_elapsed mo)]). revert Hc. count_step; rewrite <-Hl; lia.
  - exists (ops ++ [Op_latency (mo_elapsed mo)]). revert Hc. count_step.
  - exists (ops ++ [Op_upstream_error]). revert Hc. count_step; rewrite <-Hl; lia.
Qed.

Lemma process_counted p :
  rtc process_step process_init p →
  ∃ ops, counted (pr_metrics p) (pr_flights p) (pr_dropped p) (pr_log p) ops.
Proof.
  revert p. apply rtc_ind_r; [by exists []|]. intros p p' Hr Hs [ops IH].
  destruct Hs as [p d _ _|p mo parts body dial _|p fs f fs' Hfs|p fs f fs' Hfs Hsu|p cs c cs' e _].
  - by exists ops.
  - unfold process_begin. destruct (begin _ _ _ _ _ _) as [t m] eqn:Hb.
    destruct (begin_counted _ _ _ _ _ _ _ _ _ _ _ _ Hb IH) as [ops' Ho]. exists ops'. by destruct t.
  - apply process_requests in Hr. destruct (requests_ok_rest _ _ _ _ Hfs Hr) as [Hf _].
    rewrite Hfs in IH. destruct f as [[[mo parts] body] l]. destruct Hf as [_ Hl].
    unfold process_advance. cbn [fl_request fl_local].
    destruct (advance _ _ _ _ _ _) as [t m] eqn:Ha.
    destruct (advance_counted _ _ _ _ _ _ _ _ _ _ _ _ _ Hl Ha IH) as [ops' Ho]. exists ops'. by destruct t.
  - exists ops. rewrite Hfs in IH. revert IH. simpl.
    assert (recorded_flight (fl_local f) = false) as Hrec by by destruct (fl_local f).
    count_step. rewrite Hrec in *. lia.
  - by exists ops.
Qed.

(** ** Properties *)

(** A call that was made for a request, which is answered, in flight or
    dropped. *)
Definition made_call (p : Process) (req : Request) (c : Call) : Prop :=
  (∃ a, (req, a) ∈ pr_log p ∧ an_call a = Some c) ∨
  (∃ f, f ∈ pr_flights p ++ pr_dropped p ∧ fl_request f = req ∧ flight_call (fl_local f) = Some c).

Lemma made_call_spec p mo parts body c :
  rtc process_step process_init p → made_call p (mo, parts, body) c →
  ∃ r, served_as (pr_discovery p) (mo, parts, body) (r, Some c).
Proof.
  intros (Hl&Hf&Hx)%process_requests. rewrite Forall_forall in Hl.
  intros [(a&Hin&Hc)|(f&Hin&Hr&Hc)].
  - exists (an_response a). specialize (Hl _ Hin). unfold logged in Hl. simpl in Hl. by rewrite Hc in Hl.
  - pose proof (Forall_app_2 _ _ _ Hf Hx) as Hfx. rewrite Forall_forall in Hfx.
    specialize (Hfx _ Hin). destruct f as [req l]. simpl in Hr, Hc. subst req. destruct Hfx as [Hs _].
    eexists. apply (flight_call_outcome (srv_max_body_bytes s) mo parts body) in Hc. simpl in Hs.
    rewrite (surjective_pairing (outcome_of _ _ _ _ _)), Hc in Hs. exact Hs.
Qed.

(** C13: a process connects only to what it was given, and only for attested
    sessions.  In every reachable state, a call that was made for a request,
    whether the request is answered, still in flight or was dropped, went to
    the upstream of a route of the file or of an enabled provider, with a body
    within the configured limit.  A bridge that runs was opened for a
    request that named a live session of the registry; its upstream is built
    from such a route too; its keys and associated data are those of the
    session; and whatever its two sides do, the application messages it has
    forwarded are a subsequence of those that the session's client sealed. *)
Theorem process_outbound (b : Build T) w args p
    (Hmain : main b w args = Ok (Serving s)) (Hrun : rtc process_step process_init p) :
  (∀ req meth url data, made_call p req (meth, url, data) →
     (Z.of_nat (length data) ≤ server_max_body_bytes (static_server (cfg_static (srv_config s))))%Z ∧
     ∃ route path query, url = upstream_url (route_upstream route) path query ∧
       given s (pr_discovery p) route) ∧
  (∀ c br, c ∈ pr_bridges p → cn_bridge c = Ok br →
     ∃ mo parts body a id sess route in_key,
       ((mo, parts, body), a) ∈ pr_log p ∧ wm_base_id (ws_meta parts) ≫= parse_atb_id = Some id ∧
       mo_registry mo id = Some sess ∧ is_alive sess = true ∧
       given s (pr_discovery p) route ∧
       build_upstream_ws_url (route_upstream route) (uri_path (p_uri parts))
         (uri_query (p_uri parts)) = Ok (cn_url c) ∧
       WsKeys_from_session sess = KeysReady (cn_keys c) ∧ cn_aad c = session_aad sess ∧
       AeadKey_new (wk_algorithm (cn_keys c)) (wk_client_write_key (cn_keys c)) = Ok in_key ∧
       ∀ log, ClientLog in_key (wk_client_write_iv (cn_keys c)) (cn_aad c) log →
         sublist (List.filter is_data (br_to_upstream br)) (omap sealed_message log)).
Proof.
  split.
  - intros [[mo parts] body] meth url data Hc.
    destruct (made_call_spec _ _ _ _ _ Hrun Hc) as (r&m&d0&Ho&Hd&Ht&H1&H2).
    injection Ho as _ Hcall. symmetry in Hcall.
    destruct (call_given b w args s d0 mo m parts body meth url data)
      as (Hlen&route&path&query&Hu&Hg); [done..|].
    split; [done|]. exists route, path, query. split; [done|]. by eapply given_mono.
  - intros c br Hc Hup. pose proof (bridges_opened p Hrun) as Hb. rewrite Forall_forall in Hb.
    destruct (Hb c Hc) as ([[mo parts] body]&a&Hin&Hr).
    apply process_requests in Hrun as [Hlog _]. rewrite Forall_forall in Hlog.
    destruct (Hlog _ Hin) as (m&d0&Ho&Hd&Ht&H1&H2). simpl in Ho. rewrite Hr in Ho.
    injection Ho as Hresp _. symmetry in Hresp.
    apply serve_app_upgrade, ws_upgrade_handler_iff in Hresp
      as (id&sess&route&Hid&Hreg&Hal&Hsel&Hurl&Hkeys&Haad).
    destruct (run_bridge_Ok _ _ _ _ _ Hup) as (in_key&out_key&Hk&->). rewrite Ht in Hsel.
    exists mo, parts, body, a, id, sess, route, in_key. split_and!; try done.
    + eapply given_mono; [done..|]. by eapply select_given.
    + intros log. apply bridge_run_integrity.
Qed.

(** C17: requests never see the routes go back: the tables that the requests of
    a run find, in the order in which they load them, are the merges of the
    file's routes with complete views of the providers, each taken after at
    least as many answers of the daemon and of the cluster as the one before.
    This covers all requests: each that began is answered, in flight or
    dropped, exactly once. *)
Theorem process_views_monotone p (Hrun : rtc process_step process_init p) :
  pr_started p ≡ₚ accounted p ∧
  ∃ views, request_table <$> pr_started p = view_table <$> views ∧ StronglySorted view_le views ∧
    Forall (λ v, view_le v (tk_seen (sy_1 (pr_discovery p)), tk_seen (sy_2 (pr_discovery p)))) views.
Proof.
  split; [by apply process_accounted|].
  destruct (process_views p Hrun) as (views&cur&Hh&Ht&Hs&Hle). exists views. split_and!; [done..|].
  apply held_seen in Hh. eapply Forall_impl; [exact Hle|]. intros v Hv. etrans; [exact Hv|done].
Qed.

(** C21: the metrics of a running process count what it did, in every reachable
    state, between any two steps of the requests in flight: the handshake
    counter is the number of successful answers to [POST /attest]; the request
    counter is the number of upstream calls made, those of answered requests,
    those in flight and those that were dropped while they waited; a latency is
    recorded for every call of an answered request and for one whose failure is
    about to be counted, and for no other; the error counter is the number of
    answered requests whose call failed; and the decryption counter is at most
    the number of rejected requests, all modulo 2^64. *)
Theorem process_counters p (Hrun : rtc process_step process_init p) :
  let m := pr_metrics p in
  let calls := count_answers called_answer (pr_log p) in
  handshakes_total m = wrap64 (count_answers handshake_answer (pr_log p)) ∧
  upstream_requests_total m =
    wrap64 (calls + count_flights called_flight (pr_flights p) +
            count_flights called_flight (pr_dropped p)) ∧
  latency_count m = wrap64 (calls + count_flights recorded_flight (pr_flights p)) ∧
  upstream_errors_total m = wrap64 (count_answers failed_answer (pr_log p)) ∧
  ∃ n, decrypt_failures_total m = wrap64 n ∧ (0 ≤ n ≤ count_answers rejected_answer (pr_log p))%Z.
Proof.
  cbv zeta. apply process_counted in Hrun as [ops [-> Hh Hu He Hl Hd]]. rewrite metrics_after_spec.
  cbn [metrics_spec handshakes_total upstream_requests_total upstream_errors_total latency_count
       decrypt_failures_total].
  rewrite Hh, Hu, He, Hl. split_and!; [done..|]. by eexists.
Qed.

End steps.
End process.

(** ** A run: a container is discovered, a WebSocket is bridged to it *)

Module ProcessToy.
#[local] Existing Instance DumpExample.tables.

(** An ideal cipher whose key is the list of what was sealed. *)
Definition crypto : Crypto := {|
  aead_algorithm := unit; aead_key := list (list Z * list Z); bound_key := unit;
  aead_nonce := list Z; crypto_error := unit;
  AeadKey_new _ _ := Ok Toy.log;
  BoundAeadKey_new _ _ _ := Ok tt;
  nonce_from_slice bs := Ok bs;
  nonce_bytes n := n;
  open_in_place log n _ c := Toy.ideal_open log n c;
  bound_open _ _ _ c := Ok c;
  bound_seal bk _ _ := (Err tt, bk) |}.

Definition ws : @WsSdk crypto := {|
  HDR_ATTEST_BASE_ID := "attest-base-id"; atb_id := string;
  parse_atb_id s := Some s; session := string; session_id s := s; is_alive _ := true;
  session_algorithm _ := (tt : @aead_algorithm crypto);
  peek_keys _ := Some (mkSessionKeys [1%Z] Toy.iv [2%Z] Toy.iv []); ws_error := unit |}.

Definition proxy : @ProxySdk crypto := {|
  psession := unit; sdk_response := unit; ps_aad _ := [];
  session_from_parts _ := Ok tt;
  decode_attest_ticket _ := Ok (1%Z, []);
  http_body := list Z; to_bytes b _ := Some b; parse_envelope bs := Some (string_of_bytes bs);
  hex_decode_body s := Some (as_bytes s);
  trr_error := unit;
  with_keys_for_trr _ _ _ f := Ok (f (mkSessionKeys [1%Z] Toy.iv [2%Z] Toy.iv []) 1%Z);
  hmac_state := unit; hmac_new _ := Some tt; hmac_update st _ := st; hmac_verify _ _ := true;
  ahl_error := unit; ahl_chunks _ _ _ _ _ := Ok [];
  Aes256Gcm := (tt : @aead_algorithm crypto) |}.

Definition router : @RouterSdk crypto proxy := {|
  dispatch := RouterToy.toy_dispatch; base_routes := [("/attest", Filter_Methods ["POST"])];
  base_response := Z; base_status z := z; gate_response := unit; extractable _ := true |}.

#[local] Existing Instance crypto.
#[local] Existing Instance ws.
#[local] Existing Instance proxy.
#[local] Existing Instance router.
#[local] Existing Instance ProxyToy.http.

Definition moment (table : RouteTable) : Moment :=
  mkMoment table (λ _, Some "s") 1 (λ _ _, 200%Z) (λ parts body, Ok (parts, body))
    (λ _ _ _, Upstream_Err true)
    (f64_of_Z 1) (λ _ _, true).

Definition upgrade : Parts :=
  mkParts "GET" (mkUri (Some "h") "/x" None)
    [("upgrade", as_bytes "websocket"); ("attest-base-id", as_bytes "s")] None.

(** A proxied request. *)
Definition get : Parts := mkParts "GET" (mkUri (Some "h") "/x" None) [] None.

Section run.
Context (s : Server unit) (Hfiles : Manager.file_routes (srv_manager s) = []).
Context (Hdocker : ∃ p, Spawn_Provider (Provider_Docker p) ∈ srv_spawned s).

(** A step of the request that has been in flight the longest. *)
Definition next (p : Process) : Process :=
  match pr_flights p with f :: rest => process_advance s p f rest | [] => p end.

Lemma next_reachable p :
  rtc (process_step s) (process_init s) p → rtc (process_step s) (process_init s) (next p).
Proof.
  intros Hr. unfold next. destruct (pr_flights p) as [|f rest] eqn:Hf; [done|].
  eapply rtc_r; [exact Hr|]. by apply (step_advance s p [] f rest).
Qed.

(** A handshake before anything is known, the poll with its delivery, the
    upgrade, and a frame of the client. *)
Definition attested : Process :=
  next (next (process_begin s (process_init s) (moment (RouteTable_new [])) RouterToy.attest [] (Ok tt))).

Definition at_discovery (d : discovery_sys) : Process :=
  mkProcess d (pr_metrics attested) (pr_started attested) (pr_flights attested) (pr_dropped attested)
    (pr_log attested) (pr_bridges attested).

Definition discovered : Process := at_discovery delivered.

Definition upgraded : Process :=
  process_begin s discovered (moment (Manager.handle (sy_manager delivered))) upgrade [] (Ok tt).

Lemma attested_reachable : rtc (process_step s) (process_init s) attested.
Proof.
  apply next_reachable, next_reachable, rtc_once, step_begin. simpl. by rewrite Hfiles.
Qed.

Lemma attested_discovery : pr_discovery attested = sys_init (Manager.file_routes (srv_manager s)).
Proof.
  unfold attested, next. repeat (case_match; rewrite ?advance_discovery; try done).
  all: unfold process_begin; by rewrite settle_discovery.
Qed.

Lemma discovered_reachable : rtc (process_step s) (process_init s) discovered.
Proof.
  etrans; [exact attested_reachable|].
  replace attested with (at_discovery (sys_init [])) at 1.
  2: { unfold at_discovery. rewrite <-Hfiles, <-attested_discovery. by destruct attested. }
  assert (∀ d d' : discovery_sys, sys_step d d' → only_spawned s d' →
    process_step s (at_discovery d) (at_discovery d')) as Hstep.
  { intros d d' Hd Ho. exact (step_discovery s (at_discovery d) d' Hd Ho). }
  assert (∀ ts t2 ch m, only_spawned s (mkSys ts (mkTask t2 [] []) ch m)) as Hsp.
  { intros. split; [by right|by left]. }
  eapply rtc_l. { apply Hstep; [|apply Hsp].
    apply (sys_work1 (mkTask Docker.docker_init [] []) _ _ _
      (Docker.mkTick true (Some [example_container]))). reflexivity. }
  eapply rtc_l. { apply Hstep; [|apply Hsp]. apply sys_deliver. eapply deliver_push1;
    [reflexivity|apply (bool_decide_unpack _); reflexivity]. }
  apply rtc_once, Hstep; [|apply Hsp]. apply sys_deliver, deliver_recv.
Qed.

Lemma upgraded_discovery : pr_discovery upgraded = delivered.
Proof. unfold upgraded, process_begin. by rewrite settle_discovery. Qed.

Lemma upgraded_reachable : rtc (process_step s) (process_init s) upgraded.
Proof. eapply rtc_r; [exact discovered_reachable|]. by apply step_begin. Qed.

(** A proxied request up to its wait for the upstream, where it is dropped; a
    second one up to the same wait. *)
Definition sent (p : Process) : Process :=
  next (process_begin s p (moment (Manager.handle (sy_manager delivered))) get [] (Ok tt)).

Definition dropped (p : Process) : Process :=
  match pr_flights p with
  | f :: rest => if suspended (fl_local f) then with_flights p rest (pr_dropped p ++ [f]) else p
  | [] => p
  end.

Lemma dropped_reachable p :
  rtc (process_step s) (process_init s) p → rtc (process_step s) (process_init s) (dropped p).
Proof.
  intros Hr. unfold dropped. destruct (pr_flights p) as [|f rest] eqn:Hf; [done|].
  destruct (suspended (fl_local f)) eqn:Hs; [|done].
  eapply rtc_r; [exact Hr|]. by apply (step_drop s p [] f rest).
Qed.

Lemma sent_reachable p :
  pr_discovery p = delivered → rtc (process_step s) (process_init s) p →
  rtc (process_step s) (process_init s) (sent p).
Proof.
  intros Hd Hr. apply next_reachable. eapply rtc_r; [exact Hr|]. apply step_begin. by rewrite Hd.
Qed.

Lemma sent_discovery p : pr_discovery p = delivered → pr_discovery (dropped (sent p)) = delivered.
Proof.
  intros Hd. assert (pr_discovery (sent p) = delivered) as Hs.
  { unfold sent, next. case_match; rewrite ?advance_discovery; unfold process_begin;
      by rewrite settle_discovery. }
  unfold dropped. destruct (pr_flights (sent p)) as [|f rest]; [done|]. by destruct (suspended _).
Qed.

Definition calling : Process := sent (dropped (sent upgraded)).

Lemma calling_reachable : rtc (process_step s) (process_init s) calling.
Proof.
  apply sent_reachable; [apply sent_discovery, upgraded_discovery|].
  apply dropped_reachable, sent_reachable; [apply upgraded_discovery|]. exact upgraded_reachable.
Qed.

(** The client's first frame reaches the bridge, then a replay of it. *)
Definition bridged : Process :=
  match pr_bridges upgraded with
  | c :: cs => mkProcess (pr_discovery upgraded) (pr_metrics upgraded) (pr_started upgraded)
                 (pr_flights upgraded) (pr_dropped upgraded) (pr_log upgraded)
                 (cn_event (cn_event c
                    (FromClient (Some (Ok (Ax_Binary (Toy.frame (tls13_nonce Toy.iv 1, Toy.pt 5))))) true))
                    (FromClient (Some (Ok (Ax_Binary (Toy.frame (tls13_nonce Toy.iv 1, Toy.pt 5))))) true) :: cs)
  | [] => upgraded
  end.

Lemma bridged_reachable : rtc (process_step s) (process_init s) bridged.
Proof.
  unfold bridged. pose proof upgraded_reachable as Hr.
  destruct (pr_bridges upgraded) as [|c cs] eqn:Hb; [done|].
  eapply rtc_r; [eapply rtc_r; [exact Hr|]|].
  - by apply (step_bridge s upgraded [] c cs).
  - apply (step_bridge s (mkProcess _ _ _ _ _ _ (cn_event c _ :: cs)) [] (cn_event c _) cs). done.
Qed.
End run.

(** What the run needs of the started process, as a test. *)
Definition ready (s : Server unit) : bool :=
  bool_decide (Manager.file_routes (srv_manager s) = []) &&
  match srv_spawned s with _ :: Spawn_Provider (Provider_Docker _) :: _ => true | _ => false end &&
  match srv_rate_limit s with None => true | _ => false end &&
  (srv_max_body_bytes s =? 4194304)%Z.

Lemma ready_spec s :
  ready s = true →
  Manager.file_routes (srv_manager s) = [] ∧
  (∃ p, Spawn_Provider (Provider_Docker p) ∈ srv_spawned s) ∧ srv_rate_limit s = None ∧
  srv_max_body_bytes s = 4194304%Z.
Proof.
  unfold ready. intros [[[Hf Hp]%andb_prop Hr]%andb_prop Hm%Z.eqb_eq]%andb_prop.
  apply bool_decide_eq_true in Hf. split; [exact Hf|]. split; [|by destruct (srv_rate_limit s)].
  destruct (srv_spawned s) as [|e [|[|[p|]|] l]]; try discriminate Hp. exists p. set_solver.
Qed.

(** Evaluate a state of the run, given the limits of the server. *)
Ltac evaluate s Hl Hmax :=
  revert Hl Hmax; clear; destruct s; cbn [srv_rate_limit srv_max_body_bytes]; intros -> ->;
  vm_compute; reflexivity.

Lemma started :
  ∃ s, main (CE := Concrete.ext) example_build example_world example_args = Ok (Serving s) ∧
    ready s = true.
Proof.
  assert (match main (CE := Concrete.ext) example_build example_world example_args with
          | Ok (Serving s) => ready s | _ => false end = true) as Hs by (vm_compute; reflexivity).
  destruct (main (CE := Concrete.ext) example_build example_world example_args) as [[c|s]|e];
    [discriminate Hs| |discriminate Hs]. by exists s.
Qed.
End ProcessToy.

#[local] Existing Instances DumpExample.tables ProcessToy.crypto ProcessToy.ws ProcessToy.proxy
  ProcessToy.router ProxyToy.http.

Lemma process_outbound_witness :
  ∃ s c br, main (CE := Concrete.ext) example_build example_world example_args = Ok (Serving s) ∧
    c ∈ pr_bridges (ProcessToy.bridged s) ∧ cn_url c = "ws://c:80/x" ∧
    List.filter is_data (br_to_upstream br) = [Up_Binary (replicate 19 5%Z)] ∧
    ∃ route, given s (pr_discovery (ProcessToy.bridged s)) route ∧
      sublist (List.filter is_data (br_to_upstream br)) (omap sealed_message Toy.log).
Proof.
  destruct ProcessToy.started as (s&Hm&Hr). apply ProcessToy.ready_spec in Hr as (Hf&Hd&Hl&Hmax).
  pose proof (ProcessToy.bridged_reachable s Hf Hd) as Hrun.
  assert (match pr_bridges (ProcessToy.bridged s) with
          | [c] => bool_decide (cn_url c = "ws://c:80/x") &&
              match cn_bridge c with
              | Ok br => match List.filter is_data (br_to_upstream br) with
                         | [Up_Binary l] => bool_decide (l = replicate 19 5%Z) | _ => false end
              | Err _ => false
              end
          | _ => false end = true) as Hc.
  { ProcessToy.evaluate s Hl Hmax. }
  destruct (pr_bridges (ProcessToy.bridged s)) as [|c [|c' cs]] eqn:Hb; [discriminate Hc| |discriminate Hc].
  apply andb_prop in Hc as [Hu%bool_decide_eq_true Hc].
  destruct (cn_bridge c) as [br|e] eqn:Hbr; [|discriminate Hc].
  assert (c ∈ pr_bridges (ProcessToy.bridged s)) as Hin by (rewrite Hb; by left).
  exists s, c, br. split; [exact Hm|]. split; [exact Hin|]. split; [exact Hu|]. split.
  { destruct (List.filter is_data (br_to_upstream br)) as [|[] [|]]; try discriminate Hc.
    by apply bool_decide_eq_true in Hc as ->. }
  destruct (process_outbound (CE := Concrete.ext) s example_build example_world example_args
    _ Hm Hrun) as [_ Hbridges].
  destruct (Hbridges c br Hin Hbr)
    as (mo&parts&body&a&id&sess&route&in_key&_&_&_&_&Hg&_&Hk&_&Hkey&Hlog).
  exists route. split; [exact Hg|]. apply Hlog.
  injection Hkey as <-. injection Hk as Hk. rewrite <-Hk. simpl. split.
  - intros bs n [= ->]. reflexivity.
  - intros n ct pt Hp. apply (Toy.ideal_open_Ok _ _ _ _ Hp).
  - repeat constructor.
Defined.

Lemma process_views_monotone_witness :
  ∃ s : Server unit, ∃ views, length views = 4%nat ∧ StronglySorted view_le views ∧
    request_table <$> pr_started (ProcessToy.calling s) = view_table s <$> views.
Proof.
  destruct ProcessToy.started as (s&Hm&Hr). apply ProcessToy.ready_spec in Hr as (Hf&Hd&Hl&Hmax).
  destruct (process_views_monotone s _ (ProcessToy.calling_reachable s Hf Hd))
    as [_ (views&Ht&Hs&_)].
  exists s, views. split; [|split; [exact Hs|exact Ht]].
  apply (f_equal length) in Ht. rewrite !length_fmap in Ht. rewrite <-Ht.
  ProcessToy.evaluate s Hl Hmax.
Defined.

Lemma process_counters_witness :
  ∃ s : Server unit, let m := pr_metrics (ProcessToy.calling s) in
    handshakes_total m = 1%Z ∧ upstream_requests_total m = 2%Z ∧ latency_count m = 0%Z.
Proof.
  destruct ProcessToy.started as (s&Hm&Hr). apply ProcessToy.ready_spec in Hr as (Hf&Hd&Hl&Hmax).
  exists s. destruct (process_counters s _ (ProcessToy.calling_reachable s Hf Hd)) as (Hh&Hu&Hla&_).
  cbv zeta. rewrite Hh, Hu, Hla. clear Hh Hu Hla. split; [|split]; ProcessToy.evaluate s Hl Hmax.
Defined.
