(* ===== verification/TestsDiscovery.v ===== *)
(** * The unit tests of discovery, on the model

    The tests of [src/discovery/], one definition a test, under the test's
    name: the same inputs, and the same assertions as one boolean. *)

From S2P Require Import Prelude RustStr SocketAddr Routing Config Layers Labels Discovery Attestation Tls Acme Messages.

(** [assert_eq!]. *)
Definition assert_eq {A} `{EqDecision A} (x y : A) : bool := bool_decide (x = y).

Definition assert_all (l : list bool) : bool := forallb id l.

(** The names of the tests that fail. *)
Definition failing (tests : list (string * bool)) : list string :=
  (List.filter (λ t, negb t.2) tests).*1.

(** ** [src/discovery/labels.rs] *)

Module LabelsTests.

Definition map (pairs : list (string * string)) : gmap string string :=
  foldl (λ m '(k, v), <[k := v]> m) ∅ pairs.

Definition disabled_container_yields_nothing : bool :=
  assert_all
    [assert_eq (routes_from_labels "abc" (map [("archetype.enable", "false")])).1 [];
     assert_eq (routes_from_labels "abc" (map [("other.label", "x")])).1 []].

Definition single_named_route : bool :=
  let labels := map
    [("archetype.enable", "true");
     ("archetype.route.api.host", "api.internal");
     ("archetype.route.api.upstream", "http://api:8080");
     ("archetype.route.api.pathprefix", "/v1")] in
  let '(routes, warnings) := routes_from_labels "deadbeefcafe0000" labels in
  match routes with
  | [r] =>
      assert_all
        [assert_eq (route_host r) "api.internal";
         assert_eq (route_upstream r) "http://api:8080";
         assert_eq (route_path_prefix r) "/v1";
         assert_eq (route_name r) "docker/deadbeefcafe/api";
         assert_eq (route_source r) Source_Discovered;
         match warnings with [] => true | _ => false end]
  | _ => false
  end.

Definition multiple_routes_per_container : bool :=
  let labels := map
    [("archetype.enable", "true");
     ("archetype.route.a.upstream", "http://a:1");
     ("archetype.route.b.upstream", "http://b:2");
     ("archetype.route.b.host", "b.internal")] in
  let '(routes, _) := routes_from_labels "c1" labels in
  let routes := stable_sort (λ x y, bool_decide (String.le (route_upstream x) (route_upstream y))) routes in
  assert_all
    [assert_eq (length routes) 2;
     assert_eq (route_upstream <$> routes !! 0) (Some "http://a:1");
     assert_eq (route_host <$> routes !! 1) (Some "b.internal")].

Definition per_route_strict_overrides_global : bool :=
  let labels := map
    [("archetype.enable", "true");
     ("archetype.attestation.strict", "true");
     ("archetype.route.a.upstream", "http://a:1");
     ("archetype.route.a.strict", "false");
     ("archetype.route.b.upstream", "http://b:2")] in
  let '(routes, _) := routes_from_labels "c1" labels in
  let find u := List.find (λ r, bool_decide (route_upstream r = u)) routes in
  assert_all
    [assert_eq (route_strict_attestation <$> find "http://a:1") (Some (Some false));
     assert_eq (route_strict_attestation <$> find "http://b:2") (Some (Some true))].

Definition missing_upstream_warns_and_skips : bool :=
  let labels := map [("archetype.enable", "true"); ("archetype.route.a.host", "a.internal")] in
  let '(routes, warnings) := routes_from_labels "c1" labels in
  assert_all
    [assert_eq routes [];
     existsb (λ w, contains "missing `upstream`" (LabelWarning_to_string w)) warnings].

Definition implicit_route_from_top_level_upstream : bool :=
  let labels := map
    [("archetype.enable", "true");
     ("archetype.upstream", "http://solo:9000");
     ("archetype.host", "solo.internal")] in
  let '(routes, _) := routes_from_labels "abcdef123456" labels in
  match routes with
  | [r] =>
      assert_all
        [assert_eq (route_upstream r) "http://solo:9000";
         assert_eq (route_host r) "solo.internal";
         assert_eq (route_name r) "docker/abcdef123456"]
  | _ => false
  end.

Definition enabled_but_no_routes_warns : bool :=
  let '(routes, warnings) := routes_from_labels "c1" (map [("archetype.enable", "true")]) in
  assert_all
    [assert_eq routes [];
     existsb (λ w, contains "no routes" (LabelWarning_to_string w)) warnings].

Definition tests : list (string * bool) :=
  [("disabled_container_yields_nothing", disabled_container_yields_nothing);
   ("single_named_route", single_named_route);
   ("multiple_routes_per_container", multiple_routes_per_container);
   ("per_route_strict_overrides_global", per_route_strict_overrides_global);
   ("missing_upstream_warns_and_skips", missing_upstream_warns_and_skips);
   ("implicit_route_from_top_level_upstream", implicit_route_from_top_level_upstream);
   ("enabled_but_no_routes_warns", enabled_but_no_routes_warns)].
End LabelsTests.

(** ** [src/discovery/docker.rs] *)

Module DockerTests.
Import Docker.

Definition socket_kind_dispatch : bool :=
  match socket_kind "unix:///var/run/docker.sock", socket_kind "http://127.0.0.1:2375",
        socket_kind "tcp://127.0.0.1:2375" with
  | Unix, Http, Http => true
  | _, _, _ => false
  end.

Definition short_truncates_to_12 : bool :=
  assert_all [assert_eq (short "deadbeefcafe0000") "deadbeefcafe"; assert_eq (short "abc") "abc"].

Definition tests : list (string * bool) :=
  [("socket_kind_dispatch", socket_kind_dispatch); ("short_truncates_to_12", short_truncates_to_12)].
End DockerTests.

(** ** [src/discovery/k8s.rs] *)

Module K8sTests.
Import K8s.

Definition annotations (pairs : list (string * string)) : gmap string string :=
  foldl (λ m '(k, v), <[k := v]> m) ∅ pairs.

Definition service (ns name : string) (ann : list (string * string)) : Object :=
  mkObject (Some ns) (Some name) (Some (annotations ann)).

(** The handling does not depend on the kind of the object. *)
Definition ingress (ns name : string) (ann : list (string * string)) : Object :=
  mkObject (Some ns) (Some name) (Some (annotations ann)).

Definition object_key_is_namespace_slash_name : bool :=
  assert_eq (object_key (service "prod" "api" [])) "prod/api".

Definition synthetic_service_reconciles_to_route : bool :=
  let s := service "prod" "api"
    [("archetype.li/enable", "true");
     ("archetype.li/upstream", "http://api:80");
     ("archetype.li/host", "api.internal")] in
  match route_from_object s with
  | Some r =>
      assert_all
        [assert_eq (route_name r) "k8s/api";
         assert_eq (route_upstream r) "http://api:80";
         assert_eq (route_host r) "api.internal"]
  | None => false
  end.

Definition synthetic_ingress_reconciles_to_route : bool :=
  let i := ingress "prod" "web"
    [("archetype.li/enable", "true");
     ("archetype.li/upstream", "http://web:8080");
     ("archetype.li/path-prefix", "/app")] in
  match route_from_object i with
  | Some r => assert_all [assert_eq (route_name r) "k8s/web"; assert_eq (route_path_prefix r) "/app"]
  | None => false
  end.

Definition not_opted_in_object_yields_no_route : bool :=
  assert_all
    [assert_eq (route_from_object (service "prod" "api" [("archetype.li/enable", "false")])) None;
     assert_eq (route_from_object (service "prod" "other" [])) None].

Definition opted (ns name upstream : string) : Object :=
  service ns name [("archetype.li/enable", "true"); ("archetype.li/upstream", upstream)].

Definition collect (store : KindStore) : list string := route_name <$> store_routes store.

(** The results of [apply] along a sequence of events, with the names in the
    store after each. *)
Fixpoint replay (store : KindStore) (events : list Event) : list (bool * list string) :=
  match events with
  | [] => []
  | ev :: events =>
      let '(store, changed) := apply store (to_op ev) in
      (changed, collect store) :: replay store events
  end.

Definition init_buffer_swaps_in_atomically : bool :=
  assert_eq
    (replay KindStore_default
       [Event_Apply (opted "prod" "old" "http://old:80"); Event_Init;
        Event_InitApply (opted "prod" "new" "http://new:80"); Event_InitDone])
    [(true, ["k8s/old"]); (false, ["k8s/old"]); (false, ["k8s/old"]); (true, ["k8s/new"])].

Definition apply_then_delete_round_trips : bool :=
  assert_eq
    (replay KindStore_default
       [Event_Apply (opted "prod" "api" "http://api:80");
        Event_Apply (opted "prod" "api" "http://api:80");
        Event_Delete (opted "prod" "api" "http://api:80");
        Event_Delete (opted "prod" "api" "http://api:80")])
    [(true, ["k8s/api"]); (false, ["k8s/api"]); (true, []); (false, [])].

Definition losing_optin_annotations_drops_the_route : bool :=
  assert_eq
    (replay KindStore_default
       [Event_Apply (opted "prod" "api" "http://api:80");
        Event_Apply (service "prod" "api" [("archetype.li/enable", "false")])])
    [(true, ["k8s/api"]); (true, [])].

Definition empty_initdone_clears_committed : bool :=
  assert_eq
    (replay KindStore_default
       [Event_Apply (opted "prod" "api" "http://api:80"); Event_Init; Event_InitDone])
    [(true, ["k8s/api"]); (false, ["k8s/api"]); (true, [])].

Definition disabled_yields_none : bool :=
  assert_all
    [assert_eq (route_from_annotations "svc" (annotations [("archetype.li/enable", "false")])) None;
     assert_eq (route_from_annotations "svc" (annotations [])) None].

Definition enabled_without_upstream_none : bool :=
  assert_eq (route_from_annotations "svc" (annotations [("archetype.li/enable", "true")])) None.

Definition full_annotation_set : bool :=
  let a := annotations
    [("archetype.li/enable", "true");
     ("archetype.li/upstream", "http://svc:80");
     ("archetype.li/host", "api.internal");
     ("archetype.li/path-prefix", "/v1");
     ("archetype.li/strict", "true")] in
  match route_from_annotations "api-svc" a with
  | Some r =>
      assert_all
        [assert_eq (route_name r) "k8s/api-svc";
         assert_eq (route_upstream r) "http://svc:80";
         assert_eq (route_host r) "api.internal";
         assert_eq (route_path_prefix r) "/v1";
         assert_eq (route_strict_attestation r) (Some true);
         assert_eq (route_source r) Source_Discovered]
  | None => false
  end.

Definition tests : list (string * bool) :=
  [("object_key_is_namespace_slash_name", object_key_is_namespace_slash_name);
   ("synthetic_service_reconciles_to_route", synthetic_service_reconciles_to_route);
   ("synthetic_ingress_reconciles_to_route", synthetic_ingress_reconciles_to_route);
   ("not_opted_in_object_yields_no_route", not_opted_in_object_yields_no_route);
   ("init_buffer_swaps_in_atomically", init_buffer_swaps_in_atomically);
   ("apply_then_delete_round_trips", apply_then_delete_round_trips);
   ("losing_optin_annotations_drops_the_route", losing_optin_annotations_drops_the_route);
   ("empty_initdone_clears_committed", empty_initdone_clears_committed);
   ("disabled_yields_none", disabled_yields_none);
   ("enabled_without_upstream_none", enabled_without_upstream_none);
   ("full_annotation_set", full_annotation_set)].
End K8sTests.
