(* ===== verification/TestsConfig.v ===== *)
(** * The unit tests of the configuration, on the model

    The tests of [src/config.rs], one definition a test, under the test's
    name.  Where a test writes a TOML file, the parser of the replay answers
    with that file's contents; where it generates a certificate, the bytes of
    a stand-in are used.  The one test that only exercises the TOML parser
    ([acme_dns_config_round_trips_cloudflare_fields]) is not replayed. *)

From S2P Require Import Prelude RustStr SocketAddr Format Routing Config Layers Labels Dump TpmEnv Attestation Tls Acme Messages TestsDiscovery.

Local Open Scope Z_scope.

#[local] Existing Instances Concrete.ext DumpExample.tables.

#[local] Instance texts : ConfigTexts := {|
  io_text _ := "io"; toml_text _ := "toml"; hex_text _ := "hex"; pem_text _ := "pem";
  x509_text _ := "x509" |}.

(** ** Literals *)

(** [PartialStatic { .., ..Default::default() }]. *)
Inductive Field :=
| max_body_bytes (n : Z)
| allow_mock (b : bool)
| tee_provider (k : TeeProviderKind)
| verifier (k : VerifierKind)
| tpm (t : TpmConfig)
| docker_enabled_ (b : bool)
| docker_socket_ (s : string)
| kubernetes_namespace_ (ns : option (option string)).

Definition set_field (p : PartialStatic) (f : Field) : PartialStatic :=
  {| ps_listen := ps_listen p;
     ps_max_body_bytes := match f with max_body_bytes n => Some n | _ => ps_max_body_bytes p end;
     ps_tls := ps_tls p;
     ps_allow_mock := match f with allow_mock b => Some b | _ => ps_allow_mock p end;
     ps_strict_attestation := ps_strict_attestation p;
     ps_atb_ttl_secs := ps_atb_ttl_secs p;
     ps_atb_eviction_interval_secs := ps_atb_eviction_interval_secs p;
     ps_atb_max_sessions := ps_atb_max_sessions p;
     ps_tee_provider := match f with tee_provider k => Some k | _ => ps_tee_provider p end;
     ps_verifier := match f with verifier k => Some k | _ => ps_verifier p end;
     ps_verifier_endpoint := ps_verifier_endpoint p;
     ps_verifier_api_key := ps_verifier_api_key p;
     ps_tpm := match f with tpm t => Some t | _ => ps_tpm p end;
     ps_rate_limit_max_requests := ps_rate_limit_max_requests p;
     ps_rate_limit_window_secs := ps_rate_limit_window_secs p;
     ps_docker_enabled := match f with docker_enabled_ b => Some b | _ => ps_docker_enabled p end;
     ps_docker_socket := match f with docker_socket_ s => Some s | _ => ps_docker_socket p end;
     ps_docker_poll_secs := ps_docker_poll_secs p;
     ps_kubernetes_enabled := ps_kubernetes_enabled p;
     ps_kubernetes_namespace :=
       match f with kubernetes_namespace_ ns => ns | _ => ps_kubernetes_namespace p end |}.

Definition partial (fs : list Field) : PartialStatic := foldl set_field PartialStatic_default fs.

Definition empty_file : PartialStatic * list Route := (PartialStatic_default, []).

Definition from_file (fs : list Field) : Config :=
  resolve_layers (partial fs, []) PartialStatic_default PartialStatic_default.

(** A world without files and variables. *)
Definition no_world : World unit := mkWorld ∅ (λ _, false) (λ _, Err tt).

Definition is_validation {A} (r : result ConfigError A) : bool :=
  match r with Err (ConfigError_Validation _) => true | _ => false end.

(** [err.to_string().contains(needle)]. *)
Definition err_contains {A} (needle : string) (r : result ConfigError A) : bool :=
  match r with Err e => contains needle (ConfigError_to_string e) | Ok _ => false end.

(** ** The TPM policy *)

Definition one_pcr : gmap Z (list Z) := {[ 0 := replicate 32 0 ]}.

Definition tpm_policy : TpmConfig := mkTpmConfig one_pcr None None [] true.

Definition tpm_verifier_without_policy_fails_validation : bool :=
  let r := validate no_world (from_file [verifier Ver_Tpm]) in
  assert_all [is_validation r; err_contains "attestation.tpm" r].

Definition tpm_provider_without_policy_fails_validation : bool :=
  is_validation (validate no_world (from_file [tee_provider Tee_Tpm])).

Definition tpm_verifier_with_policy_validates : bool :=
  let cfg := from_file [verifier Ver_Tpm; tpm tpm_policy] in
  assert_all
    [is_ok (validate no_world cfg);
     assert_eq ((λ t, size (tpm_expected_pcrs t)) <$> att_tpm (static_attestation (cfg_static cfg)))
       (Some 1%nat)].

Definition tpm_empty_expected_pcrs_fails_validation : bool :=
  is_validation (validate no_world
    (from_file [verifier Ver_Tpm; tpm (mkTpmConfig ∅ None None [] true)])).

(** [s.repeat(n)]. *)
Definition repeat_str (s : string) (n : nat) : string := str_concat (replicate n s).

Definition tpm_file_hex_decodes_to_bytes : bool :=
  let ft := mkFileTpm (<["7" := repeat_str "ab" 32]> {[ "0" := repeat_str "00" 32 ]})
    (Some ("04" +:+ repeat_str "11" 64)) (Some [0; 1; 7]) ["/path/ek-root.pem"] true in
  match FileTpm_resolve ft with
  | Ok tc =>
      assert_all
        [assert_eq (tpm_expected_pcrs tc !! 0) (Some (replicate 32 0));
         assert_eq (tpm_expected_pcrs tc !! 7) (Some (replicate 32 171));
         assert_eq (length <$> tpm_pinned_ak_sec1 tc) (Some 65%nat);
         assert_eq (tpm_pcr_selection tc) (Some [0; 1; 7]);
         assert_eq (tpm_trusted_ek_root_paths tc) ["/path/ek-root.pem"];
         tpm_allow_unpinned_ak tc]
  | Err _ => false
  end.

Definition tpm_file_bad_hex_is_config_error : bool :=
  let r := FileTpm_resolve (mkFileTpm {[ "0" := "zznothex" ]} None None [] false) in
  assert_all
    [match r with Err (ConfigError_Env _ _ _) => true | _ => false end;
     err_contains "attestation.tpm.expected_pcrs[0]" r].

Definition tpm_verifier_with_pcrs_but_no_trust_mode_fails_validation : bool :=
  let r := validate no_world
    (from_file [verifier Ver_Tpm; tpm (mkTpmConfig one_pcr None None [] false)]) in
  assert_all
    [is_validation r; err_contains "pinned_ak_sec1_hex" r; err_contains "trusted_ek_root_paths" r;
     err_contains "allow_unpinned_ak" r].

Definition tpm_verifier_with_allow_unpinned_ak_validates : bool :=
  is_ok (validate no_world
    (from_file [verifier Ver_Tpm; tpm (mkTpmConfig one_pcr None None [] true)])).

Definition tpm_verifier_with_pinned_ak_validates : bool :=
  is_ok (validate no_world
    (from_file [verifier Ver_Tpm; tpm (mkTpmConfig one_pcr (Some (replicate 65 4)) None [] false)])).

(** A world with one configuration file, and the parser that reads it. *)
Definition toml_ext (fc : FileConfig) : ConfigExt := {|
  io_error := unit; toml_error := unit; hex_error := unit; pem_error := unit;
  x509_error := unit; invalid_utf8 := tt;
  toml_from_str _ := Ok fc; hex_decode := Concrete.decode; pem_certs bs := Ok [bs];
  x509_from_der _ := Ok tt |}.

Definition toml_world : World unit :=
  mkWorld ∅ (λ p, bool_decide (p = "c.toml")) (λ p, if bool_decide (p = "c.toml") then Ok [] else Err tt).

Definition tpm_file_round_trips_trust_fields : bool :=
  let fc := mkFileConfig (mkFileServer None None None)
    (mkFileAttestation None None None None None (Some Tee_Tpm) (Some Ver_Tpm) None None
       (Some (mkFileTpm {[ "0" := repeat_str "0" 64 ]} None None ["/a/root.pem"; "/b/root.der"] true)))
    (mkFileRateLimit None None) (mkFileDiscovery None None None None None) None [] in
  match read_file (CE := toml_ext fc) toml_world "c.toml" with
  | Ok (p, _) =>
      match ps_tpm p with
      | Some t =>
          assert_all
            [assert_eq (tpm_trusted_ek_root_paths t) ["/a/root.pem"; "/b/root.der"];
             tpm_allow_unpinned_ak t;
             assert_eq (size (tpm_expected_pcrs t)) 1%nat]
      | None => false
      end
  | Err _ => false
  end.

Definition tpm_env_round_trips_trust_fields : bool :=
  let env := list_to_map
    [("ARCHETYPE_PROXY_TPM_EXPECTED_PCRS", "0:" +:+ repeat_str "0" 64);
     ("ARCHETYPE_PROXY_TPM_TRUSTED_EK_ROOT_PATHS", "/x/root.pem:/y/root.der,/z/root.pem");
     ("ARCHETYPE_PROXY_TPM_ALLOW_UNPINNED_AK", "true")] in
  match read_tpm_env (mkWorld env (λ _, false) (λ _, Err tt)) with
  | Ok (Some t) =>
      assert_all
        [assert_eq (tpm_trusted_ek_root_paths t) ["/x/root.pem"; "/y/root.der"; "/z/root.pem"];
         tpm_allow_unpinned_ak t;
         assert_eq (size (tpm_expected_pcrs t)) 1%nat]
  | _ => false
  end.

(** A stand-in for the generated certificate, in both encodings. *)
Definition cert_der_bytes : list Z := [48; 130; 1; 2].

Definition cert_ext : ConfigExt := {|
  io_error := unit; toml_error := unit; hex_error := unit; pem_error := unit;
  x509_error := unit; invalid_utf8 := tt;
  toml_from_str _ := Err tt; hex_decode := Concrete.decode;
  pem_certs bs := Ok [drop (length (as_bytes "-----BEGIN CERTIFICATE-----")) bs];
  x509_from_der bs := if bool_decide (bs = cert_der_bytes) then Ok tt else Err tt |}.

Definition cert_texts : ConfigTexts (CE := cert_ext) :=
  Build_ConfigTexts (CE := cert_ext) (λ _, "io") (λ _, "toml") (λ _, "hex") (λ _, "pem") (λ _, "x509").

Definition cert_world : World unit :=
  mkWorld ∅ (λ _, true) (λ p,
    if bool_decide (p = "/tmp/root.pem")
    then Ok (as_bytes "-----BEGIN CERTIFICATE-----" ++ cert_der_bytes)
    else if bool_decide (p = "/tmp/root.der") then Ok cert_der_bytes
    else if bool_decide (p = "/tmp/bad.der") then Ok (as_bytes "not a certificate")
    else Err tt).

Definition tpm_load_cert_der_parses_pem_and_der : bool :=
  assert_all
    [match load_cert_der (CE := cert_ext) cert_world "/tmp/root.pem" with
     | Ok [d] => assert_eq d cert_der_bytes | _ => false end;
     match load_cert_der (CE := cert_ext) cert_world "/tmp/root.der" with
     | Ok [d] => assert_eq d cert_der_bytes | _ => false end;
     match load_cert_der (CE := cert_ext) cert_world "/tmp/bad.der" with
     | Err e => contains "bad.der" (ConfigError_to_string (CE := cert_ext) (CT := cert_texts) e)
     | Ok _ => false
     end].

(** ** Layers *)

Definition provenance (c : Config) (field : string) : option Source := cfg_provenance c !! field.
Definition body_limit (c : Config) : Z := server_max_body_bytes (static_server (cfg_static c)).
Definition docker_cfg (c : Config) : DockerDiscoveryConfig :=
  disc_docker (static_discovery (cfg_static c)).
Definition namespace_of (c : Config) : option string :=
  kubernetes_namespace (disc_kubernetes (static_discovery (cfg_static c))).

Definition defaults_when_all_layers_silent : bool :=
  let cfg := resolve_layers empty_file PartialStatic_default PartialStatic_default in
  let att := static_attestation (cfg_static cfg) in
  assert_all
    [assert_eq (body_limit cfg) DEFAULT_MAX_BODY_BYTES;
     att_allow_mock att;
     negb (docker_enabled (docker_cfg cfg));
     assert_eq (att_atb_eviction_interval_secs att) DEFAULT_ATB_EVICTION_INTERVAL_SECS;
     assert_eq (att_atb_max_sessions att) DEFAULT_ATB_MAX_SESSIONS;
     assert_eq (rl_max_requests (static_rate_limit (cfg_static cfg))) 0;
     assert_eq (provenance cfg "server.max_body_bytes") (Some Source_Default)].

Definition file_overrides_default : bool :=
  let cfg := from_file [max_body_bytes 999; docker_enabled_ true] in
  assert_all
    [assert_eq (body_limit cfg) 999;
     docker_enabled (docker_cfg cfg);
     assert_eq (provenance cfg "server.max_body_bytes") (Some Source_File);
     assert_eq (provenance cfg "discovery.docker") (Some Source_File)].

Definition env_overrides_file : bool :=
  let cfg := resolve_layers (partial [max_body_bytes 999; allow_mock true], [])
    (partial [max_body_bytes 111]) PartialStatic_default in
  assert_all
    [assert_eq (body_limit cfg) 111;
     assert_eq (provenance cfg "server.max_body_bytes") (Some Source_Env);
     assert_eq (provenance cfg "attestation.allow_mock") (Some Source_File)].

Definition cli_overrides_env_and_file : bool :=
  let cfg := resolve_layers (partial [max_body_bytes 999], []) (partial [max_body_bytes 111])
    (partial [max_body_bytes 7]) in
  assert_all
    [assert_eq (body_limit cfg) 7;
     assert_eq (provenance cfg "server.max_body_bytes") (Some Source_Cli)].

Definition partial_override_leaves_other_fields : bool :=
  let cfg := resolve_layers
    (partial [max_body_bytes 999; docker_enabled_ true; docker_socket_ "unix:///custom.sock"], [])
    (partial [docker_enabled_ false]) PartialStatic_default in
  assert_all
    [negb (docker_enabled (docker_cfg cfg));
     assert_eq (provenance cfg "discovery.docker") (Some Source_Env);
     assert_eq (docker_socket (docker_cfg cfg)) "unix:///custom.sock";
     assert_eq (provenance cfg "discovery.docker.socket") (Some Source_File);
     assert_eq (body_limit cfg) 999].

Definition namespace_option_provenance : bool :=
  let cfg := from_file [kubernetes_namespace_ (namespace_layer (Some "prod"))] in
  let none := resolve_layers empty_file PartialStatic_default PartialStatic_default in
  assert_all
    [assert_eq (namespace_of cfg) (Some "prod");
     assert_eq (provenance cfg "discovery.kubernetes.namespace") (Some Source_File);
     assert_eq (namespace_of none) None;
     assert_eq (provenance none "discovery.kubernetes.namespace") (Some Source_Default)].

Definition namespace_cleared_by_higher_layer : bool :=
  let cfg := resolve_layers
    (partial [kubernetes_namespace_ (namespace_layer (Some "prod"))], [])
    (partial [kubernetes_namespace_ (namespace_layer (Some EmptyString))]) PartialStatic_default in
  assert_all
    [assert_eq (namespace_of cfg) None;
     assert_eq (provenance cfg "discovery.kubernetes.namespace") (Some Source_Env)].

Definition namespace_set_by_higher_layer : bool :=
  let cfg := resolve_layers
    (partial [kubernetes_namespace_ (namespace_layer (Some "prod"))], [])
    (partial [kubernetes_namespace_ (namespace_layer (Some "staging"))]) PartialStatic_default in
  assert_all
    [assert_eq (namespace_of cfg) (Some "staging");
     assert_eq (provenance cfg "discovery.kubernetes.namespace") (Some Source_Env)].

(** ** Routes *)

Definition route (name host prefix upstream : string) : Route :=
  mkRoute name host prefix upstream None Source_File.

Definition route_src (name prefix upstream : string) (source : Source) : Route :=
  mkRoute name EmptyString prefix upstream None source.

(** [t.select(host, path).unwrap().upstream]. *)
Definition selected (t : RouteTable) (host path : string) : option string :=
  route_upstream <$> select t host path.

Definition route_selects_by_path_prefix : bool :=
  let t := RouteTable_new
    [route "v1" EmptyString "/v1" "http://v1:80"; route "catch" EmptyString EmptyString "http://default:80"] in
  assert_all
    [assert_eq (selected t "any" "/v1/foo") (Some "http://v1:80");
     assert_eq (selected t "any" "/other") (Some "http://default:80")].

Definition route_host_match_beats_catchall : bool :=
  let t := RouteTable_new
    [route "catch" EmptyString EmptyString "http://default:80"; route "api" "api.internal" EmptyString "http://api:80"] in
  assert_all
    [assert_eq (selected t "api.internal" "/x") (Some "http://api:80");
     assert_eq (selected t "other" "/x") (Some "http://default:80")].

Definition route_longer_prefix_wins : bool :=
  let t := RouteTable_new
    [route "short" EmptyString "/api" "http://short:80"; route "long" EmptyString "/api/v2" "http://long:80"] in
  assert_all
    [assert_eq (selected t "h" "/api/v2/x") (Some "http://long:80");
     assert_eq (selected t "h" "/api/v1/x") (Some "http://short:80")].

Definition route_host_is_case_insensitive : bool :=
  let t := RouteTable_new [route "api" "API.Internal" EmptyString "http://api:80"] in
  match select t "api.internal" "/x" with Some _ => true | None => false end.

Definition discovered_overrides_file_on_identical_rule : bool :=
  let file := route_src "file" "/v1" "http://file:80" Source_File in
  let disc := route_src "disc" "/v1" "http://disc:80" Source_Discovered in
  assert_all
    [assert_eq (selected (RouteTable_new [file; disc]) "h" "/v1/x") (Some "http://disc:80");
     assert_eq (selected (RouteTable_new [disc; file]) "h" "/v1/x") (Some "http://disc:80")].

Definition more_specific_file_route_still_beats_less_specific_discovered : bool :=
  let t := RouteTable_new
    [route_src "disc-short" "/api" "http://disc:80" Source_Discovered;
     route_src "file-long" "/api/v2" "http://file:80" Source_File] in
  assert_eq (selected t "h" "/api/v2/x") (Some "http://file:80").

Definition path_prefix_matches_on_segment_boundary : bool :=
  assert_all
    [path_prefix_matches "/v1" "/v1";
     path_prefix_matches "/v1" "/v1/ok";
     path_prefix_matches "/v1/" "/v1/ok";
     negb (path_prefix_matches "/v1" "/v123");
     negb (path_prefix_matches "/v1" "/v1evil");
     negb (path_prefix_matches "/v1" "/v");
     path_prefix_matches EmptyString "/anything";
     path_prefix_matches "/" "/anything"].

Definition route_v1_does_not_match_v123 : bool :=
  let t := RouteTable_new
    [route "v1" EmptyString "/v1" "http://v1:80"; route "catch" EmptyString EmptyString "http://default:80"] in
  assert_all
    [assert_eq (selected t "h" "/v1") (Some "http://v1:80");
     assert_eq (selected t "h" "/v1/ok") (Some "http://v1:80");
     assert_eq (selected t "h" "/v123") (Some "http://default:80");
     assert_eq (selected t "h" "/v1evil") (Some "http://default:80")].

Definition parse_bool_token_trims_and_normalizes : bool :=
  assert_all
    [assert_eq (parse_bool_token " TRUE ") (Some true);
     assert_eq (parse_bool_token "On") (Some true);
     assert_eq (parse_bool_token "0") (Some false);
     assert_eq (parse_bool_token "  no") (Some false);
     assert_eq (parse_bool_token "maybe") None].

Definition route_no_match_returns_none : bool :=
  let t := RouteTable_new [route "api" "api.internal" EmptyString "http://api:80"] in
  match select t "nope" "/x" with None => true | Some _ => false end.

Definition file_upstream_backcompat_becomes_catchall : bool :=
  let fc := mkFileConfig (mkFileServer (SocketAddr_from_str "127.0.0.1:9000") None None)
    (fc_attestation Concrete.empty_file) (mkFileRateLimit None None)
    (mkFileDiscovery None None None None None) (Some (mkFileUpstream "http://back:8080")) [] in
  match read_file (CE := toml_ext fc) toml_world "c.toml" with
  | Ok (p, [r]) =>
      assert_all
        [assert_eq (SocketAddr_to_string <$> ps_listen p) (Some "127.0.0.1:9000");
         assert_eq (route_upstream r) "http://back:8080";
         is_empty (route_host r) && is_empty (route_path_prefix r)]
  | _ => false
  end.

Definition file_routes_parsed : bool :=
  let fc := mkFileConfig (mkFileServer None None None)
    (fc_attestation Concrete.empty_file) (mkFileRateLimit None None)
    (mkFileDiscovery None None None None None) None
    [mkFileRoute (Some "api") "api.internal" "/v1" "http://api:8080" (Some true);
     mkFileRoute None EmptyString EmptyString "http://default:80" None] in
  match read_file (CE := toml_ext fc) toml_world "c.toml" with
  | Ok (_, [r0; r1]) =>
      assert_all
        [assert_eq (route_name r0) "api";
         assert_eq (route_strict_attestation r0) (Some true);
         assert_eq (route_name r1) "route-1"]
  | _ => false
  end.

(** ** TLS and ACME settings *)

Definition acme_cfg (challenge : AcmeChallenge) (domains : list string) : AcmeConfig :=
  mkAcmeConfig true domains (Some "admin@example.com") challenge None true None None
    AcmeDnsConfig_default.

(** [tls.validate().unwrap_err().contains(needle)]. *)
Definition tls_refused (needle : string) (t : TlsConfig) : bool :=
  match TlsConfig_validate t with
  | Err e => contains needle (TlsConfigError_to_string e)
  | Ok _ => false
  end.

Definition tls_validate_static_pair_ok : bool :=
  match TlsConfig_validate (mkTlsConfig (Some "/c.pem") (Some "/k.pem") None) with
  | Ok (TlsMode_Static _ _) => true
  | _ => false
  end.

Definition tls_validate_static_and_acme_mutually_exclusive : bool :=
  tls_refused "mutually exclusive"
    (mkTlsConfig (Some "/c.pem") (Some "/k.pem") (Some (acme_cfg TlsAlpn01 ["example.com"]))).

Definition tls_validate_no_source_is_error : bool :=
  tls_refused "no cert source" (mkTlsConfig None None None).

Definition tls_validate_half_static_pair_is_error : bool :=
  tls_refused "key_path is missing" (mkTlsConfig (Some "/c.pem") None None).

Definition tls_validate_acme_requires_domains : bool :=
  tls_refused "`domains` is empty" (mkTlsConfig None None (Some (acme_cfg TlsAlpn01 []))).

Definition tls_validate_acme_disabled_is_no_source : bool :=
  let a := acme_cfg TlsAlpn01 ["example.com"] in
  tls_refused "no cert source"
    (mkTlsConfig None None
       (Some (mkAcmeConfig false (acme_domains a) (acme_contact a) (acme_challenge a)
                (acme_directory_url a) (acme_staging a) (acme_cache_dir a) (acme_http01_listen a)
                (acme_dns a)))).

Definition tls_validate_wildcard_requires_dns01 : bool :=
  forallb (λ ch, tls_refused ("wildcard domain requires challenge=" +:+ dq +:+ "dns-01" +:+ dq)
                   (mkTlsConfig None None (Some (acme_cfg ch ["*.example.com"]))))
    [TlsAlpn01; Http01].

Definition tls_validate_wildcard_ok_with_dns01 : bool :=
  match TlsConfig_validate (mkTlsConfig None None (Some (acme_cfg Dns01 ["*.example.com"]))) with
  | Ok (TlsMode_Acme _) => true
  | _ => false
  end.

Definition dns_provider_kind_parses_cloudflare : bool :=
  let parses s k := match DnsProviderKind_from_str s with Ok k' => assert_eq k' k | Err _ => false end in
  assert_all
    [parses "cloudflare" Dns_Cloudflare;
     parses "cf" Dns_Cloudflare;
     parses "manual" Dns_Manual;
     match DnsProviderKind_from_str "route53" with
     | Err e => contains "expected manual|cloudflare" (KindError_to_string e)
     | Ok _ => false
     end].

Definition cf_token_resolves_inline_then_env : bool :=
  let cfg token var := mkAcmeDnsConfig Dns_Manual None None token var None default_dns_propagation_secs in
  let world := mkWorld (io_error := unit) {[ "APROXY_TEST_CF_TOKEN_RESOLVE" := "from-env" ]}
    (λ _, false) (λ _, Err tt) in
  assert_all
    [assert_eq (resolve_cf_token no_world (cfg (Some "inline") (Some "APROXY_TEST_CF_TOKEN_UNSET")))
       (Some "inline");
     assert_eq (resolve_cf_token world (cfg None (Some "APROXY_TEST_CF_TOKEN_RESOLVE")))
       (Some "from-env");
     assert_eq (resolve_cf_token no_world AcmeDnsConfig_default) None].

Definition config_tests : list (string * bool) :=
  [("tpm_verifier_without_policy_fails_validation", tpm_verifier_without_policy_fails_validation);
   ("tpm_provider_without_policy_fails_validation", tpm_provider_without_policy_fails_validation);
   ("tpm_verifier_with_policy_validates", tpm_verifier_with_policy_validates);
   ("tpm_empty_expected_pcrs_fails_validation", tpm_empty_expected_pcrs_fails_validation);
   ("tpm_file_hex_decodes_to_bytes", tpm_file_hex_decodes_to_bytes);
   ("tpm_file_bad_hex_is_config_error", tpm_file_bad_hex_is_config_error);
   ("tpm_verifier_with_pcrs_but_no_trust_mode_fails_validation", tpm_verifier_with_pcrs_but_no_trust_mode_fails_validation);
   ("tpm_verifier_with_allow_unpinned_ak_validates", tpm_verifier_with_allow_unpinned_ak_validates);
   ("tpm_verifier_with_pinned_ak_validates", tpm_verifier_with_pinned_ak_validates);
   ("tpm_file_round_trips_trust_fields", tpm_file_round_trips_trust_fields);
   ("tpm_env_round_trips_trust_fields", tpm_env_round_trips_trust_fields);
   ("tpm_load_cert_der_parses_pem_and_der", tpm_load_cert_der_parses_pem_and_der);
   ("defaults_when_all_layers_silent", defaults_when_all_layers_silent);
   ("file_overrides_default", file_overrides_default);
   ("env_overrides_file", env_overrides_file);
   ("cli_overrides_env_and_file", cli_overrides_env_and_file);
   ("partial_override_leaves_other_fields", partial_override_leaves_other_fields);
   ("namespace_option_provenance", namespace_option_provenance);
   ("namespace_cleared_by_higher_layer", namespace_cleared_by_higher_layer);
   ("namespace_set_by_higher_layer", namespace_set_by_higher_layer);
   ("route_selects_by_path_prefix", route_selects_by_path_prefix);
   ("route_host_match_beats_catchall", route_host_match_beats_catchall);
   ("route_longer_prefix_wins", route_longer_prefix_wins);
   ("route_host_is_case_insensitive", route_host_is_case_insensitive);
   ("discovered_overrides_file_on_identical_rule", discovered_overrides_file_on_identical_rule);
   ("more_specific_file_route_still_beats_less_specific_discovered", more_specific_file_route_still_beats_less_specific_discovered);
   ("path_prefix_matches_on_segment_boundary", path_prefix_matches_on_segment_boundary);
   ("route_v1_does_not_match_v123", route_v1_does_not_match_v123);
   ("parse_bool_token_trims_and_normalizes", parse_bool_token_trims_and_normalizes);
   ("route_no_match_returns_none", route_no_match_returns_none);
   ("file_upstream_backcompat_becomes_catchall", file_upstream_backcompat_becomes_catchall);
   ("file_routes_parsed", file_routes_parsed);
   ("tls_validate_static_pair_ok", tls_validate_static_pair_ok);
   ("tls_validate_static_and_acme_mutually_exclusive", tls_validate_static_and_acme_mutually_exclusive);
   ("tls_validate_no_source_is_error", tls_validate_no_source_is_error);
   ("tls_validate_half_static_pair_is_error", tls_validate_half_static_pair_is_error);
   ("tls_validate_acme_requires_domains", tls_validate_acme_requires_domains);
   ("tls_validate_acme_disabled_is_no_source", tls_validate_acme_disabled_is_no_source);
   ("tls_validate_wildcard_requires_dns01", tls_validate_wildcard_requires_dns01);
   ("tls_validate_wildcard_ok_with_dns01", tls_validate_wildcard_ok_with_dns01);
   ("dns_provider_kind_parses_cloudflare", dns_provider_kind_parses_cloudflare);
   ("cf_token_resolves_inline_then_env", cf_token_resolves_inline_then_env)].
