(* ===== verification/TestsAcme.v ===== *)
(** * The unit tests of automatic certificates, on the model

    The tests of [src/acme.rs], one definition a test, under the test's name.
    The stub server of the Cloudflare tests is an instance of the outside
    world that records the requests; hooks and generated certificates are
    stand-ins. *)

From S2P Require Import Prelude RustStr SocketAddr Format Routing Config Layers Dump Labels Attestation Tls Acme AcmeSpec Messages TestsDiscovery.

#[local] Existing Instances DumpExample.tables AcmeToy.tls.

(** ** The stub *)

(** What a request was: label, name or path, the type, name and content of a
    record, and the authorization header. *)
Record StubReq := mkStubReq {
  rq_label : string;
  rq_name : string;
  rq_body : option (string * string * string);
  rq_auth : option string;
}.

(** The stub's recorded requests and settings, and what the hook wrote. *)
Record StubState := mkStubState {
  ss_requests : list StubReq;
  ss_zone_name_match : option string;
  ss_create_success : bool;
  ss_hook_out : option string;
}.

Definition stub_base : string := "http://127.0.0.1:1".

Definition record (s : StubState) (r : StubReq) : StubState :=
  mkStubState (ss_requests s ++ [r]) (ss_zone_name_match s) (ss_create_success s) (ss_hook_out s).

Inductive StubAnswer :=
| Answer_Zones (env : CfEnvelope (list CfZone))
| Answer_Record (env : CfEnvelope CfRecord).

Definition list_zones (s : StubState) (token : string) (query : list (string * string))
  : StubAnswer * StubState :=
  let name := snd <$> List.find (λ kv, bool_decide (kv.1 = "name")) query in
  let s := record s (mkStubReq "GET zones" (default EmptyString name) None (Some ("Bearer " +:+ token))) in
  let result := if bool_decide (ss_zone_name_match s = name) then [mkCfZone "zone-123"] else [] in
  (Answer_Zones (mkCfEnvelope true [] (Some result)), s).

Definition create_record (s : StubState) (token type name content : string) : StubAnswer * StubState :=
  let s := record s (mkStubReq "POST record" EmptyString (Some (type, name, content))
                       (Some ("Bearer " +:+ token))) in
  (Answer_Record (if ss_create_success s then mkCfEnvelope true [] (Some (mkCfRecord "rec-999"))
                  else mkCfEnvelope false [mkCfError 1004 "DNS record invalid"] None), s).

Definition delete_record (s : StubState) (zone id : string) : StubAnswer * StubState :=
  (Answer_Record (mkCfEnvelope true [] (Some (mkCfRecord id))),
   record s (mkStubReq "DELETE record" (zone +:+ "/" +:+ id) None None)).

(** The stub's three routes; any other request fails. *)
Definition spawn_cf_stub (token : string) (req : CfRequest) (s : StubState)
  : result unit StubAnswer * StubState :=
  let segments url :=
    option_map (split (λ a, bool_decide (a = "/"%char)))
      (strip_prefix (stub_base +:+ "/client/v4/zones") url) in
  match req with
  | Cf_Get url query =>
      match segments url with
      | Some [EmptyString] => let '(a, s) := list_zones s token query in (Ok a, s)
      | _ => (Err tt, s)
      end
  | Cf_Post url type name content _ =>
      match segments url with
      | Some [EmptyString; _; d] =>
          if bool_decide (d = "dns_records")
          then let '(a, s) := create_record s token type name content in (Ok a, s)
          else (Err tt, s)
      | _ => (Err tt, s)
      end
  | Cf_Delete url =>
      match segments url with
      | Some [EmptyString; zone; d; id] =>
          if bool_decide (d = "dns_records")
          then let '(a, s) := delete_record s zone id in (Ok a, s) else (Err tt, s)
      | _ => (Err tt, s)
      end
  end.

(** [sh -c]: the command of the failing test exits with 3, the other one
    prints the variables. *)
Definition stub_sh (command : string) (vars : list (string * string)) (s : StubState)
  : result unit Z * StubState :=
  if bool_decide (command = "exit 3") then (Ok 3%Z, s)
  else (Ok 0%Z, mkStubState (ss_requests s) (ss_zone_name_match s) (ss_create_success s)
                  (Some (join " " vars.*2))).

#[local] Instance stub : AcmeLib := {|
  acme_env := StubState; acme_error := unit; account_builder := unit; account_handle := unit;
  credentials := unit; order_handle := unit; authz_handle := unit; challenge_handle := unit;
  LetsEncrypt_production := "https://acme-v02.api.letsencrypt.org/directory";
  LetsEncrypt_staging := "https://acme-staging-v02.api.letsencrypt.org/directory";
  Account_builder e := (Err tt, e); from_credentials _ _ e := (Err tt, e);
  create_account _ _ _ e := (Err tt, e); new_order _ _ e := (Err tt, e);
  order_authorizations _ := []; fetch_authorization _ e := (Err tt, e);
  set_ready _ _ e := (Err tt, e); poll_ready _ _ e := (Err tt, e);
  order_finalize _ e := (Err tt, e); poll_certificate _ e := (Err tt, e);
  json_error := unit; credentials_from_str _ := None; credentials_to_string _ := Err tt;
  rcgen_error := unit; key_pair := list Z; cert_params := list string * list Z;
  pki_pem_error := unit; x509_cert := list Z;
  KeyPair_generate e := (Ok [1%Z], e);
  CertificateParams_new names := Ok (names, []);
  push_acme_identifier digest p := (p.1, digest);
  self_signed p _ e := (Ok p.2, e);
  serialize_der kp := kp; PrivateKeyDer_try_from k := Ok k; load_private_key k := Ok k;
  pem_cert_iter _ := []; pem_private_key _ := Err tt; certified_from_der _ _ := Err tt;
  parse_x509 _ := None; time_to_expiration _ _ := None;
  reqwest_error := unit; http_response := StubAnswer;
  cf_send := spawn_cf_stub;
  zones_json a e := (match a with Answer_Zones env => Ok env | Answer_Record _ => Err tt end, e);
  record_json a e := (match a with Answer_Record env => Ok env | Answer_Zones _ => Err tt end, e);
  exit_status := Z; exit_success z := Z.eqb z 0;
  sh := stub_sh; sleep _ e := e;
  create_dir_all _ e := (Err tt, e); fs_read_to_string _ _ := None; fs_write _ _ e := (Err tt, e);
  listen_http01 _ e := e;
|}.

Definition stub_start (zone_name_match : option string) (create_success : bool) : AcmeState :=
  acme_init (mkStubState [] zone_name_match create_success None).

(** ** Settings and responses *)

Definition base_cfg (staging : bool) (url : option string) : AcmeConfig :=
  mkAcmeConfig true ["example.com"] (Some "admin@example.com") TlsAlpn01 url staging None None
    AcmeDnsConfig_default.

Definition directory_url_prefers_explicit_then_staging_then_prod : bool :=
  assert_all
    [assert_eq (directory_url (base_cfg false None)) LetsEncrypt_production;
     assert_eq (directory_url (base_cfg true None)) LetsEncrypt_staging;
     assert_eq (directory_url (base_cfg true (Some "https://acme.example/dir")))
       "https://acme.example/dir"].

Definition dns_record_name_strips_wildcard : bool :=
  assert_all
    [assert_eq (dns_record_name "example.com") "_acme-challenge.example.com";
     assert_eq (dns_record_name "*.example.com") "_acme-challenge.example.com"].

Definition dispatch_http01_returns_keyauth_body_for_token : bool :=
  match build_challenge_response Http01 "example.com" "tok123" "tok123.thumbprint"
          (replicate 32 0%Z) "ignored" with
  | Resp_Http01 token key_authorization =>
      assert_all [assert_eq token "tok123"; assert_eq key_authorization "tok123.thumbprint"]
  | _ => false
  end.

Definition dispatch_tls_alpn01_carries_digest_and_domain : bool :=
  let digest := replicate 32 66%Z in
  match build_challenge_response TlsAlpn01 "host.example.com" "tok" "tok.thumb" digest "ignored" with
  | Resp_TlsAlpn01 domain d => assert_all [assert_eq domain "host.example.com"; assert_eq d digest]
  | _ => false
  end.

Definition dispatch_dns01_uses_record_name_and_txt_value : bool :=
  match build_challenge_response Dns01 "*.example.com" "tok" "tok.thumb" (replicate 32 0%Z)
          "base64url-digest" with
  | Resp_Dns01 domain record_name value =>
      assert_all
        [assert_eq domain "*.example.com";
         assert_eq record_name "_acme-challenge.example.com";
         assert_eq value "base64url-digest"]
  | _ => false
  end.

Definition http01_token_store_round_trip : bool :=
  let s0 := stub_start None true in
  let s1 := (tokens_insert "tok" "tok.keyauth" s0).2 in
  let s2 := (tokens_remove "tok" s1).2 in
  assert_all
    [assert_eq (tokens_get "tok" (st_tokens s0)) None;
     assert_eq (tokens_get "tok" (st_tokens s1)) (Some "tok.keyauth");
     assert_eq (tokens_get "tok" (st_tokens s2)) None].

Definition tls_alpn_validation_cert_builds : bool :=
  match (tls_alpn_cert "example.com" (replicate 32 17%Z) (stub_start None true)).1 with
  | Ok ck => assert_eq (length (ck_certs ck)) 1
  | Err _ => false
  end.

Definition manual_provider_default_kind : bool :=
  assert_eq (dns_provider AcmeDnsConfig_default) Dns_Manual.

(** ** Manual DNS *)

Definition manual_dns_provider_logs_without_hook : bool :=
  let p := mkManualDns None None 0 in
  let '(r, s) := manual_publish p "example.com" "_acme-challenge.example.com" "val"
                   (stub_start None true) in
  assert_all
    [is_ok r; is_ok (manual_cleanup p "example.com" "_acme-challenge.example.com" "val" s).1].

Definition manual_dns_provider_runs_hook_with_env : bool :=
  let p := mkManualDns (Some "printf ...") None 0 in
  let '(r, s) := manual_publish p "example.com" "_acme-challenge.example.com" "theval"
                   (stub_start None true) in
  assert_all
    [is_ok r;
     assert_eq (ss_hook_out (st_env s)) (Some "example.com _acme-challenge.example.com theval")].

Definition manual_dns_provider_hook_failure_is_error : bool :=
  match (manual_publish (mkManualDns (Some "exit 3") None 0) "example.com"
           "_acme-challenge.example.com" "v" (stub_start None true)).1 with
  | Err (AcmeError_DnsHook _) => true
  | _ => false
  end.

(** ** Cloudflare *)

Definition cf_zone_candidates_walk_labels : bool :=
  assert_all
    [assert_eq (zone_candidates "_acme-challenge.foo.bar.example.com")
       ["foo.bar.example.com"; "bar.example.com"; "example.com"; "com"];
     assert_eq (zone_candidates "example.com") ["example.com"; "com"]].

Definition find_req (label : string) (s : AcmeState) : option StubReq :=
  List.find (λ r, bool_decide (rq_label r = label)) (ss_requests (st_env s)).

Definition cloudflare_publish_posts_txt_and_cleanup_deletes : bool :=
  let p := cf_with_base_url "tok-abc" None 0 stub_base in
  let '(r, s1) := cloudflare_publish p "_acme-challenge.example.com" "txtval"
                    (stub_start (Some "example.com") true) in
  let '(_, s2) := cloudflare_cleanup p "_acme-challenge.example.com" "txtval" s1 in
  assert_all
    [is_ok r;
     assert_eq ((λ q, (rq_name q, rq_auth q)) <$> find_req "GET zones" s2)
       (Some ("example.com", Some "Bearer tok-abc"));
     assert_eq ((λ q, (rq_body q, rq_auth q)) <$> find_req "POST record" s2)
       (Some (Some ("TXT", "_acme-challenge.example.com", "txtval"), Some "Bearer tok-abc"));
     assert_eq (rq_name <$> find_req "DELETE record" s2) (Some "zone-123/rec-999")].

Definition cloudflare_zone_discovery_walks_to_registrable_domain : bool :=
  let p := cf_with_base_url "tok" None 0 stub_base in
  let '(r, s) := cloudflare_publish p "_acme-challenge.sub.example.com" "v"
                   (stub_start (Some "example.com") true) in
  let names := rq_name <$> List.filter (λ q, bool_decide (rq_label q = "GET zones"))
                             (ss_requests (st_env s)) in
  assert_all
    [is_ok r;
     assert_eq (head names) (Some "sub.example.com");
     bool_decide ("example.com" ∈ names)].

Definition cloudflare_publish_maps_cf_failure_to_error : bool :=
  let p := cf_with_base_url "tok" (Some "zone-123") 0 stub_base in
  match (cloudflare_publish p "_acme-challenge.example.com" "v"
           (stub_start (Some "example.com") false)).1 with
  | Err (AcmeError_Dns e) => contains "DNS record invalid" (DnsFault_to_string (λ _, "request") e)
  | _ => false
  end.

Definition construction_fails_fast_when_cloudflare_without_token : bool :=
  let dns := mkAcmeDnsConfig Dns_Cloudflare None None None None None default_dns_propagation_secs in
  let cfg := mkAcmeConfig true ["example.com"] (Some "admin@example.com") Dns01 None false None None dns in
  match AcmeManager_new (mkWorld (io_error := unit) ∅ (λ _, false) (λ _, Err tt)) cfg with
  | Err (AcmeError_Dns _) => true
  | _ => false
  end.

Definition acme_tests : list (string * bool) :=
  [("directory_url_prefers_explicit_then_staging_then_prod", directory_url_prefers_explicit_then_staging_then_prod);
   ("dns_record_name_strips_wildcard", dns_record_name_strips_wildcard);
   ("dispatch_http01_returns_keyauth_body_for_token", dispatch_http01_returns_keyauth_body_for_token);
   ("dispatch_tls_alpn01_carries_digest_and_domain", dispatch_tls_alpn01_carries_digest_and_domain);
   ("dispatch_dns01_uses_record_name_and_txt_value", dispatch_dns01_uses_record_name_and_txt_value);
   ("http01_token_store_round_trip", http01_token_store_round_trip);
   ("tls_alpn_validation_cert_builds", tls_alpn_validation_cert_builds);
   ("manual_provider_default_kind", manual_provider_default_kind);
   ("manual_dns_provider_logs_without_hook", manual_dns_provider_logs_without_hook);
   ("manual_dns_provider_runs_hook_with_env", manual_dns_provider_runs_hook_with_env);
   ("manual_dns_provider_hook_failure_is_error", manual_dns_provider_hook_failure_is_error);
   ("cf_zone_candidates_walk_labels", cf_zone_candidates_walk_labels);
   ("cloudflare_publish_posts_txt_and_cleanup_deletes", cloudflare_publish_posts_txt_and_cleanup_deletes);
   ("cloudflare_zone_discovery_walks_to_registrable_domain", cloudflare_zone_discovery_walks_to_registrable_domain);
   ("cloudflare_publish_maps_cf_failure_to_error", cloudflare_publish_maps_cf_failure_to_error);
   ("construction_fails_fast_when_cloudflare_without_token", construction_fails_fast_when_cloudflare_without_token)].
